(* ===== verification/_CoqProject ===== *)
-Q . S2P
Prelude.v
Decimal.v
Events.v
StateEngine.v
StateDeriver.v
LockDeriver.v
Adapter.v
Interner.v
Lru.v
Focus.v
FocusWorker.v
FocusLogic.v
FocusInv.v
FocusSafety.v
FocusTitles.v
FocusLiveness.v
FocusPoll.v
FocusWrapper.v
Records.v
Aggregation.v
Threads.v
Handles.v
SnapshotBus.v
Float32.v
CompactEvents.v
Compressor.v
Trajectory.v
Engine.v
PipelineTypes.v
Ingest.v
Envelope.v
HintsStage.v
CompressionStage.v
AppTree.v
Wire.v
SnapshotStage.v
Pipeline.v
InputToStore.v
Metrics.v
Codec.v
Writers.v
Queries.v
Storage.v
PidFile.v
LogCli.v
LogList.v
SystemMetrics.v
MetricsUpkeep.v
SystemTracker.v
TrackerHandle.v
MetricsApi.v
TrackerTable.v
RunId.v
RunIdRestart.v
Input.v
Coordinator.v
Config.v
SleepPeriod.v
Watch.v
Monitor.v
Printing.v
Logging.v
Programs.v
Backends.v
Schema.v
EndToEnd.v
SessionView.v
FocusToRecords.v
Startup.v
