(* ===== verification/Prelude.v ===== *)
(** * Kronical: a verification development

    Kronical is a daemon that records which applications and windows a user works in.
    Native hooks and a focus tracker produce input events; a pipeline of threads turns
    them into envelopes (signals and hints), activity states, activity records, compact
    events and live snapshots, and a storage backend keeps them.  This library models
    that core, with the coordinator around it, the trackers, the servers, the databases'
    tables and the commands of kronictl, as functions and step relations translated from
    the Rust sources under src/, and proves what the parts promise and that they keep it
    together.

    ** The parts and their files

    - Events: the raw events and envelopes of crates/core/src/events.rs and
      events/model.rs, with the well-formedness of an envelope's payload.
    - StateEngine: the trait [StateEngine] of events/model.rs as a class with laws, and
      [DefaultStateEngine]; StateDeriver: events/derive_hint.rs, proved against the class.
    - LockDeriver: events/derive_signal.rs.  Adapter: events/adapter.rs.
    - Interner, Lru, Threads: interner.rs, lru.rs and threading.rs of crates/common/src.
      The interner keeps weak references: its heap of reference counted strings is
      explicit.  The registry's [join] is two critical sections around the wait for the
      thread, so that the operations of other threads interleave.  Handles: how the
      pipeline's threads are started through it and joined.
    - Records and Aggregation: [RecordBuilder] and [aggregate_activities_since] of
      crates/core/src/records.rs.  SnapshotBus: crates/core/src/snapshot.rs.
    - Float32, CompactEvents, Compressor, Trajectory, Engine: the binary32 arithmetic,
      the compact events of crates/core/src/compression.rs, and the string table, the
      four compressors and the engine of src/daemon/compressor.rs.
    - PipelineTypes: the messages of src/daemon/pipeline/types.rs.  Ingest, Envelope,
      HintsStage, CompressionStage, AppTree and SnapshotStage: the stages of
      src/daemon/pipeline, each as a step function from its state and a received message
      to a new state and the messages sent.
    - Metrics, Codec, Writers, Queries and Storage: the storage backends of
      crates/storage/src.  Metrics has the atomics of lib.rs and their steps; Codec the
      rows of sqlite3.rs and duckdb.rs; Writers the background writer of each, over an
      interface of its database; Queries the three queries; Storage the caller, the
      channel and the writer thread, interleaved, generic in the writer.  Schema has the
      tables and how a backend is opened; Backends the trait [StorageBackend] as a class
      with a contract, which both implementations keep.
    - Pipeline: src/daemon/pipeline.rs.  The stages are actors that communicate over
      first-in first-out channels; a schedule is a list of actors, so the theorems
      quantify over all interleavings.  EndToEnd joins it to the SQLite backend behind
      its storage stage and to the queries of a later start; Startup is how the
      configuration and the database reach the stages when the daemon starts.
      InputToStore follows the input through ingest and the envelope stage to storage,
      FocusToRecords what the window system reports, from the hooks and the focus worker
      to the records, and SessionView the published snapshots to a client of a server.
    - Focus, FocusWorker: the caches, the helpers and the worker loop of
      src/daemon/tracker/focus.rs in a state monad, one definition per arm of the loop.
      FocusLogic is its program logic, FocusInv the invariant, FocusTitles what keeps a
      title from the placeholder, FocusSafety, FocusLiveness and FocusPoll the theorems;
      FocusWrapper the handle, its channel and its drop.
    - SystemMetrics: the stores of crates/storage/src/system_metrics.rs as instances of a
      class with a contract; MetricsUpkeep: their maintenance operations, added to that
      contract.  SystemTracker and TrackerHandle: the sampling thread of
      src/daemon/tracker/system.rs, and its start, stop and bridge threads, step by step.
      MetricsApi: [get_system_metrics] of src/daemon/server/grpc.rs; TrackerTable: the
      table that kronictl makes of its reply.
    - Wire: [to_pb] of grpc.rs, the messages of src/proto/kroni.proto, and
      [map_pb_snapshot] of src/bin/kronictl.rs that reads them.
      Watch: the handlers of server/http.rs and grpc.rs that serve snapshots, and the
      commands snapshot and watch of kronictl that read them.  Monitor: the loop and the
      screen of kronictl monitor.  Printing: what its report, status and tracker commands
      print.
    - Input: the conversions of crates/input/src/lib.rs and the hook handlers of
      src/daemon/coordinator.rs.  Coordinator: the main thread of coordinator.rs with the
      drop of its guard, the start of the servers (grpc.rs, server/http.rs, api.rs), the
      signal handler and the pipeline as actors of one schedule.  Logging: the run id in
      the lines of src/util/logging.rs, the levels of kronictl, the summaries of records.
    - Config: crates/common/src/config.rs and paths.rs.  RunId: src/util/run_id.rs.
      PidFile: the files and processes of src/bin/kronid.rs and of start, stop and restart
      of kronictl, as programs over file operations, run alone or interleaved;
      RunIdRestart joins the two.  LogCli: the selection of log files in
      src/bin/kronictl/log_cli.rs, LogList: its listing.  SleepPeriod: the period that the
      monitor of kronictl.rs shows.  Programs: the main functions of kronid and kronictl,
      with the dispatch of the commands and the exit statuses.
    - Decimal: the decimal numbers and the text functions that these files share.

    ** What the theorems show

    - State: the engine refines a specification that reads the state off the whole
      history of inputs; its hints form a chain of proper changes; ticks degrade.
    - Locking: the derived stream alternates lock signals and shows nothing but focus
      hints on a locked screen, and passes exactly the visible inputs.
    - Records: the builder refines the sequence of cutting hints, with consecutive ids,
      and its records tile the time; the aggregation sums up, per application, the
      seconds that its records share with the window, and sorts every window into exactly
      one lane.
    - Compaction: each compressor equals a reference over the maximal runs of its
      input, and for the mouse every field of a trajectory is pinned; the path
      simplification terminates; the engine accounts for every event.
    - Stages: what each stage sends for what it receives, the counters of the updates,
      the final snapshot, the retention of records, the statistics of the rollup.
    - The pipeline: every schedule ends with all stages at their end, and a shutdown
      loses no signal, hint or record, whatever the interleaving.
    - Storage: when a SQLite backend has been dropped everything it was given is in the
      database, unless it reported an error; at most 99 commands are uncommitted before;
      the queries give back what was stored, selected and in order; the backlog counter
      accounts for the commands in flight; caller and writer always come to their end.
    - Focus tracking: what is reported was seen, titles do not pass from one application
      to another, a change of application is reported after a quiet time, with its title
      unless the caches know it of another application; dropping the handle ends the
      worker, in every interleaving of the calls.
    - Metrics: both stores keep their contract whatever fails; the tracker loses no
      sample and answers from all of them.
    - The whole: what a session's signals and hints were is in the database after a
      shutdown and comes back from the queries; both backends keep one contract; an
      opened database has every table and column that the statements name; the records
      of a resumed run are numbered past those it took over; maintenance keeps samples.
      What is stored of the input depends neither on the batches and ticks of ingest nor
      on the interleaving; the stored records show what the window system reported; the
      last snapshot that a client prints counts what was stored, over gRPC and over HTTP.
    - The outside: a snapshot arrives at a client but for what the messages do not carry;
      what watch, monitor, snapshot and status show was published, and watch shows it in
      order through both of its fallbacks; a window's line fills its panel; a selection
      of log files, a run id and the configuration read as what they say; input events
      lose nothing.
    - The daemon's life: a live owner of the pid file excludes every other daemon, and a
      daemon alone leaves nothing behind; the guard of the main thread undoes what it
      holds; it returns only after a signal, and not while the servers accept; the
      join of the pipeline waits for each of its threads.  A run id survives start, daemon
      and restart, and every line logged after it was set carries it.
    - Findings, each with a theorem or a concrete run: the suppression of raw input on
      a locked screen has no effect, hydration starts from the oldest transition, the
      shutdown does not wait for compact events, a join that overlaps a spawn marks the
      wrong thread, event ids repeat when the clock steps back, 16-bit string ids wrap,
      closed paths collapse, groups of short applications are always seen now,
      the reason of a lock comes back as JSON text, a failing statement on DuckDB drops
      the rows before it, the published backlog can be off, two daemons can start
      together, the first system tracker cannot be stopped, the servers keep the daemon
      from ending, a failed start hangs or leaves the gRPC server serving, a held title is lost at a change of application,
      a night is scored against the evening after it, no command enables the system
      tracker, snapshot asks over gRPC first, monitor reads a pid file that the daemon does
      not write, its key q goes unnoticed while no line comes, record ids repeat after
      the retention took the last ones, errors of ALTER TABLE are ignored.

    ** Conventions

    Integers are [Z] with the wrap of the release profile written out ([uw], [sw]).
    Times are nanoseconds; what chrono computes from them is the interface [Chrono]
    with its documented laws.  [Utc::now()] is a stream of readings, and an operation
    takes the number of readings made so far.  Hash tables are finite maps; where the
    code iterates one, the order is a parameter that is only known to be a permutation
    ([HashOrder]).  Unicode case folding and trimming are parameters ([UnicodeText]).
    A channel send delivers its message exactly when the receiver still exists.

    ** Fuel

    [spin] waits for the clock in next_event_id: its fuel counts clock readings, the
    theorems hold for any fuel that suffices, and a clock that moves on makes it
    suffice.  [douglas_peucker_fuel] runs on the length of the path, which the theorem
    [douglas_peucker_total] shows to be enough.  [trim_parens] runs on the length of its
    text, which [trim_wrapping_parens_settles] shows to be enough.  Nothing else needs
    fuel.

    ** Not modelled

    Of kronictl the set-up of the terminal and the parsing of arguments (clap); of kronid
    the set-up of tracing; of the servers the transports (tonic, hyper and axum, sockets).
    What the window system, the process table, the hooks,
    sysinfo, the config and base64 crates and the log tools rg and grep answer are
    parameters.  What the databases, serde_json and the RFC 3339 text of a time do are
    interfaces.  Log lines
    are left out, except the report of the compression rollup and the form of a line.
    A backend's queries answer from the database alone: that it cannot be opened or a
    statement not be prepared is not modelled, and the DuckDB metrics queries read the
    committed rows, not those of a transaction that a failed insertion left open.
    Failure to start a thread (outside the coordinator and the pipeline), a poisoned mutex
    and the overflow panics of chrono on absurd configuration values are not modelled. *)
From stdpp Require Export base tactics option list gmap strings relations.
From Stdlib Require Export ZArith Lia Sorted.

Open Scope Z_scope.

(** ** Machine integers

    The daemon is built with the release profile ([make], [cargo install]), in
    which an integer [+], [-], [*] that leaves its width wraps around.  A
    [w]-bit integer is a [Z] and each operation of the source that can leave its
    width is written with the wrap. *)

(** [uw w z]: the value of [z] as an unsigned [w]-bit integer ([z as uW]). *)
Definition uw (w z : Z) : Z := z mod 2 ^ w.

(** [sw w z]: the value of [z] as a signed [w]-bit integer ([z as iW]). *)
Definition sw (w z : Z) : Z := (z + 2 ^ (w - 1)) mod 2 ^ w - 2 ^ (w - 1).

(** The ranges of the two families. *)
Definition in_u (w z : Z) : Prop := 0 <= z < 2 ^ w.
Definition in_s (w z : Z) : Prop := - 2 ^ (w - 1) <= z < 2 ^ (w - 1).

(** [uN::saturating_add]. *)
Definition usat_add (w a b : Z) : Z := Z.min (a + b) (2 ^ w - 1).

Definition u64_add (a b : Z) : Z := uw 64 (a + b).
Definition u32_add (a b : Z) : Z := uw 32 (a + b).
Definition i32_add (a b : Z) : Z := sw 32 (a + b).
Definition i32_sub (a b : Z) : Z := sw 32 (a - b).
Definition i32_mul (a b : Z) : Z := sw 32 (a * b).
Definition u64_max : Z := 2 ^ 64 - 1.

(** ** Time

    A [DateTime<Utc>] is the number of nanoseconds since the epoch and a
    [chrono::Duration] a number of nanoseconds; order, difference and sum are
    those of the integers.  What chrono computes from them is not code of this
    repository: the conversions are the operations of an interface, and the laws
    the development relies on are the documented ones. *)
Abbreviation instant := Z (only parsing).
Abbreviation duration := Z (only parsing).

Definition secs (n : Z) : duration := n * 1000000000.
Definition millis (n : Z) : duration := n * 1000000.
Definition minutes (n : Z) : duration := n * 60000000000.

Class Chrono := {
  (** [TimeDelta::num_seconds]: the whole seconds of a duration. *)
  num_seconds : duration -> Z;
  (** [TimeDelta::num_milliseconds]: the whole milliseconds of a duration. *)
  num_milliseconds : duration -> Z;
  (** [DateTime::timestamp]: the seconds since the epoch, rounded down. *)
  timestamp_secs : instant -> Z;
  (** [DateTime::timestamp_millis]: the milliseconds since the epoch. *)
  timestamp_millis : instant -> Z
}.

Class ChronoLaws `{Chrono} : Prop := {
  num_seconds_spec d : num_seconds d = d ÷ 1000000000;
  num_milliseconds_spec d : num_milliseconds d = d ÷ 1000000;
  timestamp_secs_spec t : timestamp_secs t = t / 1000000000;
  timestamp_millis_spec t : timestamp_millis t = t / 1000000
}.

(** A concrete instance, for evaluating the definitions on examples. *)
Definition chrono_ref : Chrono := {|
  num_seconds d := d ÷ 1000000000;
  num_milliseconds d := d ÷ 1000000;
  timestamp_secs t := t / 1000000000;
  timestamp_millis t := t / 1000000
|}.

Lemma chrono_ref_laws : @ChronoLaws chrono_ref.
Proof. split; reflexivity. Qed.

(** ** Iteration order of hash tables

    [HashMap] and [HashSet] iterate in an unspecified order.  A definition that
    iterates one does it in the order [hash_order] gives; all that is known is
    that every entry is visited exactly once. *)
Class HashOrder := {
  hash_order : forall {A : Type}, list A -> list A;
  hash_order_perm : forall {A : Type} (l : list A), hash_order l ≡ₚ l
}.

Definition hash_order_id : HashOrder := {|
  hash_order A l := l;
  hash_order_perm A l := reflexivity l
|}.

Definition hash_order_rev : HashOrder := {|
  hash_order A l := rev l;
  hash_order_perm A l := Permutation_sym (Permutation_rev l)
|}.

(** ** Text

    A Rust string is its list of bytes.  [eq_ignore_ascii_case] folds ASCII
    letters only and is written out; trimming and lowercasing follow the Unicode
    tables of the standard library and are parameters. *)
Definition ascii_lower (c : Ascii.ascii) : Ascii.ascii :=
  let n := Ascii.N_of_ascii c in
  if (65 <=? n)%N && (n <=? 90)%N then Ascii.ascii_of_N (n + 32)%N else c.

Fixpoint string_lower (s : string) : string :=
  match s with
  | EmptyString => EmptyString
  | String c s' => String (ascii_lower c) (string_lower s')
  end.

(** [str::eq_ignore_ascii_case]. *)
Definition eq_ignore_ascii_case (a b : string) : bool :=
  bool_decide (string_lower a = string_lower b).

(** [str::starts_with], the slice behind a prefix, and [str::contains]. *)
Fixpoint strip_prefix (p s : string) : option string :=
  match p, s with
  | EmptyString, _ => Some s
  | String a p, String b s => if Ascii.eqb a b then strip_prefix p s else None
  | _, _ => None
  end.
Fixpoint contains (s p : string) : bool :=
  match strip_prefix p s with
  | Some _ => true
  | None => match s with EmptyString => false | String _ s => contains s p end
  end.

Class UnicodeText := {
  str_trim : string -> string;
  str_to_lowercase : string -> string
}.

Definition unicode_ascii : UnicodeText := {|
  str_trim s := s;
  str_to_lowercase := string_lower
|}.

(** ** Sorting

    [slice::sort_by] is a stable sort; the stable sort of a list is unique, and
    insertion from the right computes it. *)
Section stable_sort.
Context {A : Type} (le : A -> A -> bool).

Fixpoint sort_insert (x : A) (l : list A) : list A :=
  match l with
  | [] => [x]
  | y :: l' => if le x y then x :: l else y :: sort_insert x l'
  end.

Definition sort_by (l : list A) : list A := foldr sort_insert [] l.

Lemma sort_insert_perm x l : sort_insert x l ≡ₚ x :: l.
Proof.
  induction l as [|y l IH]; simpl; [done|].
  destruct (le x y); [done|]. rewrite IH. apply Permutation_swap.
Qed.

Lemma sort_by_perm l : sort_by l ≡ₚ l.
Proof. induction l as [|x l IH]; simpl; [done|]. by rewrite sort_insert_perm, IH. Qed.

Lemma sort_by_length l : length (sort_by l) = length l.
Proof. by rewrite sort_by_perm. Qed.

Context (le_total : forall x y, le x y = false -> le y x = true).
Context (le_trans : forall x y z, le x y = true -> le y z = true -> le x z = true).

Lemma sort_insert_sorted x l :
  StronglySorted (fun a b => le a b = true) l ->
  StronglySorted (fun a b => le a b = true) (sort_insert x l).
Proof.
  induction 1 as [|y l Hs IH Hy]; simpl; [repeat constructor|].
  destruct (le x y) eqn:Hxy.
  - constructor; [by constructor|]. constructor; [done|].
    eapply Forall_impl; [done|]. simpl. eauto.
  - constructor; [done|]. rewrite sort_insert_perm.
    constructor; [by apply le_total|done].
Qed.

Lemma sort_by_sorted l : StronglySorted (fun a b => le a b = true) (sort_by l).
Proof. induction l; simpl; [constructor|by apply sort_insert_sorted]. Qed.

(** A sorted list is left alone. *)
Lemma sort_insert_least x l :
  Forall (fun y => le x y = true) l -> sort_insert x l = x :: l.
Proof. destruct 1 as [|y l Hy]; simpl; [done|]. by rewrite Hy. Qed.

Lemma sort_by_id l : StronglySorted (fun a b => le a b = true) l -> sort_by l = l.
Proof.
  induction 1 as [|x l Hs IH Hx]; simpl; [done|].
  rewrite IH. by apply sort_insert_least.
Qed.
End stable_sort.

(** Sorting by an integer key, ascending and descending. *)
Definition sort_asc {A} (key : A -> Z) : list A -> list A :=
  sort_by (fun a b => key a <=? key b).
Definition sort_desc {A} (key : A -> Z) : list A -> list A :=
  sort_by (fun a b => key b <=? key a).

Lemma sort_asc_perm {A} (key : A -> Z) l : sort_asc key l ≡ₚ l.
Proof. apply sort_by_perm. Qed.
Lemma sort_desc_perm {A} (key : A -> Z) l : sort_desc key l ≡ₚ l.
Proof. apply sort_by_perm. Qed.

Lemma StronglySorted_impl {A} (R S : A -> A -> Prop) l :
  (forall a b, R a b -> S a b) -> StronglySorted R l -> StronglySorted S l.
Proof.
  intros HRS. induction 1; constructor; [done|]. eapply Forall_impl; [done|]. auto.
Qed.

Lemma sort_asc_sorted {A} (key : A -> Z) l :
  StronglySorted (fun a b => key a <= key b) (sort_asc key l).
Proof.
  eapply StronglySorted_impl; [|apply sort_by_sorted].
  - intros a b; simpl. apply Z.leb_le.
  - intros a b; simpl. rewrite Z.leb_nle, Z.leb_le. lia.
  - intros a b c; simpl. rewrite !Z.leb_le. lia.
Qed.

Lemma sort_desc_sorted {A} (key : A -> Z) l :
  StronglySorted (fun a b => key b <= key a) (sort_desc key l).
Proof.
  eapply StronglySorted_impl; [|apply sort_by_sorted].
  - intros a b; simpl. apply Z.leb_le.
  - intros a b; simpl. rewrite Z.leb_nle, Z.leb_le. lia.
  - intros a b c; simpl. rewrite !Z.leb_le. lia.
Qed.

(** ** Sums over lists *)
Definition zsum (l : list Z) : Z := foldr Z.add 0 l.

Lemma zsum_app l k : zsum (l ++ k) = zsum l + zsum k.
Proof. induction l as [|x l IH]; simpl; [done|]. rewrite IH. lia. Qed.

#[export] Instance zsum_proper : Proper ((≡ₚ) ==> (=)) zsum.
Proof. induction 1; simpl; lia. Qed.

Lemma zsum_map_add {A} (f g : A -> Z) l :
  zsum (map (fun x => f x + g x) l) = zsum (map f l) + zsum (map g l).
Proof. induction l as [|x l IH]; simpl; [done|]. rewrite IH. lia. Qed.

(** The last element of a list, with a default. *)
Lemma list_last_cons {A} (x d : A) l : List.last (x :: l) d = List.last l x.
Proof.
  revert x d. induction l as [|y l IH]; intros x d; [done|].
  change (List.last (x :: y :: l) d) with (List.last (y :: l) d). by rewrite !IH.
Qed.

(** ** Runs

    The maximal runs of a list in which every element continues its predecessor:
    the reference for the grouping loops of the source, which keep the current run
    and close it at the first element that does not continue it. *)
Section runs.
Context {A : Type} (cont : A -> A -> bool).

Fixpoint runs_by (l : list A) : list (list A) :=
  match l with
  | [] => []
  | x :: l' =>
      match runs_by l' with
      | (y :: r) :: rs =>
          if cont x y then (x :: y :: r) :: rs else [x] :: (y :: r) :: rs
      | rs => [x] :: rs
      end
  end.

(** The current run, which ends in [prev], before the runs of the rest. *)
Definition join_run (current : list A) (prev : A) (rs : list (list A)) : list (list A) :=
  match rs with
  | (y :: r) :: rs' =>
      if cont prev y then (current ++ y :: r) :: rs' else current :: rs
  | _ => current :: rs
  end.

Lemma runs_by_cons x l : runs_by (x :: l) = join_run [x] x (runs_by l).
Proof. cbn. by destruct (runs_by l) as [|[|y r] rs]. Qed.

Lemma join_run_step current prev x l :
  join_run current prev (runs_by (x :: l)) =
    if cont prev x then join_run (current ++ [x]) x (runs_by l)
    else current :: join_run [x] x (runs_by l).
Proof.
  rewrite runs_by_cons. unfold join_run.
  destruct (runs_by l) as [|[|y r] rs]; [by destruct (cont prev x)..|].
  destruct (cont x y); cbn [app]; destruct (cont prev x); try done.
  by rewrite <- (assoc_L (++)).
Qed.

Lemma runs_by_concat l : concat (runs_by l) = l.
Proof.
  induction l as [|x l IH]; [done|]. rewrite runs_by_cons. unfold join_run.
  destruct (runs_by l) as [|[|y r] rs]; cbn in *; [by rewrite <- IH|by rewrite <- IH|].
  destruct (cont x y); cbn; by rewrite <- IH.
Qed.

Lemma runs_by_nonempty l : Forall (fun r => r <> []) (runs_by l).
Proof.
  induction l as [|x l IH]; [constructor|]. rewrite runs_by_cons. unfold join_run.
  destruct (runs_by l) as [|[|y r] rs]; [by repeat constructor|by apply Forall_cons in IH as []|].
  apply Forall_cons in IH as [_ IH]. destruct (cont x y); by repeat constructor.
Qed.

(** Each element of a run continues the one before. *)
Fixpoint linked (l : list A) : Prop :=
  match l with
  | x :: (y :: _) as l' => cont x y = true /\ linked l'
  | _ => True
  end.

Lemma runs_by_linked l : Forall linked (runs_by l).
Proof.
  induction l as [|x l IH]; [constructor|]. rewrite runs_by_cons. unfold join_run.
  destruct (runs_by l) as [|[|y r] rs]; [by constructor|by constructor|].
  destruct (cont x y) eqn:Hc; [|by constructor].
  apply Forall_cons in IH as [Hr IH]. constructor; [by split|done].
Qed.
End runs.

(** The same, without a function: the runs make up the list, none is empty, within a run
    each element continues the one before, and the first of the next run does not. *)
Definition maximal_runs {A} (continues : A -> A -> Prop) (l : list A) (runs : list (list A)) : Prop :=
  concat runs = l /\ Forall (fun run => run <> []) runs /\
  (forall run i a b, run ∈ runs -> run !! i = Some a -> run !! S i = Some b -> continues a b) /\
  (forall i run next a b, runs !! i = Some run -> runs !! S i = Some next ->
     last run = Some a -> head next = Some b -> ~ continues a b).

Lemma linked_lookup {A} (cont : A -> A -> bool) l i a b :
  linked cont l -> l !! i = Some a -> l !! S i = Some b -> cont a b = true.
Proof.
  revert i. induction l as [|x l IH]; intros i Hl Ha Hb; [done|].
  destruct l as [|y l]; [by destruct i|]. destruct Hl as [Hxy Hl].
  destruct i as [|i]; [by simplify_eq/=|]. by apply (IH i).
Qed.

Lemma runs_by_breaks {A} (cont : A -> A -> bool) l i run next a b :
  runs_by cont l !! i = Some run -> runs_by cont l !! S i = Some next ->
  last run = Some a -> head next = Some b -> cont a b = false.
Proof.
  revert i run. induction l as [|x l IH]; intros i run; [done|]. rewrite runs_by_cons. unfold join_run.
  destruct (runs_by cont l) as [|[|y r] rs] eqn:Hr; [by destruct i| |].
  { pose proof (runs_by_nonempty cont l) as Hn. rewrite Hr in Hn. by apply Forall_cons in Hn as [[] _]. }
  destruct (cont x y) eqn:Hc.
  - destruct i as [|i].
    + intros [= <-] Hn. cbn [app]. change (last (x :: y :: r)) with (last (y :: r)). by apply (IH 0%nat).
    + intros H1 H2. by apply (IH (S i)).
  - destruct i as [|i].
    + intros [= <-] [= <-] [= <-] [= <-]. done.
    + by apply IH.
Qed.

Lemma runs_by_maximal {A} (cont : A -> A -> bool) (continues : A -> A -> Prop) l :
  (forall a b, cont a b = true <-> continues a b) -> maximal_runs continues l (runs_by cont l).
Proof.
  intros Hc. split; [apply runs_by_concat|]. split; [apply runs_by_nonempty|]. split.
  - intros run i a b Hrun Ha Hb. apply Hc. eapply linked_lookup; [|done..].
    pose proof (runs_by_linked cont l) as Hl. rewrite Forall_forall in Hl. by apply Hl.
  - intros i run next a b H1 H2 Ha Hb. rewrite <- Hc. by rewrite (runs_by_breaks cont l i run next a b).
Qed.

Lemma concat_filter_sublist {A} (P : list A -> Prop) `{!forall l, Decision (P l)} ls :
  concat (filter P ls) `sublist_of` concat ls.
Proof.
  induction ls as [|l ls IH]; cbn; [done|]. case_decide; cbn.
  - by apply sublist_app.
  - by apply sublist_inserts_l.
Qed.

(** Lists of lists without repetition. *)
Lemma NoDup_bind_index {A B} (f : A -> list B) l i j x y b :
  NoDup (l ≫= f) -> l !! i = Some x -> l !! j = Some y -> b ∈ f x -> b ∈ f y -> i = j.
Proof.
  revert i j. induction l as [|z l IH]; intros i j Hnd Hi Hj Hx Hy; [done|].
  cbn in Hnd. apply NoDup_app in Hnd as (_&Hdis&Hnd).
  destruct i as [|i], j as [|j]; cbn in Hi, Hj; simplify_eq; [done| | |f_equal; by apply IH].
  - exfalso. apply (Hdis b Hx), list_elem_of_bind. exists y.
    split; [done|]. by eapply list_elem_of_lookup_2.
  - exfalso. apply (Hdis b Hy), list_elem_of_bind. exists x.
    split; [done|]. by eapply list_elem_of_lookup_2.
Qed.

Lemma omap_total {A B} (f : A -> option B) l :
  Forall (fun x => is_Some (f x)) l -> Forall2 (fun x y => f x = Some y) l (omap f l).
Proof. induction 1 as [|x l [y Hy] Hl IH]; cbn; [constructor|]. rewrite Hy. by constructor. Qed.

(** Deleting a list of keys from a map. *)
Definition delete_keys `{Countable K} {A} (m : gmap K A) (ks : list K) : gmap K A :=
  foldl (fun m k => delete k m) m ks.

Lemma delete_keys_Some `{Countable K} {A} (m : gmap K A) ks k x :
  delete_keys m ks !! k = Some x <-> m !! k = Some x /\ k ∉ ks.
Proof.
  unfold delete_keys. revert m. induction ks as [|k' ks IH]; intros m; cbn.
  - split; [|by intros [? _]]. intros ?. split; [done|]. apply not_elem_of_nil.
  - rewrite IH, lookup_delete_Some, not_elem_of_cons. naive_solver.
Qed.

(** The entries of a map, in the order its table is iterated. *)
Lemma hash_map_elem `{HashOrder} `{Countable K} {A} (m : gmap K A) k x :
  (k, x) ∈ hash_order (map_to_list m) <-> m !! k = Some x.
Proof. rewrite hash_order_perm. apply elem_of_map_to_list. Qed.

Lemma hash_map_NoDup `{HashOrder} `{Countable K} {A} (m : gmap K A) :
  NoDup (map fst (hash_order (map_to_list m))).
Proof. rewrite hash_order_perm. apply NoDup_fst_map_to_list. Qed.

Lemma hash_map_nil `{HashOrder} `{Countable K} {A} (m : gmap K A) :
  hash_order (map_to_list m) = [] -> m = ∅.
Proof.
  intros Hh. apply map_empty. intros k. destruct (m !! k) as [x|] eqn:Hk; [|done].
  apply hash_map_elem in Hk. rewrite Hh in Hk. by apply elem_of_nil in Hk.
Qed.

(** ** Threading a state through a list

    A handler takes a state and an input to a new state and a list of outputs;
    [run_list] folds it over the inputs and concatenates the outputs. *)
Section run_list.
Context {S I O : Type} (f : S -> I -> S * list O).

Fixpoint run_list (s : S) (l : list I) : S * list O :=
  match l with
  | [] => (s, [])
  | x :: l' =>
      let '(s1, o1) := f s x in
      let '(s2, o2) := run_list s1 l' in
      (s2, o1 ++ o2)
  end.

Lemma run_list_cons s x l :
  run_list s (x :: l) =
    ((run_list (f s x).1 l).1, (f s x).2 ++ (run_list (f s x).1 l).2).
Proof. cbn. destruct (f s x) as [s1 o1]; cbn. by destruct (run_list s1 l). Qed.

Fixpoint run_list_batches (s : S) (ls : list (list I)) : S * list O :=
  match ls with
  | [] => (s, [])
  | l :: ls' =>
      let '(s1, o1) := run_list s l in
      let '(s2, o2) := run_list_batches s1 ls' in
      (s2, o1 ++ o2)
  end.

Lemma run_list_app s l k :
  run_list s (l ++ k) =
    let '(s1, o1) := run_list s l in
    let '(s2, o2) := run_list s1 k in
    (s2, o1 ++ o2).
Proof.
  revert s. induction l as [|x l IH]; intros s; simpl.
  - by destruct (run_list s k).
  - destruct (f s x) as [s1 o1]. rewrite IH.
    destruct (run_list s1 l) as [s2 o2], (run_list s2 k) as [s3 o3].
    by rewrite (assoc_L (++)).
Qed.

(** Batching makes no difference. *)
Lemma run_list_concat s ls : run_list_batches s ls = run_list s (concat ls).
Proof.
  revert s. induction ls as [|l ls IH]; intros s; cbn; [done|].
  rewrite run_list_app. destruct (run_list s l) as [s1 o1]. rewrite IH.
  by destruct (run_list s1 (concat ls)).
Qed.

(** An invariant of the handler is an invariant of the run. *)
Lemma run_list_inv (P : S -> Prop) (Q : O -> Prop) s l :
  (forall s x, P s -> P (f s x).1 /\ Forall Q (f s x).2) ->
  P s -> P (run_list s l).1 /\ Forall Q (run_list s l).2.
Proof.
  intros Hf. revert s. induction l as [|x l IH]; intros s Hs; simpl; [done|].
  destruct (Hf s x Hs) as [H1 H2]. destruct (f s x) as [s1 o1]; simpl in *.
  destruct (IH s1 H1) as [H3 H4]. destruct (run_list s1 l); simpl in *.
  split; [done|]. by apply Forall_app.
Qed.
End run_list.

(** What a part of the inputs puts out is a part of what they all put out. *)
Lemma run_list_take {S I O} (f : S -> I -> S * list O) s l k :
  exists m, (run_list f s (take k l)).2 = take m (run_list f s l).2.
Proof.
  assert (run_list f s l = run_list f s (take k l ++ drop k l)) as -> by by rewrite take_drop.
  rewrite run_list_app.
  destruct (run_list f s (take k l)) as [s1 o1], (run_list f s1 (drop k l)) as [s2 o2]. cbn [snd].
  exists (length o1). by rewrite take_app_length.
Qed.

(** ** Automation *)

(** Case analysis on every match of the goal or the hypotheses. *)
Ltac split_matches :=
  repeat (match goal with
    | |- context [match ?x with _ => _ end] => destruct x eqn:?
    | H : context [match ?x with _ => _ end] |- _ => destruct x eqn:?
    end; simplify_eq/=).

(** Boolean comparisons into propositions. *)
Ltac bool_prop :=
  repeat match goal with
  | H : (_ && _) = true |- _ => apply andb_prop in H; destruct H
  | H : (_ && _) = false |- _ => apply andb_false_iff in H
  | H : (_ || _) = true |- _ => apply orb_true_iff in H
  | H : (_ || _) = false |- _ => apply orb_false_iff in H; destruct H
  | H : negb _ = true |- _ => apply negb_true_iff in H
  | H : negb _ = false |- _ => apply negb_false_iff in H
  | H : (_ <=? _) = true |- _ => apply Z.leb_le in H
  | H : (_ <=? _) = false |- _ => apply Z.leb_gt in H
  | H : (_ <? _) = true |- _ => apply Z.ltb_lt in H
  | H : (_ <? _) = false |- _ => apply Z.ltb_ge in H
  | H : (_ =? _) = true |- _ => apply Z.eqb_eq in H
  | H : (_ =? _) = false |- _ => apply Z.eqb_neq in H
  | H : bool_decide _ = true |- _ => apply bool_decide_eq_true in H
  | H : bool_decide _ = false |- _ => apply bool_decide_eq_false in H
  end.

Ltac blia := bool_prop; lia.

Create HintDb kron.

(** Widths. *)
Lemma uw_small w z : in_u w z -> uw w z = z.
Proof. unfold uw, in_u. intros. by apply Z.mod_small. Qed.

Lemma uw_bound w z : 0 <= w -> in_u w (uw w z).
Proof. intros. unfold uw, in_u. apply Z.mod_pos_bound. lia. Qed.

Lemma uw_le w z : 0 <= w -> 0 <= z -> uw w z <= z.
Proof. intros Hw Hz. apply Z.mod_le; [done|]. by apply Z.pow_pos_nonneg. Qed.

Lemma uw_add_l w a b : uw w (uw w a + b) = uw w (a + b).
Proof. unfold uw. by rewrite Zplus_mod_idemp_l. Qed.

Lemma uw_uw w z : uw w (uw w z) = uw w z.
Proof. unfold uw. apply Zmod_mod. Qed.

Lemma uw_add_r w a b : uw w (a + uw w b) = uw w (a + b).
Proof. unfold uw. by rewrite Zplus_mod_idemp_r. Qed.

Lemma sw_small w z : 1 <= w -> in_s w z -> sw w z = z.
Proof.
  unfold sw, in_s. intros Hw Hz.
  assert (2 ^ w = 2 * 2 ^ (w - 1)) as Hp by (rewrite <- Z.pow_succ_r by lia; f_equal; lia).
  rewrite Z.mod_small by lia. lia.
Qed.

Lemma sw_bound w z : 1 <= w -> in_s w (sw w z).
Proof.
  intros Hw. unfold sw, in_s.
  assert (2 ^ w = 2 * 2 ^ (w - 1)) as Hp by (rewrite <- Z.pow_succ_r by lia; f_equal; lia).
  assert (0 < 2 ^ (w - 1)) by lia.
  pose proof (Z.mod_pos_bound (z + 2 ^ (w - 1)) (2 ^ w)). lia.
Qed.

Lemma sw_add_l w a b : sw w (sw w a + b) = sw w (a + b).
Proof.
  unfold sw. f_equal.
  replace ((a + 2 ^ (w - 1)) mod 2 ^ w - 2 ^ (w - 1) + b + 2 ^ (w - 1))
    with ((a + 2 ^ (w - 1)) mod 2 ^ w + b) by lia.
  rewrite Zplus_mod_idemp_l. f_equal. lia.
Qed.

#[export] Hint Resolve uw_bound sw_bound : kron.
Create Rewrite HintDb kron_rw.
#[export] Hint Rewrite uw_add_l uw_add_r sw_add_l : kron_rw.
