(* ===== verification/Decimal.v ===== *)
(** Numbers as decimal text: [to_string] and [format!("{}", n)], and
    [str::parse::<uN>] and [str::parse::<iN>] of the standard library. *)
From Stdlib Require Import Ascii.
From stdpp Require Import pretty.
From S2P Require Import Prelude.

Definition show (n : Z) : string := pretty n.

Definition digit_value (c : ascii) : option N :=
  let n := N_of_ascii c in
  if (48 <=? n)%N && (n <=? 57)%N then Some (n - 48)%N else None.

Fixpoint parse_digits (s : string) (acc : N) : option N :=
  match s with
  | EmptyString => Some acc
  | String c s' => d ← digit_value c; parse_digits s' (10 * acc + d)%N
  end.

(** At least one digit; the sign of the text is gone. *)
Definition parse_nonempty (s : string) : option N :=
  match s with EmptyString => None | _ => parse_digits s 0 end.

Definition parse_unsigned (w : Z) (s : string) : option Z :=
  n ← parse_nonempty (match s with String "+" s' => s' | _ => s end);
  if Z.of_N n <? 2 ^ w then Some (Z.of_N n) else None.

Definition parse_signed (w : Z) (s : string) : option Z :=
  match s with
  | String "-" s' =>
      n ← parse_nonempty s'; if Z.of_N n <=? 2 ^ (w - 1) then Some (- Z.of_N n) else None
  | _ =>
      n ← parse_nonempty (match s with String "+" s' => s' | _ => s end);
      if Z.of_N n <? 2 ^ (w - 1) then Some (Z.of_N n) else None
  end.

(** ** Round trips *)
Lemma digit_value_char x : (x < 10)%N -> digit_value (pretty_N_char x) = Some x.
Proof.
  intros Hx. assert (x = 0 \/ x = 1 \/ x = 2 \/ x = 3 \/ x = 4 \/ x = 5 \/ x = 6 \/ x = 7 \/
    x = 8 \/ x = 9)%N as Hc by lia.
  by repeat (destruct Hc as [->|Hc]; [reflexivity|]); subst.
Qed.

(** The digits of [x] in front of [s] read as [x] in front of the rest. *)
Lemma parse_pretty_go x s acc :
  (0 < x)%N -> exists k, parse_digits (pretty_N_go x s) acc = parse_digits s (acc * 10 ^ k + x)%N.
Proof.
  revert s acc. induction (N.lt_wf_0 x) as [x _ IH]. intros s acc Hx.
  rewrite pretty_N_go_step by done.
  assert (digit_value (pretty_N_char (x `mod` 10)) = Some (x `mod` 10))%N as Hd.
  { apply digit_value_char. by apply N.mod_lt. }
  destruct (decide (x `div` 10 = 0)%N) as [Hz|Hz].
  - exists 1%N. rewrite Hz, pretty_N_go_0. cbn [parse_digits]. rewrite Hd. cbn [mbind option_bind].
    f_equal. rewrite N.pow_1_r. pose proof (N.div_mod' x 10). lia.
  - destruct (IH (x `div` 10)%N) with (s := String (pretty_N_char (x `mod` 10)) s) (acc := acc)
      as [k Hk]; [by apply N.div_lt|by apply N.neq_0_lt_0|].
    exists (N.succ k). rewrite Hk. cbn [parse_digits]. rewrite Hd.
    cbn [mbind option_bind]. f_equal. rewrite N.pow_succ_r'. pose proof (N.div_mod' x 10). lia.
Qed.

Lemma show_nat n : 0 <= n -> show n = pretty (Z.to_N n).
Proof. intros Hn. unfold show. destruct n; [done|done|lia]. Qed.

(** What a number prints as starts with a digit. *)
Lemma pretty_N_head (x : N) : exists c s, pretty x = String c s /\ is_Some (digit_value c).
Proof.
  unfold pretty, pretty_N. case_decide as Hx; [by eexists _, _; split|].
  assert (forall s, exists c s', pretty_N_go x s = String c s' /\ is_Some (digit_value c)) as Hgo.
  { assert (0 < x)%N as Hpos by lia. clear Hx. revert Hpos.
    induction (N.lt_wf_0 x) as [x _ IH]. intros Hpos s. rewrite pretty_N_go_step by done.
    destruct (decide (x `div` 10 = 0)%N) as [Hz|Hz].
    - rewrite Hz, pretty_N_go_0. eexists _, _. split; [done|].
      rewrite digit_value_char by by apply N.mod_lt. done.
    - apply IH; [by apply N.div_lt|by apply N.neq_0_lt_0]. }
  apply Hgo.
Qed.

Lemma parse_pretty (x : N) : parse_nonempty (pretty x) = Some x.
Proof.
  destruct (pretty_N_head x) as (c&s&Hs&_). rewrite Hs. cbn [parse_nonempty]. rewrite <- Hs.
  unfold pretty, pretty_N. case_decide as Hx; [by subst|].
  destruct (parse_pretty_go x "" 0) as [k Hk]; [lia|]. rewrite Hk. done.
Qed.

(** A digit is no sign. *)
Lemma digit_not_sign c : is_Some (digit_value c) -> c <> "+"%char /\ c <> "-"%char.
Proof. intros [d Hd]. split; intros ->; done. Qed.

Lemma unsigned_roundtrip w n : in_u w n -> parse_unsigned w (show n) = Some n.
Proof.
  intros [Hn Hlt]. rewrite show_nat by done. unfold parse_unsigned.
  destruct (pretty_N_head (Z.to_N n)) as (c&s&Hs&Hc).
  assert (match pretty (Z.to_N n) with String "+" s' => s' | _ => pretty (Z.to_N n) end
    = pretty (Z.to_N n)) as ->.
  { rewrite Hs. apply digit_not_sign in Hc as [Hc _].
    destruct c as [[] [] [] [] [] [] [] []]; congruence. }
  rewrite parse_pretty. cbn. rewrite Z2N.id by done.
  by rewrite (proj2 (Z.ltb_lt _ _)).
Qed.

(** ** Characters of a text *)
Fixpoint string_all (p : ascii -> bool) (s : string) : bool :=
  match s with EmptyString => true | String c s' => p c && string_all p s' end.

Lemma string_all_app p s t : string_all p (s +:+ t) = string_all p s && string_all p t.
Proof.
  induction s as [|c s IH]; [done|]. change (String c s +:+ t) with (String c (s +:+ t)).
  cbn [string_all]. by rewrite IH, andb_assoc.
Qed.

Lemma string_all_impl (p q : ascii -> bool) s :
  (forall c, p c = true -> q c = true) -> string_all p s = true -> string_all q s = true.
Proof.
  intros Hpq. induction s as [|c s IH]; cbn; [done|].
  intros [Hc Hs]%andb_true_iff. by rewrite Hpq, IH.
Qed.

Definition is_digit (c : ascii) : bool := (48 <=? N_of_ascii c)%N && (N_of_ascii c <=? 57)%N.

(** The printing characters of ASCII but the space. *)
Definition is_graphic (c : ascii) : bool := (33 <=? N_of_ascii c)%N && (N_of_ascii c <=? 126)%N.

Lemma digit_graphic c : is_digit c = true -> is_graphic c = true.
Proof. unfold is_digit, is_graphic. rewrite !andb_true_iff, !N.leb_le. lia. Qed.

Lemma show_digits n : 0 <= n -> string_all is_digit (show n) = true.
Proof.
  intros Hn. rewrite show_nat by done. generalize (Z.to_N n) as x. clear n Hn. intros x.
  unfold pretty, pretty_N. case_decide as Hx; [by subst|].
  assert (forall s, string_all is_digit s = true ->
    string_all is_digit (pretty_N_go x s) = true) as Hgo; [|by apply Hgo].
  clear Hx. induction (N.lt_wf_0 x) as [x _ IH]. intros s Hs.
  destruct (decide (x = 0)%N) as [->|Hx]; [by rewrite pretty_N_go_0|].
  rewrite pretty_N_go_step by lia. apply IH; [apply N.div_lt; lia|]. cbn. rewrite Hs, andb_true_r.
  pose proof (digit_value_char (x `mod` 10) ltac:(by apply N.mod_lt)) as Hd.
  unfold digit_value in Hd. unfold is_digit. by destruct (_ && _).
Qed.

Lemma show_neg n : n < 0 -> show n = String "-" (show (- n)).
Proof. intros Hn. unfold show. destruct n; [lia|lia|done]. Qed.

Lemma show_graphic n : string_all is_graphic (show n) = true.
Proof.
  destruct (decide (0 <= n)).
  - apply (string_all_impl is_digit); [apply digit_graphic|by apply show_digits].
  - rewrite show_neg by lia. cbn. apply (string_all_impl is_digit); [apply digit_graphic|].
    apply show_digits. lia.
Qed.

Lemma show_nonneg_head n : 0 <= n -> exists c s, show n = String c s /\ is_digit c = true.
Proof.
  intros Hn. pose proof (show_digits n Hn) as Hd. rewrite show_nat in * by done.
  destruct (pretty_N_head (Z.to_N n)) as (c&s&Hs&_). rewrite Hs in *. cbn in Hd.
  apply andb_true_iff in Hd as [Hd _]. by exists c, s.
Qed.

Lemma signed_roundtrip w n : 1 <= w -> in_s w n -> parse_signed w (show n) = Some n.
Proof.
  intros Hw [Hlo Hhi]. destruct (decide (0 <= n)) as [Hn|Hn].
  - pose proof (unsigned_roundtrip (w - 1) n ltac:(split; [done|lia])) as Hu.
    unfold parse_unsigned in Hu. unfold parse_signed.
    destruct (show_nonneg_head n Hn) as (c&s&Hs&Hc). rewrite Hs in *.
    assert (c <> "+"%char /\ c <> "-"%char) as [Hp Hm] by (split; intros ->; done).
    destruct c as [[] [] [] [] [] [] [] []]; try exact Hu; congruence.
  - rewrite show_neg by lia. cbn [parse_signed]. rewrite show_nat by lia.
    rewrite parse_pretty. cbn [mbind option_bind]. rewrite Z2N.id by lia.
    rewrite (proj2 (Z.leb_le _ _)) by lia. f_equal. lia.
Qed.

(** [str::trim] removes white space at the ends, and no graphic character is one. *)
Class TrimGraphic `{UnicodeText} : Prop :=
  trim_graphic s : string_all is_graphic s = true -> str_trim s = s.

Lemma trim_show `{TrimGraphic} n : str_trim (show n) = show n.
Proof. apply trim_graphic, show_graphic. Qed.
