(* ===== verification/Events.v ===== *)
(** Raw events and envelopes: the data of [crates/core/src/events.rs] and
    [crates/core/src/events/model.rs], with the split policy. *)
From S2P Require Import Prelude.

(** ** Raw input (events.rs) *)
Record MousePosition := { pos_x : Z; pos_y : Z }.

Record KeyboardEventData := {
  key_code : option Z;
  key_char : option Z;
  modifiers : list string
}.

Inductive MouseButton :=
  | Primary | Secondary | Middle | Button4 | Button5 | Other (b : Z).

Inductive MouseEventKind := Moved | Pressed | Released | Clicked | Dragged.

Inductive WheelAxis := Vertical | Horizontal.

Inductive WheelScrollType := WheelUnit | WheelBlock | WheelUnknown (b : Z).

Record MouseEventData := {
  position : MousePosition;
  button : option MouseButton;
  click_count : option Z;
  event_type : option MouseEventKind;
  wheel_amount : option Z;
  wheel_rotation : option Z;
  wheel_axis : option WheelAxis;
  wheel_scroll_type : option WheelScrollType
}.

Record WindowFocusInfo := {
  pid : Z;
  process_start_time : Z;
  app_name : string;
  window_title : string;
  window_id : Z;
  window_instance_start : instant;
  window_position : option MousePosition;
  window_size : option (Z * Z)
}.

Inductive RawEvent :=
  | RawKeyboardInput (timestamp : instant) (event_id : Z) (data : KeyboardEventData)
  | RawMouseInput (timestamp : instant) (event_id : Z) (data : MouseEventData)
  | RawWindowFocusChange (timestamp : instant) (event_id : Z) (focus_info : WindowFocusInfo).

(** [RawEvent::timestamp], [RawEvent::event_id], [RawEvent::event_type]. *)
Definition raw_timestamp (e : RawEvent) : instant :=
  match e with
  | RawKeyboardInput t _ _ => t
  | RawMouseInput t _ _ => t
  | RawWindowFocusChange t _ _ => t
  end.

Definition raw_event_id (e : RawEvent) : Z :=
  match e with
  | RawKeyboardInput _ i _ => i
  | RawMouseInput _ i _ => i
  | RawWindowFocusChange _ i _ => i
  end.

Definition raw_event_type (e : RawEvent) : string :=
  match e with
  | RawKeyboardInput _ _ _ => "keyboard"
  | RawMouseInput _ _ _ => "mouse"
  | RawWindowFocusChange _ _ _ => "window_focus_change"
  end.

(** ** Activity states (records.rs) *)
Inductive ActivityState := Active | Passive | Inactive | Locked.

(** ** Envelopes (events/model.rs) *)
Inductive EventSource := Hook | Derived | Polling.

Inductive SignalKind :=
  | KeyboardInput | MouseInput | AppChanged | WindowChanged | ActivityPulse
  | LockStart | LockEnd.

Inductive HintKind :=
  | FocusChanged | StateChanged | TitleChanged | PositionChanged | SizeChanged.

Inductive EventKind := Signal (s : SignalKind) | Hint (h : HintKind).

Inductive EventPayload :=
  | PKeyboard (d : KeyboardEventData)
  | PMouse (d : MouseEventData)
  | PFocus (f : WindowFocusInfo)
  | PLock (reason : string)
  | PTitle (window_id : Z) (title : string)
  | PState (from to : ActivityState)
  | PNone.

Record EventEnvelope := {
  env_id : Z;
  env_timestamp : instant;
  env_source : EventSource;
  env_kind : EventKind;
  env_payload : EventPayload;
  env_derived : bool;
  env_polling : bool;
  env_sensitive : bool
}.

Definition is_signal (e : EventEnvelope) : bool :=
  match env_kind e with Signal _ => true | Hint _ => false end.
Definition is_hint (e : EventEnvelope) : bool :=
  match env_kind e with Hint _ => true | Signal _ => false end.

(** [SplitReason] and [DefaultSplitPolicy::split_reason]. *)
Inductive SplitReason :=
  | SplitStateChange (s : ActivityState)
  | SplitAppWindowChanged | SplitTitleChanged | SplitLockBoundary.

Definition split_reason (e : EventEnvelope) : option SplitReason :=
  match env_kind e with
  | Signal (AppChanged | WindowChanged) => Some SplitAppWindowChanged
  | Hint TitleChanged => Some SplitTitleChanged
  | _ => None
  end.

#[export] Instance MousePosition_eq_dec : EqDecision MousePosition.
Proof. solve_decision. Defined.
#[export] Instance KeyboardEventData_eq_dec : EqDecision KeyboardEventData.
Proof. solve_decision. Defined.
#[export] Instance MouseButton_eq_dec : EqDecision MouseButton.
Proof. solve_decision. Defined.
#[export] Instance MouseEventKind_eq_dec : EqDecision MouseEventKind.
Proof. solve_decision. Defined.
#[export] Instance WheelAxis_eq_dec : EqDecision WheelAxis.
Proof. solve_decision. Defined.
#[export] Instance WheelScrollType_eq_dec : EqDecision WheelScrollType.
Proof. solve_decision. Defined.
#[export] Instance MouseEventData_eq_dec : EqDecision MouseEventData.
Proof. solve_decision. Defined.
#[export] Instance WindowFocusInfo_eq_dec : EqDecision WindowFocusInfo.
Proof. solve_decision. Defined.
#[export] Instance RawEvent_eq_dec : EqDecision RawEvent.
Proof. solve_decision. Defined.
#[export] Instance ActivityState_eq_dec : EqDecision ActivityState.
Proof. solve_decision. Defined.
#[export] Instance EventSource_eq_dec : EqDecision EventSource.
Proof. solve_decision. Defined.
#[export] Instance SignalKind_eq_dec : EqDecision SignalKind.
Proof. solve_decision. Defined.
#[export] Instance HintKind_eq_dec : EqDecision HintKind.
Proof. solve_decision. Defined.
#[export] Instance EventKind_eq_dec : EqDecision EventKind.
Proof. solve_decision. Defined.
#[export] Instance EventPayload_eq_dec : EqDecision EventPayload.
Proof. solve_decision. Defined.
#[export] Instance EventEnvelope_eq_dec : EqDecision EventEnvelope.
Proof. solve_decision. Defined.
#[export] Instance SplitReason_eq_dec : EqDecision SplitReason.
Proof. solve_decision. Defined.

(** ** Shapes

    What a consumer of an envelope relies on: the payload is the one its kind
    calls for. *)
Definition payload_fits (k : EventKind) (p : EventPayload) : Prop :=
  match k, p with
  | Signal KeyboardInput, PKeyboard _
  | Signal MouseInput, PMouse _
  | Signal (AppChanged | WindowChanged), PFocus _
  | Signal ActivityPulse, PNone
  | Signal (LockStart | LockEnd), PLock _
  | Hint FocusChanged, PFocus _
  | Hint StateChanged, PState _ _
  | Hint TitleChanged, PTitle _ _ => True
  | _, _ => False
  end.

Definition env_fits (e : EventEnvelope) : Prop :=
  payload_fits (env_kind e) (env_payload e).

#[export] Instance payload_fits_dec k p : Decision (payload_fits k p).
Proof. destruct k as [[]|[]], p; simpl; apply _. Defined.

(** Equality up to the fields a consumer reads: two envelopes that differ only in
    the privacy flag are handled alike. *)
Definition same_event (a b : EventEnvelope) : Prop :=
  env_id a = env_id b /\ env_timestamp a = env_timestamp b /\
  env_kind a = env_kind b /\ env_payload a = env_payload b.

#[export] Instance same_event_equiv : Equivalence same_event.
Proof.
  split; red; unfold same_event; intros; destruct_and?; repeat split; congruence.
Qed.

#[export] Instance is_signal_proper : Proper (same_event ==> eq) is_signal.
Proof. intros a b (_&_&Hk&_). unfold is_signal. by rewrite Hk. Qed.

#[export] Instance env_fits_proper : Proper (same_event ==> iff) env_fits.
Proof. intros a b (_&_&Hk&Hp). unfold env_fits. by rewrite Hk, Hp. Qed.
