(* ===== verification/StateEngine.v ===== *)
(** The activity state engine: [StateEngine], [DefaultStateEngine] of
    [crates/core/src/events/model.rs].

    The trait is a class; what it promises (a reported transition is the change
    of the current state, and every change is reported) are the laws of
    [StateEngineLaws], from which the theorem on the stream of hints is proved (file StateDeriver).
    The engine itself is related to [Spec], which reads the state off the whole
    history of inputs. *)
From S2P Require Import Prelude Events.

Record StateTransition := { tr_from : ActivityState; tr_to : ActivityState }.

(** The trait [StateEngine]: [current], [on_signal], [on_tick]. *)
Class StateEngine (E : Type) := {
  current : E -> ActivityState;
  on_signal : E -> EventEnvelope -> instant -> E * option StateTransition;
  on_tick : E -> instant -> E * option StateTransition
}.

(** A report [o] explains the change from [a] to [b]. *)
Definition explains (a b : ActivityState) (o : option StateTransition) : Prop :=
  match o with
  | Some t => tr_from t = a /\ tr_to t = b /\ a <> b
  | None => a = b
  end.

(** What an engine promises on its valid states. *)
Class StateEngineLaws (E : Type) `{StateEngine E} (valid : E -> Prop) : Prop := {
  on_signal_valid s e t : valid s -> valid (on_signal s e t).1;
  on_tick_valid s t : valid s -> valid (on_tick s t).1;
  on_signal_explains s e t : valid s ->
    explains (current s) (current (on_signal s e t).1) (on_signal s e t).2;
  on_tick_explains s t : valid s ->
    explains (current s) (current (on_tick s t).1) (on_tick s t).2
}.

Module DefaultStateEngine.
Section engine.
Context `{Chrono}.

Record state := {
  current_ : ActivityState;
  last_signal_time : instant;
  active_grace_secs : Z;
  idle_threshold_secs : Z;
  locked : bool
}.

Definition new (now : instant) (active_grace idle_threshold : Z) : state := {|
  current_ := Inactive;
  last_signal_time := now;
  active_grace_secs := active_grace;
  idle_threshold_secs := idle_threshold;
  locked := false
|}.

Definition set_current (s : state) (a : ActivityState) : state :=
  {| current_ := a; last_signal_time := last_signal_time s;
     active_grace_secs := active_grace_secs s;
     idle_threshold_secs := idle_threshold_secs s; locked := locked s |}.
Definition set_locked (s : state) (b : bool) : state :=
  {| current_ := current_ s; last_signal_time := last_signal_time s;
     active_grace_secs := active_grace_secs s;
     idle_threshold_secs := idle_threshold_secs s; locked := b |}.
Definition set_last_signal (s : state) (t : instant) : state :=
  {| current_ := current_ s; last_signal_time := t;
     active_grace_secs := active_grace_secs s;
     idle_threshold_secs := idle_threshold_secs s; locked := locked s |}.

Definition compute (s : state) (now : instant) : ActivityState :=
  if locked s then Locked
  else
    let dt := num_seconds (now - last_signal_time s) in
    if dt <=? active_grace_secs s then Active
    else if dt <=? idle_threshold_secs s then Passive
    else Inactive.

Definition on_signal (s : state) (event : EventEnvelope) (now : instant)
    : state * option StateTransition :=
  match env_kind event with
  | Signal LockStart =>
      if locked s then (s, None)
      else
        let from := current_ s in
        let s := set_current (set_locked s true) Locked in
        (s, Some {| tr_from := from; tr_to := current_ s |})
  | Signal LockEnd =>
      if negb (locked s) then (s, None)
      else
        let s := set_locked s false in
        let from := current_ s in
        let to := compute s now in
        (set_current s to, Some {| tr_from := from; tr_to := to |})
  | Signal _ =>
      if locked s then (s, None)
      else
        let s := set_last_signal s now in
        let from := current_ s in
        let to := compute s now in
        if bool_decide (to <> from)
        then (set_current s to, Some {| tr_from := from; tr_to := to |})
        else (s, None)
  | Hint _ => (s, None)
  end.

Definition on_tick (s : state) (now : instant) : state * option StateTransition :=
  if locked s then (s, None)
  else
    let from := current_ s in
    let to := compute s now in
    if bool_decide (to <> from)
    then (set_current s to, Some {| tr_from := from; tr_to := to |})
    else (s, None).

(** [Locked] is shown exactly while the session is locked. *)
Definition valid (s : state) : Prop := locked s = true <-> current_ s = Locked.

Lemma compute_unlocked s now : locked s = false -> compute s now <> Locked.
Proof. intros Hl. unfold compute. rewrite Hl. split_matches; done. Qed.

Lemma new_valid now a i : valid (new now a i).
Proof. split; done. Qed.

#[global] Instance engine_class : StateEngine state := {|
  StateEngine.current := current_;
  StateEngine.on_signal := on_signal;
  StateEngine.on_tick := on_tick
|}.

Lemma on_signal_ok s e t : valid s ->
  valid (on_signal s e t).1 /\
  explains (current_ s) (current_ (on_signal s e t).1) (on_signal s e t).2.
Proof.
  unfold valid, on_signal. intros Hv.
  destruct (locked s) eqn:Hl.
  - assert (current_ s = Locked) as Hc by (by apply Hv).
    destruct (env_kind e) as [[]|]; simpl; rewrite ?Hl; try done.
    rewrite Hc. pose proof (compute_unlocked (set_locked s false) t eq_refl).
    repeat split; simpl; congruence.
  - assert (current_ s <> Locked) as Hc by (intros ?%Hv; done).
    pose proof (compute_unlocked (set_last_signal s t) t Hl).
    destruct (env_kind e) as [[]|]; simpl; try case_bool_decide;
      simpl; rewrite ?Hl; repeat split; simpl; congruence.
Qed.

Lemma on_tick_ok s t : valid s ->
  valid (on_tick s t).1 /\
  explains (current_ s) (current_ (on_tick s t).1) (on_tick s t).2.
Proof.
  unfold valid, on_tick. intros Hv. destruct (locked s) eqn:Hl; simpl; [by rewrite Hl|].
  assert (current_ s <> Locked) as Hc by (intros ?%Hv; done).
  pose proof (compute_unlocked s t Hl).
  case_bool_decide; simpl; rewrite ?Hl; repeat split; simpl; congruence.
Qed.

#[global] Instance engine_laws : StateEngineLaws state valid.
Proof.
  split; intros; by (apply on_signal_ok || apply on_tick_ok).
Qed.
End engine.
Arguments compute {_} _ _.
End DefaultStateEngine.

(** ** The state read off the history

    An input is a tick at a time or an envelope handed to the engine with the
    time of its arrival; a history lists the inputs, the newest first. *)
Module Spec.
Import DefaultStateEngine.
Section spec.
Context `{Chrono} (t0 : instant) (active_grace idle_threshold : Z).

Inductive input := Tick (now : instant) | Sig (e : EventEnvelope) (now : instant).

Definition input_time (i : input) : instant :=
  match i with Tick t | Sig _ t => t end.

(** The session is locked when the newest lock signal is a [LockStart]. *)
Definition lock_edge (i : input) : option bool :=
  match i with
  | Sig e _ =>
      match env_kind e with
      | Signal LockStart => Some true
      | Signal LockEnd => Some false
      | _ => None
      end
  | Tick _ => None
  end.
Definition locked_after (h : list input) : bool :=
  default false (head (omap lock_edge h)).

(** User activity: a signal that is no lock boundary, received unlocked. *)
Definition plain_signal (i : input) : bool :=
  match i with
  | Sig e _ =>
      match env_kind e with
      | Signal (LockStart | LockEnd) => false
      | Signal _ => true
      | Hint _ => false
      end
  | Tick _ => false
  end.
Fixpoint last_activity (h : list input) : instant :=
  match h with
  | [] => t0
  | i :: h' =>
      if plain_signal i && negb (locked_after h') then input_time i
      else last_activity h'
  end.

(** The inputs after which the idle time is measured: a tick or user activity
    received unlocked, and the end of a lock. *)
Definition measures (i : input) (h : list input) : bool :=
  match i with
  | Tick _ => negb (locked_after h)
  | Sig _ _ =>
      (plain_signal i && negb (locked_after h))
      || (bool_decide (lock_edge i = Some false) && locked_after h)
  end.

(** The class of an idle time. *)
Definition idle_class (dt : Z) : ActivityState :=
  if dt <=? active_grace then Active
  else if dt <=? idle_threshold then Passive else Inactive.

Fixpoint measured (h : list input) : ActivityState :=
  match h with
  | [] => Inactive
  | i :: h' =>
      if measures i h' then idle_class (num_seconds (input_time i - last_activity (i :: h')))
      else measured h'
  end.

Definition shown (h : list input) : ActivityState :=
  if locked_after h then Locked else measured h.

(** The engine on an input. *)
Definition step (s : state) (i : input) : state * option StateTransition :=
  match i with
  | Tick t => on_tick s t
  | Sig e t => on_signal s e t
  end.

Definition agrees (s : state) (h : list input) : Prop :=
  s = {| current_ := shown h; last_signal_time := last_activity h;
         active_grace_secs := active_grace; idle_threshold_secs := idle_threshold;
         locked := locked_after h |}.

Lemma locked_after_cons i h :
  locked_after (i :: h) = default (locked_after h) (lock_edge i).
Proof. unfold locked_after. cbn. by destruct (lock_edge i). Qed.

Lemma step_agrees s h i : agrees s h -> agrees (step s i).1 (i :: h).
Proof.
  unfold agrees. intros ->.
  unfold shown; rewrite !locked_after_cons.
  destruct i as [t|e t]; cbn; unfold on_tick, on_signal; cbn.
  - destruct (locked_after h) eqn:Hl; cbn; [done|].
    case_bool_decide as Hd; cbn; unfold compute, idle_class in *; cbn in *; [done|].
    by f_equal.
  - destruct (env_kind e) as [[]|] eqn:Hk; cbn; destruct (locked_after h) eqn:Hl;
      cbn; rewrite ?Hl; cbn; try done;
      (case_bool_decide as Hd; cbn; unfold compute, idle_class in *; cbn in *;
         [done|rewrite Hd; done]).
Qed.

Definition run (s : state) (l : list input) : state * list StateTransition :=
  run_list (fun s i => let '(s', o) := step s i in (s', option_list o)) s l.

Lemma run_cons s i l :
  run s (i :: l) =
    ((run (step s i).1 l).1, option_list (step s i).2 ++ (run (step s i).1 l).2).
Proof.
  unfold run; cbn [run_list]. destruct (step s i) as [s1 o]; cbn [fst snd].
  by destruct (run_list _ s1 l).
Qed.

Lemma run_agrees s h l : agrees s h -> agrees (run s l).1 (rev l ++ h).
Proof.
  revert s h. induction l as [|i l IH]; intros s h Hs; [done|].
  rewrite run_cons. cbn [fst rev]. rewrite <- (assoc_L (++)). cbn.
  apply IH. by apply step_agrees.
Qed.

Lemma step_valid s i : valid s -> valid (step s i).1.
Proof. destruct i; [apply on_tick_ok|apply on_signal_ok]. Qed.

Lemma step_explains s i : valid s ->
  explains (current_ s) (current_ (step s i).1) (step s i).2.
Proof. destruct i; [apply on_tick_ok|apply on_signal_ok]. Qed.

(** The changes of the shown state along the inputs [l], after history [h]. *)
Fixpoint changes (h l : list input) : list StateTransition :=
  match l with
  | [] => []
  | i :: l' =>
      let a := shown h in
      let b := shown (i :: h) in
      (if bool_decide (a = b) then [] else [{| tr_from := a; tr_to := b |}])
        ++ changes (i :: h) l'
  end.

Lemma run_changes s h l :
  valid s -> agrees s h -> (run s l).2 = changes h l.
Proof.
  revert s h. induction l as [|i l IH]; intros s h Hv Hs; [done|].
  pose proof (step_agrees s h i Hs) as Hs1.
  pose proof (step_explains s i Hv) as He.
  rewrite run_cons. cbn [snd changes].
  rewrite (IH _ (i :: h)) by (done || by apply step_valid).
  f_equal.
  replace (current_ s) with (shown h) in He by (by rewrite Hs).
  replace (current_ (step s i).1) with (shown (i :: h)) in He by (by rewrite Hs1).
  destruct (step s i).2 as [[a b]|]; cbn in *.
  - destruct He as (<-&<-&Hne). by rewrite bool_decide_eq_false_2.
  - by rewrite bool_decide_eq_true_2.
Qed.

(** ** Idle time

    Without signals the engine only loses activity. *)
Definition rank (a : ActivityState) : Z :=
  match a with Active => 2 | Passive => 1 | Inactive => 0 | Locked => 3 end.

Lemma rank_idle_class d1 d2 : d1 <= d2 -> rank (idle_class d2) <= rank (idle_class d1).
Proof. intros. unfold idle_class. split_matches; cbn; bool_prop; lia. Qed.

Lemma rank_idle_class_inj d1 d2 :
  rank (idle_class d1) = rank (idle_class d2) -> idle_class d1 = idle_class d2.
Proof. unfold idle_class. split_matches; done. Qed.

Lemma compute_idle s now :
  locked s = false -> active_grace_secs s = active_grace ->
  idle_threshold_secs s = idle_threshold ->
  compute s now = idle_class (num_seconds (now - last_signal_time s)).
Proof. unfold compute. by intros -> -> ->. Qed.

(** [settled u s]: [s] is unlocked, has the thresholds of the section and shows
    the class of its idle time at [u]. *)
Definition settled (u : instant) (s : state) : Prop :=
  locked s = false /\ active_grace_secs s = active_grace /\
  idle_threshold_secs s = idle_threshold /\
  current_ s = idle_class (num_seconds (u - last_signal_time s)).

Lemma settled_tick `{!ChronoLaws} u s t :
  settled u s -> u <= t ->
  let r := on_tick s t in
  settled t r.1 /\ last_signal_time r.1 = last_signal_time s /\
  match r.2 with
  | Some tr => tr_from tr = current_ s /\ tr_to tr = current_ r.1 /\
               rank (tr_to tr) < rank (tr_from tr)
  | None => current_ r.1 = current_ s
  end.
Proof.
  intros (Hl&Ha&Hi&Hc) Hut. unfold on_tick. rewrite Hl, (compute_idle s t Hl Ha Hi).
  assert (rank (idle_class (num_seconds (t - last_signal_time s))) <= rank (current_ s)).
  { rewrite Hc. apply rank_idle_class. rewrite !num_seconds_spec.
    apply Z.quot_le_mono; lia. }
  case_bool_decide as Hd; cbn.
  - repeat split; try done.
    destruct (Z.eq_dec (rank (idle_class (num_seconds (t - last_signal_time s))))
      (rank (current_ s))) as [He|]; [|lia].
    rewrite Hc in He at 1. apply rank_idle_class_inj in He. congruence.
  - repeat split; congruence.
Qed.

Lemma settled_ticks `{!ChronoLaws} u s ts :
  settled u s -> Sorted Z.le (u :: ts) ->
  let r := run s (map Tick ts) in
  settled (List.last ts u) r.1 /\ last_signal_time r.1 = last_signal_time s /\
  Forall (fun tr => rank (tr_to tr) < rank (tr_from tr)) r.2 /\
  Z.of_nat (length r.2) <= rank (current_ s) - rank (current_ r.1).
Proof.
  revert u s. induction ts as [|t ts IH]; intros u s Hs Hsort; cbn [map].
  { unfold run; cbn. repeat split; try apply Hs; [constructor|lia]. }
  apply Sorted_inv in Hsort as [Hsort' Hhd]. apply HdRel_inv in Hhd.
  destruct (settled_tick u s t Hs) as (K1&K2&K3); [done|].
  destruct (IH t _ K1 Hsort') as (K4&K5&K6&K7).
  rewrite run_cons. cbn [step fst snd]. rewrite list_last_cons.
  repeat split; try apply K4; [congruence| |].
  - apply Forall_app. split; [|done].
    destruct (on_tick s t).2 as [tr|]; cbn in *; [|constructor].
    constructor; [apply K3|constructor].
  - rewrite length_app. destruct (on_tick s t).2 as [tr|]; cbn in *.
    + destruct K3 as (K3a&K3b&K3c). rewrite K3a, K3b in K3c. lia.
    + rewrite K3 in K7. lia.
Qed.
End spec.
Arguments step {_} _ _.
Arguments run {_} _ _.
End Spec.

(** ** Theorems *)
Module Theorems.
Import DefaultStateEngine Spec.
Section theorems.
Context `{Chrono}.

(** C6: started at [t0], the engine fed any inputs holds the state the
    specification reads off their history (the lock flag from the last lock
    signal, the idle clock from the last activity, the shown state from the last
    measurement), and the transitions it reports are exactly the changes of the
    shown state, in order. *)
Theorem engine_refines_history t0 active_grace idle_threshold l :
  let r := run (new t0 active_grace idle_threshold) l in
  agrees t0 active_grace idle_threshold r.1 (rev l) /\
  r.2 = changes t0 active_grace idle_threshold [] l.
Proof.
  split.
  - rewrite <- (app_nil_r (rev l)). by apply run_agrees.
  - apply run_changes; [apply new_valid|done].
Qed.

(** After an activity signal at [t] on an unlocked engine, ticks at
    non-decreasing times only lower the activity: every transition goes strictly
    down, there are at most two of them, and the state shown at the end is the
    class of the whole seconds passed since [t]; once these exceed both
    thresholds it is [Inactive]. *)
Theorem ticks_degrade `{!ChronoLaws} s e t ts :
  valid s -> locked s = false -> plain_signal (Sig e t) = true ->
  Sorted Z.le (t :: ts) ->
  let s1 := (on_signal s e t).1 in
  let r := run s1 (map Tick ts) in
  let dt := num_seconds (List.last ts t - t) in
  Forall (fun tr => rank (tr_to tr) < rank (tr_from tr)) r.2 /\
  (length r.2 <= 2)%nat /\
  current_ r.1 = idle_class (active_grace_secs s) (idle_threshold_secs s) dt /\
  (active_grace_secs s < dt -> idle_threshold_secs s < dt -> current_ r.1 = Inactive).
Proof.
  intros Hv Hl Hp Hsort s1 r dt.
  assert (settled (active_grace_secs s) (idle_threshold_secs s) t s1 /\
          last_signal_time s1 = t) as [Hs Ht].
  { subst s1. unfold on_signal, settled. cbn in Hp.
    pose proof (compute_idle _ _ (set_last_signal s t) t Hl eq_refl eq_refl) as Hc. cbn in Hc.
    destruct (env_kind e) as [[]|]; try done; rewrite Hl;
      case_bool_decide; cbn in *; repeat split; congruence. }
  destruct (settled_ticks _ _ t s1 ts Hs Hsort) as ((_&_&_&K2)&K3&K4&K5).
  fold r in K2, K3, K4, K5. rewrite K3, Ht in K2.
  repeat split; [done| |done|].
  - destruct (current_ r.1) eqn:Hr, (current_ s1) eqn:K1; cbn in K5; try lia;
      destruct Hs as (_&_&_&Hs); rewrite Hs in K1;
      unfold idle_class in K1; split_matches; done.
  - intros. rewrite K2. unfold idle_class. fold dt.
    rewrite (proj2 (Z.leb_gt _ _)) by lia. by rewrite (proj2 (Z.leb_gt _ _)) by lia.
Qed.

(** An engine that has seen no signal at all shows [Inactive] and leaves it for
    [Active] on its first tick within the grace period, and conversely an
    [Active] engine may drop to [Inactive] on one tick without passing
    [Passive]. *)
Theorem tick_without_signal_promotes t0 active_grace idle_threshold t :
  (num_seconds (t - t0) <= active_grace ->
   (on_tick (new t0 active_grace idle_threshold) t).2
     = Some {| tr_from := Inactive; tr_to := Active |}) /\
  (forall s, locked s = false -> current_ s = Active ->
   Z.max (active_grace_secs s) (idle_threshold_secs s)
     < num_seconds (t - last_signal_time s) ->
   (on_tick s t).2 = Some {| tr_from := Active; tr_to := Inactive |}).
Proof.
  unfold on_tick, compute; cbn. split.
  - intros ->%Z.leb_le. done.
  - intros s -> -> Hd.
    rewrite (proj2 (Z.leb_gt _ _)) by lia. by rewrite (proj2 (Z.leb_gt _ _)) by lia.
Qed.
End theorems.

(** An engine fed one key press at time zero, then left alone. *)
Definition key_env : EventEnvelope := {|
  env_id := 1; env_timestamp := 0; env_source := Hook;
  env_kind := Signal KeyboardInput;
  env_payload := PKeyboard {| key_code := Some 30; key_char := None; modifiers := [] |};
  env_derived := false; env_polling := false; env_sensitive := true |}.

Lemma ticks_degrade_witness :
  let s1 := (@on_signal chrono_ref (new 0 30 300) key_env 0).1 in
  let r := @run chrono_ref s1 (map Tick [secs 10; secs 40; secs 400]) in
  r.2 = [{| tr_from := Active; tr_to := Passive |};
         {| tr_from := Passive; tr_to := Inactive |}] /\ (length r.2 <= 2)%nat.
Proof.
  split; [reflexivity|].
  exact (proj1 (proj2 (@ticks_degrade chrono_ref chrono_ref_laws
    (new 0 30 300) key_env 0 [secs 10; secs 40; secs 400]
    (new_valid 0 30 300)
    eq_refl eq_refl ltac:(repeat constructor; vm_compute; congruence)))).
Defined.

Lemma tick_without_signal_promotes_witness :
  (@on_tick chrono_ref (new 0 30 300) (secs 5)).2
    = Some {| tr_from := Inactive; tr_to := Active |}.
Proof.
  apply (proj1 (@tick_without_signal_promotes chrono_ref 0 30 300 (secs 5))).
  vm_compute. congruence.
Defined.
End Theorems.
