(* ===== verification/StateDeriver.v ===== *)
(** The state deriver of [crates/core/src/events/derive_hint.rs]: the transitions of
    a state engine as [StateChanged] hints, proved against the engine's interface. *)
From S2P Require Import Prelude Events StateEngine.

(** ** The hints derived from the engine (derive_hint.rs) *)
Module StateDeriver.
Section deriver.
Context `{Chrono} {E : Type} `{StateEngine E}.

(** The envelope of a transition: [on_signal] keeps the id of the signal,
    [on_tick] takes the millisecond clock. *)
Definition state_env (id : Z) (now : instant) (tr : StateTransition) : EventEnvelope := {|
  env_id := id;
  env_timestamp := now;
  env_source := Derived;
  env_kind := Hint StateChanged;
  env_payload := PState (tr_from tr) (tr_to tr);
  env_derived := true;
  env_polling := false;
  env_sensitive := false
|}.

Definition on_signal (s : E) (env : EventEnvelope) : E * option EventEnvelope :=
  let now := env_timestamp env in
  let '(s, o) := StateEngine.on_signal s env now in
  (s, match o with Some tr => Some (state_env (env_id env) now tr) | None => None end).

Definition on_tick (s : E) (now : instant) : E * option EventEnvelope :=
  let '(s, o) := StateEngine.on_tick s now in
  (s, match o with
      | Some tr => Some (state_env (uw 64 (timestamp_millis now)) now tr)
      | None => None
      end).

(** What the pipeline hands the deriver: a signal or a tick. *)
Definition feed (s : E) (i : EventEnvelope + instant) : E * list EventEnvelope :=
  let '(s, o) := match i with inl e => on_signal s e | inr t => on_tick s t end in
  (s, option_list o).

Definition input_time (i : EventEnvelope + instant) : instant :=
  match i with inl e => env_timestamp e | inr t => t end.

(** [chain a l b]: the hints [l] lead from state [a] to state [b]; each is a
    well-formed [StateChanged] hint of a proper change. *)
Fixpoint chain (a : ActivityState) (l : list EventEnvelope) (b : ActivityState) : Prop :=
  match l with
  | [] => a = b
  | e :: l' =>
      env_kind e = Hint StateChanged /\ env_derived e = true /\
      exists c, env_payload e = PState a c /\ a <> c /\ chain c l' b
  end.

Lemma feed_chain (valid : E -> Prop) `{!StateEngineLaws E valid} s i :
  valid s ->
  valid (feed s i).1 /\ chain (current s) (feed s i).2 (current (feed s i).1).
Proof.
  intros Hv. unfold feed, on_signal, on_tick. destruct i as [e|t].
  - pose proof (on_signal_valid s e (env_timestamp e) Hv) as H1.
    pose proof (on_signal_explains s e (env_timestamp e) Hv) as H2.
    destruct (StateEngine.on_signal s e (env_timestamp e)) as [s' [tr|]]; cbn in *;
      [|done]. destruct H2 as (<-&<-&Hne). eauto 10.
  - pose proof (on_tick_valid s t Hv) as H1.
    pose proof (on_tick_explains s t Hv) as H2.
    destruct (StateEngine.on_tick s t) as [s' [tr|]]; cbn in *; [|done].
    destruct H2 as (<-&<-&Hne). eauto 10.
Qed.

Lemma chain_app a l b k c : chain a l b -> chain b k c -> chain a (l ++ k) c.
Proof.
  revert a. induction l as [|e l IH]; intros a; cbn; [by intros ->|].
  intros (?&?&d&?&?&?) ?. eauto 10.
Qed.
End deriver.
End StateDeriver.

(** ** Theorem *)
Section theorem.
Context `{Chrono}.
Import DefaultStateEngine.

(** Whatever signals and ticks the deriver is fed, the [StateChanged] hints
    it emits form a chain of proper changes from the initial [Inactive] state to
    the engine's current state, and that state is [Locked] exactly when the
    engine is locked. *)
Theorem state_hints_chain t0 active_grace idle_threshold l :
  let r := run_list StateDeriver.feed (new t0 active_grace idle_threshold) l in
  StateDeriver.chain Inactive r.2 (current r.1) /\
  (locked r.1 = true <-> current r.1 = Locked).
Proof.
  enough (forall s, valid s ->
    let r := run_list StateDeriver.feed s l in
    StateDeriver.chain (current s) r.2 (current r.1) /\ valid r.1)
    by (apply (H0 (new t0 active_grace idle_threshold)), new_valid).
  induction l as [|i l IH]; intros s Hv; [done|]. cbn [run_list].
  destruct (StateDeriver.feed_chain valid s i Hv) as [H1 H2].
  destruct (StateDeriver.feed s i) as [s1 o1]; cbn [fst snd] in *.
  destruct (IH s1 H1) as [H3 H4].
  destruct (run_list StateDeriver.feed s1 l) as [s2 o2]; cbn [fst snd] in *.
  split; [|done]. by eapply StateDeriver.chain_app.
Qed.
End theorem.
