(* ===== verification/LockDeriver.v ===== *)
(** The lock deriver of [crates/core/src/events/derive_signal.rs]: it turns the
    focus of the login window into [LockStart]/[LockEnd] signals and hides what
    happens on a locked screen from the stages behind it. *)
From S2P Require Import Prelude Events.

(** The focus of the login window, as [derive] and the adapter test it. *)
Definition is_login_app (app : string) : bool := eq_ignore_ascii_case app "loginwindow".

Definition is_login (e : EventEnvelope) : bool :=
  match env_payload e with
  | PFocus fi => is_login_app (app_name fi)
  | _ => false
  end.

(** The [LockStart] and [LockEnd] envelopes derived from [e]. *)
Definition lock_env (e : EventEnvelope) (k : SignalKind) (reason : string) : EventEnvelope := {|
  env_id := env_id e;
  env_timestamp := env_timestamp e;
  env_source := Derived;
  env_kind := Signal k;
  env_payload := PLock reason;
  env_derived := true;
  env_polling := false;
  env_sensitive := false
|}.

(** [derive] on one envelope: the new [locked] flag and the envelopes pushed. *)
Definition derive_step (locked : bool) (e : EventEnvelope) : bool * list EventEnvelope :=
  let '(locked, pushed, forward_original) :=
    match env_kind e with
    | Signal (AppChanged | WindowChanged) =>
        if is_login e then
          (true, if negb locked then [lock_env e LockStart "loginwindow"] else [], false)
        else if locked then (false, [lock_env e LockEnd "unlock"], true)
        else (locked, [], true)
    | Signal LockStart => (true, [], true)
    | Signal LockEnd => (false, [], true)
    | Signal _ => (locked, [], negb locked)
    | Hint h =>
        (locked, [], if locked then bool_decide (h = FocusChanged) else true)
    end in
  (locked, pushed ++ if forward_original then [e] else []).

(** [LockDeriver::derive]; [LockDeriver::new] is [false]. *)
Definition derive (locked : bool) (input : list EventEnvelope) : bool * list EventEnvelope :=
  run_list derive_step locked input.

(** One call of [derive] per batch. *)
Definition derive_batches (locked : bool) (batches : list (list EventEnvelope))
    : bool * list EventEnvelope :=
  run_list_batches derive_step locked batches.

Definition lock_new : bool := false.

(** ** What is visible

    The specification in terms of the inputs before an envelope, newest first. *)
Definition lock_signal (e : EventEnvelope) : bool :=
  match env_kind e with Signal (LockStart | LockEnd) => true | _ => false end.

Definition focus_signal (e : EventEnvelope) : bool :=
  match env_kind e with Signal (AppChanged | WindowChanged) => true | _ => false end.

(** The screen is locked when the newest focus signal is one of the login window. *)
Definition locked_by (l0 : bool) (before : list EventEnvelope) : bool :=
  default l0 (head (map is_login (filter (fun e => focus_signal e = true) before))).

Definition visible (l0 : bool) (before : list EventEnvelope) (e : EventEnvelope) : bool :=
  if focus_signal e then negb (is_login e)
  else bool_decide (env_kind e = Hint FocusChanged) || negb (locked_by l0 before).

Fixpoint visible_events (l0 : bool) (before l : list EventEnvelope) : list EventEnvelope :=
  match l with
  | [] => []
  | e :: l' =>
      (if visible l0 before e then [e] else []) ++ visible_events l0 (e :: before) l'
  end.

(** [lock_scan locked l]: read [l] from lock state [locked]; [LockStart] and
    [LockEnd] alternate and in between only focus hints pass.  [None] otherwise. *)
Fixpoint lock_scan (locked : bool) (l : list EventEnvelope) : option bool :=
  match l with
  | [] => Some locked
  | e :: l' =>
      match env_kind e, locked with
      | Signal LockStart, false => lock_scan true l'
      | Signal LockEnd, true => lock_scan false l'
      | Signal (LockStart | LockEnd), _ => None
      | Hint FocusChanged, _ => lock_scan locked l'
      | _, true => None
      | _, false => if focus_signal e && is_login e then None else lock_scan false l'
      end
  end.

Lemma lock_scan_app locked l k :
  lock_scan locked (l ++ k) = lock_scan locked l ≫= fun b => lock_scan b k.
Proof.
  revert locked. induction l as [|e l IH]; intros locked; [done|]. cbn.
  destruct (env_kind e) as [[]|[]], locked; cbn; auto;
    by destruct (focus_signal e && is_login e).
Qed.

Lemma derive_step_scan locked e :
  lock_signal e = false ->
  lock_scan locked (derive_step locked e).2 = Some (derive_step locked e).1.
Proof.
  unfold lock_signal, derive_step. intros Hl.
  destruct (env_kind e) as [[]|[]] eqn:Hk; try done;
    destruct (is_login e) eqn:Hi, locked; cbn;
    unfold focus_signal; rewrite ?Hk; cbn; rewrite ?Hi; cbn; rewrite ?Hk;
    try case_bool_decide; cbn; rewrite ?Hk; done.
Qed.

Lemma locked_by_cons l0 e before :
  locked_by l0 (e :: before) = if focus_signal e then is_login e else locked_by l0 before.
Proof. unfold locked_by. rewrite filter_cons. destruct (focus_signal e); by case_decide. Qed.

Lemma derive_step_spec l0 before e :
  lock_signal e = false ->
  (derive_step (locked_by l0 before) e).1 = locked_by l0 (e :: before) /\
  filter (fun e => lock_signal e = false) (derive_step (locked_by l0 before) e).2
    = if visible l0 before e then [e] else [].
Proof.
  intros Hl. rewrite locked_by_cons. unfold visible.
  unfold derive_step, focus_signal in *.
  destruct (env_kind e) as [[]|[]] eqn:Hk;
    (try by unfold lock_signal in Hl; rewrite Hk in Hl);
    destruct (is_login e), (locked_by l0 before); cbn;
    repeat case_bool_decide; cbn; repeat case_decide; done.
Qed.

Lemma derive_spec l0 before l :
  Forall (fun e => lock_signal e = false) l ->
  let r := derive (locked_by l0 before) l in
  r.1 = locked_by l0 (rev l ++ before) /\
  filter (fun e => lock_signal e = false) r.2 = visible_events l0 before l /\
  lock_scan (locked_by l0 before) r.2 = Some r.1.
Proof.
  intros Hl. revert before. induction Hl as [|e l He Hl IH]; intros before; [done|].
  unfold derive in *. cbn [run_list visible_events].
  destruct (derive_step_spec l0 before e He) as [H1 H2].
  pose proof (derive_step_scan (locked_by l0 before) e He) as H3.
  destruct (derive_step (locked_by l0 before) e) as [b o]; cbn [fst snd] in *.
  rewrite H1 in H3 |- *. destruct (IH (e :: before)) as (H4&H5&H6).
  destruct (run_list derive_step (locked_by l0 (e :: before)) l) as [b' o'].
  cbn [fst snd] in *. cbn [rev]. rewrite <- (assoc_L (++)), filter_app, lock_scan_app.
  rewrite H2, H3, H5. done.
Qed.

(** ** Theorems *)

(** C24: for any batch without ready-made lock signals (the adapter makes none), the
    derived stream, read from the current flag, alternates [LockStart] and
    [LockEnd], carries nothing but focus hints while locked, never carries a focus
    signal of the login window, and ends in the flag the deriver keeps. *)
Theorem derive_guards_lock locked l :
  Forall (fun e => lock_signal e = false) l ->
  lock_scan locked (derive locked l).2 = Some (derive locked l).1.
Proof. intros Hl. apply (derive_spec locked [] l Hl). Qed.

(** C23: apart from the lock signals it adds, the deriver passes on exactly the
    visible inputs, unchanged and in order, whatever the batches: a focus signal
    passes when it is not the login window's, any other envelope when it is a focus
    hint or the newest focus before it is not the login window. *)
Theorem derive_passes_visible locked batches :
  Forall (fun e => lock_signal e = false) (concat batches) ->
  filter (fun e => lock_signal e = false) (derive_batches locked batches).2
    = visible_events locked [] (concat batches).
Proof.
  intros Hl.
  unfold derive_batches. rewrite run_list_concat.
  apply (derive_spec locked [] _ Hl).
Qed.

(** A focus change to the login window, a key press, and the way back. *)
Definition demo_focus (app : string) : WindowFocusInfo := {|
  pid := 7; process_start_time := 1; app_name := app; window_title := "w";
  window_id := 3; window_instance_start := 0;
  window_position := None; window_size := None |}.
Definition demo_env (id : Z) (k : EventKind) (p : EventPayload) : EventEnvelope := {|
  env_id := id; env_timestamp := id; env_source := Hook; env_kind := k; env_payload := p;
  env_derived := false; env_polling := false; env_sensitive := false |}.
Definition demo_session : list EventEnvelope := [
  demo_env 1 (Signal AppChanged) (PFocus (demo_focus "LoginWindow"));
  demo_env 1 (Hint FocusChanged) (PFocus (demo_focus "LoginWindow"));
  demo_env 2 (Signal MouseInput) PNone;
  demo_env 3 (Signal AppChanged) (PFocus (demo_focus "Editor"));
  demo_env 4 (Signal MouseInput) PNone].

Lemma derive_guards_lock_witness :
  map env_id (derive false demo_session).2 = [1; 1; 3; 3; 4] /\
  lock_scan false (derive false demo_session).2 = Some false.
Proof.
  split; [reflexivity|]. apply (derive_guards_lock false demo_session).
  repeat constructor.
Defined.

Lemma derive_passes_visible_witness :
  map env_id (filter (fun e => lock_signal e = false)
    (derive_batches false [take 2 demo_session; drop 2 demo_session]).2) = [1; 3; 4].
Proof.
  rewrite (derive_passes_visible false [take 2 demo_session; drop 2 demo_session]
    ltac:(repeat constructor)).
  reflexivity.
Defined.
