(* ===== verification/Adapter.v ===== *)
(** The event adapter of [crates/core/src/events/adapter.rs]: raw hook events to
    envelopes, the focus change classified against the last focus. *)
From S2P Require Import Prelude Events LockDeriver.

(** An envelope of the adapter: not derived, not sensitive. *)
Definition adapter_env (id : Z) (ts : instant) (source : EventSource) (k : EventKind)
    (p : EventPayload) (polling : bool) : EventEnvelope := {|
  env_id := id; env_timestamp := ts; env_source := source; env_kind := k;
  env_payload := p; env_derived := false; env_polling := polling;
  env_sensitive := false
|}.

(** The three envelopes of a new focus: signal, focus hint and, unless it is the
    login window, an activity pulse. *)
Definition focus_burst (id : Z) (now : instant) (k : SignalKind) (cur : WindowFocusInfo)
    : list EventEnvelope :=
  let login_focus := is_login_app (app_name cur) in
  [adapter_env id now Hook (Signal k) (PFocus cur) false;
   adapter_env id now Hook (Hint FocusChanged) (PFocus cur) false]
  ++ if negb login_focus
     then [adapter_env id now Hook (Signal ActivityPulse) PNone false] else [].

(** The [WindowFocusChange] branch. *)
Definition adapt_focus (last_focus : option WindowFocusInfo) (id : Z) (now : instant)
    (cur : WindowFocusInfo) : list EventEnvelope :=
  match last_focus with
  | Some last =>
      if negb (pid last =? pid cur)
         || negb (process_start_time last =? process_start_time cur)
         || bool_decide (app_name last <> app_name cur)
      then focus_burst id now AppChanged cur
      else if negb (window_id last =? window_id cur)
      then focus_burst id now WindowChanged cur
      else if bool_decide (window_title last <> window_title cur)
      then [adapter_env id now Polling (Hint TitleChanged)
              (PTitle (window_id cur) (window_title cur)) true]
      else []
  | None => focus_burst id now AppChanged cur
  end.

(** [EventAdapter::adapt_batch] on one event: the new [last_focus] and the
    envelopes pushed. *)
Definition adapt_step (last_focus : option WindowFocusInfo) (e : RawEvent)
    : option WindowFocusInfo * list EventEnvelope :=
  match e with
  | RawKeyboardInput ts id data =>
      (last_focus, [adapter_env id ts Hook (Signal KeyboardInput) (PKeyboard data) false])
  | RawMouseInput ts id data =>
      (last_focus, [adapter_env id ts Hook (Signal MouseInput) (PMouse data) false])
  | RawWindowFocusChange ts id focus_info =>
      (Some focus_info, adapt_focus last_focus id ts focus_info)
  end.

Definition adapter_new : option WindowFocusInfo := None.

Definition adapt_batch (last_focus : option WindowFocusInfo) (raw : list RawEvent)
    : option WindowFocusInfo * list EventEnvelope :=
  run_list adapt_step last_focus raw.

(** ** What the consumers rely on *)

(** The envelopes of one raw event carry its id and time, fit their kind, are not
    derived, and are no lock signals. *)
Definition adapted (e : RawEvent) (v : EventEnvelope) : Prop :=
  env_id v = raw_event_id e /\ env_timestamp v = raw_timestamp e /\ env_fits v /\
  env_derived v = false /\ lock_signal v = false.

Lemma focus_burst_adapted id ts k cur :
  k = AppChanged \/ k = WindowChanged ->
  Forall (adapted (RawWindowFocusChange ts id cur)) (focus_burst id ts k cur).
Proof.
  intros Hk. unfold focus_burst. destruct (is_login_app _); cbn;
    repeat constructor; cbn; destruct Hk; subst; done.
Qed.

Lemma adapt_step_adapted f e : Forall (adapted e) (adapt_step f e).2.
Proof.
  destruct e as [ts id d|ts id d|ts id cur]; cbn; [by repeat constructor..|].
  unfold adapt_focus. destruct f as [last|]; [|auto using focus_burst_adapted].
  split_matches; auto using focus_burst_adapted; by repeat constructor.
Qed.

(** The focus a stream of raw events ends with. *)
Definition focus_of (e : RawEvent) : option WindowFocusInfo :=
  match e with RawWindowFocusChange _ _ f => Some f | _ => None end.

(** Identity of an application instance, and of a window of it. *)
Definition same_app (a b : WindowFocusInfo) : Prop :=
  pid a = pid b /\ process_start_time a = process_start_time b /\ app_name a = app_name b.
Definition same_window (a b : WindowFocusInfo) : Prop :=
  same_app a b /\ window_id a = window_id b.

#[export] Instance same_app_dec a b : Decision (same_app a b).
Proof. unfold same_app. apply _. Defined.
#[export] Instance same_app_equiv : Equivalence same_app.
Proof. split; red; unfold same_app; intros; destruct_and?; repeat split; congruence. Qed.

(** The kinds of the envelopes a focus event must produce after [last]. *)
Definition expected_kinds (last : option WindowFocusInfo) (cur : WindowFocusInfo)
    : list EventKind :=
  let pulse := if is_login_app (app_name cur) then [] else [Signal ActivityPulse] in
  match last with
  | Some l =>
      if decide (same_app l cur) then
        if decide (window_id l = window_id cur) then
          if decide (window_title l = window_title cur) then [] else [Hint TitleChanged]
        else Signal WindowChanged :: Hint FocusChanged :: pulse
      else Signal AppChanged :: Hint FocusChanged :: pulse
  | None => Signal AppChanged :: Hint FocusChanged :: pulse
  end.

Lemma app_test_same last cur :
  negb (pid last =? pid cur) || negb (process_start_time last =? process_start_time cur)
    || bool_decide (app_name last <> app_name cur) = negb (bool_decide (same_app last cur)).
Proof.
  unfold same_app. repeat case_bool_decide;
    destruct (Z.eqb_spec (pid last) (pid cur));
    destruct (Z.eqb_spec (process_start_time last) (process_start_time cur));
    cbn; try done; naive_solver.
Qed.

Lemma focus_burst_kinds id ts k cur :
  map env_kind (focus_burst id ts k cur)
    = Signal k :: Hint FocusChanged ::
      (if is_login_app (app_name cur) then [] else [Signal ActivityPulse]).
Proof. unfold focus_burst. by destruct (is_login_app _). Qed.

Lemma adapt_focus_kinds last id ts cur :
  map env_kind (adapt_focus last id ts cur) = expected_kinds last cur.
Proof.
  unfold adapt_focus, expected_kinds. destruct last as [l|]; [|apply focus_burst_kinds].
  rewrite app_test_same. case_bool_decide; rewrite ?decide_True, ?decide_False by done; cbn;
    [|apply focus_burst_kinds].
  destruct (Z.eqb_spec (window_id l) (window_id cur)); cbn;
    rewrite ?decide_True, ?decide_False by done; [|apply focus_burst_kinds].
  by repeat case_decide; case_bool_decide.
Qed.

(** The newest focus of a stream of raw events that started with focus [f]. *)
Definition newest_focus (f : option WindowFocusInfo) (raw : list RawEvent)
    : option WindowFocusInfo :=
  match last (omap focus_of raw) with Some x => Some x | None => f end.

Lemma adapt_batch_focus f raw : (adapt_batch f raw).1 = newest_focus f raw.
Proof.
  unfold newest_focus, adapt_batch. revert f. induction raw as [|e raw IH]; intros f; [done|]. cbn [run_list].
  specialize (IH (adapt_step f e).1).
  destruct (adapt_step f e) as [f1 o1] eqn:He. cbn [fst] in IH.
  destruct (run_list adapt_step f1 raw) as [f2 o2]. cbn in *. subst.
  destruct e; cbn in *; simplify_eq; try done.
  by destruct (last (omap focus_of raw)) eqn:Hl; rewrite last_cons, Hl.
Qed.

(** The adapter handles every raw event on its own, in order: the envelopes of
    a batch are the concatenation of well-shaped groups, one per raw event, each
    envelope with that event's id and time; a key or mouse event gives exactly its
    signal, a focus event the kinds its comparison with the last focus calls for
    (another application, another window, another title, nothing new). *)
Theorem adapt_batch_spec f raw :
  exists groups,
    (adapt_batch f raw).2 = concat groups /\
    Forall2 (fun e g => Forall (adapted e) g) raw groups /\
    forall i e g, raw !! i = Some e -> groups !! i = Some g ->
      match e with
      | RawKeyboardInput _ _ d => map env_kind g = [Signal KeyboardInput]
      | RawMouseInput _ _ d => map env_kind g = [Signal MouseInput]
      | RawWindowFocusChange _ _ cur =>
          map env_kind g = expected_kinds (newest_focus f (take i raw)) cur
      end.
Proof.
  revert f. induction raw as [|e raw IH]; intros f.
  { exists []. repeat split; [constructor|]. intros i ?? Hi. by rewrite lookup_nil in Hi. }
  destruct (IH (adapt_step f e).1) as (gs&Hgs&Hall&Hk).
  exists ((adapt_step f e).2 :: gs). repeat split.
  - unfold adapt_batch in *. cbn [run_list concat].
    destruct (adapt_step f e) as [f1 o1]; cbn [fst snd] in *.
    destruct (run_list adapt_step f1 raw); cbn in *. by rewrite Hgs.
  - constructor; [apply adapt_step_adapted|done].
  - intros [|i] e' g He Hg; cbn in He, Hg; simplify_eq.
    + destruct e'; try done. apply adapt_focus_kinds.
    + specialize (Hk i e' g He Hg). destruct e'; try done. rewrite Hk. f_equal.
      rewrite <- !adapt_batch_focus. unfold adapt_batch. cbn [take run_list].
      destruct (adapt_step f e) as [f1 o1]; cbn [fst].
      by destruct (run_list adapt_step f1 (take i raw)).
Qed.
