(* ===== verification/Interner.v ===== *)
(** The string interner of [crates/common/src/interner.rs]: weak references to
    shared strings, with the reference counts of the [Arc]s it hands out. *)
From S2P Require Import Prelude.

(** ** The interface to the clients

    A client only reads the text of what it interns. *)
Class TitleInterner (I : Type) := { intern_text : I -> string -> I * string }.
Class TitleInternerLaws (I : Type) `{TitleInterner I} (ok : I -> Prop) : Prop := {
  intern_text_ok st s : ok st -> ok (intern_text st s).1;
  intern_text_text st s : ok st -> (intern_text st s).2 = s
}.

Module StringInterner.

(** ** Reference counted strings

    The heap of [Arc<String>]s: an address holds its text and its strong count.
    An [Arc] is an address; dropping one lowers the count, and at zero a [Weak]
    no longer upgrades. *)
Record arc_heap := { arcs : gmap Z (string * Z); next_addr : Z }.

Definition strong_count (h : arc_heap) (a : Z) : Z :=
  match arcs h !! a with Some (_, n) => n | None => 0 end.

Definition text_of (h : arc_heap) (a : Z) : option string := fst <$> arcs h !! a.

Definition set_count (h : arc_heap) (a : Z) (f : Z -> Z) : arc_heap :=
  {| arcs := alter (fun '(s, n) => (s, f n)) a (arcs h); next_addr := next_addr h |}.

(** [Weak::upgrade]. *)
Definition upgrade (h : arc_heap) (a : Z) : option arc_heap :=
  if 0 <? strong_count h a then Some (set_count h a (fun n => n + 1)) else None.

(** [Arc::new]. *)
Definition arc_new (h : arc_heap) (s : string) : arc_heap * Z :=
  ({| arcs := <[next_addr h := (s, 1)]> (arcs h); next_addr := next_addr h + 1 |},
   next_addr h).

(** A clone of an [Arc] goes out of scope. *)
Definition arc_drop (h : arc_heap) (a : Z) : arc_heap := set_count h a (fun n => n - 1).

(** ** The interner *)
Record StringInterner := { map : gmap string Z; max_entries : Z }.

Definition new : StringInterner := {| map := ∅; max_entries := 4096 |}.

Definition live (h : arc_heap) (m : gmap string Z) : gmap string Z :=
  filter (fun kv => 0 < strong_count h kv.2) m.

Definition cleanup_dead_references (st : StringInterner) (h : arc_heap) : StringInterner :=
  let m := live h (map st) in
  {| map := if max_entries st <=? Z.of_nat (size m) then ∅ else m;
     max_entries := max_entries st |}.

Definition intern (st : StringInterner) (h : arc_heap) (s : string)
    : StringInterner * arc_heap * Z :=
  let st := cleanup_dead_references st h in
  let fresh :=
    let st :=
      if max_entries st <=? Z.of_nat (size (map st))
      then cleanup_dead_references st h else st in
    let '(h', a) := arc_new h s in
    ({| map := <[s := a]> (map st); max_entries := max_entries st |}, h', a) in
  match map st !! s with
  | Some a =>
      match upgrade h a with
      | Some h' => (st, h', a)
      | None => fresh
      end
  | None => fresh
  end.

(** ** Invariant

    Every entry points to an allocated string equal to its key, counts are not
    negative, and the table stays within its limit. *)
Record interner_ok (st : StringInterner) (h : arc_heap) : Prop := {
  ok_entry s a : map st !! s = Some a -> text_of h a = Some s;
  ok_alloc a x : arcs h !! a = Some x -> a < next_addr h /\ 0 <= x.2;
  ok_size : Z.of_nat (size (map st)) <= max_entries st;
  ok_limit : 0 < max_entries st
}.

Lemma live_subseteq h m : live h m ⊆ m.
Proof. apply map_filter_subseteq. Qed.

Lemma size_subseteq (m1 m2 : gmap string Z) : m1 ⊆ m2 -> (size m1 <= size m2)%nat.
Proof.
  intros Hs. rewrite <- !size_dom. apply subseteq_size. by apply subseteq_dom.
Qed.

Lemma cleanup_map st h s a :
  map (cleanup_dead_references st h) !! s = Some a ->
  map st !! s = Some a /\ 0 < strong_count h a.
Proof.
  unfold cleanup_dead_references; cbn. destruct (_ <=? _); [by rewrite lookup_empty|].
  unfold live. rewrite map_lookup_filter_Some. done.
Qed.

Lemma cleanup_room st h : 0 < max_entries st ->
  Z.of_nat (size (map (cleanup_dead_references st h))) < max_entries st.
Proof.
  intros Hm. unfold cleanup_dead_references; cbn. destruct (Z.leb_spec (max_entries st)
    (Z.of_nat (size (live h (map st))))); [by rewrite map_size_empty|lia].
Qed.

Lemma cleanup_ok st h : interner_ok st h -> interner_ok (cleanup_dead_references st h) h.
Proof.
  intros [He Ha Hs Hl]. pose proof (cleanup_room st h Hl).
  split; [|done|cbn in *; lia|done]. intros s a [Hsa _]%cleanup_map. eauto.
Qed.

Lemma intern_cases st h s :
  interner_ok st h ->
  let st1 := cleanup_dead_references st h in
  (exists a, map st1 !! s = Some a /\
     intern st h s = (st1, set_count h a (fun n => n + 1), a)) \/
  (map st1 !! s = None /\
     intern st h s =
       ({| map := <[s := next_addr h]> (map st1); max_entries := max_entries st |},
        (arc_new h s).1, next_addr h)).
Proof.
  intros [_ _ _ Hl] st1. unfold intern. fold st1.
  pose proof (cleanup_room st h Hl) as Hroom. fold st1 in Hroom.
  destruct (map st1 !! s) as [a|] eqn:Hs.
  - left. exists a. split; [done|]. apply cleanup_map in Hs as [_ Hc].
    unfold upgrade. by rewrite (proj2 (Z.ltb_lt _ _) Hc).
  - right. split; [done|]. change (max_entries st1) with (max_entries st).
    by rewrite (proj2 (Z.leb_gt _ _) Hroom).
Qed.

Lemma text_of_set_count h a f b : text_of (set_count h a f) b = text_of h b.
Proof.
  unfold text_of, set_count; cbn. destruct (decide (a = b)) as [->|].
  - rewrite lookup_alter_eq. by destruct (arcs h !! b) as [[]|].
  - by rewrite lookup_alter_ne.
Qed.

Lemma strong_count_set_count h a f b :
  strong_count (set_count h a f) b =
    match arcs h !! b with
    | Some (_, n) => if decide (a = b) then f n else n
    | None => 0
    end.
Proof.
  unfold strong_count, set_count; cbn. case_decide; subst.
  - rewrite lookup_alter_eq. by destruct (arcs h !! b) as [[]|].
  - by rewrite lookup_alter_ne.
Qed.

Lemma set_count_ok st h a f :
  (forall s n, arcs h !! a = Some (s, n) -> 0 <= n -> 0 <= f n) ->
  interner_ok st h -> interner_ok st (set_count h a f).
Proof.
  intros Hf [He Ha Hs Hl]. split; [|intros b x|done|done].
  - intros s b. rewrite text_of_set_count. apply He.
  - unfold set_count; cbn. destruct (decide (a = b)) as [->|].
    + rewrite lookup_alter_eq. destruct (arcs h !! b) as [[s n]|] eqn:Hb; cbn; [|done].
      intros [= <-]. destruct (Ha b _ Hb). cbn in *. eauto.
    + rewrite lookup_alter_ne by done. eauto.
Qed.

Lemma intern_ok st h s :
  interner_ok st h ->
  let '(st', h', a) := intern st h s in
  interner_ok st' h' /\ text_of h' a = Some s /\
  (forall b, strong_count h' b = strong_count h b + if decide (b = a) then 1 else 0) /\
  (forall b t, text_of h b = Some t -> text_of h' b = Some t).
Proof.
  intros Hok. pose proof (cleanup_ok st h Hok) as Hok1.
  destruct (intern_cases st h s Hok) as [(a&Ha&->)|(Hn&->)].
  - split; [apply set_count_ok; [lia|done]|].
    split; [rewrite text_of_set_count; by eapply ok_entry|]. split.
    + intros b. rewrite strong_count_set_count.
      pose proof (ok_entry _ _ Hok1 _ _ Ha) as Ht. unfold text_of, strong_count in *.
      destruct (decide (b = a)) as [->|].
      * destruct (arcs h !! a) as [[]|]; [by rewrite decide_True|done].
      * destruct (arcs h !! b) as [[]|]; [rewrite decide_False by done; lia|done].
    + intros b t. by rewrite text_of_set_count.
  - pose proof (cleanup_room st h (ok_limit _ _ Hok)) as Hroom.
    assert (forall b x, arcs h !! b = Some x -> b <> next_addr h) as Hfresh.
    { intros b x Hb. destruct (ok_alloc _ _ Hok b x Hb). lia. }
    unfold arc_new; cbn [fst]. split; [|split; [|split]].
    + split; cbn [map max_entries arcs next_addr].
      * intros t b. rewrite lookup_insert_Some. unfold text_of; cbn.
        intros [[<- <-]|[_ Hb]]; [by rewrite lookup_insert_eq|].
        apply (ok_entry _ _ Hok1) in Hb. unfold text_of in Hb.
        destruct (arcs h !! b) as [x|] eqn:Hx; [|done].
        rewrite lookup_insert_ne by (by intros <-; apply (Hfresh _ _ Hx)).
        by rewrite Hx.
      * intros b x. rewrite lookup_insert_Some. intros [[<- <-]|[_ Hb]]; cbn; [lia|].
        destruct (ok_alloc _ _ Hok _ _ Hb). lia.
      * rewrite map_size_insert, Hn. lia.
      * apply (ok_limit _ _ Hok).
    + unfold text_of; cbn. by rewrite lookup_insert_eq.
    + intros b. unfold strong_count; cbn. case_decide as Hb; subst.
      * rewrite lookup_insert_eq. destruct (arcs h !! next_addr h) eqn:Hx; [|done].
        by apply Hfresh in Hx.
      * rewrite lookup_insert_ne by done. lia.
    + intros b t. unfold text_of; cbn. destruct (arcs h !! b) as [x|] eqn:Hx; [|done].
      rewrite lookup_insert_ne by (by intros <-; apply (Hfresh _ _ Hx)). by rewrite Hx.
Qed.

#[global] Instance interner_titles : TitleInterner (StringInterner * arc_heap) := {|
  intern_text st s :=
    let '(st', h', a) := intern st.1 st.2 s in ((st', h'), default "" (text_of h' a))
|}.

#[global] Instance interner_titles_laws :
  TitleInternerLaws (StringInterner * arc_heap) (fun st => interner_ok st.1 st.2).
Proof.
  split; intros [st h] s Hok; cbn; pose proof (intern_ok st h s Hok) as Hi;
    destruct (intern st h s) as [[st' h'] a]; destruct Hi as (?&Ht&_&_); cbn; [done|].
  by rewrite Ht.
Qed.

(** ** Theorem *)

(** On a consistent table and heap, [intern] keeps them consistent (at most
    [max_entries] strings, each entry pointing to its own text), returns a live
    reference to exactly the string asked for, takes one strong count on it and none
    on any other, and when the table holds a live entry for the string and fewer
    than [max_entries] live ones it returns that very reference. *)
Theorem intern_correct st h s :
  interner_ok st h ->
  let '(st', h', a) := intern st h s in
  interner_ok st' h' /\ text_of h' a = Some s /\ 0 < strong_count h' a /\
  (forall b, strong_count h' b = strong_count h b + if decide (b = a) then 1 else 0) /\
  (forall b, map st !! s = Some b -> 0 < strong_count h b ->
     Z.of_nat (size (live h (map st))) < max_entries st ->
     a = b /\ map st' !! s = Some b).
Proof.
  intros Hok. pose proof (intern_ok st h s Hok) as Hi.
  pose proof (intern_cases st h s Hok) as Hc.
  destruct (intern st h s) as [[st' h'] a]. destruct Hi as (Hok'&Ht&Hs&_).
  split; [done|]. split; [done|]. split; [|split; [done|]].
  - rewrite Hs, decide_True by done.
    enough (0 <= strong_count h a) by lia. unfold strong_count.
    destruct (arcs h !! a) as [[t n]|] eqn:Ha; [|done]. by apply (ok_alloc _ _ Hok) in Ha as [_ ?].
  - intros b Hb Hlive Hroom.
    assert (map (cleanup_dead_references st h) !! s = Some b) as Hb1.
    { unfold cleanup_dead_references; cbn. rewrite (proj2 (Z.leb_gt _ _)) by lia.
      unfold live. by rewrite map_lookup_filter_Some. }
    destruct Hc as [(c&Hc&[= -> -> ->])|(Hc&_)]; simplify_eq; done.
Qed.

(** Interning a title twice gives the same reference. *)
Lemma intern_correct_witness :
  let h0 := {| arcs := {[ 5 := ("mail", 1) ]}; next_addr := 6 |} in
  let st0 := {| map := {[ "mail" := 5 ]}; max_entries := 4096 |} in
  (intern st0 h0 "mail").2 = 5 /\ text_of (intern st0 h0 "mail").1.2 5 = Some "mail".
Proof.
  intros h0 st0.
  assert (interner_ok st0 h0) as Hok.
  { split; [| |vm_compute; congruence|done].
    - intros s a. cbn. rewrite lookup_singleton_Some. intros [<- <-]. reflexivity.
    - intros a x. cbn. rewrite lookup_singleton_Some. intros [<- <-]. cbn. lia. }
  pose proof (intern_correct st0 h0 "mail" Hok) as Hi.
  destruct (intern st0 h0 "mail") as [[st' h'] a]. cbn.
  destruct Hi as (_&Ht&_&_&Hd).
  destruct (Hd 5 eq_refl eq_refl eq_refl) as [-> _]. done.
Defined.

End StringInterner.
