(* ===== verification/Lru.v ===== *)
(** The LRU cache of [crates/common/src/lru.rs].  The clock ([Instant::now()]) is
    an argument of each operation, and the table is iterated in an unspecified
    order. *)
From S2P Require Import Prelude.

Module LruCache.
Section lru.
Context `{HashOrder} {K V : Type} `{Countable K}.

Record LruCache := { map : gmap K (V * instant); capacity : Z; ttl : option duration }.

Definition with_capacity (cap : Z) : LruCache :=
  {| map := ∅; capacity := Z.max cap 1; ttl := None |}.
Definition with_capacity_and_ttl (cap : Z) (t : duration) : LruCache :=
  {| map := ∅; capacity := Z.max cap 1; ttl := Some t |}.

Definition len (c : LruCache) : Z := Z.of_nat (size (map c)).

Definition set_map (c : LruCache) (m : gmap K (V * instant)) : LruCache :=
  {| map := m; capacity := capacity c; ttl := ttl c |}.

(** [now.duration_since(ts) > ttl]; [duration_since] saturates at zero. *)
Definition expired (c : LruCache) (now ts : instant) : bool :=
  match ttl c with
  | Some t => t <? Z.max 0 (now - ts)
  | None => false
  end.

Definition get_cloned (c : LruCache) (now : instant) (key : K) : LruCache * option V :=
  match map c !! key with
  | Some (v, ts) =>
      if expired c now ts then (set_map c (delete key (map c)), None)
      else (set_map c (<[key := (v, now)]> (map c)), Some v)
  | None => (c, None)
  end.

(** [Iterator::min_by_key]: the first of the entries with the least time. *)
Definition older (a b : K * (V * instant)) : K * (V * instant) :=
  if a.2.2 <=? b.2.2 then a else b.
Definition oldest (l : list (K * (V * instant))) : option (K * (V * instant)) :=
  match l with
  | [] => None
  | x :: l' => Some (fold_left older l' x)
  end.

Definition evict_if_needed (c : LruCache) : LruCache :=
  if Z.of_nat (size (map c)) <=? capacity c then c
  else
    match oldest (hash_order (map_to_list (map c))) with
    | Some (k, _) => set_map c (delete k (map c))
    | None => c
    end.

Definition put (c : LruCache) (now : instant) (key : K) (value : V) : LruCache :=
  evict_if_needed (set_map c (<[key := (value, now)]> (map c))).

(** [any_entry_matches]: the scan stops at the first match; only a scan without
    one drops the expired entries. *)
Fixpoint scan (c : LruCache) (now : instant) (p : K -> V -> bool)
    (l : list (K * (V * instant))) (expired_keys : list K) : bool * list K :=
  match l with
  | [] => (false, expired_keys)
  | (k, (v, ts)) :: l' =>
      if expired c now ts then scan c now p l' (expired_keys ++ [k])
      else if p k v then (true, expired_keys)
      else scan c now p l' expired_keys
  end.

Definition any_entry_matches (c : LruCache) (now : instant) (p : K -> V -> bool)
    : LruCache * bool :=
  let '(found, expired_keys) := scan c now p (hash_order (map_to_list (map c))) [] in
  if found then (c, true)
  else (set_map c (foldl (fun m k => delete k m) (map c) expired_keys), false).

(** ** Lemmas *)

Lemma oldest_spec l x :
  oldest l = Some x -> x ∈ l /\ forall y, y ∈ l -> x.2.2 <= y.2.2.
Proof.
  destruct l as [|z l]; [done|]. cbn. intros [= <-].
  revert z. induction l as [|y l IH]; intros z; cbn.
  - split; [by left|]. intros y [->|[]%not_elem_of_nil]%elem_of_cons. lia.
  - destruct (IH (older z y)) as [Hin Hmin].
    assert (older z y = z \/ older z y = y) as Hor
      by (unfold older; destruct (_ <=? _); auto).
    assert ((older z y).2.2 <= z.2.2 /\ (older z y).2.2 <= y.2.2)
      by (unfold older; destruct (Z.leb_spec z.2.2 y.2.2); lia).
    specialize (Hmin (older z y)) as Hself. split.
    + rewrite !elem_of_cons in *. destruct Hin as [->|]; [|tauto].
      destruct Hor as [->| ->]; tauto.
    + pose proof (Hmin (older z y) ltac:(by left)) as Hle.
      intros w [->|[->|Hw]%elem_of_cons]%elem_of_cons; [lia|lia|].
      apply Hmin. by right.
Qed.

Lemma oldest_Some l : l <> [] -> is_Some (oldest l).
Proof. destruct l; [done|]. cbn. eauto. Qed.

(** What eviction does, when it is needed. *)
Lemma evict_spec c :
  capacity c < Z.of_nat (size (map c)) -> 0 <= capacity c ->
  exists k v ts, map c !! k = Some (v, ts) /\
    (forall k' v' ts', map c !! k' = Some (v', ts') -> ts <= ts') /\
    evict_if_needed c = set_map c (delete k (map c)).
Proof.
  intros Hc Hpos. unfold evict_if_needed. rewrite (proj2 (Z.leb_gt _ _) Hc).
  destruct (oldest_Some (hash_order (map_to_list (map c)))) as [[k [v ts]] Hk].
  { intros Hn%hash_map_nil. rewrite Hn, map_size_empty in Hc. lia. }
  rewrite Hk. apply oldest_spec in Hk as [Hin Hmin]. exists k, v, ts.
  split; [by apply hash_map_elem|]. split; [|done].
  intros k' v' ts' Hk'. apply hash_map_elem in Hk'. apply (Hmin _ Hk').
Qed.

Lemma size_insert_le (m : gmap K (V * instant)) k x :
  (size (<[k := x]> m) <= S (size m))%nat.
Proof. rewrite map_size_insert. destruct (m !! k); cbn; lia. Qed.

(** ** Theorems *)

(** The bound every operation keeps. *)
Definition within (c : LruCache) : Prop := 1 <= capacity c /\ len c <= capacity c.

Inductive op := Get (k : K) | Put (k : K) (v : V) | AnyMatch (p : K -> V -> bool).
Definition apply_op (c : LruCache) (x : instant * op) : LruCache :=
  match x.2 with
  | Get k => (get_cloned c x.1 k).1
  | Put k v => put c x.1 k v
  | AnyMatch p => (any_entry_matches c x.1 p).1
  end.

Lemma delete_all_size (m : gmap K (V * instant)) ks :
  (size (foldl (fun m k => delete k m) m ks) <= size m)%nat.
Proof.
  revert m. induction ks as [|k ks IH]; intros m; [done|]. cbn.
  etrans; [apply IH|]. rewrite map_size_delete. destruct (m !! k); cbn; lia.
Qed.

Lemma apply_op_within c x : within c -> within (apply_op c x).
Proof.
  unfold within, len. intros [Hcap Hsz]. destruct x as [now [k|k v|p]]; cbn.
  - unfold get_cloned. destruct (map c !! k) as [[v ts]|] eqn:Hk; [|done].
    destruct (expired c now ts); cbn; split; try done.
    + rewrite map_size_delete, Hk. cbn. lia.
    + rewrite map_size_insert, Hk. cbn. lia.
  - unfold put. set (c1 := set_map c _).
    destruct (Z.leb_spec (Z.of_nat (size (map c1))) (capacity c1)) as [Hle|Hgt].
    { unfold evict_if_needed. by rewrite (proj2 (Z.leb_le _ _) Hle). }
    destruct (evict_spec c1 Hgt) as (kx&vx&tx&Hkx&_&->); [cbn; lia|].
    split; [done|]. subst c1. cbn in *. rewrite map_size_delete, Hkx.
    pose proof (size_insert_le (map c) k (v, now)). lia.
  - unfold any_entry_matches. destruct (scan _ _ _ _ _) as [[] ks]; [done|].
    split; [done|]. cbn. pose proof (delete_all_size (map c) ks). lia.
Qed.

(** Whatever the clock and the operations, the cache never holds more entries
    than its capacity. *)
Theorem lru_within_capacity c ops :
  within c -> within (foldl apply_op c ops).
Proof.
  revert c. induction ops as [|x ops IH]; intros c Hc; [done|]. cbn.
  apply IH. by apply apply_op_within.
Qed.

(** A [put] at a time later than every stored one keeps the new entry (it is
    what a [get] then returns, unless the time to live has passed) and, of the
    others, drops at most one, which is no newer than any it keeps; nothing is
    dropped while there is room. *)
Theorem put_spec c now key value :
  1 <= capacity c -> len c <= capacity c ->
  (forall k v ts, map c !! k = Some (v, ts) -> ts < now) ->
  let c' := put c now key value in
  (get_cloned c' now key).2 = (if expired c now now then None else Some value) /\
  exists victim : option K,
    map c' = from_option (fun k => delete k) id victim (<[key := (value, now)]> (map c)) /\
    (len c + (match map c !! key with Some _ => 0 | None => 1 end) <= capacity c -> victim = None) /\
    forall k, victim = Some k -> k <> key /\ exists v ts, map c !! k = Some (v, ts) /\
      forall k' v' ts', map c' !! k' = Some (v', ts') -> ts <= ts'.
Proof.
  intros Hc Hlen Hnew c'. subst c'. unfold put, len in *. set (c1 := set_map c _).
  assert (exists victim : option K,
    map (evict_if_needed c1)
      = from_option (fun k => delete k) id victim (<[key := (value, now)]> (map c)) /\
    (Z.of_nat (size (map c)) + (match map c !! key with Some _ => 0 | None => 1 end) <= capacity c ->
      victim = None) /\
    forall k, victim = Some k -> k <> key /\ exists v ts, map c !! k = Some (v, ts) /\
      forall k' v' ts', map (evict_if_needed c1) !! k' = Some (v', ts') -> ts <= ts')
    as (victim&Hm&Hroom&Hv).
  { destruct (Z.leb_spec (Z.of_nat (size (map c1))) (capacity c1)) as [Hle|Hgt].
    { exists None. unfold evict_if_needed. by rewrite (proj2 (Z.leb_le _ _) Hle). }
    destruct (evict_spec c1 Hgt) as (kx&vx&tx&Hkx&Hmin&->); [cbn; lia|].
    exists (Some kx). cbn. split; [done|]. subst c1; cbn in *.
    rewrite map_size_insert in Hgt. split.
    { destruct (map c !! key); cbn in *; lia. }
    intros k [= <-]. assert (kx <> key) as Hne.
    { intros ->. rewrite lookup_insert_eq in Hkx. injection Hkx as <- <-.
      
      destruct (map c !! key) as [x|] eqn:Hx; cbn in Hgt; [lia|].
      destruct (map_choose (map c)) as (k0&[v0 t0]&Hk0).
      { intros He. rewrite He, map_size_empty in Hgt. lia. }
      pose proof (Hnew _ _ _ Hk0). specialize (Hmin k0 v0 t0).
      rewrite lookup_insert_ne in Hmin by (intros ->; congruence).
      specialize (Hmin Hk0). lia. }
    split; [done|]. rewrite lookup_insert_ne in Hkx by done. exists vx, tx. split; [done|].
    intros k' v' ts' [_ Hk']%lookup_delete_Some. by eapply Hmin. }
  split; [|by exists victim].
  assert (map (evict_if_needed c1) !! key = Some (value, now)) as Hk.
  { rewrite Hm. destruct victim as [k|]; cbn; [|apply lookup_insert_eq].
    destruct (Hv k eq_refl) as [Hne _]. by rewrite lookup_delete_ne, lookup_insert_eq. }
  unfold get_cloned. rewrite Hk.
  assert (expired (evict_if_needed c1) now now = expired c now now) as ->.
  { unfold evict_if_needed, expired. by split_matches. }
  by destruct (expired c now now).
Qed.

Lemma scan_spec c now p l ks :
  let r := scan c now p l ks in
  (r.1 = true <-> exists k v ts, (k, (v, ts)) ∈ l /\ expired c now ts = false /\ p k v = true) /\
  (r.1 = false -> r.2 = ks ++ (filter (fun x => expired c now x.2.2 = true) l).*1).
Proof.
  revert ks. induction l as [|[k [v ts]] l IH]; intros ks; cbn.
  { split; [split; [done|]|by rewrite app_nil_r]. by intros (?&?&?&?%elem_of_nil&_). }
  destruct (expired c now ts) eqn:He; [|destruct (p k v) eqn:Hp].
  - destruct (IH (ks ++ [k])) as [Hs1 Hs2]. split.
    + rewrite Hs1. split; intros (k'&v'&ts'&Hin&Hx&Hq); exists k', v', ts';
        (split; [|done]); [by right|]. apply elem_of_cons in Hin as [[= -> -> ->]|]; congruence.
    + intros Hf. rewrite (Hs2 Hf), <- (assoc_L (++)). cbn.
      by rewrite decide_True.
  - split; [|done]. split; [|done]. intros _. exists k, v, ts. split; [by left|done].
  - destruct (IH ks) as [Hs1 Hs2]. split.
    + rewrite Hs1. split; intros (k'&v'&ts'&Hin&Hx&Hq); exists k', v', ts';
        (split; [|done]); [by right|]. apply elem_of_cons in Hin as [[= -> -> ->]|]; congruence.
    + intros Hf. rewrite (Hs2 Hf). by rewrite decide_False by congruence.
Qed.

(** A scan without a match removes exactly the expired entries. *)
Lemma any_entry_matches_found c now p :
  (any_entry_matches c now p).2 = true <->
  exists k v ts, map c !! k = Some (v, ts) /\ expired c now ts = false /\ p k v = true.
Proof.
  unfold any_entry_matches.
  destruct (scan_spec c now p (hash_order (map_to_list (map c))) []) as [Hs1 _].
  destruct (scan _ _ _ _ _) as [found ks]; cbn in Hs1.
  transitivity (found = true); [by destruct found|]. rewrite Hs1.
  by setoid_rewrite hash_map_elem.
Qed.
End lru.

(** A cache of two entries that a third one overflows. *)
Definition demo_cache : @LruCache Z string _ _ :=
  {| map := {[ 1 := ("a", 10); 2 := ("b", 20) ]}; capacity := 2; ttl := Some 100 |}.

Lemma lru_within_capacity_witness :
  len (foldl (@apply_op hash_order_id _ _ _ _) demo_cache
    [(30, Get 1); (40, Put 3 "c"); (50, Put 4 "d")]) <= 2.
Proof.
  refine (proj2 (@lru_within_capacity hash_order_id Z string _ _ demo_cache
    [(30, Get 1); (40, Put 3 "c"); (50, Put 4 "d")] _)).
  split; vm_compute; congruence.
Defined.

Lemma put_spec_witness :
  map (@put hash_order_id _ _ _ _ demo_cache 40 3 "c") !! 1 = None /\
  (get_cloned (@put hash_order_id _ _ _ _ demo_cache 40 3 "c") 40 3).2 = Some "c".
Proof.
  split; [reflexivity|].
  refine (eq_trans (proj1 (@put_spec hash_order_id Z string _ _ demo_cache 40 3 "c" _ _ _)) _).
  - vm_compute. congruence.
  - vm_compute. congruence.
  - intros k v ts. cbn. rewrite lookup_insert_Some, lookup_singleton_Some. intros Hk.
    destruct Hk as [[_ [= _ <-]]|[_ [_ [= _ <-]]]]; lia.
  - reflexivity.
Defined.
End LruCache.
