(* ===== verification/Focus.v ===== *)
(** The focus worker of src/daemon/tracker/focus.rs: its state, the monad its loop
    body runs in, and the closures over its caches.  FocusWorker has the loop. *)
From S2P Require Import Prelude Events Lru Interner.

Module Focus.
Import LruCache.

(** ** Data *)

Definition LOGINWINDOW_APP : string := "loginwindow".
Definition LOGINWINDOW_WINDOW_ID : Z := 2 ^ 32 - 1.
Definition POLL_SUSPEND_MS : Z := 0.
Definition UNKNOWN_WINDOW_TITLE : string := "-".

Record FocusCacheCaps := {
  pid_cache_capacity : Z;
  title_cache_capacity : Z;
  title_cache_ttl_secs : Z;
  focus_window_coalesce_ms : Z;
  focus_allow_zero_window_id : bool
}.

Record FocusState := MkState {
  s_app_name : string;
  s_pid : Z;
  s_window_title : string;
  s_window_id : Z;
  s_window_instance_start : instant;
  s_process_start_time : Z;
  s_last_app_update : instant;
  s_last_window_update : instant
}.

(** What the window system reports about the active window: the fields of
    [winshift::ActiveWindowInfo] the worker reads. *)
Record ActiveWindowInfo := {
  i_app_name : string;
  i_process_id : Z;
  i_title : string;
  i_window_id : Z
}.

Inductive FocusMsg :=
  | AppChange (pid : Z) (app_name : string)
  | WindowChange (window_title : string)
  | AppChangeInfo (info : ActiveWindowInfo)
  | WindowChangeInfo (info : ActiveWindowInfo)
  | Stop.

Inductive ReconcileSource := Pending | Cached.
Inductive ReconcileDecision :=
  | Accept (value : string) (source : ReconcileSource)
  | Hold (value : string).

(** ** The outside

    The monotone clock and the UTC clock are streams of readings; [process_start k p]
    is what the [k]-th look at the process table says about process [p].  The start of
    a process is a [u64], here a natural number. *)
Class FocusEnv := {
  mono : nat -> instant;
  utc : nat -> instant;
  process_start : nat -> Z -> option N;
  caps : FocusCacheCaps
}.

Section worker.
Context `{HashOrder} `{Chrono} {I : Type} `{TitleInterner I} `{FocusEnv}.

(** The local variables of the loop, in three groups: the focus, the flags and
    deadlines, and the caches with the effects on the outside (the readings made so
    far and, newest last, the focuses handed to the callback). *)
Record Flags := MkFlags {
  poll_lock_active : bool;
  poll_lock_since : option instant;
  coalesce_until : option instant;
  pending_window_title : option string;
  last_app_before_change : option string;
  awaiting_poll_reconcile : bool;
  reconcile_active : bool;
  emit_seq : Z;
  scheduled_emit_at : option instant
}.

Record Io := MkIo {
  pid_cache : @LruCache Z N _ _;
  last_titles : @LruCache Z string _ _;
  last_app_window : @LruCache string (string * Z) _ _;
  weak_app_window : @LruCache string (string * Z) _ _;
  interner : I;
  mono_read : nat;
  utc_read : nat;
  process_read : nat;
  emitted : list WindowFocusInfo
}.

Record Worker := MkWorker { state : FocusState; flags : Flags; io : Io }.

(** ** The monad *)
Definition M (A : Type) : Type := Worker -> A * Worker.
#[global] Instance M_ret : MRet M := fun A x w => (x, w).
#[global] Instance M_bind : MBind M := fun A B f m w => let '(x, w') := m w in f x w'.

Definition get_state : M FocusState := fun w => (state w, w).
Definition get_flags : M Flags := fun w => (flags w, w).
Definition modify_state (f : FocusState -> FocusState) : M unit :=
  fun w => ((), MkWorker (f (state w)) (flags w) (io w)).
Definition modify_flags (f : Flags -> Flags) : M unit :=
  fun w => ((), MkWorker (state w) (f (flags w)) (io w)).
(** An operation of one of the caches, or of the outside. *)
Definition on_io {A} (f : Io -> A * Io) : M A :=
  fun w => let '(x, i) := f (io w) in (x, MkWorker (state w) (flags w) i).

Definition put_app_name (v : string) (s : FocusState) : FocusState :=
  MkState v (s_pid s) (s_window_title s) (s_window_id s) (s_window_instance_start s)
    (s_process_start_time s) (s_last_app_update s) (s_last_window_update s).
Definition put_pid (v : Z) (s : FocusState) : FocusState :=
  MkState (s_app_name s) v (s_window_title s) (s_window_id s) (s_window_instance_start s)
    (s_process_start_time s) (s_last_app_update s) (s_last_window_update s).
Definition put_title (v : string) (s : FocusState) : FocusState :=
  MkState (s_app_name s) (s_pid s) v (s_window_id s) (s_window_instance_start s)
    (s_process_start_time s) (s_last_app_update s) (s_last_window_update s).
Definition put_window_id (v : Z) (s : FocusState) : FocusState :=
  MkState (s_app_name s) (s_pid s) (s_window_title s) v (s_window_instance_start s)
    (s_process_start_time s) (s_last_app_update s) (s_last_window_update s).
Definition put_instance_start (v : instant) (s : FocusState) : FocusState :=
  MkState (s_app_name s) (s_pid s) (s_window_title s) (s_window_id s) v
    (s_process_start_time s) (s_last_app_update s) (s_last_window_update s).
Definition put_process_start (v : Z) (s : FocusState) : FocusState :=
  MkState (s_app_name s) (s_pid s) (s_window_title s) (s_window_id s)
    (s_window_instance_start s) v (s_last_app_update s) (s_last_window_update s).
Definition put_app_update (v : instant) (s : FocusState) : FocusState :=
  MkState (s_app_name s) (s_pid s) (s_window_title s) (s_window_id s)
    (s_window_instance_start s) (s_process_start_time s) v (s_last_window_update s).
Definition put_window_update (v : instant) (s : FocusState) : FocusState :=
  MkState (s_app_name s) (s_pid s) (s_window_title s) (s_window_id s)
    (s_window_instance_start s) (s_process_start_time s) (s_last_app_update s) v.

Definition put_lock (active : bool) (since : option instant) (f : Flags) : Flags :=
  MkFlags active since (coalesce_until f) (pending_window_title f)
    (last_app_before_change f) (awaiting_poll_reconcile f) (reconcile_active f)
    (emit_seq f) (scheduled_emit_at f).
Definition put_coalesce (v : option instant) (f : Flags) : Flags :=
  MkFlags (poll_lock_active f) (poll_lock_since f) v (pending_window_title f)
    (last_app_before_change f) (awaiting_poll_reconcile f) (reconcile_active f)
    (emit_seq f) (scheduled_emit_at f).
Definition put_pending (v : option string) (f : Flags) : Flags :=
  MkFlags (poll_lock_active f) (poll_lock_since f) (coalesce_until f) v
    (last_app_before_change f) (awaiting_poll_reconcile f) (reconcile_active f)
    (emit_seq f) (scheduled_emit_at f).
Definition put_last_app (v : option string) (f : Flags) : Flags :=
  MkFlags (poll_lock_active f) (poll_lock_since f) (coalesce_until f)
    (pending_window_title f) v (awaiting_poll_reconcile f) (reconcile_active f)
    (emit_seq f) (scheduled_emit_at f).
Definition put_awaiting (v : bool) (f : Flags) : Flags :=
  MkFlags (poll_lock_active f) (poll_lock_since f) (coalesce_until f)
    (pending_window_title f) (last_app_before_change f) v (reconcile_active f)
    (emit_seq f) (scheduled_emit_at f).
Definition put_reconcile (v : bool) (f : Flags) : Flags :=
  MkFlags (poll_lock_active f) (poll_lock_since f) (coalesce_until f)
    (pending_window_title f) (last_app_before_change f) (awaiting_poll_reconcile f) v
    (emit_seq f) (scheduled_emit_at f).
Definition put_emit_seq (v : Z) (f : Flags) : Flags :=
  MkFlags (poll_lock_active f) (poll_lock_since f) (coalesce_until f)
    (pending_window_title f) (last_app_before_change f) (awaiting_poll_reconcile f)
    (reconcile_active f) v (scheduled_emit_at f).
Definition put_scheduled (v : option instant) (f : Flags) : Flags :=
  MkFlags (poll_lock_active f) (poll_lock_since f) (coalesce_until f)
    (pending_window_title f) (last_app_before_change f) (awaiting_poll_reconcile f)
    (reconcile_active f) (emit_seq f) v.

(** The readings of the clocks, and the look at the process table
    ([System::refresh_processes_specifics], then [process(pid).start_time()]). *)
Definition instant_now_io (i : Io) : instant * Io :=
  (mono (mono_read i),
   MkIo (pid_cache i) (last_titles i) (last_app_window i) (weak_app_window i) (interner i)
     (S (mono_read i)) (utc_read i) (process_read i) (emitted i)).
Definition utc_now_io (i : Io) : instant * Io :=
  (utc (utc_read i),
   MkIo (pid_cache i) (last_titles i) (last_app_window i) (weak_app_window i) (interner i)
     (mono_read i) (S (utc_read i)) (process_read i) (emitted i)).
Definition process_io (pid : Z) (i : Io) : option N * Io :=
  (process_start (process_read i) (uw 64 pid),
   MkIo (pid_cache i) (last_titles i) (last_app_window i) (weak_app_window i) (interner i)
     (mono_read i) (utc_read i) (S (process_read i)) (emitted i)).

Definition instant_now : M instant := on_io instant_now_io.
Definition utc_now : M instant := on_io utc_now_io.
Definition look_up_process (pid : Z) : M (option N) := on_io (process_io pid).

Definition put_strong (c : LruCache) (i : Io) : Io :=
  MkIo (pid_cache i) (last_titles i) c (weak_app_window i) (interner i)
    (mono_read i) (utc_read i) (process_read i) (emitted i).
Definition put_weak (c : LruCache) (i : Io) : Io :=
  MkIo (pid_cache i) (last_titles i) (last_app_window i) c (interner i)
    (mono_read i) (utc_read i) (process_read i) (emitted i).
Definition put_last_titles (c : LruCache) (i : Io) : Io :=
  MkIo (pid_cache i) c (last_app_window i) (weak_app_window i) (interner i)
    (mono_read i) (utc_read i) (process_read i) (emitted i).
Definition put_pid_cache (c : LruCache) (i : Io) : Io :=
  MkIo c (last_titles i) (last_app_window i) (weak_app_window i) (interner i)
    (mono_read i) (utc_read i) (process_read i) (emitted i).

(** The callback, and the interner. *)
Definition push_emitted (f : WindowFocusInfo) (i : Io) : Io :=
  MkIo (pid_cache i) (last_titles i) (last_app_window i) (weak_app_window i) (interner i)
    (mono_read i) (utc_read i) (process_read i) (emitted i ++ [f]).
Definition put_interner (n : I) (i : Io) : Io :=
  MkIo (pid_cache i) (last_titles i) (last_app_window i) (weak_app_window i) n
    (mono_read i) (utc_read i) (process_read i) (emitted i).
Definition on_focus_change (f : WindowFocusInfo) : M unit :=
  on_io (fun i => ((), push_emitted f i)).
Definition intern (s : string) : M string :=
  on_io (fun i => let '(n, t) := intern_text (interner i) s in (t, put_interner n i)).

(** ** The focus *)
Definition new_state : M FocusState :=
  instance_start ← utc_now;
  app_update ← instant_now;
  window_update ← instant_now;
  mret (MkState "" 0 "" 0 instance_start 0 app_update window_update).

Definition is_empty (s : string) : bool := bool_decide (s = "").

Definition is_complete (s : FocusState) : bool :=
  negb (is_empty (s_app_name s)) && negb (is_empty (s_window_title s)) &&
  (0 <? s_pid s) && (0 <? s_window_id s) && (0 <? s_process_start_time s).

Definition can_emit (s : FocusState) : bool :=
  negb (is_empty (s_app_name s)) && negb (is_empty (s_window_title s)) &&
  (0 <? s_pid s) && (0 <? s_process_start_time s) &&
  (focus_allow_zero_window_id caps || (0 <? s_window_id s)).

Definition is_login_app (app : string) : bool := eq_ignore_ascii_case app LOGINWINDOW_APP.

Definition to_window_focus_info (s : FocusState) : M WindowFocusInfo :=
  app ← intern (s_app_name s);
  title ← intern (s_window_title s);
  mret {| pid := s_pid s; process_start_time := s_process_start_time s;
          app_name := app; window_title := title; window_id := s_window_id s;
          window_instance_start := s_window_instance_start s;
          window_position := None; window_size := None |}.

Definition get_process_start_time (pid : Z) : M N :=
  now ← instant_now;
  cached ← on_io (fun i =>
    let '(c, v) := get_cloned (pid_cache i) now pid in (v, put_pid_cache c i));
  match cached with
  | Some start_time => mret start_time
  | None =>
      process ← look_up_process pid;
      match process with
      | Some start_time =>
          now ← instant_now;
          on_io (fun i => ((), put_pid_cache (put (pid_cache i) now pid start_time) i));;
          mret start_time
      | None => mret 0%N
      end
  end.

Definition emit_loginwindow_focus : M unit :=
  now ← utc_now;
  app ← intern LOGINWINDOW_APP;
  title ← intern "Login";
  on_focus_change
    {| pid := 0; process_start_time := uw 64 (timestamp_millis now);
       app_name := app; window_title := title; window_id := LOGINWINDOW_WINDOW_ID;
       window_instance_start := now; window_position := None; window_size := None |}.

(** Both arms of the match on the old deadline give the new one. *)
Definition schedule_emit (delay_ms : Z) : M unit :=
  now ← instant_now;
  modify_flags (fun f =>
    let when := now + millis delay_ms in
    put_scheduled (Some match scheduled_emit_at f with
                        | Some existing => if existing <? when then when else when
                        | None => when
                        end) f).

(** ** The titles

    The two caches of titles: [Strong] is [last_app_window], what was emitted for an
    application; [Weak] is [weak_app_window], what was reported within two seconds. *)
Inductive which := Strong | Weak.
Definition cache_of (c : which) (i : Io) : LruCache :=
  match c with Strong => last_app_window i | Weak => weak_app_window i end.
Definition put_cache (c : which) (x : LruCache) (i : Io) : Io :=
  match c with Strong => put_strong x i | Weak => put_weak x i end.

Definition record_last_app_window (s : FocusState) : M unit :=
  if negb (is_empty (s_app_name s)) && negb (is_empty (s_window_title s)) &&
     negb (bool_decide (s_window_title s = UNKNOWN_WINDOW_TITLE))
  then
    now ← instant_now;
    on_io (fun i => ((), put_strong
      (put (last_app_window i) now (s_app_name s) (s_window_title s, s_window_id s)) i))
  else mret ().

Definition other_app_has (app title : string) (key : string) (v : string * Z) : bool :=
  negb (bool_decide (key = app)) && bool_decide (v.1 = title).

Definition title_matches_other_app (app title : string) (c : which) : M bool :=
  now ← instant_now;
  on_io (fun i =>
    let '(x, b) := any_entry_matches (cache_of c i) now (other_app_has app title) in
    (b, put_cache c x i)).

Definition title_matches_app (app title : string) (c : which) : M bool :=
  now ← instant_now;
  on_io (fun i =>
    let '(x, v) := get_cloned (cache_of c i) now app in
    (from_option (fun '(cached_title, _) => bool_decide (cached_title = title)) false v,
     put_cache c x i)).

Definition record_weak_title (app title : string) (wid : Z) : M unit :=
  if negb (is_empty app) && negb (is_empty title) &&
     negb (bool_decide (title = UNKNOWN_WINDOW_TITLE))
  then
    now ← instant_now;
    on_io (fun i => ((), put_weak (put (weak_app_window i) now app (title, wid)) i))
  else mret ().

Definition validate_title_with_weak (app title : string) : M string :=
  if is_empty title || bool_decide (title = UNKNOWN_WINDOW_TITLE) then mret title
  else
    own_strong ← title_matches_app app title Strong;
    if own_strong : bool then mret title
    else
      other_strong ← title_matches_other_app app title Strong;
      if other_strong : bool then mret UNKNOWN_WINDOW_TITLE
      else
        other_weak ← title_matches_other_app app title Weak;
        if other_weak : bool then mret UNKNOWN_WINDOW_TITLE
        else
          _ ← title_matches_app app title Weak;
          mret title.

(** The second test of [||] runs only when the first one fails. *)
Definition previous_app_has (pending : string) (last_app : option string) : M bool :=
  match last_app with
  | Some prev_app =>
      strong ← title_matches_app prev_app pending Strong;
      if strong : bool then mret true else title_matches_app prev_app pending Weak
  | None => mret false
  end.

Definition reconcile_window_title (app pending : string) (last_app : option string)
    : M ReconcileDecision :=
  if is_login_app app && bool_decide (pending = "Login") then mret (Accept pending Pending)
  else
    previous ← previous_app_has pending last_app;
    if previous : bool then mret (Accept UNKNOWN_WINDOW_TITLE Cached)
    else
      own_strong ← title_matches_app app pending Strong;
      if own_strong : bool then mret (Accept pending Pending)
      else
        other_strong ← title_matches_other_app app pending Strong;
        if other_strong : bool then mret (Accept UNKNOWN_WINDOW_TITLE Cached)
        else
          other_weak ← title_matches_other_app app pending Weak;
          if other_weak : bool then mret (Accept UNKNOWN_WINDOW_TITLE Cached)
          else
            own_weak ← title_matches_app app pending Weak;
            mret (if own_weak : bool then Accept pending Pending else Hold pending).

End worker.
End Focus.
