(* ===== verification/FocusWorker.v ===== *)
(** The loop of the focus worker, [run_focus_worker] of
    src/daemon/tracker/focus.rs: one definition per arm, composed into a turn of the
    loop, and the run over a list of turns. *)
From S2P Require Import Prelude Events Lru Interner Focus.

Module FocusWorker.
Import LruCache Focus.

(** How an arm leaves the [match]: the code below it runs, or the loop goes on with
    the next message, or it ends. *)
Inductive Flow := Proceed | Continue | Break.

(** What [recv_timeout] and, on a timeout, the window system answer. *)
Inductive Received :=
  | Msg (m : FocusMsg)
  | Timeout (poll : ActiveWindowInfo + string)
  | Disconnected.

Record Turn := { should_stop : bool; poll_value : Z; received : Received }.

(** The time a turn waits for a message. *)
Definition timeout_ms (poll_value : Z) : Z :=
  if poll_value =? POLL_SUSPEND_MS then 2000 else Z.max poll_value 1.

Section worker.
Context `{HashOrder} `{Chrono} {I : Type} `{TitleInterner I} `{FocusEnv}.

Notation M := (@M I).

(** ** Parts that several arms share *)
Definition set_process_start (pid : Z) : M unit :=
  start ← get_process_start_time pid;
  modify_state (put_process_start (Z.of_N start));;
  if N.eqb start 0 then
    now ← utc_now;
    modify_state (put_process_start (uw 64 (timestamp_millis now)))
  else mret ().

Definition unlock_unless_login (app : string) : M unit :=
  if is_login_app app then mret () else modify_flags (put_lock false None).

(** The title an input reports: remembered, then checked. *)
Definition take_reported_title (title : string) (window_id : Z) : M unit :=
  s ← get_state;
  record_weak_title (s_app_name s) title window_id;;
  value ← validate_title_with_weak (s_app_name s) title;
  modify_state (put_title value).

Definition reported_window_id (app : string) (window_id : Z) : Z :=
  if is_login_app app && (window_id =? 0) then LOGINWINDOW_WINDOW_ID else window_id.

(** A title without a window id. *)
Definition set_login_window_id : M unit :=
  modify_state (fun s => put_window_id (reported_window_id (s_app_name s) (s_window_id s)) s).

Definition touch_window : M unit :=
  now ← instant_now; modify_state (put_window_update now).

(** [state.last_app_update = Instant::now(); state.last_window_update = ...]. *)
Definition touch_app_and_window : M unit :=
  now ← instant_now;
  modify_state (fun s => put_window_update now (put_app_update now s)).

Definition touch_instance : M unit :=
  now ← utc_now; modify_state (put_instance_start now).

Definition schedule_if_complete (delay_ms : Z) : M unit :=
  s ← get_state;
  if is_complete s then schedule_emit delay_ms else mret ().

(** The end of every reconciliation by an input. *)
Definition reconciled (f : Flags) : Flags := put_awaiting false (put_reconcile false f).
Definition drop_pending (f : Flags) : Flags := put_coalesce None (put_pending None f).

Definition emit_focus : M unit :=
  s ← get_state;
  focus_info ← to_window_focus_info s;
  modify_flags (fun f => put_emit_seq (uw 64 (emit_seq f + 1)) f);;
  on_focus_change focus_info;;
  record_last_app_window s.

Definition decided_value (d : ReconcileDecision) : string :=
  match d with Accept value _ => value | Hold value => value end.

(** An answer for another application while the worker waits for its own. *)
Definition reconciling_other (s : FocusState) (f : Flags) (app : string) : bool :=
  reconcile_active f && negb (eq_ignore_ascii_case (s_app_name s) app) &&
  negb (is_empty (s_app_name s)).

(** ** AppChange *)
Definition flush_before_app_change : M unit :=
  f ← get_flags;
  match coalesce_until f with
  | None => mret ()
  | Some _ =>
      modify_flags (put_pending None);;
      s ← get_state;
      if bool_decide (is_Some (pending_window_title f)) || negb (is_empty (s_window_title s))
      then
        match pending_window_title f with
        | Some title =>
            decision ← reconcile_window_title (s_app_name s) title (last_app_before_change f);
            modify_state (put_title (decided_value decision))
        | None => mret ()
        end;;
        set_login_window_id;;
        touch_window;;
        s ← get_state;
        if can_emit s then emit_focus else mret ()
      else mret ()
  end.

Definition begin_app (pid : Z) (app : string) : M unit :=
  unlock_unless_login app;;
  (if 0 <? focus_window_coalesce_ms caps then
     now ← instant_now;
     modify_flags (put_coalesce (Some (now + millis (focus_window_coalesce_ms caps))))
   else modify_flags (put_coalesce None));;
  modify_flags (fun f => put_reconcile true (put_pending None f));;
  modify_state (fun s =>
    put_window_id 0 (put_title "" (put_pid pid (put_app_name app s))));;
  set_process_start pid;;
  set_login_window_id;;
  touch_instance;;
  now ← instant_now;
  modify_state (put_app_update now);;
  modify_flags (put_awaiting true);;
  schedule_emit (if is_login_app app then 50 else 150).

Definition on_app_change (pid : Z) (app : string) : M Flow :=
  s ← get_state;
  if bool_decide (s_app_name s = app) && (s_pid s =? pid) then mret Proceed
  else
    modify_flags (put_last_app
      (if is_empty (s_app_name s) then None else Some (s_app_name s)));;
    flush_before_app_change;;
    begin_app pid app;;
    mret Proceed.

(** ** WindowChange *)
Definition hold_title (title : string) : M Flow :=
  s ← get_state;
  record_weak_title (s_app_name s) title (s_window_id s);;
  modify_flags (put_pending (Some title));;
  mret Continue.

(** The title of a window change, when the application is settled or settles. *)
Definition decide_title (title : string) : M Flow :=
  s ← get_state;
  f ← get_flags;
  if reconcile_active f then
    decision ← reconcile_window_title (s_app_name s) title (last_app_before_change f);
    match decision with
    | Accept value _ =>
        record_weak_title (s_app_name s) value (s_window_id s);;
        modify_state (put_title value);;
        modify_flags (put_reconcile false);;
        mret Proceed
    | Hold value =>
        match coalesce_until f with
        | None =>
            take_reported_title value (s_window_id s);;
            modify_flags (put_reconcile false);;
            mret Proceed
        | Some _ => hold_title value
        end
    end
  else
    take_reported_title title (s_window_id s);;
    mret Proceed.

Definition settle_window_change : M unit :=
  set_login_window_id;;
  touch_window;;
  s ← get_state;
  if is_complete s then
    schedule_emit 100;;
    modify_flags (put_reconcile false)
  else mret ().

(** The coalescing window is open: only read when reconciling. *)
Definition coalescing : M bool :=
  f ← get_flags;
  match coalesce_until f with
  | Some until =>
      if reconcile_active f then now ← instant_now; mret (now <? until) else mret false
  | None => mret false
  end.

Definition on_window_change (title : string) : M Flow :=
  s ← get_state;
  if is_empty title || bool_decide (s_window_title s = title) then mret Proceed
  else
    open ← coalescing;
    if open : bool then hold_title title
    else
      flow ← decide_title title;
      match flow with
      | Proceed => settle_window_change;; mret Proceed
      | _ => mret flow
      end.

(** ** AppChangeInfo and WindowChangeInfo *)
Definition on_app_change_info (info : ActiveWindowInfo) : M Flow :=
  s ← get_state;
  f ← get_flags;
  if reconciling_other s f (i_app_name info) then mret Continue
  else
    modify_flags drop_pending;;
    modify_state (put_app_name (i_app_name info));;
    unlock_unless_login (i_app_name info);;
    modify_state (put_pid (i_process_id info));;
    set_process_start (i_process_id info);;
    take_reported_title (i_title info) (i_window_id info);;
    modify_state (put_window_id (reported_window_id (i_app_name info) (i_window_id info)));;
    touch_instance;;
    touch_app_and_window;;
    modify_flags reconciled;;
    schedule_if_complete 0;;
    mret Proceed.

Definition on_window_change_info (info : ActiveWindowInfo) : M Flow :=
  s ← get_state;
  f ← get_flags;
  if reconciling_other s f (i_app_name info) then mret Continue
  else
    modify_flags drop_pending;;
    (if s_pid s =? i_process_id info then mret ()
     else
       modify_state (fun s => put_app_name (i_app_name info) (put_pid (i_process_id info) s));;
       unlock_unless_login (i_app_name info);;
       set_process_start (i_process_id info));;
    take_reported_title (i_title info) (i_window_id info);;
    modify_state (fun s =>
      put_window_id (reported_window_id (s_app_name s) (i_window_id info)) s);;
    touch_window;;
    modify_flags reconciled;;
    schedule_if_complete 0;;
    mret Proceed.

Definition on_message (m : FocusMsg) : M Flow :=
  match m with
  | AppChange pid app => on_app_change pid app
  | WindowChange title => on_window_change title
  | AppChangeInfo info => on_app_change_info info
  | WindowChangeInfo info => on_window_change_info info
  | Stop => mret Break
  end.

(** ** Polling *)

(** The first answer after a lock-like error; the report reads the clock. *)
Definition recover_from_lock (info : ActiveWindowInfo) : M unit :=
  f ← get_flags;
  if poll_lock_active f then
    match poll_lock_since f with Some _ => _ ← instant_now; mret () | None => mret () end;;
    modify_flags (put_lock false None);;
    modify_state (fun s => put_pid (i_process_id info) (put_app_name (i_app_name info) s));;
    set_process_start (i_process_id info);;
    take_reported_title (i_title info) (i_window_id info);;
    modify_state (put_window_id (i_window_id info));;
    touch_instance;;
    touch_app_and_window;;
    modify_flags (fun f => drop_pending (reconciled f));;
    schedule_emit 0
  else mret ().

(** The first answer about the application of an AppChange. *)
Definition poll_reconcile (info : ActiveWindowInfo) : M unit :=
  s ← get_state;
  f ← get_flags;
  if awaiting_poll_reconcile f && bool_decide (s_app_name s = i_app_name info) then
    modify_state (put_pid (i_process_id info));;
    set_process_start (i_process_id info);;
    take_reported_title (i_title info) (i_window_id info);;
    modify_state (fun s =>
      put_window_id (reported_window_id (s_app_name s) (i_window_id info)) s);;
    touch_instance;;
    touch_window;;
    modify_flags (fun f => drop_pending (reconciled f));;
    schedule_emit 0
  else mret ().

(** A window shows another title than at the last poll. *)
Definition poll_title_change (info : ActiveWindowInfo) : M unit :=
  now ← instant_now;
  last ← on_io (fun i =>
    let '(c, v) := get_cloned (last_titles i) now (i_window_id info) in
    (v, put_last_titles c i));
  match last with
  | Some last_title =>
      if bool_decide (last_title = i_title info) then mret ()
      else
        s ← get_state;
        (if s_pid s =? i_process_id info then mret ()
         else
           modify_state (fun s =>
             put_app_name (i_app_name info) (put_pid (i_process_id info) s));;
           start ← get_process_start_time (i_process_id info);
           modify_state (put_process_start (Z.of_N start)));;
        take_reported_title (i_title info) (i_window_id info);;
        modify_state (put_window_id (i_window_id info));;
        touch_window;;
        schedule_if_complete 0
  | None => mret ()
  end.

Definition remember_title (info : ActiveWindowInfo) : M unit :=
  now ← instant_now;
  on_io (fun i =>
    ((), put_last_titles (put (last_titles i) now (i_window_id info) (i_title info)) i)).

Definition on_poll (info : ActiveWindowInfo) : M Flow :=
  s ← get_state;
  f ← get_flags;
  if reconciling_other s f (i_app_name info) then mret Continue
  else
    recover_from_lock info;;
    poll_reconcile info;;
    poll_title_change info;;
    remember_title info;;
    mret Proceed.

Definition is_lock_error (err_text : string) : bool :=
  contains err_text "No qualifying window found".

Definition on_poll_error (err_text : string) : M Flow :=
  s ← get_state;
  f ← get_flags;
  (if is_lock_error err_text && negb (poll_lock_active f) then
     now ← instant_now;
     modify_flags (put_lock true (Some now));;
     if is_login_app (s_app_name s) then emit_loginwindow_focus else mret ()
   else mret ());;
  mret Proceed.

(** ** After the match *)
Definition settle_held_title (title : string) : M unit :=
  s ← get_state;
  f ← get_flags;
  decision ← reconcile_window_title (s_app_name s) title (last_app_before_change f);
  match decision with
  | Accept value _ =>
      record_weak_title (s_app_name s) value (s_window_id s);;
      modify_state (put_title value)
  | Hold value => take_reported_title value (s_window_id s)
  end;;
  set_login_window_id;;
  touch_window;;
  modify_flags (put_awaiting true).

Definition end_coalescing : M unit :=
  f ← get_flags;
  match coalesce_until f with
  | None => mret ()
  | Some until =>
      now ← instant_now;
      if until <=? now then
        modify_flags (put_pending None);;
        match pending_window_title f with
        | Some title => settle_held_title title
        | None => mret ()
        end;;
        modify_flags (fun f => put_reconcile false (put_coalesce None f));;
        s ← get_state;
        if can_emit s then schedule_emit 0 else mret ()
      else mret ()
  end.

Definition emit_scheduled : M unit :=
  f ← get_flags;
  match scheduled_emit_at f with
  | None => mret ()
  | Some when =>
      now ← instant_now;
      s ← get_state;
      if (when <=? now) && can_emit s then
        emit_focus;;
        modify_flags (put_scheduled None)
      else mret ()
  end.

(** ** The loop *)
Definition on_received (poll_value : Z) (r : Received) : M Flow :=
  match r with
  | Msg m => on_message m
  | Timeout poll =>
      if poll_value =? POLL_SUSPEND_MS then mret Continue
      else match poll with inl info => on_poll info | inr err => on_poll_error err end
  | Disconnected => mret Break
  end.

(** One turn; the answer tells whether the loop goes on. *)
Definition turn (x : Turn) : M bool :=
  if should_stop x then mret false
  else
    flow ← on_received (poll_value x) (received x);
    match flow with
    | Proceed => end_coalescing;; emit_scheduled;; mret true
    | Continue => mret true
    | Break => mret false
    end.

Fixpoint turns (l : list Turn) : M bool :=
  match l with
  | [] => mret true
  | x :: l' =>
      go_on ← turn x;
      if go_on : bool then turns l' else mret false
  end.

(** The local variables at the start. *)
Definition new_io (empty : I) : Io :=
  {| pid_cache := with_capacity (pid_cache_capacity caps);
     last_titles :=
       if 0 <? title_cache_ttl_secs caps
       then with_capacity_and_ttl (title_cache_capacity caps) (secs (title_cache_ttl_secs caps))
       else with_capacity (title_cache_capacity caps);
     last_app_window := with_capacity (title_cache_capacity caps);
     weak_app_window := with_capacity_and_ttl (title_cache_capacity caps) (secs 2);
     interner := empty; mono_read := 0; utc_read := 0; process_read := 0; emitted := [] |}.

Definition new_flags : Flags :=
  {| poll_lock_active := false; poll_lock_since := None; coalesce_until := None;
     pending_window_title := None; last_app_before_change := None;
     awaiting_poll_reconcile := false; reconcile_active := false; emit_seq := 0;
     scheduled_emit_at := None |}.

Definition new_worker (empty : I) : Worker :=
  let '(s, w) := new_state {| state := MkState "" 0 "" 0 0 0 0 0; flags := new_flags;
                              io := new_io empty |} in
  {| state := s; flags := flags w; io := io w |}.

Definition run_focus_worker (empty : I) (l : list Turn) : Worker :=
  (turns l (new_worker empty)).2.

End worker.

(** ** A concrete environment

    A clock that advances some milliseconds per reading, processes that started at
    second five, and the default configuration. *)
Definition demo_env (step : Z) : FocusEnv := {|
  mono n := millis (step * Z.of_nat n);
  utc n := secs 1700000000;
  process_start _ _ := Some 5%N;
  caps := {| pid_cache_capacity := 256; title_cache_capacity := 256;
             title_cache_ttl_secs := 60; focus_window_coalesce_ms := 100;
             focus_allow_zero_window_id := true |}
|}.
Definition demo_interner : StringInterner.StringInterner * StringInterner.arc_heap :=
  (StringInterner.new, {| StringInterner.arcs := ∅; StringInterner.next_addr := 0 |}).

Lemma demo_focus_interner_ok : StringInterner.interner_ok demo_interner.1 demo_interner.2.
Proof. split; cbn; intros *; rewrite ?lookup_empty; done. Qed.

Definition demo_run (step : Z) (l : list Turn) : Worker :=
  @run_focus_worker hash_order_id chrono_ref _ _ (demo_env step) demo_interner l.

Definition message (m : FocusMsg) : Turn :=
  {| should_stop := false; poll_value := 500; received := Msg m |}.
Definition poll (r : ActiveWindowInfo + string) : Turn :=
  {| should_stop := false; poll_value := 500; received := Timeout r |}.

(** A title that arrives before the application has settled is reported with it. *)
Example demo_title :
  (fun f => (app_name f, window_title f)) <$>
    emitted (io (demo_run 40 ([message (AppChange 7 "Mail"); message (WindowChange "Inbox")] ++
      replicate 6 (poll (inr "busy")))))
  = [("Mail", "Inbox")].
Proof. vm_compute. reflexivity. Qed.

End FocusWorker.
