(* ===== verification/FocusLogic.v ===== *)
(** A weakest-precondition calculus for the monad of the focus worker: the rules of
    its primitives, and what the operations on the title caches keep. *)
From S2P Require Import Prelude Events Lru Interner Focus FocusWorker.

Module FocusLogic.
Import LruCache Focus FocusWorker.

(** The title of each entry of a title cache. *)
Definition titles (c : @LruCache string (string * Z) _ _) : gmap string string :=
  (fun x => x.1.1) <$> LruCache.map c.

Section wp.
Context `{HashOrder} `{Chrono} {I : Type} `{TitleInterner I} `{FocusEnv}.
Notation M := (@M I).
Notation Worker := (@Worker I).
Notation Io := (@Io I).

(** ** Weakest preconditions *)
Definition wp {A} (m : M A) (Q : A -> Worker -> Prop) (w : Worker) : Prop :=
  let '(x, w') := m w in Q x w'.

Lemma wp_intro {A} (m : M A) Q w : Q (m w).1 (m w).2 -> wp m Q w.
Proof. unfold wp. by destruct (m w). Qed.

Lemma wp_elim {A} (m : M A) Q w : wp m Q w -> Q (m w).1 (m w).2.
Proof. unfold wp. by destruct (m w). Qed.

Lemma wp_mono {A} (m : M A) (Q Q' : A -> Worker -> Prop) w :
  wp m Q w -> (forall x w', Q x w' -> Q' x w') -> wp m Q' w.
Proof. unfold wp. destruct (m w). auto. Qed.

Lemma wp_bind {A B} (m : M A) (k : A -> M B) Q w :
  wp m (fun x => wp (k x) Q) w -> wp (m ≫= k) Q w.
Proof. unfold wp, mbind, M_bind. by destruct (m w). Qed.

Lemma wp_ret {A} (x : A) (Q : A -> Worker -> Prop) w : Q x w -> wp (mret x) Q w.
Proof. done. Qed.

Lemma wp_get_state (Q : _ -> Worker -> Prop) s f i :
  Q s (MkWorker s f i) -> wp get_state Q (MkWorker s f i).
Proof. done. Qed.

Lemma wp_get_flags (Q : _ -> Worker -> Prop) s f i :
  Q f (MkWorker s f i) -> wp get_flags Q (MkWorker s f i).
Proof. done. Qed.

Lemma wp_modify_state g (Q : _ -> Worker -> Prop) s f i :
  Q () (MkWorker (g s) f i) -> wp (modify_state g) Q (MkWorker s f i).
Proof. done. Qed.

Lemma wp_modify_flags g (Q : _ -> Worker -> Prop) s f i :
  Q () (MkWorker s (g f) i) -> wp (modify_flags g) Q (MkWorker s f i).
Proof. done. Qed.

Lemma wp_on_io {A} (g : Io -> A * Io) (Q : A -> Worker -> Prop) s f i :
  Q (g i).1 (MkWorker s f (g i).2) -> wp (on_io g) Q (MkWorker s f i).
Proof. unfold wp, on_io. cbn. by destruct (g i). Qed.

(** ** Quiet operations

    A quiet operation changes neither what was emitted nor the titles of the strong
    cache. *)
Record quiet (i i' : Io) : Prop := {
  q_emitted : emitted i' = emitted i;
  q_titles : titles (last_app_window i') = titles (last_app_window i);
  q_ttl : ttl (last_app_window i') = ttl (last_app_window i);
  q_capacity : capacity (last_app_window i') = capacity (last_app_window i);
  q_interner : interner i' = interner i;
  q_mono : (mono_read i <= mono_read i')%nat
}.

#[export] Instance quiet_preorder : PreOrder quiet.
Proof.
  split; [by intros i; split|].
  intros i j k [] []. split; [congruence..|lia].
Qed.

Lemma get_cloned_titles (c : @LruCache string (string * Z) _ _) now k :
  ttl c = None ->
  titles (get_cloned c now k).1 = titles c /\
  (fst <$> (get_cloned c now k).2) = titles c !! k.
Proof.
  intros Ht. unfold get_cloned, titles, expired. rewrite Ht, lookup_fmap.
  destruct (LruCache.map c !! k) as [[v ts]|] eqn:Hk; cbn; [|done].
  split; [|done]. rewrite fmap_insert. apply insert_id. rewrite lookup_fmap, Hk. done.
Qed.

Lemma get_cloned_config `{Countable K} {V} (c : @LruCache K V _ _) now k :
  ttl (get_cloned c now k).1 = ttl c /\ capacity (get_cloned c now k).1 = capacity c.
Proof. unfold get_cloned. by split_matches. Qed.

Lemma any_entry_matches_config `{Countable K} {V} (c : @LruCache K V _ _) now p :
  ttl (any_entry_matches c now p).1 = ttl c /\
  capacity (any_entry_matches c now p).1 = capacity c.
Proof. unfold any_entry_matches. by destruct (scan _ _ _ _ _) as [[] ?]. Qed.

(** Without a time to live a scan removes nothing. *)
Lemma any_entry_matches_map `{Countable K} {V} (c : @LruCache K V _ _) now p :
  ttl c = None -> LruCache.map (any_entry_matches c now p).1 = LruCache.map c.
Proof.
  intros Ht. unfold any_entry_matches.
  destruct (scan_spec c now p (hash_order (map_to_list (LruCache.map c))) []) as [_ Hs].
  destruct (scan _ _ _ _ _) as [[] ks]; [done|]. cbn in *. rewrite (Hs eq_refl).
  replace (filter _ _) with (@nil (K * (V * Z))); [done|].
  clear Hs. symmetry. induction (hash_order _) as [|x l IH]; [done|].
  cbn. rewrite decide_False; [done|]. unfold expired. by rewrite Ht.
Qed.

Lemma other_title_found (c : @LruCache string (string * Z) _ _) now app t :
  ttl c = None ->
  (any_entry_matches c now (other_app_has app t)).2 = true <->
  exists b, b <> app /\ titles c !! b = Some t.
Proof.
  intros Ht. rewrite any_entry_matches_found. unfold other_app_has, titles.
  setoid_rewrite lookup_fmap. split.
  - intros (k&[v n]&ts&Hk&_&Hp). bool_prop. exists k. rewrite Hk. cbn in *. by subst.
  - intros (b&Hb&Hl). destruct (LruCache.map c !! b) as [[[v n] ts]|] eqn:Hk; [|done].
    cbn in Hl. injection Hl as ->. exists b, (t, n), ts. split; [done|].
    unfold expired. rewrite Ht. split; [done|]. rewrite andb_true_iff, negb_true_iff.
    by rewrite bool_decide_eq_false, bool_decide_eq_true.
Qed.

Lemma wp_instant_now (Q : _ -> Worker -> Prop) s f i :
  (forall i', quiet i i' -> Q (mono (mono_read i)) (MkWorker s f i')) ->
  wp instant_now Q (MkWorker s f i).
Proof. intros HQ. apply wp_on_io, HQ. split; cbn; try done. lia. Qed.

Lemma wp_utc_now (Q : _ -> Worker -> Prop) s f i :
  (forall i', quiet i i' -> Q (utc (utc_read i)) (MkWorker s f i')) ->
  wp utc_now Q (MkWorker s f i).
Proof. intros HQ. apply wp_on_io, HQ. split; cbn; done. Qed.

Lemma wp_title_matches_app app t c (Q : _ -> Worker -> Prop) s f i :
  ttl (last_app_window i) = None ->
  (forall b i', quiet i i' ->
     (c = Strong -> b = true <-> titles (last_app_window i) !! app = Some t) ->
     Q b (MkWorker s f i')) ->
  wp (title_matches_app app t c) Q (MkWorker s f i).
Proof.
  intros Ht HQ. apply wp_bind, wp_instant_now. intros i1 Hi1. apply wp_on_io.
  assert (ttl (last_app_window i1) = None) as Ht1 by by rewrite (q_ttl _ _ Hi1).
  set (now := mono (mono_read i)).
  destruct (get_cloned_config (cache_of c i1) now app) as [Hc1 Hc2].
  destruct c; cbn [cache_of put_cache] in *.
  - destruct (get_cloned_titles (last_app_window i1) now app Ht1) as [Hm Hv].
    destruct (get_cloned (last_app_window i1) now app) as [x v]. cbn in *.
    apply HQ.
    + destruct Hi1. split; cbn; congruence || lia.
    + intros _. rewrite <- (q_titles _ _ Hi1), <- Hv. destruct v as [[v n]|]; cbn; [|done].
      rewrite bool_decide_eq_true. naive_solver.
  - destruct (get_cloned (weak_app_window i1) now app) as [x v]. cbn in *.
    apply HQ; [|done]. destruct Hi1. split; cbn; congruence || lia.
Qed.

Lemma wp_title_matches_other_app app t c (Q : _ -> Worker -> Prop) s f i :
  ttl (last_app_window i) = None ->
  (forall b i', quiet i i' ->
     (c = Strong -> b = true <->
        exists o, o <> app /\ titles (last_app_window i) !! o = Some t) ->
     Q b (MkWorker s f i')) ->
  wp (title_matches_other_app app t c) Q (MkWorker s f i).
Proof.
  intros Ht HQ. apply wp_bind, wp_instant_now. intros i1 Hi1. apply wp_on_io.
  assert (ttl (last_app_window i1) = None) as Ht1 by by rewrite (q_ttl _ _ Hi1).
  set (now := mono (mono_read i)).
  destruct (any_entry_matches_config (cache_of c i1) now (other_app_has app t)) as [Hc1 Hc2].
  destruct c; cbn [cache_of put_cache] in *.
  - pose proof (any_entry_matches_map (last_app_window i1) now (other_app_has app t) Ht1) as Hm.
    pose proof (other_title_found (last_app_window i1) now app t Ht1) as Hv.
    destruct (any_entry_matches (last_app_window i1) now (other_app_has app t)) as [x v].
    cbn in *. apply HQ.
    + destruct Hi1. split; cbn; try congruence; try lia. unfold titles in *. by rewrite Hm.
    + intros _. by rewrite <- (q_titles _ _ Hi1).
  - destruct (any_entry_matches (weak_app_window i1) now _) as [x v]. cbn in *.
    apply HQ; [|done]. destruct Hi1. split; cbn; congruence || lia.
Qed.

Lemma wp_record_weak_title app t n (Q : _ -> Worker -> Prop) s f i :
  (forall i', quiet i i' -> Q () (MkWorker s f i')) ->
  wp (record_weak_title app t n) Q (MkWorker s f i).
Proof.
  intros HQ. unfold record_weak_title. destruct (_ && _); [|apply wp_ret, HQ; reflexivity].
  apply wp_bind, wp_instant_now. intros i1 Hi1. apply wp_on_io, HQ.
  destruct Hi1. by split.
Qed.

Lemma wp_process_start pid (Q : _ -> Worker -> Prop) s f i :
  (forall n i', quiet i i' -> Q n (MkWorker s f i')) ->
  wp (get_process_start_time pid) Q (MkWorker s f i).
Proof.
  intros HQ. apply wp_bind, wp_instant_now. intros i1 Hi1.
  apply wp_bind, wp_on_io. destruct (get_cloned _ _ _) as [c v]; cbn [fst snd].
  assert (quiet i (put_pid_cache c i1)) as Hi2 by (destruct Hi1; by split).
  destruct v as [n|]; [by apply wp_ret, HQ|]. apply wp_bind, wp_on_io. cbn.
  destruct (process_start _ _) as [n|]; [|apply wp_ret, HQ; destruct Hi2; by split].
  apply wp_bind, wp_instant_now. intros i3 Hi3. apply wp_bind, wp_on_io, wp_ret, HQ.
  etrans; [apply Hi2|]. destruct Hi3. cbn in *. by split.
Qed.

Lemma wp_set_process_start pid (Q : _ -> Worker -> Prop) s f i :
  (forall n i', quiet i i' -> Q () (MkWorker (put_process_start n s) f i')) ->
  wp (set_process_start pid) Q (MkWorker s f i).
Proof.
  intros HQ. apply wp_bind, wp_process_start. intros n i1 Hi1.
  apply wp_bind, wp_modify_state. destruct (N.eqb n 0); [|by apply wp_ret, HQ].
  apply wp_bind, wp_utc_now. intros i2 Hi2. apply wp_modify_state.
  apply (HQ _ i2). by etrans.
Qed.

Lemma wp_schedule_emit d (Q : _ -> Worker -> Prop) s f i :
  (forall i', quiet i i' ->
     Q () (MkWorker s (put_scheduled (Some (mono (mono_read i) + millis d)) f) i')) ->
  wp (schedule_emit d) Q (MkWorker s f i).
Proof.
  intros HQ. apply wp_bind, wp_instant_now. intros i1 Hi1. apply wp_modify_flags.
  cbn. destruct (scheduled_emit_at f) as [e|]; [destruct (e <? _)|]; by apply HQ.
Qed.

Lemma wp_touch_window (Q : _ -> Worker -> Prop) s f i :
  (forall t i', quiet i i' -> Q () (MkWorker (put_window_update t s) f i')) ->
  wp touch_window Q (MkWorker s f i).
Proof. intros HQ. apply wp_bind, wp_instant_now. intros i1 Hi1. by apply wp_modify_state, HQ. Qed.

Lemma wp_touch_app_and_window (Q : _ -> Worker -> Prop) s f i :
  (forall t i', quiet i i' -> Q () (MkWorker (put_window_update t (put_app_update t s)) f i')) ->
  wp touch_app_and_window Q (MkWorker s f i).
Proof. intros HQ. apply wp_bind, wp_instant_now. intros i1 Hi1. by apply wp_modify_state, HQ. Qed.

Lemma wp_touch_instance (Q : _ -> Worker -> Prop) s f i :
  (forall t i', quiet i i' -> Q () (MkWorker (put_instance_start t s) f i')) ->
  wp touch_instance Q (MkWorker s f i).
Proof. intros HQ. apply wp_bind, wp_utc_now. intros i1 Hi1. by apply wp_modify_state, HQ. Qed.

Lemma wp_unlock app (Q : _ -> Worker -> Prop) s f i :
  (forall f', (f' = f \/ f' = put_lock false None f) -> Q () (MkWorker s f' i)) ->
  wp (unlock_unless_login app) Q (MkWorker s f i).
Proof. intros HQ. unfold unlock_unless_login. destruct (is_login_app app); apply HQ; auto. Qed.

(** ** The titles that may be shown *)

(** No application but [app] owns the title. *)
Definition free (m : gmap string string) (app t : string) : Prop :=
  t = "Login" \/ forall b, m !! b = Some t -> b = app.

Record titles_ok (m : gmap string string) : Prop := {
  t_named a t : m !! a = Some t -> t <> "" /\ t <> UNKNOWN_WINDOW_TITLE;
  t_distinct a b t : m !! a = Some t -> m !! b = Some t -> t = "Login" \/ a = b
}.

Lemma free_unnamed m app t :
  titles_ok m -> t = "" \/ t = UNKNOWN_WINDOW_TITLE -> free m app t.
Proof. intros Hm Ht. right. intros b Hb. apply (t_named _ Hm) in Hb. naive_solver. Qed.

Lemma free_own m app t : titles_ok m -> m !! app = Some t -> free m app t.
Proof.
  intros Hm Ha. destruct (decide (t = "Login")) as [->|Hn]; [by left|]. right.
  intros b Hb. by destruct (t_distinct _ Hm _ _ _ Hb Ha).
Qed.

Lemma free_no_other (m : gmap string string) app t :
  ~ (exists o, o <> app /\ m !! o = Some t) -> free m app t.
Proof. intros Hn. right. intros b Hb. destruct (decide (b = app)); [done|]. naive_solver. Qed.

Lemma wp_validate app t (Q : _ -> Worker -> Prop) s f i :
  ttl (last_app_window i) = None -> titles_ok (titles (last_app_window i)) ->
  (forall v i', quiet i i' -> v = t \/ v = UNKNOWN_WINDOW_TITLE ->
     free (titles (last_app_window i)) app v -> Q v (MkWorker s f i')) ->
  wp (validate_title_with_weak app t) Q (MkWorker s f i).
Proof.
  intros Ht Hm HQ. unfold validate_title_with_weak.
  assert (forall i', quiet i i' -> Q UNKNOWN_WINDOW_TITLE (MkWorker s f i')) as Hunknown.
  { intros i' Hi'. apply HQ; auto. apply free_unnamed; auto. }
  destruct (_ || _) eqn:Hspecial.
  { apply wp_ret, HQ; [done|by left|]. apply free_unnamed; [done|].
    apply orb_true_iff in Hspecial. unfold is_empty in *.
    rewrite !bool_decide_eq_true in Hspecial. done. }
  apply wp_bind, wp_title_matches_app; [done|]. intros b1 i1 Hi1 Hb1.
  destruct b1; [apply wp_ret, HQ; [done|by left|apply free_own; [done|by apply Hb1]]|].
  apply wp_bind, wp_title_matches_other_app; [by rewrite (q_ttl _ _ Hi1)|]. intros b2 i2 Hi2 Hb2.
  rewrite (q_titles _ _ Hi1) in Hb2. assert (quiet i i2) as Hi by by etrans.
  destruct b2; [by apply wp_ret, Hunknown|].
  assert (free (titles (last_app_window i)) app t) as Hfree.
  { apply free_no_other. rewrite <- (Hb2 eq_refl). done. }
  apply wp_bind, wp_title_matches_other_app; [by rewrite (q_ttl _ _ Hi)|]. intros b3 i3 Hi3 _.
  destruct b3; [apply wp_ret, Hunknown; by etrans|].
  apply wp_bind, wp_title_matches_app; [by rewrite (q_ttl _ _ Hi3), (q_ttl _ _ Hi)|].
  intros b4 i4 Hi4 _. apply wp_ret, HQ; [by do 2 (etrans; [done|])|by left|done].
Qed.

Lemma wp_previous t last (Q : _ -> Worker -> Prop) s f i :
  ttl (last_app_window i) = None ->
  (forall b i', quiet i i' -> Q b (MkWorker s f i')) ->
  wp (previous_app_has t last) Q (MkWorker s f i).
Proof.
  intros Ht HQ. unfold previous_app_has. destruct last as [p|]; [|by apply wp_ret, HQ].
  apply wp_bind, wp_title_matches_app; [done|]. intros b i1 Hi1 _.
  destruct b; [by apply wp_ret, HQ|]. apply wp_title_matches_app; [by rewrite (q_ttl _ _ Hi1)|].
  intros b i2 Hi2 _. apply HQ. by etrans.
Qed.

(** The decisions a title can meet. *)
Definition decision_of (t : string) (d : ReconcileDecision) : Prop :=
  d = Accept t Pending \/ d = Accept UNKNOWN_WINDOW_TITLE Cached \/ d = Hold t.

Lemma decision_of_value t d :
  decision_of t d -> decided_value d = t \/ decided_value d = UNKNOWN_WINDOW_TITLE.
Proof. intros [->|[->| ->]]; auto. Qed.

Lemma wp_reconcile app t last (Q : _ -> Worker -> Prop) s f i :
  ttl (last_app_window i) = None -> titles_ok (titles (last_app_window i)) ->
  (forall d i', quiet i i' -> decision_of t d ->
     free (titles (last_app_window i)) app (decided_value d) -> Q d (MkWorker s f i')) ->
  wp (reconcile_window_title app t last) Q (MkWorker s f i).
Proof.
  intros Ht Hm HQ. unfold reconcile_window_title.
  assert (forall i', quiet i i' ->
    Q (Accept UNKNOWN_WINDOW_TITLE Cached) (MkWorker s f i')) as Hunknown.
  { intros i' Hi'. apply HQ; [done|by right; left|]. apply free_unnamed; auto. }
  destruct (_ && _) eqn:Hlogin.
  { apply wp_ret, HQ; [done|by left|]. left. by bool_prop. }
  apply wp_bind, wp_previous; [done|]. intros b0 i0 Hi0. destruct b0; [by apply wp_ret, Hunknown|].
  apply wp_bind, wp_title_matches_app; [by rewrite (q_ttl _ _ Hi0)|]. intros b1 i1 Hi1 Hb1.
  rewrite (q_titles _ _ Hi0) in Hb1. assert (quiet i i1) as Hi by by etrans.
  destruct b1; [apply wp_ret, HQ; [done|by left|apply free_own; [done|by apply Hb1]]|].
  apply wp_bind, wp_title_matches_other_app; [by rewrite (q_ttl _ _ Hi)|]. intros b2 i2 Hi2 Hb2.
  rewrite (q_titles _ _ Hi) in Hb2. assert (quiet i i2) as Hj by by etrans.
  destruct b2; [by apply wp_ret, Hunknown|].
  assert (free (titles (last_app_window i)) app t) as Hfree.
  { apply free_no_other. rewrite <- (Hb2 eq_refl). done. }
  apply wp_bind, wp_title_matches_other_app; [by rewrite (q_ttl _ _ Hj)|]. intros b3 i3 Hi3 _.
  destruct b3; [apply wp_ret, Hunknown; by etrans|].
  apply wp_bind, wp_title_matches_app; [by rewrite (q_ttl _ _ Hi3), (q_ttl _ _ Hj)|].
  intros b4 i4 Hi4 _. apply wp_ret.
  assert (quiet i i4) by (by do 2 (etrans; [done|])).
  destruct b4; apply HQ; unfold decision_of; auto.
Qed.

Lemma wp_take_reported_title t n (Q : _ -> Worker -> Prop) s f i :
  ttl (last_app_window i) = None -> titles_ok (titles (last_app_window i)) ->
  (forall v i', quiet i i' -> v = t \/ v = UNKNOWN_WINDOW_TITLE ->
     free (titles (last_app_window i')) (s_app_name s) v ->
     Q () (MkWorker (put_title v s) f i')) ->
  wp (take_reported_title t n) Q (MkWorker s f i).
Proof.
  intros Ht Hm HQ. apply wp_bind, wp_get_state, wp_bind, wp_record_weak_title.
  intros i1 Hi1. apply wp_bind, wp_validate.
  - by rewrite (q_ttl _ _ Hi1).
  - by rewrite (q_titles _ _ Hi1).
  - intros v i2 Hi2 Hv Hf. apply wp_modify_state, HQ; [by etrans|done|].
    by rewrite (q_titles _ _ Hi2).
Qed.

End wp.
End FocusLogic.
