(* ===== verification/FocusInv.v ===== *)
(** The invariant of the focus worker's loop, the rules of the operations that keep it,
    and the tactics that step through an arm. *)
From S2P Require Import Prelude Events Lru Interner Focus FocusWorker FocusLogic.

Module FocusInv.
Import LruCache Focus FocusWorker FocusLogic.

(** ** What a turn reports *)
Inductive reports_app : Received -> string -> Z -> Prop :=
  | by_app_change pid app : reports_app (Msg (AppChange pid app)) app pid
  | by_app_info info :
      reports_app (Msg (AppChangeInfo info)) (i_app_name info) (i_process_id info)
  | by_window_info info :
      reports_app (Msg (WindowChangeInfo info)) (i_app_name info) (i_process_id info)
  | by_poll info :
      reports_app (Timeout (inl info)) (i_app_name info) (i_process_id info).

Inductive reports_title : Received -> string -> Prop :=
  | title_of_change t : reports_title (Msg (WindowChange t)) t
  | title_of_app_info info : reports_title (Msg (AppChangeInfo info)) (i_title info)
  | title_of_window_info info : reports_title (Msg (WindowChangeInfo info)) (i_title info)
  | title_of_poll info : reports_title (Timeout (inl info)) (i_title info).

#[export] Hint Constructors reports_app reports_title : kron.

(** What the turns of a run report: the pairs of an application and a process, the
    titles, and the applications. *)
Record Report := {
  r_app : string -> Z -> Prop;
  r_title : string -> Prop;
  r_apps : gset string
}.

(** ** The history of emitted focuses

    The title last reported for each application; a synthesized login focus has no
    process and is not counted, nor is the placeholder. *)
Definition counted (f : WindowFocusInfo) : bool :=
  (0 <? pid f) && negb (bool_decide (window_title f = UNKNOWN_WINDOW_TITLE)).
Definition note_focus (m : gmap string string) (f : WindowFocusInfo) : gmap string string :=
  if counted f then <[app_name f := window_title f]> m else m.
Definition last_emitted (l : list WindowFocusInfo) : gmap string string :=
  foldl note_focus ∅ l.

(** No focus carries the title another application showed last. *)
Definition no_bleed (l : list WindowFocusInfo) : Prop :=
  forall l1 f l2, l = l1 ++ f :: l2 ->
    window_title f = UNKNOWN_WINDOW_TITLE \/ free (last_emitted l1) (app_name f) (window_title f).

Lemma no_bleed_snoc l f :
  no_bleed l ->
  window_title f = UNKNOWN_WINDOW_TITLE \/ free (last_emitted l) (app_name f) (window_title f) ->
  no_bleed (l ++ [f]).
Proof.
  intros Hl Hf l1 g l2 Heq. destruct l2 as [|y l2 _] using rev_ind.
  - apply app_inj_tail in Heq as [-> ->]. done.
  - rewrite app_comm_cons, (assoc_L (++)) in Heq. apply app_inj_tail in Heq as [-> ->].
    by eapply Hl.
Qed.

Lemma titles_put (c : @LruCache string (string * Z) _ _) `{HashOrder} now app t n :
  titles (put c now app (t, n)) ⊆ <[app := t]> (titles c) /\
  (Z.of_nat (size (<[app := t]> (titles c))) <= capacity c ->
   titles (put c now app (t, n)) = <[app := t]> (titles c)).
Proof.
  set (c1 := set_map c (<[app := ((t, n), now)]> (LruCache.map c))).
  assert (titles c1 = <[app := t]> (titles c)) as Ht.
  { unfold titles, c1. cbn. by rewrite fmap_insert. }
  assert (size (titles c1) = size (LruCache.map c1)) as Hs by apply map_size_fmap.
  unfold put. fold c1. rewrite <- Ht. unfold evict_if_needed. split.
  - destruct (_ <=? _); [done|]. destruct (oldest _) as [[k x]|]; [|done].
    unfold titles, set_map. cbn [LruCache.map]. apply map_fmap_mono, delete_subseteq.
  - intros Hle. rewrite Hs in Hle. change (capacity c1) with (capacity c).
    by rewrite (proj2 (Z.leb_le _ _)).
Qed.

Lemma titles_put_config (c : @LruCache string (string * Z) _ _) `{HashOrder} now app x :
  ttl (put c now app x) = ttl c /\ capacity (put c now app x) = capacity c.
Proof. unfold put, evict_if_needed. by split_matches. Qed.

(** ** The titles of the strong cache *)
Lemma titles_ok_subseteq m m' : m' ⊆ m -> titles_ok m -> titles_ok m'.
Proof.
  intros Hs [Hn Hd]. split.
  - intros a t Ha. eapply Hn, lookup_weaken; done.
  - intros a b t Ha Hb. eapply Hd; eapply lookup_weaken; done.
Qed.

Lemma titles_ok_insert m app t :
  titles_ok m -> t <> "" -> t <> UNKNOWN_WINDOW_TITLE -> free m app t ->
  titles_ok (<[app := t]> m).
Proof.
  intros [Hn Hd] Ht1 Ht2 Hf. split.
  - intros a u. rewrite lookup_insert_Some. naive_solver.
  - intros a b u. rewrite !lookup_insert_Some. intros [[<- <-]|[Ha1 Ha2]] [[<- Hu]|[Hb1 Hb2]];
      subst; [by right| | |by eapply Hd]; destruct Hf as [->|Hf]; try (by left); right.
    + symmetry. auto.
    + auto.
Qed.

Lemma free_subseteq m m' app t : m' ⊆ m -> free m app t -> free m' app t.
Proof. intros Hs [->|Hf]; [by left|right]. intros b Hb. eapply Hf, lookup_weaken; done. Qed.

Lemma free_insert m app t : free m app t -> free (<[app := t]> m) app t.
Proof. intros [->|Hf]; [by left|right]. intros b. rewrite lookup_insert_Some. naive_solver. Qed.

Section safety.
Context `{HashOrder} `{Chrono} {I : Type} {ok : I -> Prop} `{TitleInternerLaws I ok}.
Context `{FocusEnv}.
Notation M := (@M I).
Notation Worker := (@Worker I).
Notation Io := (@Io I).

(** What the turns of a run report, and the applications among it. *)
Context (R : Report).
Notation reported_app := (r_app R).
Notation reported_title := (r_title R).
Notation apps := (r_apps R).

(** The strong cache has room for every application of the run. *)
Definition roomy : Prop :=
  (forall app pid, reported_app app pid -> app ∈ apps) /\
  Z.of_nat (size apps) <= title_cache_capacity caps.

(** ** The invariant *)

(** What a reported focus promises. *)
Inductive focus_ok (f : WindowFocusInfo) : Prop :=
  | synthesized_login :
      pid f = 0 -> app_name f = LOGINWINDOW_APP -> window_title f = "Login" ->
      window_id f = LOGINWINDOW_WINDOW_ID -> focus_ok f
  | observed :
      reported_app (app_name f) (pid f) ->
      window_title f = UNKNOWN_WINDOW_TITLE \/ reported_title (window_title f) ->
      app_name f <> "" -> window_title f <> "" -> 0 < pid f -> 0 < process_start_time f ->
      focus_allow_zero_window_id caps = true \/ 0 < window_id f -> focus_ok f.

Record io_inv (i : Io) : Prop := {
  io_ttl : ttl (last_app_window i) = None;
  io_capacity : capacity (last_app_window i) = Z.max (title_cache_capacity caps) 1;
  io_interner : ok (interner i);
  io_titles : titles_ok (titles (last_app_window i));
  io_emitted : Forall focus_ok (emitted i);
  io_history : roomy -> dom (titles (last_app_window i)) ⊆ apps /\
                        titles (last_app_window i) = last_emitted (emitted i);
  io_distinct : roomy -> no_bleed (emitted i)
}.

Record state_inv (s : FocusState) (m : gmap string string) : Prop := {
  st_app : s_app_name s = "" \/ reported_app (s_app_name s) (s_pid s);
  st_title : s_window_title s = "" \/ s_window_title s = UNKNOWN_WINDOW_TITLE \/
             reported_title (s_window_title s);
  st_free : free m (s_app_name s) (s_window_title s)
}.

(** A held title was reported, and waits for a deadline; the lock flag has its time. *)
Record flags_inv (f : Flags) : Prop := {
  fl_pending t : pending_window_title f = Some t -> reported_title t /\ is_Some (coalesce_until f);
  fl_lock : poll_lock_active f = true <-> is_Some (poll_lock_since f)
}.

Record Inv (w : Worker) : Prop := {
  inv_state : state_inv (state w) (titles (last_app_window (io w)));
  inv_flags : flags_inv (flags w);
  inv_io : io_inv (io w)
}.

Lemma io_inv_quiet (i i' : Io) : quiet i i' -> io_inv i -> io_inv i'.
Proof.
  intros Hq [Ht Hc Hi Hm He Hh Hd].
  pose proof (q_titles _ _ Hq) as Eq1. pose proof (q_emitted _ _ Hq) as Eq2.
  split; rewrite ?Eq1, ?Eq2; try done.
  - by rewrite (q_ttl _ _ Hq).
  - by rewrite (q_capacity _ _ Hq).
  - by rewrite (q_interner _ _ Hq).
Qed.

Lemma state_inv_quiet (i i' : Io) s :
  quiet i i' -> state_inv s (titles (last_app_window i)) ->
  state_inv s (titles (last_app_window i')).
Proof. intros Hi. by rewrite (q_titles _ _ Hi). Qed.

(** ** Emitting *)

Definition focus_info (s : FocusState) : WindowFocusInfo :=
  {| pid := s_pid s; process_start_time := s_process_start_time s;
     app_name := s_app_name s; window_title := s_window_title s; window_id := s_window_id s;
     window_instance_start := s_window_instance_start s;
     window_position := None; window_size := None |}.

Lemma wp_intern t (Q : _ -> Worker -> Prop) s f i :
  io_inv i -> (forall n, io_inv (put_interner n i) -> Q t (MkWorker s f (put_interner n i))) ->
  wp (intern t) Q (MkWorker s f i).
Proof.
  intros Hi HQ. apply wp_on_io.
  pose proof (intern_text_ok (interner i) t (io_interner _ Hi)) as Hok.
  pose proof (intern_text_text (interner i) t (io_interner _ Hi)) as Ht.
  destruct (intern_text (interner i) t) as [n u]. cbn in *. subst u. apply HQ.
  by destruct Hi.
Qed.

Lemma can_emit_true s : can_emit s = true ->
  s_app_name s <> "" /\ s_window_title s <> "" /\ 0 < s_pid s /\ 0 < s_process_start_time s /\
  (focus_allow_zero_window_id caps = true \/ 0 < s_window_id s).
Proof. unfold can_emit, is_empty. intros Hc. bool_prop. rewrite Z.ltb_lt in *. naive_solver. Qed.

Lemma focus_info_ok s m : state_inv s m -> can_emit s = true -> focus_ok (focus_info s).
Proof.
  intros [Ha Ht _] (?&?&?&?&?)%can_emit_true. apply observed; cbn; try done; naive_solver.
Qed.

Lemma last_emitted_snoc l f : last_emitted (l ++ [f]) = note_focus (last_emitted l) f.
Proof. apply foldl_snoc. Qed.

(** The effect of [record_last_app_window] at time [now]. *)
Definition recorded (now : instant) (s : FocusState) (i : Io) : Io :=
  if bool_decide (s_window_title s = UNKNOWN_WINDOW_TITLE) then i
  else put_strong (put (last_app_window i) now (s_app_name s) (s_window_title s, s_window_id s)) i.

Lemma io_inv_emit now s (i : Io) :
  io_inv i -> state_inv s (titles (last_app_window i)) -> can_emit s = true ->
  io_inv (recorded now s (push_emitted (focus_info s) i)) /\
  state_inv s (titles (last_app_window (recorded now s (push_emitted (focus_info s) i)))).
Proof.
  intros [Ht Hc Hok Hm He Hh Hd] Hs Hemit. pose proof Hs as [Ha Hw Hfree].
  pose proof (can_emit_true _ Hemit) as (Happ&Htitle&Hpid&_).
  assert (Forall focus_ok (emitted i ++ [focus_info s])) as He'.
  { apply Forall_app. split; [done|]. constructor; [by eapply focus_info_ok|done]. }
  assert (roomy -> no_bleed (emitted i ++ [focus_info s])) as Hd'.
  { intros Hroom. apply no_bleed_snoc; [by apply Hd|]. right.
    by destruct (Hh Hroom) as [_ <-]. }
  unfold recorded. case_bool_decide as Hu.
  { split; [|done]. split; try done. cbn. intros Hroom. rewrite last_emitted_snoc.
    unfold note_focus, counted. cbn. rewrite bool_decide_true, andb_false_r by done. by apply Hh. }
  cbn [put_strong last_app_window push_emitted emitted].
  destruct (titles_put (last_app_window i) now (s_app_name s) (s_window_title s) (s_window_id s))
    as [Hsub Hput].
  destruct (titles_put_config (last_app_window i) now (s_app_name s)
    (s_window_title s, s_window_id s)) as [Httl Hcap].
  split; [split; try done; cbn|split; try done].
  - by rewrite Httl.
  - by rewrite Hcap.
  - eapply titles_ok_subseteq; [done|]. by apply titles_ok_insert.
  - intros Hroom. destruct (Hh Hroom) as [Hdom Heq], Hroom as [Hin Hsize].
    assert (dom (<[s_app_name s := s_window_title s]> (titles (last_app_window i))) ⊆ apps)
      as Hdom'.
    { rewrite dom_insert. apply union_subseteq. split; [|done]. apply singleton_subseteq_l.
      destruct Ha as [|Ha]; [done|by eapply Hin]. }
    rewrite Hput. 2: { rewrite Hc, <- size_dom. apply subseteq_size in Hdom'. lia. }
    split; [done|]. rewrite last_emitted_snoc, Heq. unfold note_focus, counted. cbn.
    by rewrite bool_decide_false, (proj2 (Z.ltb_lt _ _) Hpid).
  - eapply free_subseteq; [done|]. by apply free_insert.
Qed.

Lemma wp_emit_focus (Q : _ -> Worker -> Prop) s f i :
  io_inv i -> state_inv s (titles (last_app_window i)) -> can_emit s = true ->
  (forall n i', emitted i' = emitted i ++ [focus_info s] -> io_inv i' ->
     state_inv s (titles (last_app_window i')) -> Q () (MkWorker s (put_emit_seq n f) i')) ->
  wp emit_focus Q (MkWorker s f i).
Proof.
  intros Hi Hs Hemit HQ. apply wp_bind, wp_get_state, wp_bind.
  apply wp_bind, wp_intern; [done|]. intros n1 Hi1.
  apply wp_bind, wp_intern; [done|]. intros n2 Hi2. apply wp_ret, wp_bind, wp_modify_flags.
  apply wp_bind, wp_on_io. cbn [fst snd]. fold (focus_info s).
  set (i1 := put_interner n2 _) in *.
  pose proof (can_emit_true _ Hemit) as (Happ&Htitle&_). unfold record_last_app_window, is_empty.
  rewrite !(bool_decide_false (_ = "")) by done. cbn [negb andb].
  destruct (io_inv_emit (mono (mono_read i1)) s i1 Hi2 Hs Hemit) as [Hi3 Hs3].
  revert Hi3 Hs3. unfold recorded. case_bool_decide; cbn [negb]; intros Hi3 Hs3.
  - by apply wp_ret, HQ.
  - apply wp_bind, wp_on_io, wp_on_io. apply HQ; [done| |done].
    by destruct Hi3.
Qed.

(** ** Stepping through an arm

    [ready m i]: the caches hold the invariant, and since [m] only quiet operations were
    made.  A quiet operation keeps it, so facts about [m] stay as they are. *)
Definition owned (i : Io) : gmap string string := titles (last_app_window i).
Definition ready (m i : Io) : Prop := io_inv i /\ quiet m i.

Lemma ready_owned m i : ready m i -> owned i = owned m.
Proof. intros [_ Hq]. apply (q_titles _ _ Hq). Qed.

Lemma ready_quiet m (i i' : Io) : quiet i i' -> ready m i -> ready m i'.
Proof. intros Hq [Hi Hm]. split; [by eapply io_inv_quiet|by etrans]. Qed.

Lemma ready_ttl m i : ready m i -> ttl (last_app_window i) = None.
Proof. intros [Hi _]. apply (io_ttl _ Hi). Qed.

Lemma ready_titles m i : ready m i -> titles_ok (titles (last_app_window i)).
Proof. intros [Hi _]. apply (io_titles _ Hi). Qed.

Lemma ready_titles_ok m i : ready m i -> titles_ok (owned m).
Proof. intros Hr. rewrite <- (ready_owned _ _ Hr). by eapply ready_titles. Qed.

Lemma Inv_ready s f i m :
  ready m i -> state_inv s (owned m) -> flags_inv f -> Inv (MkWorker s f i).
Proof. intros Hr Hs Hf. rewrite <- (ready_owned _ _ Hr) in Hs. split; [done..|apply Hr]. Qed.

Lemma ready_free m i app t :
  ready m i -> free (titles (last_app_window i)) app t -> free (owned m) app t.
Proof. intros Hr. by rewrite <- (ready_owned _ _ Hr). Qed.

(** The focus fields that matter to the invariant. *)
Lemma state_inv_ext s s' m :
  s_app_name s' = s_app_name s -> s_pid s' = s_pid s -> s_window_title s' = s_window_title s ->
  state_inv s m -> state_inv s' m.
Proof. intros H1' H2' H3' [Ha Ht Hf]. split; congruence. Qed.

Definition keeps {A} (m : M A) : Prop := forall w, Inv w -> wp m (fun _ => Inv) w.

Lemma keeps_bind {A B} (m : M A) (k : A -> M B) :
  keeps m -> (forall x, keeps (k x)) -> keeps (m ≫= k).
Proof.
  intros Hm Hk w Hw. apply wp_bind. eapply wp_mono; [by apply Hm|]. intros x w' Hw'. by apply Hk.
Qed.

Lemma keeps_ret {A} (x : A) : keeps (mret x).
Proof. by intros w Hw. Qed.

Lemma wp_reported m t n (Q : _ -> Worker -> Prop) s f i :
  ready m i ->
  (forall v i', ready m i' -> v = t \/ v = UNKNOWN_WINDOW_TITLE -> free (owned m) (s_app_name s) v ->
     Q () (MkWorker (put_title v s) f i')) ->
  wp (take_reported_title t n) Q (MkWorker s f i).
Proof.
  intros Hi HQ. apply wp_take_reported_title; [by eapply ready_ttl|by eapply ready_titles|].
  intros v i' Hq Hv Hf. pose proof (ready_quiet _ _ _ Hq Hi) as Hi'.
  apply HQ; [done|done|]. by eapply ready_free.
Qed.

Lemma wp_reconciled m app t last (Q : _ -> Worker -> Prop) s f i :
  ready m i ->
  (forall d i', ready m i' -> decision_of t d ->
     free (owned m) app (decided_value d) -> Q d (MkWorker s f i')) ->
  wp (reconcile_window_title app t last) Q (MkWorker s f i).
Proof.
  intros Hi HQ. apply wp_reconcile; [by eapply ready_ttl|by eapply ready_titles|].
  intros d i' Hq Hv Hf. apply HQ; [by eapply ready_quiet|done|]. by eapply ready_free.
Qed.

Lemma wp_emit_ready m (Q : _ -> Worker -> Prop) s f i :
  ready m i -> state_inv s (owned m) -> can_emit s = true ->
  (forall n i' m', emitted i' = emitted i ++ [focus_info s] -> ready m' i' -> state_inv s (owned m') ->
     Q () (MkWorker s (put_emit_seq n f) i')) ->
  wp emit_focus Q (MkWorker s f i).
Proof.
  intros Hr Hs Hemit HQ. rewrite <- (ready_owned _ _ Hr) in Hs. destruct Hr as [Hi _].
  apply wp_emit_focus; try done. intros n i' He Hi' Hs'. by apply (HQ n i' i').
Qed.

Lemma state_inv_title s m t v :
  state_inv s m -> reported_title t -> v = t \/ v = UNKNOWN_WINDOW_TITLE ->
  free m (s_app_name s) v -> state_inv (put_title v s) m.
Proof. intros [Ha _ _] Ht Hv Hf. split; cbn; [done| |done]. naive_solver. Qed.

Lemma state_inv_new s m app pid t v :
  s_app_name s = app -> s_pid s = pid -> s_window_title s = v ->
  reported_app app pid -> reported_title t -> v = t \/ v = UNKNOWN_WINDOW_TITLE ->
  free m app v -> state_inv s m.
Proof. intros <- <- <- Ha Ht Hv Hf. split; [by right| |done]. naive_solver. Qed.

(** The flags after the assignments of an arm. *)
Lemma flags_inv_put f f' :
  flags_inv f ->
  pending_window_title f' = None \/
    (pending_window_title f' = pending_window_title f /\ coalesce_until f' = coalesce_until f) ->
  (poll_lock_active f' = poll_lock_active f /\ poll_lock_since f' = poll_lock_since f) \/
    (poll_lock_active f' = false /\ poll_lock_since f' = None) ->
  flags_inv f'.
Proof.
  intros [Hp Hl] Hp' Hl'. split.
  - intros t Ht. destruct Hp' as [Hn|[Hn ->]]; [congruence|]. rewrite Hn in Ht. auto.
  - destruct Hl' as [[-> ->]|[-> ->]]; [done|]. split; [done|]. by intros [? ?].
Qed.

End safety.

(** Steps through the operations of an arm; [ready] moves along. *)
Ltac quiet_step :=
  match goal with
  | Hq : quiet ?i ?i', Hr : ready _ _ ?i |- _ =>
      pose proof (ready_quiet _ _ _ _ Hq Hr); clear Hq; try clear Hr
  end.

Ltac wstep :=
  lazymatch goal with
  | |- wp (_ ≫= _) _ _ => apply wp_bind
  | |- wp (mret _) _ _ => apply wp_ret
  | |- wp get_state _ _ => apply wp_get_state
  | |- wp get_flags _ _ => apply wp_get_flags
  | |- wp (modify_state _) _ _ => apply wp_modify_state
  | |- wp (modify_flags _) _ _ => apply wp_modify_flags
  | |- wp set_login_window_id _ _ => apply wp_modify_state
  | |- wp instant_now _ _ => apply wp_instant_now; intros ? ?; quiet_step
  | |- wp utc_now _ _ => apply wp_utc_now; intros ? ?; quiet_step
  | |- wp (set_process_start _) _ _ => apply wp_set_process_start; intros ? ? ?; quiet_step
  | |- wp touch_window _ _ => apply wp_touch_window; intros ? ? ?; quiet_step
  | |- wp touch_app_and_window _ _ => apply wp_touch_app_and_window; intros ? ? ?; quiet_step
  | |- wp touch_instance _ _ => apply wp_touch_instance; intros ? ? ?; quiet_step
  | |- wp (schedule_emit _) _ _ => apply wp_schedule_emit; intros ? ?; quiet_step
  | |- wp (record_weak_title _ _ _) _ _ => apply wp_record_weak_title; intros ? ?; quiet_step
  | |- wp (unlock_unless_login _) _ _ => apply wp_unlock; intros ? [->| ->]
  | |- wp (if ?b then _ else _) _ _ => destruct b eqn:?
  end.

Ltac arm_step :=
  match goal with
  | Hr : ready _ _ _ |- wp (take_reported_title _ _) _ _ =>
      apply (wp_reported _ _ _ _ _ _ _ _ Hr); clear Hr; intros ? ? Hr ? ?
  | Hr : ready _ _ _ |- wp (reconcile_window_title _ _ _) _ _ =>
      apply (wp_reconciled _ _ _ _ _ _ _ _ _ Hr); clear Hr; intros ? ? Hr ? ?
  | |- _ => wstep
  end.

Ltac destruct_inv :=
  match goal with
  | |- keeps _ _ =>
      let s := fresh "s" in let f := fresh "f" in let i := fresh "i" in
      let Hs := fresh "Hs" in let Hf := fresh "Hf" in let Hi := fresh "Hi" in
      intros [s f i] [Hs Hf Hi]; cbn [state flags io] in *;
      let g := fresh "g" in let Hr := fresh "Hr" in
      let Hg := fresh "Hg" in
      assert (exists g, ready _ g i /\ state_inv _ s (owned g)) as (g&Hr&Hg)
        by (exists i; by split);
      clear Hs Hi; rename Hg into Hs
  end.

Ltac flags_leaf :=
  match goal with Hf : flags_inv _ _ |- flags_inv _ _ =>
    first [exact Hf | apply (flags_inv_put _ _ _ Hf); cbn; auto] end.
Ltac state_leaf :=
  match goal with Hs : state_inv _ _ _ |- state_inv _ _ _ =>
    first [exact Hs | by apply (state_inv_ext _ _ _ _) with (4 := Hs)] end.
Ltac inv_leaf := eapply Inv_ready; [eassumption|try state_leaf|try flags_leaf].

End FocusInv.
