(* ===== verification/FocusSafety.v ===== *)
(** Every arm of the focus worker's loop keeps its invariant, and what follows for the
    focuses it reports. *)
From S2P Require Import Prelude Events Lru Interner Focus FocusWorker FocusLogic FocusInv.

Module FocusSafety.
Import LruCache Focus FocusWorker FocusLogic FocusInv.

Section safety.
Context `{HashOrder} `{Chrono} {I : Type} {ok : I -> Prop} `{TitleInternerLaws I ok}.
Context `{FocusEnv}.
Notation M := (@M I).
Notation Worker := (@Worker I).
Notation Io := (@Io I).
Context (R : Report).
Notation reported_app := (r_app R).
Notation reported_title := (r_title R).
Notation ready := (ready R (ok := ok)).
Notation Inv := (Inv R (ok := ok)).
Notation keeps := (keeps R (ok := ok)).
Notation state_inv := (state_inv R).
Notation flags_inv := (flags_inv R).

Lemma flush_keeps : keeps flush_before_app_change.
Proof.
  destruct_inv. unfold flush_before_app_change. do 2 arm_step.
  destruct (coalesce_until f) as [u|] eqn:Hu; [|arm_step; inv_leaf].
  do 4 arm_step. arm_step; [|arm_step; inv_leaf].
  assert (forall (s' : FocusState) f' i', ready g i' -> state_inv s' (owned g) -> flags_inv f' ->
    wp (_ ← set_login_window_id; _ ← touch_window; s ← get_state;
        if can_emit s then emit_focus else mret ()) (fun _ => Inv) (MkWorker s' f' i'))
    as Hend.
  { intros s' f' i' Hr' Hs' Hf'. do 6 arm_step. arm_step; [|arm_step; inv_leaf].
    eapply wp_emit_ready; [eassumption|state_leaf|done|]. intros. inv_leaf. }
  arm_step. destruct (pending_window_title f) as [t|] eqn:Ht.
  - do 3 arm_step. apply Hend; [done| |flags_leaf].
    eapply state_inv_title; try done; [by eapply fl_pending|by apply decision_of_value].
  - arm_step. apply Hend; [done..|flags_leaf].
Qed.

Lemma begin_app_inv pid app s f i m :
  ready m i -> flags_inv f -> reported_app app pid ->
  wp (begin_app pid app) (fun _ => Inv) (MkWorker s f i).
Proof.
  intros Hr Hf Ha.
  assert (forall f' i', ready m i' -> flags_inv (put_pending None f') ->
    wp (_ ← modify_flags (fun f => put_reconcile true (put_pending None f));
        _ ← modify_state (fun s => put_window_id 0 (put_title "" (put_pid pid (put_app_name app s))));
        _ ← set_process_start pid; _ ← set_login_window_id; _ ← touch_instance;
        now ← instant_now; _ ← modify_state (put_app_update now);
        _ ← modify_flags (put_awaiting true);
        schedule_emit (if is_login_app app then 50 else 150)) (fun _ => Inv)
      (MkWorker s f' i')) as Hrest.
  { intros f' i' Hr' Hf'. do 17 arm_step. inv_leaf.
    split; [by right|by left|]. eapply free_unnamed; [by eapply ready_titles_ok|by left]. }
  apply wp_bind. arm_step; apply wp_bind; (arm_step; [do 3 arm_step|arm_step]);
    apply Hrest; try done; flags_leaf.
Qed.

Lemma keeps_modify_flags g :
  (forall f, flags_inv f -> flags_inv (g f)) -> keeps (modify_flags g).
Proof. intros Hg. destruct_inv. arm_step. eapply Inv_ready; eauto. Qed.

Lemma on_app_change_keeps pid app :
  reported_app app pid -> keeps (on_app_change pid app).
Proof.
  intros Ha. destruct_inv. unfold on_app_change. do 3 arm_step; [arm_step; inv_leaf|].
  do 3 arm_step. eapply wp_mono; [apply flush_keeps; inv_leaf|].
  intros _ [s' f' i'] [_ Hf' Hi']; cbn in *. apply wp_bind.
  eapply wp_mono; [by eapply begin_app_inv|]. by intros ? w' Hw'.
Qed.

Lemma hold_title_inv t s f i m :
  ready m i -> state_inv s (owned m) -> flags_inv f -> reported_title t -> is_Some (coalesce_until f) ->
  wp (hold_title t) (fun _ => Inv) (MkWorker s f i).
Proof.
  intros Hr Hs [Hp Hl] Ht Hu. unfold hold_title. do 7 arm_step. inv_leaf.
  split; cbn; [|done]. by intros ? [= <-].
Qed.

Lemma decide_title_keeps t : reported_title t -> keeps (decide_title t).
Proof.
  intros Ht. destruct_inv. unfold decide_title. do 4 arm_step. arm_step.
  - do 2 arm_step. destruct d as [v src|v]; cbn [decided_value] in *.
    + do 7 arm_step. inv_leaf. eapply state_inv_title; try done.
      by apply (decision_of_value _ (Accept v src)).
    + assert (v = t) as -> by (unfold decision_of in *; naive_solver).
      destruct (coalesce_until f) as [u|] eqn:Hu; [by eapply hold_title_inv|].
      do 2 arm_step. do 3 arm_step. inv_leaf. by eapply state_inv_title.
  - do 3 arm_step. inv_leaf. by eapply state_inv_title.
Qed.

Lemma settle_keeps : keeps settle_window_change.
Proof.
  destruct_inv. unfold settle_window_change. do 6 arm_step. arm_step; [|arm_step; inv_leaf].
  do 3 arm_step. inv_leaf.
Qed.

Lemma on_window_change_keeps t : reported_title t -> keeps (on_window_change t).
Proof.
  intros Ht. destruct_inv. unfold on_window_change. do 2 arm_step.
  arm_step; [arm_step; inv_leaf|]. arm_step. unfold coalescing. do 2 arm_step.
  assert (forall i', ready g i' -> wp (flow ← decide_title t;
      match flow with Proceed => _ ← settle_window_change; mret Proceed | _ => mret flow end)
    (fun _ => Inv) (MkWorker s f i')) as Hdecide.
  { intros i' Hr'. apply wp_bind. eapply wp_mono; [apply decide_title_keeps; [done|inv_leaf]|].
    intros flow w Hw. destruct flow; try by apply wp_ret.
    apply wp_bind. eapply wp_mono; [by apply settle_keeps|]. by intros ? w' Hw'. }
  destruct (coalesce_until f) as [u|] eqn:Hu; [|arm_step; by apply Hdecide].
  arm_step; [|arm_step; by apply Hdecide]. do 3 arm_step.
  arm_step; [|by apply Hdecide]. by eapply hold_title_inv.
Qed.

Lemma schedule_if_complete_keeps d : keeps (schedule_if_complete d).
Proof. destruct_inv. unfold schedule_if_complete. do 2 arm_step. arm_step; arm_step; inv_leaf. Qed.

Lemma on_app_change_info_keeps info :
  reported_app (i_app_name info) (i_process_id info) -> reported_title (i_title info) ->
  keeps (on_app_change_info info).
Proof.
  intros Ha Ht. destruct_inv. unfold on_app_change_info. do 4 arm_step.
  arm_step; [arm_step; inv_leaf|]. do 5 arm_step.
  assert (forall f' i', ready g i' -> flags_inv f' ->
    wp (_ ← modify_state (put_pid (i_process_id info));
        _ ← set_process_start (i_process_id info);
        _ ← take_reported_title (i_title info) (i_window_id info);
        _ ← modify_state (put_window_id (reported_window_id (i_app_name info) (i_window_id info)));
        _ ← touch_instance; _ ← touch_app_and_window; _ ← modify_flags reconciled;
        _ ← schedule_if_complete 0; mret Proceed) (fun _ => Inv)
      (MkWorker (put_app_name (i_app_name info) s) f' i')) as Hrest.
  { intros f' i' Hr' Hf'. do 14 arm_step. apply wp_bind.
    eapply wp_mono; [apply schedule_if_complete_keeps; inv_leaf|by intros ? w' Hw'].
    by eapply state_inv_new. }
  arm_step; apply Hrest; try done; flags_leaf.
Qed.

Lemma on_window_change_info_keeps info :
  reported_app (i_app_name info) (i_process_id info) -> reported_title (i_title info) ->
  keeps (on_window_change_info info).
Proof.
  intros Ha Ht. destruct_inv. unfold on_window_change_info. do 4 arm_step.
  arm_step; [arm_step; inv_leaf|]. do 2 arm_step.
  assert (forall s' f' i', ready g i' -> flags_inv f' ->
    s_app_name s' = "" \/ reported_app (s_app_name s') (s_pid s') ->
    wp (_ ← take_reported_title (i_title info) (i_window_id info);
        _ ← modify_state (fun s =>
          put_window_id (reported_window_id (s_app_name s) (i_window_id info)) s);
        _ ← touch_window; _ ← modify_flags reconciled;
        _ ← schedule_if_complete 0; mret Proceed) (fun _ => Inv)
      (MkWorker s' f' i')) as Hrest.
  { intros s' f' i' Hr' Hf' Ha'. do 8 arm_step. apply wp_bind.
    eapply wp_mono; [apply schedule_if_complete_keeps; inv_leaf|by intros ? w' Hw'].
    split; cbn; [done|naive_solver|done]. }
  arm_step. arm_step.
  - arm_step. apply Hrest; [done|flags_leaf|]. apply (st_app _ _ _ Hs).
  - do 3 arm_step. arm_step; arm_step; apply Hrest; try flags_leaf; try done; by right.
Qed.

(** ** Polling *)
Lemma recover_keeps info :
  reported_app (i_app_name info) (i_process_id info) -> reported_title (i_title info) ->
  keeps (recover_from_lock info).
Proof.
  intros Ha Ht. destruct_inv. unfold recover_from_lock. do 2 arm_step.
  arm_step; [|arm_step; inv_leaf].
  assert (forall i', ready g i' ->
    wp (_ ← modify_flags (put_lock false None);
        _ ← modify_state (fun s =>
              put_pid (i_process_id info) (put_app_name (i_app_name info) s));
        _ ← set_process_start (i_process_id info);
        _ ← take_reported_title (i_title info) (i_window_id info);
        _ ← modify_state (put_window_id (i_window_id info));
        _ ← touch_instance; _ ← touch_app_and_window;
        _ ← modify_flags (fun f => drop_pending (reconciled f));
        schedule_emit 0) (fun _ => Inv) (MkWorker s f i')) as Hrest.
  { intros i' Hr'. do 17 arm_step. inv_leaf. by eapply state_inv_new. }
  arm_step. destruct (poll_lock_since f); repeat first [by apply Hrest|arm_step].
Qed.

Lemma poll_reconcile_keeps info :
  reported_app (i_app_name info) (i_process_id info) -> reported_title (i_title info) ->
  keeps (poll_reconcile info).
Proof.
  intros Ha Ht. destruct_inv. unfold poll_reconcile. do 4 arm_step.
  arm_step; [|arm_step; inv_leaf]. do 15 arm_step. inv_leaf.
  eapply state_inv_new; try done. cbn. bool_prop. by match goal with Hn : s_app_name s = _ |- _ => rewrite Hn end.
Qed.

Lemma wp_cache_step {A} (g : Io -> A * Io) (Q : A -> Worker -> Prop) m s f i :
  ready m i -> quiet i (g i).2 ->
  (forall x i', ready m i' -> Q x (MkWorker s f i')) -> wp (on_io g) Q (MkWorker s f i).
Proof. intros Hr Hq HQ. apply wp_on_io, HQ. by eapply ready_quiet. Qed.

Lemma poll_title_change_keeps info :
  reported_app (i_app_name info) (i_process_id info) -> reported_title (i_title info) ->
  keeps (poll_title_change info).
Proof.
  intros Ha Ht. destruct_inv. unfold poll_title_change. do 3 arm_step.
  eapply wp_cache_step; [eassumption|by destruct (get_cloned _ _ _); split|].
  intros last i1 Hi1. destruct last as [t|]; [|arm_step; inv_leaf].
  arm_step; [arm_step; inv_leaf|]. do 2 arm_step.
  assert (forall s' f' i', ready g i' -> flags_inv f' ->
    s_app_name s' = "" \/ reported_app (s_app_name s') (s_pid s') ->
    wp (_ ← take_reported_title (i_title info) (i_window_id info);
        _ ← modify_state (put_window_id (i_window_id info));
        _ ← touch_window; schedule_if_complete 0) (fun _ => Inv) (MkWorker s' f' i')) as Hrest.
  { intros s' f' j Hr' Hf' Ha'. do 6 arm_step. apply schedule_if_complete_keeps. inv_leaf.
    split; cbn; [done|naive_solver|done]. }
  arm_step. arm_step.
  - arm_step. apply Hrest; [done|flags_leaf|]. apply (st_app _ _ _ Hs).
  - do 3 arm_step. apply wp_process_start. intros n i2 Hi2. quiet_step. arm_step.
    apply Hrest; [done|flags_leaf|by right].
Qed.

Lemma remember_title_keeps info : keeps (remember_title info).
Proof.
  destruct_inv. unfold remember_title. do 2 arm_step.
  eapply wp_cache_step; [eassumption|by split|]. intros. inv_leaf.
Qed.

Lemma on_poll_keeps info :
  reported_app (i_app_name info) (i_process_id info) -> reported_title (i_title info) ->
  keeps (on_poll info).
Proof.
  intros Ha Ht. destruct_inv. unfold on_poll. do 4 arm_step. arm_step; [arm_step; inv_leaf|].
  assert (keeps (_ ← recover_from_lock info; _ ← poll_reconcile info;
    _ ← poll_title_change info; _ ← remember_title info; mret Proceed)) as Hk.
  { apply keeps_bind; [by apply recover_keeps|intros _].
    apply keeps_bind; [by apply poll_reconcile_keeps|intros _].
    apply keeps_bind; [by apply poll_title_change_keeps|intros _].
    apply keeps_bind; [apply remember_title_keeps|intros _]. apply keeps_ret. }
  apply Hk. inv_leaf.
Qed.

Lemma login_focus_keeps : keeps emit_loginwindow_focus.
Proof.
  destruct_inv. unfold emit_loginwindow_focus. do 2 arm_step.
  rewrite <- (ready_owned _ _ _ H5) in Hs. destruct H5 as [Hi5 _].
  apply wp_bind, (wp_intern R (ok := ok)); [done|]. intros n1 Hi1.
  apply wp_bind, (wp_intern R (ok := ok)); [done|]. intros n2 Hi2. apply wp_on_io.
  split; [by apply Hs|done|]. destruct Hi2 as [Hti Hc Hok Hm He Hh Hd].
  split; try done; cbn in *.
  - apply Forall_app. split; [done|]. by repeat constructor.
  - intros Hroom. rewrite last_emitted_snoc. by apply Hh.
  - intros Hroom. apply no_bleed_snoc; [by apply Hd|]. right. by left.
Qed.

Lemma on_poll_error_keeps err : keeps (on_poll_error err).
Proof.
  destruct_inv. unfold on_poll_error. do 5 arm_step.
  arm_step; [|do 2 arm_step; inv_leaf]. do 4 arm_step.
  assert (flags_inv (put_lock true (Some (mono (mono_read i))) f)) as Hf'.
  { destruct Hf as [Hp _]. split; [done|]. cbn. split; eauto. }
  arm_step; [|do 2 arm_step; inv_leaf]. eapply wp_mono; [apply login_focus_keeps; inv_leaf|].
  by intros ? w' Hw'.
Qed.

(** ** The loop *)
Lemma settle_held_title_inv t s f i m :
  ready m i -> state_inv s (owned m) -> flags_inv f -> reported_title t ->
  wp (settle_held_title t)
    (fun _ w => Inv w /\ pending_window_title (flags w) = pending_window_title f)
    (MkWorker s f i).
Proof.
  intros Hr Hs Hf Ht. unfold settle_held_title.
  assert (forall s' i', ready m i' -> state_inv s' (owned m) ->
    wp (_ ← set_login_window_id; _ ← touch_window; modify_flags (put_awaiting true))
      (fun _ w => Inv w /\ pending_window_title (flags w) = pending_window_title f)
      (MkWorker s' f i')) as Hend.
  { intros s' j Hr' Hs'. do 5 arm_step. split; [inv_leaf|done]. }
  do 7 arm_step. destruct d as [v src|v]; cbn [decided_value] in *.
  - do 3 arm_step. apply Hend; [done|]. eapply state_inv_title; try done.
    by apply (decision_of_value _ (Accept v src)).
  - assert (v = t) as -> by (unfold decision_of in *; naive_solver).
    arm_step. apply Hend; [done|]. by eapply state_inv_title.
Qed.

Lemma end_coalescing_keeps : keeps end_coalescing.
Proof.
  destruct_inv. unfold end_coalescing. do 2 arm_step.
  destruct (coalesce_until f) as [u|] eqn:Hu; [|arm_step; inv_leaf].
  do 2 arm_step. arm_step; [|arm_step; inv_leaf]. do 3 arm_step.
  apply (wp_mono _ (fun _ w => Inv w /\ pending_window_title (flags w) = None)).
  - destruct (pending_window_title f) as [t|] eqn:Ht; [|arm_step; split; [inv_leaf|done]].
    eapply settle_held_title_inv; [done..|flags_leaf|by eapply fl_pending].
  - intros _ [s' f' j] [[Hs' Hf' Hi'] Hn]; cbn in *.
    assert (ready j j) as Hr' by done. do 4 arm_step.
    assert (flags_inv (put_reconcile false (put_coalesce None f'))) as Hf1.
    { destruct Hf' as [_ Hl]. split; [|done]. cbn. congruence. }
    arm_step; arm_step; inv_leaf.
Qed.

Lemma emit_scheduled_keeps : keeps emit_scheduled.
Proof.
  destruct_inv. unfold emit_scheduled. do 2 arm_step.
  destruct (scheduled_emit_at f) as [when|] eqn:Hw; [|arm_step; inv_leaf].
  do 4 arm_step. arm_step; [|arm_step; inv_leaf]. arm_step. bool_prop.
  eapply wp_emit_ready; [eassumption|done..|]. intros. arm_step. inv_leaf.
Qed.

(** A turn reports something of the run. *)
Definition reported (r : Received) : Prop :=
  (forall app pid, reports_app r app pid -> reported_app app pid) /\
  (forall t, reports_title r t -> reported_title t).

Lemma on_received_keeps v r : reported r -> keeps (on_received v r).
Proof.
  intros [Ha Ht]. unfold on_received. destruct r as [[| | | |]|[]|]; cbn.
  - apply on_app_change_keeps; auto with kron.
  - apply on_window_change_keeps; auto with kron.
  - apply on_app_change_info_keeps; auto with kron.
  - apply on_window_change_info_keeps; auto with kron.
  - apply keeps_ret.
  - destruct (_ =? _); [apply keeps_ret|apply on_poll_keeps; auto with kron].
  - destruct (_ =? _); [apply keeps_ret|apply on_poll_error_keeps].
  - apply keeps_ret.
Qed.

Lemma turn_keeps x : reported (received x) -> keeps (turn x).
Proof.
  intros Hx. unfold turn. destruct (should_stop x); [apply keeps_ret|].
  apply keeps_bind; [by apply on_received_keeps|]. intros [| |]; try apply keeps_ret.
  apply keeps_bind; [apply end_coalescing_keeps|intros _].
  apply keeps_bind; [apply emit_scheduled_keeps|intros _]. apply keeps_ret.
Qed.

Lemma turns_keeps l : Forall (fun x => reported (received x)) l -> keeps (turns l).
Proof.
  induction 1 as [|x l Hx Hl IH]; [apply keeps_ret|].
  apply keeps_bind; [by apply turn_keeps|]. intros []; [done|apply keeps_ret].
Qed.

Lemma new_worker_inv empty : ok empty -> Inv (new_worker empty).
Proof.
  intros Hok.
  assert (titles (last_app_window (io (new_worker empty))) = ∅) as Ht by apply fmap_empty.
  split; [|by split; [|split; [|intros [? ?]]]|split; rewrite ?Ht; try done].
  - rewrite Ht. split; cbn; [by left|by left|]. right. intros b. by rewrite lookup_empty.
  - intros _ l1 f l2 Hl. by destruct l1.
Qed.

Lemma run_inv empty l :
  ok empty -> Forall (fun x => reported (received x)) l -> Inv (run_focus_worker empty l).
Proof.
  intros Hok Hl. apply (wp_elim (turns l) (fun _ => Inv)), turns_keeps; [done|].
  by apply new_worker_inv.
Qed.
End safety.

(** ** Theorems

    What the turns of a run report, together. *)
Definition reported_app_in (l : list Turn) (app : string) (pid : Z) : Prop :=
  exists x, x ∈ l /\ reports_app (received x) app pid.
Definition reported_title_in (l : list Turn) (t : string) : Prop :=
  exists x, x ∈ l /\ reports_title (received x) t.
(** Every application a message or an answer names, as executable as the turns. *)
Definition named_app (r : Received) : option string :=
  match r with
  | Msg (AppChange _ app) => Some app
  | Msg (AppChangeInfo info) | Msg (WindowChangeInfo info) => Some (i_app_name info)
  | Timeout (inl info) => Some (i_app_name info)
  | _ => None
  end.
Definition named_apps (l : list Turn) : gset string :=
  list_to_set (omap (fun x => named_app (received x)) l).

Definition report_of (l : list Turn) : Report :=
  {| r_app := reported_app_in l; r_title := reported_title_in l; r_apps := named_apps l |}.

Lemma reported_in l : Forall (fun x => reported (report_of l) (received x)) l.
Proof. apply Forall_forall. intros x Hx. split; intros *; by exists x. Qed.

Lemma reported_named l app pid : reported_app_in l app pid -> app ∈ named_apps l.
Proof.
  intros (x&Hx&Hr). apply elem_of_list_to_set, list_elem_of_omap. exists x. split; [done|].
  by destruct Hr.
Qed.

Section theorems.
Context `{HashOrder} `{Chrono} {I : Type} {ok : I -> Prop} `{TitleInternerLaws I ok}.
Context `{FocusEnv}.

(** C11: whatever the messages, the answers to the polls and the clocks, every focus the
    worker reports is either the synthesized login focus or names an application and
    a process that one message or answer of the run reported together, with a title
    that was reported or the placeholder; its name and title are not empty, its
    process and start time are positive, and so is its window unless windows without
    an id are allowed. *)
Theorem focus_reports_ok empty l :
  ok empty -> Forall (focus_ok (report_of l)) (emitted (io (run_focus_worker empty l))).
Proof.
  intros Hok. eapply io_emitted, inv_io, run_inv; [done|apply reported_in].
Qed.

(** C27: titles do not bleed between applications: as long as the title cache has room
    for the applications of the run, no focus (but the login focus, and the
    placeholder) carries the title that another application showed last. *)
Theorem focus_titles_do_not_bleed empty l :
  ok empty -> Z.of_nat (size (named_apps l)) <= title_cache_capacity caps ->
  no_bleed (emitted (io (run_focus_worker empty l))).
Proof.
  intros Hok Hroom.
  eapply (io_distinct (report_of l)); [eapply inv_io, run_inv; [done|apply reported_in]|].
  split; [apply reported_named|done].
Qed.

(** A title held back during a reconciliation always waits for a deadline and was
    reported by the run; the time of a lock-like error is known exactly while the
    worker believes the screen is locked. *)
Theorem held_title_has_deadline empty l :
  ok empty ->
  let f := flags (run_focus_worker empty l) in
  (forall t, pending_window_title f = Some t ->
     reported_title_in l t /\ is_Some (coalesce_until f)) /\
  (poll_lock_active f = true <-> is_Some (poll_lock_since f)).
Proof.
  intros Hok f.
  destruct (inv_flags _ _ (run_inv (report_of l) empty l Hok (reported_in l))) as [Hp Hl].
  by split.
Qed.
End theorems.

(** ** The theorems on a concrete run *)
Definition demo_info (app : string) (pid : Z) (title : string) (wid : Z) : ActiveWindowInfo :=
  {| i_app_name := app; i_process_id := pid; i_title := title; i_window_id := wid |}.
Definition demo_turns : list Turn :=
  [message (AppChange 7 "Mail"); message (WindowChange "Inbox");
   poll (inl (demo_info "Mail" 7 "Inbox" 3)); message (AppChange 8 "Term");
   poll (inl (demo_info "Term" 8 "Inbox" 4))].

Lemma focus_reports_ok_witness :
  (fun f => (app_name f, window_title f, pid f)) <$> emitted (io (demo_run 40 demo_turns))
    = [("Mail", "Inbox", 7); ("Mail", "Inbox", 7); ("Term", "-", 8)] /\
  Forall (@focus_ok (demo_env 40) (report_of demo_turns)) (emitted (io (demo_run 40 demo_turns))).
Proof.
  split; [vm_compute; reflexivity|].
  apply (@focus_reports_ok hash_order_id chrono_ref _ _ _ StringInterner.interner_titles_laws
    (demo_env 40) demo_interner demo_turns). apply demo_focus_interner_ok.
Defined.

Lemma focus_titles_do_not_bleed_witness : no_bleed (emitted (io (demo_run 40 demo_turns))).
Proof.
  apply (@focus_titles_do_not_bleed hash_order_id chrono_ref _ _ _
    StringInterner.interner_titles_laws (demo_env 40) demo_interner demo_turns).
  - apply demo_focus_interner_ok.
  - vm_compute. congruence.
Defined.

Lemma held_title_has_deadline_witness :
  let f := flags (demo_run 1 (take 2 demo_turns)) in
  pending_window_title f = Some "Inbox" /\ is_Some (coalesce_until f).
Proof.
  intros f. assert (pending_window_title f = Some "Inbox") as Hp by (vm_compute; reflexivity).
  split; [exact Hp|].
  apply (proj2 (proj1 (@held_title_has_deadline hash_order_id chrono_ref _ _ _
    StringInterner.interner_titles_laws (demo_env 1) demo_interner (take 2 demo_turns)
    demo_focus_interner_ok) "Inbox" Hp)).
Defined.
End FocusSafety.
