(* ===== verification/FocusTitles.v ===== *)
(** When the focus worker shows the title that it was given: a title that no other
    application has in one of the caches is never replaced by the placeholder. *)
From S2P Require Import Prelude Events Lru Interner Focus FocusWorker FocusLogic FocusInv.

Module FocusTitles.
Import LruCache Focus FocusWorker FocusLogic FocusInv.

(** ** The titles of a cache under its operations *)
Section caches.
Context `{HashOrder}.
Notation TitleCache := (@LruCache string (string * Z) _ _).

Lemma get_cloned_keeps (c : TitleCache) now k :
  titles (get_cloned c now k).1 ⊆ titles c /\
  (forall v, (get_cloned c now k).2 = Some v -> titles c !! k = Some v.1).
Proof.
  unfold get_cloned, titles. destruct (LruCache.map c !! k) as [[v ts]|] eqn:Hk; cbn; [|done].
  destruct (expired c now ts); cbn.
  - split; [|done]. rewrite fmap_delete. apply delete_subseteq.
  - rewrite fmap_insert, insert_id by (by rewrite lookup_fmap, Hk). split; [done|].
    intros ? [= <-]. by rewrite lookup_fmap, Hk.
Qed.

Lemma any_entry_matches_keeps (c : TitleCache) now p :
  titles (any_entry_matches c now p).1 ⊆ titles c.
Proof.
  unfold any_entry_matches. destruct (scan _ _ _ _ _) as [[] ks]; [done|]. cbn.
  unfold titles, set_map. cbn. apply map_fmap_mono. generalize (LruCache.map c) as m.
  induction ks as [|k ks IH]; intros m; [done|]. cbn. etrans; [apply IH|]. apply delete_subseteq.
Qed.

Lemma any_entry_matches_other (c : TitleCache) now app t :
  (any_entry_matches c now (other_app_has app t)).2 = true ->
  exists k, k <> app /\ titles c !! k = Some t.
Proof.
  intros (k&v&ts&Hk&_&Hp)%any_entry_matches_found. unfold other_app_has in Hp. bool_prop.
  exists k. split; [done|]. unfold titles. rewrite lookup_fmap, Hk. cbn.
  by f_equal.
Qed.
End caches.

Section titles.
Context `{HashOrder} `{Chrono} {I : Type} {ok : I -> Prop} `{TitleInternerLaws I ok}.
Context `{FocusEnv}.
Notation M := (@M I).
Notation Worker := (@Worker I).
Notation Io := (@Io I).

Context (app t : string).

(** No cache has the title for another application. *)
Definition lone (i : Io) : Prop :=
  forall c k, titles (cache_of c i) !! k = Some t -> k = app.

(** Nothing stands against the title: neither of the caches, nor the application that the
    worker left (it may have the same name, and another process). *)
Record unclaimed (w : Worker) : Prop := {
  un_lone : lone (io w);
  un_last : last_app_before_change (flags w) <> Some app
}.

(** An operation that reports nothing and gives the title to no other application. *)
Record solo (i i' : Io) : Prop := {
  so_emitted : emitted i' = emitted i;
  so_interner : ok (interner i) -> ok (interner i');
  so_lone : lone i -> lone i'
}.

#[export] Instance solo_preorder : PreOrder solo.
Proof.
  split; [by intros i; split|]. intros i j k [] []. split; [congruence|auto..].
Qed.

Lemma lone_put c x (i : Io) :
  lone i -> (forall k, titles x !! k = Some t -> k = app) -> lone (put_cache c x i).
Proof. intros Hi Hx [] k; destruct c; cbn; try apply Hx; [apply (Hi Strong)|apply (Hi Weak)]. Qed.

Lemma solo_put c x (i : Io) :
  (lone i -> forall k, titles x !! k = Some t -> k = app) -> solo i (put_cache c x i).
Proof. intros Hx. split; [by destruct c..|]. intros Hi. by apply lone_put, Hx. Qed.

Lemma wp_instant_solo (Q : _ -> Worker -> Prop) s f i :
  (forall n i', solo i i' -> Q n (MkWorker s f i')) -> wp instant_now Q (MkWorker s f i).
Proof. intros HQ. apply wp_on_io, HQ. by split. Qed.

Lemma wp_matches_app_solo a c (Q : _ -> Worker -> Prop) s f i :
  (forall b i', solo i i' -> (lone i -> b = true -> a = app) -> Q b (MkWorker s f i')) ->
  wp (title_matches_app a t c) Q (MkWorker s f i).
Proof.
  intros HQ. apply wp_bind, wp_instant_solo. intros now i1 Hi1. apply wp_on_io.
  destruct (get_cloned_keeps (cache_of c i1) now a) as [Hsub Hv].
  destruct (get_cloned (cache_of c i1) now a) as [x v]. cbn [fst snd] in *. apply HQ.
  - etrans; [exact Hi1|]. apply solo_put. intros Hl k Hk. apply (Hl c). by eapply lookup_weaken.
  - intros Hl. destruct v as [[v n]|]; cbn; [|done]. intros ->%bool_decide_eq_true.
    apply (so_lone _ _ Hi1 Hl c). by apply (Hv (t, n)).
Qed.

Lemma wp_matches_other_solo c (Q : _ -> Worker -> Prop) s f i :
  lone i -> (forall i', solo i i' -> Q false (MkWorker s f i')) ->
  wp (title_matches_other_app app t c) Q (MkWorker s f i).
Proof.
  intros Hl HQ. apply wp_bind, wp_instant_solo. intros now i1 Hi1. apply wp_on_io.
  pose proof (any_entry_matches_keeps (cache_of c i1) now (other_app_has app t)) as Hsub.
  pose proof (any_entry_matches_other (cache_of c i1) now app t) as Hv.
  destruct (any_entry_matches (cache_of c i1) now _) as [x v]. cbn [fst snd] in *.
  destruct v.
  { destruct (Hv eq_refl) as (k&Hne&Hk). destruct Hne. by apply (so_lone _ _ Hi1 Hl c). }
  apply HQ. etrans; [exact Hi1|]. apply solo_put. intros Hl1 k Hk. apply (Hl1 c).
  by eapply lookup_weaken.
Qed.

Lemma put_lone (c : @LruCache string (string * Z) _ _) now n :
  (forall k, titles c !! k = Some t -> k = app) ->
  forall k, titles (put c now app (t, n)) !! k = Some t -> k = app.
Proof.
  intros Hc k Hk. destruct (titles_put c now app t n) as [Hsub _].
  eapply lookup_weaken in Hk; [|exact Hsub]. apply lookup_insert_Some in Hk as [[<- _]|[_ Hk]]; auto.
Qed.

Lemma wp_record_weak_solo n (Q : _ -> Worker -> Prop) s f i :
  (forall i', solo i i' -> Q () (MkWorker s f i')) -> wp (record_weak_title app t n) Q (MkWorker s f i).
Proof.
  intros HQ. unfold record_weak_title. destruct (_ && _); [|by apply wp_ret, HQ].
  apply wp_bind, wp_instant_solo. intros now i1 Hi1. apply wp_on_io. cbn. apply HQ.
  etrans; [exact Hi1|]. apply (solo_put Weak). intros Hl. apply put_lone, (Hl Weak).
Qed.

Lemma wp_validate_solo (Q : _ -> Worker -> Prop) s f i :
  lone i -> (forall i', solo i i' -> Q t (MkWorker s f i')) ->
  wp (validate_title_with_weak app t) Q (MkWorker s f i).
Proof.
  intros Hl HQ. unfold validate_title_with_weak. destruct (_ || _); [by apply wp_ret, HQ|].
  apply wp_bind, wp_matches_app_solo. intros b1 i1 Hi1 _. destruct b1; [by apply wp_ret, HQ|].
  pose proof (so_lone _ _ Hi1 Hl) as Hl1.
  apply wp_bind, wp_matches_other_solo; [done|]. intros i2 Hi2.
  pose proof (so_lone _ _ Hi2 Hl1) as Hl2.
  apply wp_bind, wp_matches_other_solo; [done|]. intros i3 Hi3.
  apply wp_bind, wp_matches_app_solo. intros b4 i4 Hi4 _. apply wp_ret, HQ.
  by rewrite Hi1, Hi2, Hi3, Hi4.
Qed.

Lemma wp_reconcile_solo last (Q : _ -> Worker -> Prop) s f i :
  lone i -> last <> Some app ->
  (forall d i', solo i i' -> (d = Accept t Pending \/ d = Hold t) -> Q d (MkWorker s f i')) ->
  wp (reconcile_window_title app t last) Q (MkWorker s f i).
Proof.
  intros Hl Hlast HQ. unfold reconcile_window_title. destruct (_ && _); [apply wp_ret, HQ; [done|by left]|].
  apply wp_bind. apply (wp_mono _ (fun b w => b = false /\ exists i', w = MkWorker s f i' /\ solo i i')).
  { unfold previous_app_has. destruct last as [p|]; [|apply wp_ret; split; [done|by exists i]].
    apply wp_bind, wp_matches_app_solo. intros b1 i1 Hi1 Hb1.
    destruct b1; [by destruct Hlast; rewrite Hb1|].
    apply wp_matches_app_solo. intros b2 i2 Hi2 Hb2. pose proof (so_lone _ _ Hi1 Hl) as Hl1.
    split; [destruct b2; [by destruct Hlast; rewrite Hb2|done]|].
    exists i2. split; [done|]. by etrans. }
  intros b w (->&i0&->&Hi0). pose proof (so_lone _ _ Hi0 Hl) as Hl0.
  apply wp_bind, wp_matches_app_solo. intros b1 i1 Hi1 _. pose proof (so_lone _ _ Hi1 Hl0) as Hl1.
  destruct b1; [apply wp_ret, HQ; [by etrans|by left]|].
  apply wp_bind, wp_matches_other_solo; [done|]. intros i2 Hi2.
  pose proof (so_lone _ _ Hi2 Hl1) as Hl2.
  apply wp_bind, wp_matches_other_solo; [done|]. intros i3 Hi3.
  apply wp_bind, wp_matches_app_solo. intros b4 i4 Hi4 _. apply wp_ret, HQ.
  - by rewrite Hi0, Hi1, Hi2, Hi3, Hi4.
  - destruct b4; auto.
Qed.

(** ** What the worker goes on to report *)

(** The worker shows [app], with the title [t] or none yet, and has reported nothing but
    [t] since [E]. *)
Record clear (E : list WindowFocusInfo) (w : Worker) : Prop := {
  cl_app : s_app_name (state w) = app;
  cl_title : s_window_title (state w) = "" \/ s_window_title (state w) = t;
  cl_pending u : pending_window_title (flags w) = Some u -> u = t;
  cl_last : last_app_before_change (flags w) <> Some app;
  cl_lone : lone (io w);
  cl_interner : ok (interner (io w));
  cl_emitted : exists rest, emitted (io w) = E ++ rest /\ Forall (fun f => window_title f = t) rest
}.

Lemma clear_solo E s f i i' : solo i i' -> clear E (MkWorker s f i) -> clear E (MkWorker s f i').
Proof. intros [He Hi Hl] []. cbn in *. split; cbn; try done; [auto..|by rewrite He]. Qed.

Lemma clear_state E s s' f i :
  s_app_name s' = s_app_name s ->
  (s_window_title s' = s_window_title s \/ s_window_title s' = t) ->
  clear E (MkWorker s f i) -> clear E (MkWorker s' f i).
Proof. intros Ha Htt []. cbn in *. split; cbn; try done; [congruence|]. destruct Htt as [->|]; auto. Qed.

Lemma clear_flags E s f f' i :
  (pending_window_title f' = pending_window_title f \/ pending_window_title f' = None \/
   pending_window_title f' = Some t) ->
  last_app_before_change f' = last_app_before_change f ->
  clear E (MkWorker s f i) -> clear E (MkWorker s f' i).
Proof.
  intros Hp Hl []. cbn in *. split; cbn; try done; [|congruence].
  intros u Hu. destruct Hp as [Hp|[Hp|Hp]]; rewrite Hp in Hu; [auto|done|by injection Hu].
Qed.

Definition stays {A} (m : M A) : Prop := forall E w, clear E w -> wp m (fun _ => clear E) w.

Lemma stays_bind {A B} (m : M A) (k : A -> M B) : stays m -> (forall x, stays (k x)) -> stays (m ≫= k).
Proof.
  intros Hm Hk E w Hw. apply wp_bind. eapply wp_mono; [by apply Hm|]. intros x w' Hw'. by apply Hk.
Qed.
Lemma stays_ret {A} (x : A) : stays (mret x).
Proof. by intros E w Hw. Qed.
Lemma stays_get_flags {B} (k : Flags -> M B) :
  (forall f, last_app_before_change f <> Some app -> (forall u, pending_window_title f = Some u -> u = t) ->
     stays (k f)) -> stays (get_flags ≫= k).
Proof. intros Hk E [s f i] Hw. apply wp_bind, wp_get_flags, Hk; [apply Hw..|done]. Qed.
Lemma stays_get_state {B} (k : FocusState -> M B) :
  (forall s, s_app_name s = app -> stays (k s)) -> stays (get_state ≫= k).
Proof. intros Hk E [s f i] Hw. apply wp_bind, wp_get_state, Hk; [apply Hw|done]. Qed.
Lemma stays_modify_state g :
  (forall s, s_app_name (g s) = s_app_name s) ->
  (forall s, s_window_title (g s) = s_window_title s \/ s_window_title (g s) = t) ->
  stays (modify_state g).
Proof. intros Ha Htt E [s f i] Hw. apply wp_modify_state. by apply (clear_state E s). Qed.
Lemma stays_modify_flags g :
  (forall f, pending_window_title (g f) = pending_window_title f \/ pending_window_title (g f) = None \/
     pending_window_title (g f) = Some t) ->
  (forall f, last_app_before_change (g f) = last_app_before_change f) ->
  stays (modify_flags g).
Proof. intros Hp Hl E [s f i] Hw. apply wp_modify_flags. by apply (clear_flags E s f). Qed.
Lemma stays_instant_now : stays instant_now.
Proof. intros E [s f i] Hw. apply wp_instant_solo. intros n i' Hi. by eapply clear_solo. Qed.
Lemma stays_record n : stays (record_weak_title app t n).
Proof. intros E [s f i] Hw. apply wp_record_weak_solo. intros i' Hi. by eapply clear_solo. Qed.

(** The title survives its checks. *)
Lemma stays_take_reported n : stays (take_reported_title t n).
Proof.
  intros E [s f i] Hw. pose proof (cl_app _ _ Hw) as Ha. cbn in Ha.
  apply wp_bind, wp_get_state, wp_bind. rewrite Ha. apply wp_record_weak_solo. intros i1 Hi1.
  apply wp_bind, wp_validate_solo; [by apply Hi1, Hw|]. intros i2 Hi2. apply wp_modify_state.
  apply (clear_state E s); [done|by right|]. by eapply clear_solo, clear_solo.
Qed.

Lemma stays_reconcile {B} last (k : ReconcileDecision -> M B) :
  last <> Some app -> (forall d, d = Accept t Pending \/ d = Hold t -> stays (k d)) ->
  stays (reconcile_window_title app t last ≫= k).
Proof.
  intros Hl Hk E [s f i] Hw. apply wp_bind, wp_reconcile_solo; [apply Hw|done|].
  intros d i' Hi Hd. apply Hk; [done|]. by eapply clear_solo.
Qed.

Lemma stays_schedule d : stays (schedule_emit d).
Proof.
  apply stays_bind; [apply stays_instant_now|]. intros now. apply stays_modify_flags; [by left|done].
Qed.

Lemma stays_touch_window : stays touch_window.
Proof.
  apply stays_bind; [apply stays_instant_now|]. intros now. apply stays_modify_state; [done|by left].
Qed.

Lemma wp_intern_solo u (Q : _ -> Worker -> Prop) s f i :
  ok (interner i) -> (forall i', solo i i' -> Q u (MkWorker s f i')) ->
  wp (intern u) Q (MkWorker s f i).
Proof.
  intros Hok HQ. apply wp_on_io. pose proof (intern_text_ok (interner i) u Hok) as Hok'.
  pose proof (intern_text_text (interner i) u Hok) as Htext.
  destruct (intern_text (interner i) u) as [n v]. cbn in *. rewrite Htext. apply HQ.
  split; [done..|]. intros Hl []; [apply (Hl Strong)|apply (Hl Weak)].
Qed.

Lemma emit_focus_stays E s f i :
  s_window_title s = t -> clear E (MkWorker s f i) ->
  wp emit_focus (fun _ => clear E) (MkWorker s f i).
Proof.
  intros Hst Hw. pose proof (cl_app _ _ Hw) as Ha. cbn in Ha.
  apply wp_bind, wp_get_state, wp_bind. unfold to_window_focus_info.
  apply wp_bind, wp_intern_solo; [apply Hw|]. intros i1 Hi1.
  apply wp_bind, wp_intern_solo; [by apply Hi1, Hw|]. intros i2 Hi2.
  apply wp_ret, wp_bind, wp_modify_flags, wp_bind, wp_on_io. cbn [fst snd].
  unfold record_last_app_window.
  match goal with |- context [push_emitted ?g i2] => set (info := g) end.
  assert (clear E (MkWorker s (put_emit_seq (uw 64 (emit_seq f + 1)) f) (push_emitted info i2)))
    as Hw3.
  { eapply clear_solo in Hw; [|by rewrite Hi1, Hi2].
    destruct Hw as [C1 C2 C3 C4 C5 C6 (rest&He&Hr)]. cbn in *. split; cbn; try done.
    exists (rest ++ [info]). rewrite He, (assoc_L (++)). split; [done|].
    apply Forall_app. split; [done|]. by repeat constructor. }
  destruct (_ && _); [|by apply wp_ret].
  apply wp_bind, wp_instant_solo. intros now i3 Hi3. apply wp_on_io. cbn [fst snd]. rewrite Ha, Hst.
  eapply clear_solo; [|eapply clear_solo; [exact Hi3|exact Hw3]].
  apply (solo_put Strong). intros Hl. apply put_lone, (Hl Strong).
Qed.

Lemma emit_when_stays (b : bool) (m : FocusState -> M unit) :
  (forall s, stays (m s)) ->
  forall E s f i, clear E (MkWorker s f i) ->
  wp (if b && can_emit s then _ ← emit_focus; m s else mret ()) (fun _ => clear E) (MkWorker s f i).
Proof.
  intros Hm E s f i Hw. destruct (b && can_emit s) eqn:Hb; [|by apply wp_ret].
  apply andb_prop in Hb as [_ (_&Hne&_)%can_emit_true].
  apply wp_bind. eapply wp_mono; [apply emit_focus_stays; [|done]|].
  - by destruct (cl_title _ _ Hw).
  - intros [] w Hw'. by apply Hm.
Qed.

(** One step of an operation that leaves a clear worker clear. *)
Ltac stay :=
  first [ match goal with Ha : s_app_name ?s = app |- context [s_app_name ?s] => rewrite Ha end
        | apply stays_take_reported | apply stays_record | apply stays_schedule
        | apply stays_touch_window | apply stays_instant_now | apply stays_ret
        | apply stays_modify_state; [done|by auto]
        | apply stays_modify_flags; [by auto|done]
        | apply stays_reconcile; [assumption|intros ? [->| ->]]
        | apply stays_get_flags; intros ? ? ?
        | apply stays_get_state; intros ? ?
        | apply stays_bind; [|intros ?]
        | case_match ].

Lemma end_coalescing_stays : stays end_coalescing.
Proof.
  unfold end_coalescing. stay. case_match; [|by stay]. stay; [by stay|]. case_match; [|by stay].
  stay; [by stay|]. stay; [|by repeat stay].
  destruct (pending_window_title f) as [u|] eqn:Hu; [|by stay].
  assert (u = t) as -> by auto. unfold settle_held_title, set_login_window_id. by repeat stay.
Qed.

Lemma emit_scheduled_stays : stays emit_scheduled.
Proof.
  unfold emit_scheduled. stay. case_match; [|by stay]. stay; [by stay|].
  intros E [s f' i'] Hw. apply wp_bind, wp_get_state.
  apply (emit_when_stays _ (fun _ => modify_flags (put_scheduled None))); [|done]. intros _. by stay.
Qed.

Lemma window_change_stays : stays (on_window_change t).
Proof.
  unfold on_window_change, decide_title, settle_window_change, coalescing, hold_title, set_login_window_id.
  by repeat stay.
Qed.
End titles.
End FocusTitles.
