(* ===== verification/FocusLiveness.v ===== *)
(** What the focus worker is sure to report, and when it reports nothing: progress
    towards a deadline, and the ways to miss it. *)
From S2P Require Import Prelude Events Lru Interner Focus FocusWorker FocusLogic FocusInv FocusSafety FocusTitles.

Module FocusLiveness.
Import LruCache Focus FocusWorker FocusLogic FocusInv FocusSafety FocusTitles.

(** The invariant, with nothing asked of what is reported. *)
Definition any_report : Report :=
  {| r_app _ _ := True; r_title _ := True; r_apps := ∅ |}.

Ltac quiet_leaf :=
  match goal with Hr : FocusInv.ready _ ?m ?i |- quiet ?m ?i => exact (proj2 Hr) end.

Section liveness.
Context `{HashOrder} `{Chrono} {I : Type} {ok : I -> Prop} `{TitleInternerLaws I ok}.
Context `{FocusEnv}.
Notation M := (@M I).
Notation Worker := (@Worker I).
Notation Io := (@Io I).
Notation ready := (ready any_report (ok := ok)).
Notation Inv := (Inv any_report (ok := ok)).
Notation state_inv := (state_inv any_report).
Notation flags_inv := (flags_inv any_report).

Lemma any_reported r : reported any_report r.
Proof. by split. Qed.

Lemma reachable_inv empty l : ok empty -> Inv (run_focus_worker empty l).
Proof. intros Hok. apply run_inv; [done|]. apply Forall_forall. intros x _. apply any_reported. Qed.

Lemma wp_and {A} (m : M A) (P Q : A -> Worker -> Prop) w :
  wp m P w -> wp m Q w -> wp m (fun x w' => P x w' /\ Q x w') w.
Proof. unfold wp. by destruct (m w). Qed.

(** A turn in which the window system answers with an error that does not look like a
    locked screen: only the deadlines move. *)
Definition quiet_turn (x : Turn) : Prop :=
  should_stop x = false /\ poll_value x <> POLL_SUSPEND_MS /\
  exists err, received x = Timeout (inr err) /\ is_lock_error err = false.

Definition idle : M unit := _ ← end_coalescing; emit_scheduled.

Lemma quiet_turn_idle x w : quiet_turn x -> turn x w = (true, (idle w).2).
Proof.
  intros (Hs&Hv&err&Hr&He). unfold turn, idle. rewrite Hs, Hr. cbn.
  rewrite (proj2 (Z.eqb_neq _ _) Hv). unfold on_poll_error. rewrite He. cbn.
  unfold mbind, M_bind, mret, M_ret, get_state, get_flags. cbn.
  destruct (end_coalescing w) as [[] w1]. by destruct (emit_scheduled w1) as [[] w2].
Qed.

Lemma reported_window_id_positive app n : 0 < n -> 0 < reported_window_id app n.
Proof.
  intros Hn. unfold reported_window_id, LOGINWINDOW_WINDOW_ID.
  destruct (is_login_app app && _); lia.
Qed.

(** A window that may be reported still may be, after a login window got its id. *)
Lemma window_allowed app n :
  focus_allow_zero_window_id caps = true \/ 0 < n ->
  focus_allow_zero_window_id caps = true \/ 0 < reported_window_id app n.
Proof. intros [|Hn]; [by left|right]. by apply reported_window_id_positive. Qed.

(** The deadline the next report waits for. *)
Definition deadline (f : Flags) : option instant :=
  match coalesce_until f with Some u => Some u | None => scheduled_emit_at f end.

Section due.
Context (app : string) (p : Z) (t : string).
Context (Happ : app <> "") (Hp : 0 < p) (Ht : t <> "").

(** A focus of [app] with the title [t], or the placeholder, is on its way. *)
Record due (w : Worker) : Prop := {
  d_app : s_app_name (state w) = app;
  d_pid : s_pid (state w) = p;
  d_start : 0 < s_process_start_time (state w);
  d_window : focus_allow_zero_window_id caps = true \/ 0 < s_window_id (state w);
  d_title : s_window_title (state w) = "" \/ s_window_title (state w) = t \/
            s_window_title (state w) = UNKNOWN_WINDOW_TITLE;
  d_pending u : pending_window_title (flags w) = Some u -> u = t;
  d_deadline : is_Some (deadline (flags w));
  d_titled : s_window_title (state w) <> "" \/
             is_Some (pending_window_title (flags w)) /\ is_Some (coalesce_until (flags w))
}.

Definition reports_it (w w' : Worker) : Prop :=
  exists f rest, emitted (io w') = emitted (io w) ++ f :: rest /\
    app_name f = app /\ pid f = p /\
    (window_title f = t \/ window_title f = UNKNOWN_WINDOW_TITLE).

Definition waits (w w' : Worker) : Prop :=
  state w' = state w /\ flags w' = flags w /\ emitted (io w') = emitted (io w) /\
  (mono_read (io w) < mono_read (io w'))%nat /\
  exists d, deadline (flags w) = Some d /\ mono (mono_read (io w)) < d.

Lemma can_emit_intro s :
  s_app_name s = app -> s_pid s = p -> 0 < s_process_start_time s ->
  focus_allow_zero_window_id caps = true \/ 0 < s_window_id s -> s_window_title s <> "" ->
  can_emit s = true.
Proof.
  intros Ha Hpid Hst Hw Htt. unfold can_emit, is_empty.
  rewrite Ha, Hpid, !bool_decide_false by done.
  rewrite (proj2 (Z.ltb_lt _ _) Hp), (proj2 (Z.ltb_lt _ _) Hst). cbn.
  apply orb_true_iff. destruct Hw as [|Hw]; [by left|right]. by apply Z.ltb_lt.
Qed.

(** The scheduled report: made, or not yet due. *)
Lemma emit_scheduled_due w :
  Inv w -> due w ->
  wp emit_scheduled (fun _ w' => reports_it w w' \/
    (state w' = state w /\ flags w' = flags w /\ emitted (io w') = emitted (io w) /\
     (mono_read (io w) <= mono_read (io w'))%nat /\
     forall when, scheduled_emit_at (flags w) = Some when -> s_window_title (state w) <> "" ->
       (mono_read (io w) < mono_read (io w'))%nat /\ mono (mono_read (io w)) < when)) w.
Proof.
  destruct w as [s f i]. intros [Hs Hf Hi] []. cbn in *. unfold emit_scheduled.
  do 2 wstep. destruct (scheduled_emit_at f) as [when|] eqn:Hw; [|wstep; by right].
  wstep. unfold instant_now. apply wp_on_io. cbn [fst snd instant_now_io].
  set (i1 := MkIo _ _ _ _ _ _ _ _ _). do 2 wstep.
  wstep.
  2: { wstep. right. cbn. split_and!; [done..|lia|]. intros ? [= <-] Htt.
    split; [lia|]. apply Z.leb_gt. apply andb_false_iff in Heqb as [|Hn]; [done|].
    rewrite can_emit_intro in Hn; done. }
  apply andb_prop in Heqb as [_ Hemit].
  wstep. assert (quiet i i1) as Hq by (split; cbn; done || lia).
  apply (wp_emit_focus any_report (ok := ok)).
  - by eapply io_inv_quiet.
  - by eapply state_inv_quiet.
  - done.
  - intros n i' He Hi' Hs'. wstep. left. exists (focus_info s), []. cbn.
    apply can_emit_true in Hemit as (_&Htt&_). split_and!; [done..|]. naive_solver.
Qed.

(** Settling a held title keeps the process and gives a title. *)
Lemma settle_held_title_due u s f i m :
  ready m i -> s_app_name s = app -> s_pid s = p -> 0 < s_process_start_time s ->
  focus_allow_zero_window_id caps = true \/ 0 < s_window_id s ->
  wp (settle_held_title u) (fun _ w => exists s' i',
      w = MkWorker s' (put_awaiting true f) i' /\ ready m i' /\
      s_app_name s' = app /\ s_pid s' = p /\ 0 < s_process_start_time s' /\
      (focus_allow_zero_window_id caps = true \/ 0 < s_window_id s') /\
      (s_window_title s' = u \/ s_window_title s' = UNKNOWN_WINDOW_TITLE))
    (MkWorker s f i).
Proof.
  intros Hr Ha Hpid Hst Hw. unfold settle_held_title.
  assert (forall v i', ready m i' -> v = u \/ v = UNKNOWN_WINDOW_TITLE ->
    wp (_ ← set_login_window_id; _ ← touch_window; modify_flags (put_awaiting true))
      (fun _ w => exists s' i', w = MkWorker s' (put_awaiting true f) i' /\ ready m i' /\
        s_app_name s' = app /\ s_pid s' = p /\ 0 < s_process_start_time s' /\
        (focus_allow_zero_window_id caps = true \/ 0 < s_window_id s') /\
        (s_window_title s' = u \/ s_window_title s' = UNKNOWN_WINDOW_TITLE))
      (MkWorker (put_title v s) f i')) as Hend.
  { intros v j Hr' Hv. do 5 arm_step. eexists _, _. cbn. split_and!; [done..| |done].
    cbn. by apply window_allowed. }
  do 7 arm_step. destruct d as [v src|v].
  - do 3 arm_step. apply Hend; [done|]. by apply (decision_of_value _ (Accept v src)).
  - assert (v = u) as -> by (unfold decision_of in *; naive_solver).
    arm_step. by apply Hend.
Qed.

Context (Hmono : forall m n, (m <= n)%nat -> mono m <= mono n).

(** The end of the coalescing window: not there, not yet, or now with a report. *)
Lemma end_coalescing_due w :
  Inv w -> due w ->
  wp end_coalescing (fun _ w' => Inv w' /\ emitted (io w') = emitted (io w) /\
    ((w' = w /\ coalesce_until (flags w) = None) \/ waits w w' \/
     (due w' /\ s_window_title (state w') <> "" /\
      exists k, scheduled_emit_at (flags w') = Some k /\ k <= mono (mono_read (io w'))))) w.
Proof.
  intros Hinv Hdue. apply wp_and; [by apply end_coalescing_keeps|].
  destruct w as [s f i], Hinv as [Hs Hf Hi], Hdue as [Ha Hpid Hst Hw Htt Hpe Hd Htd].
  cbn in *. unfold end_coalescing. do 2 wstep.
  destruct (coalesce_until f) as [u|] eqn:Hu; [|wstep; by auto].
  wstep. unfold instant_now. apply wp_on_io. cbn [fst snd instant_now_io].
  set (i1 := MkIo _ _ _ _ _ _ _ _ _). assert (quiet i i1) as Hq by (split; cbn; done || lia).
  assert (ready i i1) as Hr by (split; [by eapply io_inv_quiet|done]).
  wstep; [|wstep; split; [done|]; right; left; cbn; split_and!; [done..|unfold i1; cbn; lia|]].
  2: { exists u. unfold deadline. cbn. rewrite Hu. split; [done|]. by apply Z.leb_gt. }
  do 3 wstep.
  apply (wp_mono _ (fun _ w => exists s' f' i', w = MkWorker s' f' i' /\ ready i i' /\
      s_app_name s' = app /\ s_pid s' = p /\ 0 < s_process_start_time s' /\
      (focus_allow_zero_window_id caps = true \/ 0 < s_window_id s') /\
      (s_window_title s' = t \/ s_window_title s' = UNKNOWN_WINDOW_TITLE) /\
      pending_window_title f' = None)).
  - destruct (pending_window_title f) as [v|] eqn:Hv.
    + rewrite (Hpe v eq_refl). eapply wp_mono; [by eapply settle_held_title_due|].
      intros _ w (s'&i'&->&?&?&?&?&?&?). by exists s', (put_awaiting true (put_pending None f)), i'.
    + wstep. exists s, (put_pending None f), i1. split_and!; try done.
      destruct Htd as [Htd|[[? [=]] _]]. naive_solver.
  - intros _ w (s'&f'&i'&->&Hr'&Ha'&Hp'&Hst'&Hw'&Ht'&Hn). do 4 wstep.
    assert (s_window_title s' <> "") as Hne by (destruct Ht' as [->| ->]; done).
    assert (can_emit s' = true) as -> by by apply can_emit_intro.
    apply wp_schedule_emit. intros i2 Hi2. destruct Hr' as [_ Hr']. cbn.
    split; [by rewrite (q_emitted _ _ Hi2), (q_emitted _ _ Hr')|]. right; right.
    split; [|split; [done|]].
    + split; cbn; try done; [tauto|congruence|by left].
    + eexists. split; [done|]. unfold millis. pose proof (Hmono _ _ (q_mono _ _ Hi2)). lia.
Qed.

Lemma due_ext w w' : state w' = state w -> flags w' = flags w -> due w -> due w'.
Proof. intros Es Ef []. by split; rewrite ?Es, ?Ef. Qed.

(** A quiet turn reports what is due, or waits for a deadline ahead of the clock. *)
Lemma idle_due w :
  Inv w -> due w -> wp idle (fun _ w' => Inv w' /\ (reports_it w w' \/ waits w w')) w.
Proof.
  intros Hinv Hdue. apply wp_bind. eapply wp_mono; [by apply end_coalescing_due|].
  intros _ w1 (Hinv1&He1&Hcases). apply wp_and; [by apply emit_scheduled_keeps|].
  assert (due w1) as Hdue1.
  { destruct Hcases as [[-> _]|[(Es&Ef&_)|(?&_)]]; [done|by eapply due_ext|done]. }
  eapply wp_mono; [by apply emit_scheduled_due|]. intros _ w2 [(f&rest&Hf&Hrest)|Hw2].
  { left. exists f, rest. by rewrite <- He1. }
  destruct Hw2 as (Es&Ef&Ee&Hm&Hnow). right.
  destruct Hcases as [[-> Hu]|[(Es1&Ef1&_&Hm1&Hd)|(_&Hne&k&Hk&Hle)]].
  - destruct Hdue as [_ _ _ _ _ _ [d Hd] Htt]. unfold deadline in Hd. rewrite Hu in Hd.
    destruct (Hnow d Hd) as [Hlt Hlt2]; [destruct Htt as [|[_ [? ?]]]; [done|congruence]|].
    split_and!; try done. exists d. unfold deadline. by rewrite Hu.
  - unfold waits. split_and!; [congruence|congruence|congruence|lia|done].
  - destruct (Hnow k Hk Hne). lia.
Qed.

(** ** Quiet turns until the report *)

(** A quiet turn only adds to what was reported. *)
Lemma end_coalescing_silent w :
  Inv w -> wp end_coalescing (fun _ w' => emitted (io w') = emitted (io w)) w.
Proof.
  destruct w as [s f i]. intros [Hs Hf Hi]. cbn in *.
  assert (ready i i) as Hr by done. unfold end_coalescing. do 2 arm_step.
  destruct (coalesce_until f) as [u|]; [|by arm_step].
  do 2 arm_step. arm_step; [|arm_step; cbn; by eapply q_emitted, proj2].
  do 3 arm_step.
  apply (wp_mono _ (fun _ w => exists s' f' i', w = MkWorker s' f' i' /\ ready i i')).
  - destruct (pending_window_title f) as [v|]; [|arm_step; by eexists _, _, _].
    unfold settle_held_title. do 7 arm_step.
    destruct d; [do 3 arm_step|arm_step]; do 5 arm_step; by eexists _, _, _.
  - intros _ w (s'&f'&j&->&Hr'). do 4 arm_step. arm_step; [arm_step|arm_step]; cbn;
      by eapply q_emitted, proj2.
Qed.

Lemma idle_extends w :
  Inv w -> exists l, emitted (io (idle w).2) = emitted (io w) ++ l.
Proof.
  intros Hinv.
  apply (wp_elim idle (fun _ w' => exists l, emitted (io w') = emitted (io w) ++ l)).
  apply wp_bind. eapply wp_mono.
  { apply wp_and; [by apply (end_coalescing_keeps any_report (ok := ok))|by apply end_coalescing_silent]. }
  intros _ [s f i] [[Hs Hf Hi] <-]. cbn in *. unfold emit_scheduled.
  assert (ready i i) as Hr by done. do 2 arm_step.
  destruct (scheduled_emit_at f) as [when|]; [|arm_step; exists []; by rewrite app_nil_r].
  do 4 arm_step. rename H5 into Hr'. arm_step.
  - apply andb_prop in Heqb as [_ Hemit]. arm_step.
    eapply (wp_emit_ready any_report); [exact Hr'|done|done|]. intros n j m' He _ _. arm_step.
    exists [focus_info s]. cbn. by rewrite He, (q_emitted _ _ (proj2 Hr')).
  - arm_step. exists []. cbn. by rewrite (q_emitted _ _ (proj2 Hr')), app_nil_r.
Qed.

Fixpoint idles (n : nat) (w : Worker) : Worker :=
  match n with O => w | S n => idles n (idle w).2 end.

Lemma quiet_turns_idle l w : Forall quiet_turn l -> turns l w = (true, idles (length l) w).
Proof.
  intros Hl. revert w. induction Hl as [|x l Hx Hl IH]; intros w; [done|].
  cbn. unfold mbind, M_bind. by rewrite quiet_turn_idle, IH.
Qed.

Lemma idle_keeps : keeps any_report (ok := ok) idle.
Proof. apply keeps_bind; [apply end_coalescing_keeps|intros _; apply emit_scheduled_keeps]. Qed.

Lemma idle_inv w : Inv w -> Inv (idle w).2.
Proof. intros Hw. by apply (wp_elim idle (fun _ => Inv)), idle_keeps. Qed.

Lemma idles_extends n w :
  Inv w -> exists l, emitted (io (idles n w)) = emitted (io w) ++ l.
Proof.
  revert w. induction n as [|n IH]; intros w Hw; [exists []; by rewrite app_nil_r|].
  destruct (idle_extends w Hw) as [l1 H1']. destruct (IH _ (idle_inv w Hw)) as [l2 H2'].
  exists (l1 ++ l2). cbn. by rewrite H2', H1', (assoc_L (++)).
Qed.

Lemma reports_it_extends w w' w'' l :
  reports_it w w' -> emitted (io w'') = emitted (io w') ++ l -> reports_it w w''.
Proof.
  intros (f&rest&He&?&?&?) Hl. exists f, (rest ++ l). split; [|done].
  by rewrite Hl, He, <- (assoc_L (++)).
Qed.

(** Within the readings that remain until the deadline. *)
Lemma due_reported k d w :
  Inv w -> due w -> deadline (flags w) = Some d ->
  (forall n, (mono_read (io w) + k <= n)%nat -> d <= mono n) ->
  forall n, (k < n)%nat -> reports_it w (idles n w).
Proof.
  revert w. induction k as [|k IH]; intros w Hw Hdue Hd Hclock n Hn.
  all: destruct n as [|n]; [lia|]; cbn [idles].
  all: pose proof (wp_elim _ _ _ (idle_due w Hw Hdue)) as [Hw' [Hr|(Es&Ef&Ee&Hm&d'&Hd'&Hlt)]].
  all: try (destruct (idles_extends n _ Hw') as [l Hl]; by eapply reports_it_extends).
  - specialize (Hclock (mono_read (io w))). rewrite Hd in Hd'. injection Hd' as <-. lia.
  - destruct (IH (idle w).2) with (n := n) as (f&rest&He&Hf); try done; [..|lia|].
    + by eapply due_ext.
    + by rewrite Ef.
    + intros m Hm'. apply Hclock. lia.
    + exists f, rest. by rewrite He, Ee.
Qed.

Context (Hunbounded : forall T, exists n, T <= mono n).

Lemma due_eventually w :
  Inv w -> due w -> exists k, forall n, (k < n)%nat -> reports_it w (idles n w).
Proof.
  intros Hw Hdue. destruct (d_deadline _ Hdue) as [d Hd]. destruct (Hunbounded d) as [k Hk].
  exists k. apply (due_reported k d); try done. intros n Hn. etrans; [exact Hk|]. apply Hmono. lia.
Qed.

(** ** From an application change to its report *)

Record started (w : Worker) : Prop := {
  sd_app : s_app_name (state w) = app;
  sd_pid : s_pid (state w) = p;
  sd_start : 0 < s_process_start_time (state w);
  sd_window : focus_allow_zero_window_id caps = true \/ 0 < s_window_id (state w);
  sd_title : s_window_title (state w) = "";
  sd_pending : pending_window_title (flags w) = None;
  sd_scheduled : is_Some (scheduled_emit_at (flags w))
}.

Context (Hutc : forall k, 0 < uw 64 (timestamp_millis (utc k))).
Context (Hzero : focus_allow_zero_window_id caps = true \/ is_login_app app = true).

Lemma wp_set_process_start_positive m q (Q : _ -> Worker -> Prop) s f i :
  ready m i ->
  (forall n i', ready m i' -> 0 < n -> Q () (MkWorker (put_process_start n s) f i')) ->
  wp (set_process_start q) Q (MkWorker s f i).
Proof.
  intros Hr HQ. apply wp_bind, wp_process_start. intros n i1 Hi1. quiet_step.
  do 2 wstep. destruct (N.eqb_spec n 0) as [->|Hn].
  - wstep. apply wp_utc_now. intros i2 Hi2. quiet_step. wstep. by apply HQ.
  - wstep. apply HQ; [done|]. lia.
Qed.

Lemma reported_login_id :
  focus_allow_zero_window_id caps = true \/ 0 < reported_window_id app 0.
Proof.
  destruct Hzero as [|Hl]; [by left|right]. unfold reported_window_id. by rewrite Hl.
Qed.

Lemma begin_app_started m s f i :
  ready m i -> wp (begin_app p app) (fun _ => started) (MkWorker s f i).
Proof.
  intros Hr. assert (forall f' i', ready m i' ->
    wp (_ ← modify_flags (fun f => put_reconcile true (put_pending None f));
        _ ← modify_state (fun s => put_window_id 0 (put_title "" (put_pid p (put_app_name app s))));
        _ ← set_process_start p; _ ← set_login_window_id; _ ← touch_instance;
        now ← instant_now; _ ← modify_state (put_app_update now);
        _ ← modify_flags (put_awaiting true);
        schedule_emit (if is_login_app app then 50 else 150)) (fun _ => started)
      (MkWorker s f' i')) as Hrest.
  { intros f' i' Hr'. do 5 arm_step. eapply wp_set_process_start_positive; [done|].
    intros n j Hj Hn. do 11 arm_step. split; cbn; try done.
    apply reported_login_id. }
  apply wp_bind. arm_step; apply wp_bind; (arm_step; [do 3 arm_step|arm_step]);
    by apply Hrest.
Qed.

(** Nothing is reported without a title. *)
Lemma idle_started w :
  Inv w -> started w ->
  wp idle (fun _ w' => started w' /\ emitted (io w') = emitted (io w)) w.
Proof.
  destruct w as [s f i]. intros [Hs Hf Hi] [Ha Hpid Hst Hw Htt Hpe [when Hwhen]]. cbn in *.
  assert (ready i i) as Hr by done. apply wp_bind.
  assert (can_emit s = false) as Hno.
  { unfold can_emit, is_empty. rewrite Htt. cbn. by rewrite andb_false_r. }
  apply (wp_mono _ (fun _ w => exists f' i', w = MkWorker s f' i' /\ ready i i' /\
    pending_window_title f' = None /\ scheduled_emit_at f' = Some when)).
  - unfold end_coalescing. do 2 arm_step.
    destruct (coalesce_until f) as [u|]; [|arm_step; by eexists _, _].
    do 2 arm_step. arm_step; [|arm_step; by eexists _, _].
    do 3 arm_step. rewrite Hpe. do 5 arm_step. rewrite Hno. arm_step. by eexists _, _.
  - intros _ w (f'&j&->&Hr'&Hpe'&Hwhen'). unfold emit_scheduled. do 2 arm_step. rewrite Hwhen'.
    do 4 arm_step. rewrite Hno, andb_false_r. arm_step. cbn.
    split; [|by eapply q_emitted, proj2]. split; cbn; done.
Qed.

Lemma started_ext s f i i' : started (MkWorker s f i) -> started (MkWorker s f i').
Proof. intros []. by split. Qed.

(** The turn of the application change. *)
Lemma app_change_turn x w :
  Inv w -> should_stop x = false -> received x = Msg (AppChange p app) ->
  (s_app_name (state w), s_pid (state w)) <> (app, p) ->
  wp (turn x) (fun go_on w' => go_on = true /\ Inv w' /\ started w') w.
Proof.
  intros Hw Hx Hr Hne. unfold turn. rewrite Hx, Hr. cbn [on_received on_message].
  apply wp_bind.
  apply (wp_mono _ (fun flow w => flow = Proceed /\ Inv w /\ started w)).
  - destruct w as [s f i], Hw as [Hs Hf Hi]. cbn in *. unfold on_app_change. do 2 arm_step.
    replace (_ && _) with false.
    2: { symmetry. apply andb_false_iff. rewrite bool_decide_eq_false, Z.eqb_neq.
         destruct (decide (s_app_name s = app)); [right|by left]. congruence. }
    do 3 arm_step.
    eapply wp_mono; [apply flush_keeps; split; [done|by apply (flags_inv_put any_report f); cbn; auto|done]|].
    intros _ [s' f' j] [Hs' Hf' Hi']. cbn in *. assert (ready j j) as Hj by done. arm_step.
    eapply wp_mono; [apply wp_and; [by eapply (begin_app_inv any_report)|by eapply begin_app_started]|].
    by intros _ w' [? ?].
  - intros flow w' (->&Hinv&Hst). apply wp_bind.
    assert (wp idle (fun _ w2 => Inv w2 /\ started w2) w') as Hidle.
    { eapply wp_mono; [apply wp_and; [|by apply idle_started]|].
      - by apply idle_keeps.
      - naive_solver. }
    unfold idle, wp, mbind, M_bind in *. destruct (end_coalescing w') as [[] w3]. cbn in *.
    by destruct (emit_scheduled w3).
Qed.

(** The title that arrives for the new application. *)
Lemma decide_title_due m s f i :
  ready m i -> Inv (MkWorker s f i) -> started (MkWorker s f i) ->
  wp (decide_title t) (fun flow w =>
      emitted (io w) = emitted i /\ Inv w /\ due w /\
      (flow = Continue \/
       flow = Proceed /\ s_window_title (state w) <> "" /\
         is_Some (scheduled_emit_at (flags w)))) (MkWorker s f i).
Proof.
  intros _ Hinv [Ha Hpid Hst Hw Htt Hpe Hsch]. cbn in *.
  apply (wp_mono _ (fun flow w => Inv w /\ exists s' f' i',
    w = MkWorker s' f' i' /\ quiet i i' /\ s_app_name s' = app /\ s_pid s' = p /\
    s_process_start_time s' = s_process_start_time s /\ s_window_id s' = s_window_id s /\
    scheduled_emit_at f' = scheduled_emit_at f /\
    (flow = Proceed /\ (s_window_title s' = t \/ s_window_title s' = UNKNOWN_WINDOW_TITLE) /\
       pending_window_title f' = None \/
     flow = Continue /\ s_window_title s' = "" /\ pending_window_title f' = Some t /\
       is_Some (coalesce_until f')))).
  2: { intros flow w (Hinv'&s'&f'&i'&->&Hq&Ha'&Hp'&Hst'&Hw'&Hsch'&Hcases).
       cbn. split; [apply (q_emitted _ _ Hq)|]. split; [done|].
       assert (is_Some (deadline f')) as Hd.
       { unfold deadline. rewrite Hsch'. by destruct (coalesce_until f'). }
       destruct Hcases as [(->&Ht'&Hn)|(->&Ht'&Hn&Hu)].
       - assert (s_window_title s' <> "") by (destruct Ht' as [->| ->]; done).
         split; [|right; by rewrite Hsch'].
         split; cbn; try done; [lia|by rewrite Hw'|tauto|congruence|by left].
       - split; [|by left].
         split; cbn; try done; [lia|by rewrite Hw'|by left|congruence|right; by rewrite Hn]. }
  apply wp_and; [by apply (decide_title_keeps any_report (ok := ok))|].
  destruct Hinv as [Hs Hf Hi]. cbn in *. assert (ready i i) as Hr by done.
  unfold decide_title. do 4 arm_step. arm_step.
  - do 2 arm_step. destruct d as [v src|v].
    + do 7 arm_step. eexists _, _, _. split; [done|]. cbn. split_and!; try done; [quiet_leaf|].
      left. split; [done|]. split; [|done]. by apply (decision_of_value _ (Accept v src)).
    + assert (v = t) as -> by (unfold decision_of in *; naive_solver).
      destruct (coalesce_until f) as [u|] eqn:Hu.
      * unfold hold_title. do 6 arm_step. eexists _, _, _. split; [done|]. cbn.
        split_and!; try done; [quiet_leaf|]. right. by rewrite Hu.
      * do 5 arm_step. eexists _, _, _. split; [done|]. cbn. split_and!; try done; [quiet_leaf|].
        left. done.
  - do 3 arm_step. eexists _, _, _. split; [done|]. cbn. split_and!; try done; [quiet_leaf|].
    left. done.
Qed.

Lemma settle_due w :
  Inv w -> due w -> s_window_title (state w) <> "" -> is_Some (scheduled_emit_at (flags w)) ->
  wp settle_window_change (fun _ w' => (Inv w' /\ due w') /\ emitted (io w') = emitted (io w)) w.
Proof.
  intros Hinv Hdue Hne Hsch.
  apply (wp_mono _ (fun _ w' => Inv w' /\ due w' /\ emitted (io w') = emitted (io w)));
    [|naive_solver].
  apply wp_and; [by apply settle_keeps|].
  destruct w as [s f i], Hinv as [Hs Hf Hi], Hdue as [Ha Hpid Hst Hw Htt Hpe Hd Htd].
  cbn in *. assert (ready i i) as Hr by done. unfold settle_window_change. do 6 arm_step.
  pose proof (window_allowed (s_app_name s) _ Hw) as Hw'.
  arm_step.
  - do 3 arm_step. split; [|eapply q_emitted; quiet_leaf].
    split; cbn; try done; try (by left); unfold deadline; cbn; by destruct (coalesce_until f).
  - arm_step. split; [|eapply q_emitted; quiet_leaf]. split; cbn; try done; by left.
Qed.

Lemma on_window_change_due w :
  Inv w -> started w ->
  wp (on_window_change t) (fun flow w' =>
    (Inv w' /\ due w') /\ emitted (io w') = emitted (io w) /\ flow <> Break) w.
Proof.
  intros Hinv Hst. pose proof Hinv as Hinv0. pose proof Hst as Hst0.
  destruct w as [s f i], Hinv as [Hs Hf Hi], Hst as [Ha Hpid Hsta Hw Htt Hpe Hsch]. cbn in *.
  assert (ready i i) as Hr by done. unfold on_window_change. do 2 arm_step.
  unfold is_empty at 1. rewrite Htt, !bool_decide_false by done. cbn [orb].
  assert (forall i', ready i i' -> wp (flow ← decide_title t;
      match flow with Proceed => _ ← settle_window_change; mret Proceed | _ => mret flow end)
    (fun flow w' => (Inv w' /\ due w') /\ emitted (io w') = emitted i /\ flow <> Break)
    (MkWorker s f i')) as Hdecide.
  { intros j Hj. apply wp_bind. eapply wp_mono.
    { eapply decide_title_due; [exact Hj|by eapply Inv_ready|]. by eapply started_ext. }
    intros flow w (He&Hi'&Hd&Hcases). rewrite (q_emitted _ _ (proj2 Hj)) in He.
    destruct Hcases as [->|(->&Hne&Hs')]; [by apply wp_ret|].
    apply wp_bind. eapply wp_mono; [by apply settle_due|].
    intros _ w' [? He']. apply wp_ret. by rewrite He', He. }
  arm_step. unfold coalescing. do 2 arm_step.
  destruct (coalesce_until f) as [u|] eqn:Hu; [|arm_step; by apply Hdecide].
  arm_step; [|arm_step; by apply Hdecide]. do 3 arm_step. arm_step; [|by apply Hdecide].
  apply (wp_mono _ (fun flow w => Inv w /\ exists i',
    w = MkWorker s (put_pending (Some t) f) i' /\ ready i i' /\ flow = Continue)).
  - apply wp_and; [eapply (hold_title_inv any_report); try done; by rewrite Hu|].
    unfold hold_title. do 6 arm_step. by eexists.
  - intros flow w (Hi'&j&->&Hj&->). split; [|split; [by apply (q_emitted _ _ (proj2 Hj))|done]].
    split; [done|]. split; cbn; try done; [by left|congruence| |by right; rewrite Hu].
    unfold deadline. cbn. by rewrite Hu.
Qed.

Lemma window_change_turn x w :
  Inv w -> started w -> should_stop x = false -> received x = Msg (WindowChange t) ->
  wp (turn x) (fun go_on w' => go_on = true /\ Inv w' /\
    (reports_it w w' \/ due w' /\ emitted (io w') = emitted (io w))) w.
Proof.
  intros Hinv Hst Hx Hr. unfold turn. rewrite Hx, Hr. cbn [on_received on_message].
  apply wp_bind. eapply wp_mono; [by apply on_window_change_due|].
  intros flow w1 ([Hinv1 Hdue]&He&Hflow). destruct flow; [|by apply wp_ret; auto|done].
  pose proof (idle_due w1 Hinv1 Hdue) as Hidle.
  unfold idle, wp, mbind, M_bind in *. destruct (end_coalescing w1) as [[] w2]. cbn in *.
  destruct (emit_scheduled w2) as [[] w3]. destruct Hidle as [Hinv3 Hcases].
  split; [done|]. split; [done|]. destruct Hcases as [(f&rest&Hf&Hrest)|(Es&Ef&Ee&_)].
  - left. exists f, rest. by rewrite Hf, He.
  - right. split; [by eapply due_ext|congruence].
Qed.

(** ** The title that is reported *)

(** A title that nothing stands against when the application changes is the only one
    that is reported from there on. *)
Lemma started_clear w :
  Inv w -> started w -> unclaimed app t w ->
  clear (ok := ok) app t (emitted (io w)) w.
Proof.
  intros [_ _ Hi] [Ha _ _ _ Htt Hpe _] [Hl Hlast]. split; try done; [by left|congruence|apply Hi|].
  exists []. by rewrite app_nil_r.
Qed.

Lemma idle_stays : stays (ok := ok) app t idle.
Proof.
  apply stays_bind; [by apply end_coalescing_stays|]. intros _. by apply emit_scheduled_stays.
Qed.

Lemma window_turn_stays x :
  should_stop x = false -> received x = Msg (WindowChange t) -> stays (ok := ok) app t (turn x).
Proof.
  intros Hx Hr. unfold turn. rewrite Hx, Hr. cbn [on_received on_message].
  apply stays_bind; [by apply window_change_stays|].
  intros []; [|apply stays_ret..]. apply stays_bind; [by apply end_coalescing_stays|]. intros _.
  apply stays_bind; [by apply emit_scheduled_stays|]. intros _. apply stays_ret.
Qed.

Lemma idles_clear E n w :
  clear (ok := ok) app t E w -> clear (ok := ok) app t E (idles n w).
Proof.
  revert w. induction n as [|n IH]; intros w Hw; [done|]. cbn. apply IH.
  exact (wp_elim _ _ _ (idle_stays E w Hw)).
Qed.

Lemma clear_reports E w f rest :
  clear (ok := ok) app t E w -> emitted (io w) = E ++ f :: rest -> window_title f = t.
Proof.
  intros [_ _ _ _ _ _ (rest'&He&Hall)] Hf. rewrite Hf in He. apply app_inv_head in He as <-.
  by inversion Hall.
Qed.

End due.
(** ** Theorems *)

(** The clocks run: the monotone one is monotone and passes every time, and the UTC
    clock is past the epoch. *)
Record clocks_run : Prop := {
  mono_le m n : (m <= n)%nat -> mono m <= mono n;
  mono_unbounded T : exists n, T <= mono n;
  utc_positive k : 0 < uw 64 (timestamp_millis (utc k))
}.

Lemma turns_app l l' (w : Worker) :
  (turns l w).1 = true -> turns (l ++ l') w = turns l' (turns l w).2.
Proof.
  revert w. induction l as [|x l IH]; intros w; [done|]. cbn. unfold mbind, M_bind.
  destruct (turn x w) as [[] w1]; cbn; [|done]. apply IH.
Qed.

(** C7: liveness. On a run that has not been stopped, a change to another application
    [app], one that may be reported with the window id zero (the capabilities allow it,
    or it is the login application), followed by a title [t] for it, is reported once
    enough quiet turns have passed, whatever happened before: no deadline is lost.  The
    report names [app] and its process; its title is [t] itself whenever no cache has [t]
    for another application and the application that was left is not of the same name,
    and otherwise [t] or the placeholder. *)
Theorem app_change_reported empty l x1 x2 p app t :
  ok empty -> clocks_run ->
  focus_allow_zero_window_id caps = true \/ is_login_app app = true ->
  app <> "" -> 0 < p -> t <> "" ->
  (turns l (new_worker empty)).1 = true ->
  (s_app_name (state (run_focus_worker empty l)), s_pid (state (run_focus_worker empty l)))
    <> (app, p) ->
  should_stop x1 = false -> received x1 = Msg (AppChange p app) ->
  should_stop x2 = false -> received x2 = Msg (WindowChange t) ->
  exists k, forall q, Forall quiet_turn q -> (k < length q)%nat ->
    exists f rest,
      emitted (io (run_focus_worker empty (l ++ [x1] ++ [x2] ++ q)))
      = emitted (io (run_focus_worker empty (l ++ [x1]))) ++ f :: rest /\
      app_name f = app /\ pid f = p /\
      (window_title f = t \/
       window_title f = UNKNOWN_WINDOW_TITLE /\
       ~ unclaimed app t (run_focus_worker empty (l ++ [x1]))).
Proof.
  intros Hok [Hle Hub Hutc] Hzero Happ Hp Ht Hrun Hne Hx1 Hr1 Hx2 Hr2.
  unfold run_focus_worker. setoid_rewrite (turns_app l); [|done..].
  pose proof (reachable_inv empty l Hok) as Hinv. unfold run_focus_worker in *.
  set (w := (turns l (new_worker empty)).2) in *.
  destruct (wp_elim _ _ _ (app_change_turn app p Hutc Hzero x1 w Hinv Hx1 Hr1 Hne))
    as (Hgo1&Hinv1&Hst).
  destruct (wp_elim _ _ _ (window_change_turn app p t Happ Hp Ht Hle Hzero x2 _ Hinv1 Hst Hx2 Hr2))
    as (Hgo2&Hinv2&Hcases).
  set (w1 := (turn x1 w).2) in *. set (w2 := (turn x2 w1).2) in *.
  assert (forall q, turns ([x1] ++ [x2] ++ q) w = turns q w2) as Hturns.
  { intros q. cbn. unfold mbind, M_bind. subst w2 w1.
    destruct (turn x1 w) as [? w1]. cbn in *. subst.
    destruct (turn x2 w1) as [? w2]. cbn in *. by subst. }
  assert ((turns [x1] w).2 = w1) as ->.
  { cbn. unfold mbind, M_bind. subst w1. by destruct (turn x1 w) as [[] ?]. }
  assert (exists k, forall n, (k < n)%nat -> reports_it app p t w1 (idles n w2)) as [k Hk].
  { destruct Hcases as [Hrep|[Hdue He]].
    - exists 0%nat. intros n _. destruct (idles_extends n w2 Hinv2) as [l2 Hl2].
      by eapply reports_it_extends.
    - destruct (due_eventually app p t Happ Hp Ht Hle Hub w2 Hinv2 Hdue) as [k Hk].
      exists k. intros n Hn. destruct (Hk n Hn) as (f&rest&Hf&Hrest).
      exists f, rest. by rewrite Hf, He. }
  exists k. intros q Hq Hlen. rewrite Hturns, (quiet_turns_idle q w2 Hq).
  destruct (Hk (length q) Hlen) as (f&rest&Hf&Ha&Hpid&Htt). exists f, rest.
  split_and!; [done..|]. destruct (decide (window_title f = t)) as [|Hne']; [by left|right].
  split; [by destruct Htt|]. intros Hun. apply Hne'.
  eapply (clear_reports app t); [|exact Hf]. apply (idles_clear app t).
  refine (wp_elim _ _ _ (window_turn_stays app t x2 Hx2 Hr2 _ w1 _)).
  by apply (started_clear app p).
Qed.

(** A turn that leaves everything as it is while the worker reconciles: an answer or a
    message about another application, or any timeout while polling is suspended. *)
Inductive stalled_by (app : string) : Turn -> Prop :=
  | stalled_poll v info :
      eq_ignore_ascii_case app (i_app_name info) = false ->
      stalled_by app {| should_stop := false; poll_value := v; received := Timeout (inl info) |}
  | stalled_app_info v info :
      eq_ignore_ascii_case app (i_app_name info) = false ->
      stalled_by app {| should_stop := false; poll_value := v;
                        received := Msg (AppChangeInfo info) |}
  | stalled_window_info v info :
      eq_ignore_ascii_case app (i_app_name info) = false ->
      stalled_by app {| should_stop := false; poll_value := v;
                        received := Msg (WindowChangeInfo info) |}
  | suspended r :
      stalled_by app {| should_stop := false; poll_value := POLL_SUSPEND_MS;
                        received := Timeout r |}.

(** While the worker waits for its application, answers about another one (under a
    name that differs in more than ASCII case) and timeouts of a suspended poll skip
    the deadlines: however many come, and however late it is, nothing is reported and
    a held title is kept back. *)
Theorem reconcile_starves w l :
  reconcile_active (flags w) = true -> s_app_name (state w) <> "" ->
  Forall (stalled_by (s_app_name (state w))) l ->
  turns l w = (true, w).
Proof.
  intros Hrec Happ Hl. induction Hl as [|x l Hx Hl IH]; [done|].
  assert (turn x w = (true, w)) as Hturn; [|cbn; unfold mbind, M_bind; by rewrite Hturn, IH].
  assert (forall info, eq_ignore_ascii_case (s_app_name (state w)) (i_app_name info) = false ->
    reconciling_other (state w) (flags w) (i_app_name info) = true) as Hother.
  { intros info Hi. unfold reconciling_other, is_empty. rewrite Hrec, Hi.
    by rewrite bool_decide_false. }
  destruct Hx as [v info Hi|v info Hi|v info Hi|r]; unfold turn; cbn [should_stop received
    poll_value on_received on_message]; [destruct (v =? _)| | |]; try done;
    unfold on_poll, on_app_change_info, on_window_change_info, mbind, M_bind, get_state, get_flags;
    by rewrite (Hother _ Hi).
Qed.

End liveness.

(** ** The theorems on a concrete run *)
Lemma demo_clocks_run : @clocks_run chrono_ref (demo_env 1).
Proof.
  split; cbn; [intros m n Hmn; unfold millis; lia| |intros _; reflexivity].
  intros T. exists (Z.to_nat T). unfold millis. lia.
Qed.

Lemma app_change_reported_witness :
  exists k, forall q, Forall quiet_turn q -> (k < length q)%nat ->
    exists f rest,
      emitted (io (demo_run 1 ([] ++ [message (AppChange 7 "Mail")] ++
        [message (WindowChange "Inbox")] ++ q)))
      = emitted (io (demo_run 1 ([] ++ [message (AppChange 7 "Mail")]))) ++ f :: rest /\
      app_name f = "Mail" /\ pid f = 7 /\ window_title f = "Inbox".
Proof.
  edestruct (@app_change_reported hash_order_id chrono_ref _ _ _
    StringInterner.interner_titles_laws (demo_env 1) demo_interner []
    (message (AppChange 7 "Mail")) (message (WindowChange "Inbox")) 7 "Mail" "Inbox") as [k Hk].
  - apply demo_focus_interner_ok.
  - apply demo_clocks_run.
  - by left.
  - done.
  - done.
  - done.
  - vm_compute. reflexivity.
  - vm_compute. congruence.
  - reflexivity.
  - reflexivity.
  - reflexivity.
  - reflexivity.
  - exists k. intros q Hq Hlen. destruct (Hk q Hq Hlen) as (f&rest&Hf&Ha&Hp&Htt).
    exists f, rest. split; [exact Hf|]. split; [exact Ha|]. split; [exact Hp|].
    destruct Htt as [|[_ Hno]]; [assumption|]. destruct Hno. split.
    + intros [] j; vm_compute; discriminate.
    + vm_compute. discriminate.
Defined.

(** Four seconds of readings after the change, with the title in hand: forty quiet
    turns report it, forty answers about another application do not. *)
Definition demo_held : Worker :=
  demo_run 1 [message (AppChange 7 "Mail"); message (WindowChange "Inbox")].
Definition demo_other : Turn := poll (inl (demo_info "mail client" 7 "Inbox" 3)).

Lemma reconcile_starves_witness :
  pending_window_title (flags demo_held) = Some "Inbox" /\ emitted (io demo_held) = [] /\
  (turns (I := StringInterner.StringInterner * StringInterner.arc_heap)
    (H := hash_order_id) (H0 := chrono_ref) (H2 := demo_env 1)
    (replicate 4000 demo_other) demo_held).2 = demo_held.
Proof.
  split; [vm_compute; reflexivity|]. split; [vm_compute; reflexivity|].
  rewrite (@reconcile_starves hash_order_id chrono_ref _ _ (demo_env 1) demo_held
    (replicate 4000 demo_other)); [reflexivity|vm_compute; reflexivity|vm_compute; congruence|].
  apply Forall_replicate. apply stalled_poll. vm_compute. reflexivity.
Defined.
End FocusLiveness.
