(* ===== verification/FocusPoll.v ===== *)
(** The focus worker at its two turning points: the answer of a poll that settles an
    application, and the flush before a change to another one. *)
From S2P Require Import Prelude Events Lru Interner Focus FocusWorker FocusLogic FocusInv FocusSafety FocusLiveness.

Module FocusPoll.
Import LruCache Focus FocusWorker FocusLogic FocusInv FocusSafety FocusLiveness.

Section poll_flush.
Context `{HashOrder} `{Chrono} {I : Type} {ok : I -> Prop} `{TitleInternerLaws I ok}.
Context `{FocusEnv}.
Notation M := (@M I).
Notation Worker := (@Worker I).
Notation Io := (@Io I).
Notation ready := (ready any_report (ok := ok)).
Notation Inv := (Inv any_report (ok := ok)).
Notation state_inv := (state_inv any_report).
Notation flags_inv := (flags_inv any_report).

(** ** A poll that settles the application *)
Section poll.
Context (info : ActiveWindowInfo).
Context (Happ : i_app_name info <> "") (Hp : 0 < i_process_id info) (Ht : i_title info <> "").
Context (Hid : focus_allow_zero_window_id caps = true \/ 0 < i_window_id info).
Context (Hmono : forall m n, (m <= n)%nat -> mono m <= mono n).
Context (Hutc : forall k, 0 < uw 64 (timestamp_millis (utc k))).
Notation due := (due (i_app_name info) (i_process_id info) (i_title info)).

(** The answer is taken over, and its report is due now. *)
Record settled (w : Worker) : Prop := {
  se_due : due w;
  se_titled : s_window_title (state w) <> "";
  se_coalesce : coalesce_until (flags w) = None;
  se_scheduled : exists k, scheduled_emit_at (flags w) = Some k /\ k <= mono (mono_read (io w))
}.

Lemma wp_schedule_settled s f i i0 :
  ready i0 i -> s_app_name s = i_app_name info -> s_pid s = i_process_id info ->
  0 < s_process_start_time s ->
  focus_allow_zero_window_id caps = true \/ 0 < s_window_id s ->
  s_window_title s = i_title info \/ s_window_title s = UNKNOWN_WINDOW_TITLE ->
  coalesce_until f = None -> pending_window_title f = None ->
  wp (schedule_emit 0) (fun _ w => settled w /\ emitted (io w) = emitted i0) (MkWorker s f i).
Proof.
  intros [_ Hq] Ha Hpid Hst Hw Htt Hc Hpe. apply wp_schedule_emit. intros i1 Hi1. cbn.
  split; [|by rewrite (q_emitted _ _ Hi1), (q_emitted _ _ Hq)].
  assert (s_window_title s <> "") as Hne by (destruct Htt as [->| ->]; done).
  split; cbn; try done.
  - split; cbn; try done; [tauto|congruence| |by left]. unfold deadline. cbn. by rewrite Hc.
  - eexists. split; [done|]. unfold millis. pose proof (Hmono _ _ (q_mono _ _ Hi1)). lia.
Qed.

(** The state before the answer is looked at: reconciling with the right application,
    or settled already. *)
Definition expecting (w : Worker) : Prop :=
  awaiting_poll_reconcile (flags w) = true /\ s_app_name (state w) = i_app_name info.

Lemma recover_settles w :
  Inv w -> expecting w ->
  wp (recover_from_lock info) (fun _ w' => Inv w' /\ emitted (io w') = emitted (io w) /\
    (expecting w' \/ settled w' /\ awaiting_poll_reconcile (flags w') = false)) w.
Proof.
  intros Hinv [Haw Ha].
  apply wp_and; [by apply (recover_keeps any_report (ok := ok))|].
  destruct w as [s f i], Hinv as [Hs Hf Hi]. cbn in *. assert (ready i i) as Hr by done.
  unfold recover_from_lock. do 2 arm_step. arm_step; [|arm_step; split; [done|by left]].
  assert (forall j, ready i j ->
    wp (_ ← modify_flags (put_lock false None);
        _ ← modify_state (fun s =>
              put_pid (i_process_id info) (put_app_name (i_app_name info) s));
        _ ← set_process_start (i_process_id info);
        _ ← take_reported_title (i_title info) (i_window_id info);
        _ ← modify_state (put_window_id (i_window_id info));
        _ ← touch_instance; _ ← touch_app_and_window;
        _ ← modify_flags (fun f => drop_pending (reconciled f));
        schedule_emit 0) (fun _ w' => emitted (io w') = emitted i /\
          (expecting w' \/ settled w' /\ awaiting_poll_reconcile (flags w') = false))
      (MkWorker s f j)) as Hrest.
  { intros j Hj. do 5 arm_step. eapply wp_set_process_start_positive; [done..|].
    intros n j1 Hj1 Hn. do 10 arm_step. apply (wp_mono _ (fun _ w =>
      (settled w /\ emitted (io w) = emitted i) /\ awaiting_poll_reconcile (flags w) = false)).
    - apply wp_and; [eapply wp_schedule_settled; [eassumption|done..]|].
      apply wp_schedule_emit. by intros.
    - naive_solver. }
  arm_step. destruct (poll_lock_since f); repeat first [by apply Hrest|arm_step].
Qed.

Lemma reconcile_settles w :
  Inv w -> expecting w \/ settled w /\ awaiting_poll_reconcile (flags w) = false ->
  wp (poll_reconcile info) (fun _ w' => Inv w' /\ settled w' /\ emitted (io w') = emitted (io w)) w.
Proof.
  intros Hinv Hcases.
  apply wp_and; [by apply (poll_reconcile_keeps any_report (ok := ok))|].
  destruct w as [s f i], Hinv as [Hs Hf Hi]. cbn in *. assert (ready i i) as Hr by done.
  unfold poll_reconcile. do 4 arm_step.
  destruct Hcases as [[Haw Ha]|[Hse Haw]]; cbn in Haw; rewrite Haw; cbn [andb]; [|by arm_step].
  cbn in Ha. rewrite bool_decide_true by done. do 3 arm_step.
  eapply wp_set_process_start_positive; [done..|]. intros n j1 Hj1 Hn. do 10 arm_step.
  eapply wp_schedule_settled; [eassumption|done..| |done|done|done].
  cbn. by apply window_allowed.
Qed.

Lemma settled_quiet s f (i i' : Io) :
  quiet i i' -> settled (MkWorker s f i) -> settled (MkWorker s f i').
Proof.
  intros Hq [Hd Ht' Hc (k&Hk&Hle)]. split; try done.
  - by eapply due_ext; [..|exact Hd].
  - exists k. split; [done|]. cbn in *. pose proof (Hmono _ _ (q_mono _ _ Hq)). lia.
Qed.

Lemma title_change_settled w :
  Inv w -> settled w ->
  wp (poll_title_change info)
    (fun _ w' => Inv w' /\ settled w' /\ emitted (io w') = emitted (io w)) w.
Proof.
  intros Hinv Hse.
  apply wp_and; [by apply (poll_title_change_keeps any_report (ok := ok))|].
  destruct w as [s f i], Hinv as [Hs Hf Hi]. cbn in *. assert (ready i i) as Hr by done.
  unfold poll_title_change. do 3 arm_step.
  eapply wp_cache_step; [eassumption|by destruct (get_cloned _ _ _); split|].
  intros last j Hj. pose proof (settled_quiet s f i j (proj2 Hj) Hse) as Hse'.
  assert (emitted j = emitted i) as Hej by apply (q_emitted _ _ (proj2 Hj)).
  destruct last as [v|]; [|by arm_step]. arm_step; [by arm_step|]. do 2 arm_step.
  pose proof Hse as [[Ha Hpid Hst Hw Htt Hpe _ _] Hne Hc (k&Hk&Hle)]. cbn in *.
  rewrite Hpid, Z.eqb_refl. do 8 arm_step. unfold schedule_if_complete. do 2 arm_step.
  assert (pending_window_title f = None) as Hp'.
  { destruct (pending_window_title f) as [u|] eqn:Hu; [|done].
    destruct (fl_pending _ _ Hf u Hu) as [_ [? ?]]. congruence. }
  arm_step; [eapply wp_schedule_settled; [eassumption|done..]|]. arm_step.
  split; [|by eapply q_emitted; quiet_leaf]. split; cbn; try done.
  - split; cbn; try done; [naive_solver| |left].
    + unfold deadline. by rewrite Hc, Hk.
    + by match goal with Hv : v0 = _ \/ _ |- _ => destruct Hv as [->| ->] end.
  - by match goal with Hv : v0 = _ \/ _ |- _ => destruct Hv as [->| ->] end.
  - exists k. split; [done|]. etrans; [exact Hle|]. apply Hmono.
    match goal with Hr : FocusInv.ready _ _ i'1 |- _ => apply (q_mono _ _ (proj2 Hr)) end.
Qed.

Lemma poll_settles w :
  Inv w -> expecting w ->
  wp (on_poll info) (fun flow w' =>
    flow = Proceed /\ Inv w' /\ settled w' /\ emitted (io w') = emitted (io w)) w.
Proof.
  intros Hinv Hexp. unfold on_poll. destruct w as [s f i]. do 4 wstep.
  replace (reconciling_other s f (i_app_name info)) with false.
  2: { destruct Hexp as [_ Ha]. cbn in Ha. unfold reconciling_other, eq_ignore_ascii_case.
       rewrite Ha, bool_decide_true by done. by rewrite andb_false_r. }
  apply wp_bind. eapply wp_mono; [by apply recover_settles|]. intros _ w1 (Hi1&He1&Hc1).
  apply wp_bind. eapply wp_mono; [by apply reconcile_settles|]. intros _ w2 (Hi2&Hs2&He2).
  apply wp_bind. eapply wp_mono; [by apply title_change_settled|]. intros _ w3 (Hi3&Hs3&He3).
  apply wp_bind.
  apply (wp_mono _ (fun _ w => Inv w /\ settled w /\ emitted (io w) = emitted (io w3))).
  - apply wp_and; [by apply (remember_title_keeps any_report (ok := ok))|].
    destruct w3 as [s3 f3 i3]. unfold remember_title. wstep. apply wp_instant_now.
    intros j Hj. apply wp_on_io. cbn [fst snd].
    assert (quiet i3 (put_last_titles (put (last_titles j) (mono (mono_read i3))
      (i_window_id info) (i_title info)) j)) as Hq by (etrans; [exact Hj|by split]).
    split; [by apply (settled_quiet _ _ i3)|apply (q_emitted _ _ Hq)].
  - intros _ w4 (?&?&He4). apply wp_ret. split_and!; try done. cbn in *. congruence.
Qed.

Lemma settled_reports w :
  Inv w -> settled w ->
  wp idle (fun _ w' => Inv w' /\
    reports_it (i_app_name info) (i_process_id info) (i_title info) w w') w.
Proof.
  intros Hinv [Hdue Hne Hc (k&Hk&Hle)].
  eapply wp_mono; [by apply (idle_due (i_app_name info) (i_process_id info) (i_title info))|].
  intros _ w' [Hinv' [Hrep|(_&_&_&_&d&Hd&Hlt)]]; [done|].
  unfold deadline in Hd. rewrite Hc, Hk in Hd. injection Hd as <-. lia.
Qed.
End poll.

(** ** The theorem of the poll *)

(** The first answer of a poll about the application of a change is reported in the
    very turn it comes: on a run that has not been stopped and awaits that answer, with
    clocks that run, a poll that names the application, with a title, a process and a
    window, is followed by a focus with that application, process and title (or the
    placeholder) before the next message is looked at. *)
Theorem poll_reports_at_once empty l x info :
  ok empty -> clocks_run -> (turns l (new_worker empty)).1 = true ->
  awaiting_poll_reconcile (flags (run_focus_worker empty l)) = true ->
  s_app_name (state (run_focus_worker empty l)) = i_app_name info ->
  i_app_name info <> "" -> 0 < i_process_id info -> i_title info <> "" ->
  focus_allow_zero_window_id caps = true \/ 0 < i_window_id info ->
  should_stop x = false -> poll_value x <> POLL_SUSPEND_MS ->
  received x = Timeout (inl info) ->
  exists f rest,
    emitted (io (run_focus_worker empty (l ++ [x])))
    = emitted (io (run_focus_worker empty l)) ++ f :: rest /\
    app_name f = i_app_name info /\ pid f = i_process_id info /\
    (window_title f = i_title info \/ window_title f = UNKNOWN_WINDOW_TITLE).
Proof.
  intros Hok [Hle Hub Hutc] Hrun Haw Ha Happ Hp Ht Hid Hx Hv Hr.
  pose proof (reachable_inv empty l Hok) as Hinv. unfold run_focus_worker in *.
  rewrite (turns_app l) by done. set (w := (turns l (new_worker empty)).2) in *.
  assert (wp (turn x) (fun _ w' => reports_it (i_app_name info) (i_process_id info)
    (i_title info) w w') w) as Hturn.
  { unfold turn. rewrite Hx, Hr. cbn [on_received].
    rewrite (proj2 (Z.eqb_neq _ _) Hv). apply wp_bind.
    eapply wp_mono; [by apply poll_settles|]. intros flow w1 (->&Hi1&Hs1&He1).
    pose proof (settled_reports info Happ Hp Ht Hle w1 Hi1 Hs1) as Hidle.
    unfold idle, wp, mbind, M_bind in *. destruct (end_coalescing w1) as [[] w2].
    destruct (emit_scheduled w2) as [[] w3]. destruct Hidle as [_ (f&rest&Hf)].
    exists f, rest. by rewrite <- He1. }
  cbn. unfold wp, mbind, M_bind in *. by destruct (turn x w) as [[] w'].
Qed.

(** ** The flush before a change *)

(** What was just held back is still in the weak cache of its own application. *)
Lemma previous_app_has_own app t wid ts s f (i : Io) :
  ttl (last_app_window i) = None ->
  LruCache.map (weak_app_window i) !! app = Some ((t, wid), ts) ->
  expired (weak_app_window i) (mono (S (mono_read i))) ts = false ->
  wp (previous_app_has t (Some app))
    (fun b w => b = true /\ exists i', w = MkWorker s f i' /\ quiet i i') (MkWorker s f i).
Proof.
  intros Httl Hm He. unfold previous_app_has. apply wp_bind.
  unfold title_matches_app at 1. apply wp_bind, wp_on_io, wp_on_io. cbn [fst snd instant_now_io].
  set (i1 := MkIo _ _ _ _ _ _ _ _ _). cbn [cache_of put_cache last_app_window].
  destruct (get_cloned_titles (last_app_window i) (mono (mono_read i)) app Httl) as [Ht1 _].
  destruct (get_cloned_config (last_app_window i) (mono (mono_read i)) app) as [Hc1 Hc2].
  subst i1. cbn [last_app_window]. destruct (get_cloned (last_app_window i) _ app) as [c v].
  cbn [fst snd] in *. set (i2 := put_strong c _).
  assert (quiet i i2) as Hq by (split; cbn; done || lia).
  destruct (from_option _ _ v); [apply wp_ret; split; [done|by exists i2]|].
  unfold title_matches_app. apply wp_bind, wp_on_io, wp_on_io. cbn.
  unfold get_cloned. rewrite Hm. cbn in He. rewrite He. cbn. rewrite bool_decide_true by done.
  split; [done|]. eexists. split; [done|]. etrans; [exact Hq|]. by split; cbn; try done; lia.
Qed.

Lemma flush_discards t wid ts s f (i : Io) :
  Inv (MkWorker s f i) -> is_Some (coalesce_until f) -> pending_window_title f = Some t ->
  last_app_before_change f = Some (s_app_name s) ->
  is_login_app (s_app_name s) && bool_decide (t = "Login") = false ->
  LruCache.map (weak_app_window i) !! s_app_name s = Some ((t, wid), ts) ->
  expired (weak_app_window i) (mono (S (mono_read i))) ts = false ->
  can_emit (put_title UNKNOWN_WINDOW_TITLE s) = true ->
  wp flush_before_app_change (fun _ w => exists e,
      emitted (io w) = emitted i ++ [e] /\ app_name e = s_app_name s /\
      window_title e = UNKNOWN_WINDOW_TITLE) (MkWorker s f i).
Proof.
  intros [Hs Hf Hi] [u Hu] Hpe Hlast Hlogin Hm He Hemit. cbn in *.
  unfold flush_before_app_change. do 2 wstep. rewrite Hu. do 4 wstep. rewrite Hpe.
  rewrite bool_decide_true by done. cbn [orb]. do 2 wstep.
  apply (wp_mono _ (fun d w => decided_value d = UNKNOWN_WINDOW_TITLE /\
    exists i', w = MkWorker s (put_pending None f) i' /\ quiet i i')).
  { unfold reconcile_window_title. rewrite Hlogin. wstep. rewrite Hlast.
    eapply wp_mono; [eapply previous_app_has_own; [apply (io_ttl _ _ Hi)|done..]|].
    intros b w (->&i'&->&Hq). apply wp_ret. eauto. }
  intros d w (->&j&->&Hq). assert (ready i j) as Hr by (split; [by eapply io_inv_quiet|done]).
  do 7 arm_step.
  match goal with |- context [can_emit ?x] => assert (can_emit x = true) as Hcan end.
  { apply can_emit_true in Hemit as (Ha&_&Hpid&Hst&Hw). cbn in *.
    apply (can_emit_intro (s_app_name s) (s_pid s) Ha Hpid); try done. cbn.
    by apply window_allowed. }
  rewrite Hcan. eapply (wp_emit_ready any_report); [eassumption| |done|].
  - destruct Hs as [Hsa _ _]. split; cbn; [by left + done|by right; left|].
    eapply free_unnamed; [by eapply ready_titles_ok|by right].
  - intros n j' m' He' _ _. cbn. rewrite He'.
    match goal with Hx : FocusInv.ready _ _ ?k |- context [emitted ?k] =>
      rewrite (q_emitted _ _ (proj2 Hx)) end.
    eexists. by split.
Qed.

Lemma begin_app_silent p app m s f i :
  ready m i -> wp (begin_app p app) (fun _ w => quiet m (io w)) (MkWorker s f i).
Proof.
  intros Hr. unfold begin_app. do 2 arm_step; do 2 arm_step; repeat arm_step; cbn; quiet_leaf.
Qed.

Lemma app_change_flush p app t wid ts w :
  Inv w -> (s_app_name (state w), s_pid (state w)) <> (app, p) ->
  pending_window_title (flags w) = Some t ->
  is_login_app (s_app_name (state w)) && bool_decide (t = "Login") = false ->
  LruCache.map (weak_app_window (io w)) !! s_app_name (state w) = Some ((t, wid), ts) ->
  expired (weak_app_window (io w)) (mono (S (mono_read (io w)))) ts = false ->
  can_emit (put_title UNKNOWN_WINDOW_TITLE (state w)) = true ->
  wp (on_app_change p app) (fun flow w' => flow = Proceed /\ Inv w' /\ exists e,
      emitted (io w') = emitted (io w) ++ [e] /\ app_name e = s_app_name (state w) /\
      window_title e = UNKNOWN_WINDOW_TITLE) w.
Proof.
  intros Hinv Hne Hpe Hlogin Hm He Hemit.
  apply (wp_mono _ (fun flow w' => Inv w' /\ flow = Proceed /\ exists e,
      emitted (io w') = emitted (io w) ++ [e] /\ app_name e = s_app_name (state w) /\
      window_title e = UNKNOWN_WINDOW_TITLE)); [|naive_solver].
  apply wp_and; [by apply (on_app_change_keeps any_report (ok := ok))|].
  pose proof (can_emit_true _ Hemit) as (Happ&_). cbn in Happ.
  destruct (fl_pending _ _ (inv_flags _ _ Hinv) t Hpe) as [_ Hu].
  destruct w as [s f i]. cbn in *. unfold on_app_change. do 2 wstep.
  replace (_ && _) with false.
  2: { symmetry. apply andb_false_iff. rewrite bool_decide_eq_false, Z.eqb_neq.
       destruct (decide (s_app_name s = app)); [right|by left]. congruence. }
  unfold is_empty. rewrite bool_decide_false by done. do 3 wstep.
  assert (Inv (MkWorker s (put_last_app (Some (s_app_name s)) f) i)) as Hinv1.
  { destruct Hinv as [Hs Hf Hi]. split; [done|by apply (flags_inv_put any_report f); cbn; auto|done]. }
  eapply wp_mono; [apply wp_and; [by apply (flush_keeps any_report (ok := ok))|by eapply flush_discards]|].
  intros _ [s1 f1 i1] [[_ _ Hi1] (e&He1&Hae)]. cbn in *. wstep.
  eapply wp_mono; [by eapply (begin_app_silent p app i1)|]. intros ? w Hq. apply wp_ret.
  split; [done|]. exists e. by rewrite (q_emitted _ _ Hq).
Qed.

(** A change to another application while a title of the current one is held back
    reports the current one without it.  The flush compares the held title with the
    previous application, which it has just set to the current one, so a title that is
    still in the weak cache (where holding it put it) is always taken for a foreign one
    and replaced with the placeholder. *)
Theorem flush_discards_held_title empty l x p app t wid ts :
  ok empty -> (turns l (new_worker empty)).1 = true ->
  let w := run_focus_worker empty l in
  should_stop x = false -> received x = Msg (AppChange p app) ->
  (s_app_name (state w), s_pid (state w)) <> (app, p) ->
  pending_window_title (flags w) = Some t ->
  is_login_app (s_app_name (state w)) && bool_decide (t = "Login") = false ->
  LruCache.map (weak_app_window (io w)) !! s_app_name (state w) = Some ((t, wid), ts) ->
  expired (weak_app_window (io w)) (mono (S (mono_read (io w)))) ts = false ->
  can_emit (put_title UNKNOWN_WINDOW_TITLE (state w)) = true ->
  exists e rest,
    emitted (io (run_focus_worker empty (l ++ [x]))) = emitted (io w) ++ e :: rest /\
    app_name e = s_app_name (state w) /\ window_title e = UNKNOWN_WINDOW_TITLE.
Proof.
  intros Hok Hrun w Hx Hr Hne Hpe Hlogin Hm He Hemit.
  pose proof (reachable_inv empty l Hok) as Hinv. fold w in Hinv.
  unfold run_focus_worker. rewrite (turns_app l) by done. fold (run_focus_worker empty l). fold w.
  pose proof (app_change_flush p app t wid ts w Hinv Hne Hpe Hlogin Hm He Hemit) as Hturn.
  cbn [turns]. unfold turn. rewrite Hx, Hr. cbn [on_received on_message].
  unfold wp, mbind, M_bind in *. destruct (on_app_change p app w) as [flow w1].
  destruct Hturn as (->&Hinv1&e&He1&Happ&Htitle).
  destruct (idle_extends w1 Hinv1) as [rest Hrest]. unfold idle, mbind, M_bind in Hrest.
  destruct (end_coalescing w1) as [[] w2]. destruct (emit_scheduled w2) as [[] w3]. cbn in *.
  exists e, rest. by rewrite Hrest, He1, <- (assoc_L (++)).
Qed.

End poll_flush.

(** ** The theorems on a concrete run *)
Lemma poll_reports_at_once_witness :
  exists f rest,
    emitted (io (demo_run 1 ([message (AppChange 7 "Mail")] ++
      [poll (inl (demo_info "Mail" 7 "Inbox" 3))])))
    = emitted (io (demo_run 1 [message (AppChange 7 "Mail")])) ++ f :: rest /\
    app_name f = "Mail" /\ pid f = 7 /\
    (window_title f = "Inbox" \/ window_title f = UNKNOWN_WINDOW_TITLE).
Proof.
  apply (@poll_reports_at_once hash_order_id chrono_ref _ _ _ StringInterner.interner_titles_laws
    (demo_env 1) demo_interner [message (AppChange 7 "Mail")]
    (poll (inl (demo_info "Mail" 7 "Inbox" 3))) (demo_info "Mail" 7 "Inbox" 3)).
  - apply demo_focus_interner_ok.
  - apply demo_clocks_run.
  - vm_compute. reflexivity.
  - vm_compute. reflexivity.
  - vm_compute. reflexivity.
  - done.
  - done.
  - done.
  - by left.
  - reflexivity.
  - done.
  - reflexivity.
Defined.

(** Mail, its title, and Term follow one another within the coalescing window: Mail is
    reported, without its title. *)
Lemma flush_discards_held_title_witness :
  exists e rest,
    emitted (io (demo_run 1 ([message (AppChange 7 "Mail"); message (WindowChange "Inbox")] ++
      [message (AppChange 8 "Term")])))
    = emitted (io (demo_run 1 [message (AppChange 7 "Mail"); message (WindowChange "Inbox")]))
      ++ e :: rest /\
    app_name e = "Mail" /\ window_title e = "-".
Proof.
  apply (@flush_discards_held_title hash_order_id chrono_ref _ _ _
    StringInterner.interner_titles_laws (demo_env 1) demo_interner
    [message (AppChange 7 "Mail"); message (WindowChange "Inbox")]
    (message (AppChange 8 "Term")) 8 "Term" "Inbox" 0 (millis 10)).
  - apply demo_focus_interner_ok.
  - vm_compute. reflexivity.
  - reflexivity.
  - reflexivity.
  - vm_compute. congruence.
  - vm_compute. reflexivity.
  - vm_compute. reflexivity.
  - vm_compute. reflexivity.
  - vm_compute. reflexivity.
  - vm_compute. reflexivity.
Defined.
End FocusPoll.
