(* ===== verification/FocusWrapper.v ===== *)
(** The handle of the focus worker, [FocusEventWrapper] of
    src/daemon/tracker/focus.rs: the channel to the worker, its calls and its drop,
    interleaved with the worker's turns. *)
From S2P Require Import Prelude Events Lru Interner Focus FocusWorker FocusLogic FocusInv FocusSafety FocusLiveness.

Module FocusWrapper.
Import LruCache Focus FocusWorker FocusLogic FocusInv FocusSafety FocusLiveness.

Section wrapper.
Context `{HashOrder} `{Chrono} {I : Type} `{TitleInterner I} `{FocusEnv}.
Notation Worker := (@Worker I).

(** Where the worker thread is: before it looks at [should_stop], in [recv_timeout]
    with the poll interval it read, or gone, its end of the channel closed. *)
Inductive Phase := AtTop | Receiving (poll_value : Z) | Ended.

Record System := {
  queue : list FocusMsg;
  stop_flag : bool;
  phase : Phase;
  worker : Worker
}.

(** [FocusEventWrapper::new]: the channel, the flag and the worker. *)
Definition new (empty : I) : System :=
  {| queue := []; stop_flag := false; phase := AtTop; worker := new_worker empty |}.

(** [send]: a message to a worker that is gone is only reported. *)
Definition send (m : FocusMsg) (y : System) : System :=
  match phase y with
  | Ended => y
  | _ => {| queue := queue y ++ [m]; stop_flag := stop_flag y; phase := phase y;
            worker := worker y |}
  end.

Definition handle_app_change (pid : Z) (app : string) : System -> System :=
  send (AppChange pid app).
Definition handle_window_change (title : string) : System -> System :=
  send (WindowChange title).
Definition handle_app_change_info (info : ActiveWindowInfo) : System -> System :=
  send (AppChangeInfo info).
Definition handle_window_change_info (info : ActiveWindowInfo) : System -> System :=
  send (WindowChangeInfo info).

(** The two effects of the drop before it joins the worker. *)
Definition drop_send : System -> System := send Stop.
Definition drop_flag (y : System) : System :=
  {| queue := queue y; stop_flag := true; phase := phase y; worker := worker y |}.

(** The worker thread: the load of the flag and of the poll interval, and the rest of
    the turn, with what the window system would answer to a poll. *)
Definition load (poll_value : Z) (y : System) : System :=
  match phase y with
  | AtTop =>
      {| queue := queue y; stop_flag := stop_flag y;
         phase := if stop_flag y then Ended else Receiving poll_value; worker := worker y |}
  | _ => y
  end.

Definition receive (answer : ActiveWindowInfo + string) (y : System) : System :=
  match phase y with
  | Receiving v =>
      let '(r, q) := match queue y with m :: q => (Msg m, q) | [] => (Timeout answer, []) end in
      let '(go_on, w) :=
        turn {| should_stop := false; poll_value := v; received := r |} (worker y) in
      {| queue := q; stop_flag := stop_flag y; phase := if go_on : bool then AtTop else Ended;
         worker := w |}
  | _ => y
  end.

(** ** Interleavings *)
Inductive Event :=
  | Call (m : FocusMsg)
  | DropFlag
  | Load (poll_value : Z)
  | Receive (answer : ActiveWindowInfo + string).

Definition step (y : System) (e : Event) : System :=
  match e with
  | Call m => send m y
  | DropFlag => drop_flag y
  | Load v => load v y
  | Receive a => receive a y
  end.
Definition run (y : System) (es : list Event) : System := foldl step y es.

(** The messages a list of turns receives. *)
Definition message_of (x : Turn) : list FocusMsg :=
  match received x with Msg m => [m] | _ => [] end.
Definition messages (l : list Turn) : list FocusMsg := l ≫= message_of.

Definition calls (es : list Event) : list FocusMsg :=
  es ≫= (fun e => match e with Call m => [m] | _ => [] end).

(** What the interleavings keep: the worker has made some turns, on the first of the
    messages that were sent; the rest is in the channel. *)
Record tracks (empty : I) (sent : list FocusMsg) (l : list Turn) (y : System) : Prop := {
  tr_worker : worker y = run_focus_worker empty l;
  tr_running : phase y <> Ended -> (turns l (new_worker empty)).1 = true;
  tr_sent : exists lost, sent = messages l ++ queue y ++ lost /\
    (phase y <> Ended -> lost = []);
  tr_stop : Stop ∈ messages l -> exists k, messages l = k ++ [Stop] /\ Stop ∉ k
}.

(** How many turns an event makes. *)
Definition turns_made (y : System) (e : Event) : nat :=
  match phase y, e with Receiving _, Receive _ => 1 | _, _ => 0 end.

Lemma turns_snoc l x (w : Worker) :
  (turns l w).1 = true -> turns (l ++ [x]) w = turn x (turns l w).2.
Proof.
  intros Hl. rewrite (turns_app l) by done. cbn. unfold mbind, M_bind.
  by destruct (turn x _) as [[] ?].
Qed.

Lemma messages_app l l' : messages (l ++ l') = messages l ++ messages l'.
Proof. apply bind_app. Qed.

(** A worker that has received [Stop] is not running. *)
Lemma running_not_stopped l (w : Worker) : (turns l w).1 = true -> Stop ∉ messages l.
Proof.
  revert w. induction l as [|x l IH]; intros w; [intros _; apply not_elem_of_nil|].
  unfold turns; fold (@turns _ _ I _ _). unfold mbind, M_bind. destruct (turn x w) as [b w'] eqn:Ht.
  destruct b; [|done]. intros Hl%IH. change (x :: l) with ([x] ++ l). rewrite messages_app, elem_of_app.
  intros [Hin|Hin]; [|done]. unfold messages, message_of in Hin. cbn in Hin. rewrite app_nil_r in Hin.
  destruct (received x) as [m| |] eqn:Hr; try by apply elem_of_nil in Hin.
  apply list_elem_of_singleton in Hin as <-. unfold turn in Ht. rewrite Hr in Ht.
  by destruct (should_stop x).
Qed.

Lemma step_tracks empty sent l y e :
  tracks empty sent l y ->
  exists l', length l' = turns_made y e /\ tracks empty (sent ++ calls [e]) (l ++ l') (step y e).
Proof.
  intros [Hw Hrun (lost&Hs&Hl) Hst]. unfold turns_made. destruct e as [m| |v|a]; cbn [step].
  - exists []. split; [by destruct (phase y)|]. rewrite app_nil_r. unfold send, calls; cbn.
    destruct (phase y) eqn:Hp; split; cbn; rewrite ?Hp; try done.
    + exists []. rewrite Hs, (Hl ltac:(done)). split; [|done]. by rewrite !app_nil_r, <- !(assoc_L (++)).
    + exists []. rewrite Hs, (Hl ltac:(done)). split; [|done]. by rewrite !app_nil_r, <- !(assoc_L (++)).
    + exists (lost ++ [m]). rewrite Hs. split; [|done]. by rewrite <- !(assoc_L (++)).
  - exists []. split; [by destruct (phase y)|]. rewrite !app_nil_r. split; cbn; eauto.
  - exists []. split; [by destruct (phase y)|]. rewrite !app_nil_r. unfold load. destruct (phase y) eqn:Hp; cbn.
    + split; cbn; [done|by intros _; apply Hrun| |done]. exists lost. rewrite Hs.
      rewrite (Hl ltac:(done)). done.
    + split; rewrite ?Hp; eauto.
    + split; rewrite ?Hp; eauto.
  - rewrite app_nil_r. unfold receive.
    destruct (phase y) as [|v|] eqn:Hp;
      [exists []; rewrite !app_nil_r; split; [done|]; split; rewrite ?Hp; eauto| |
       exists []; rewrite !app_nil_r; split; [done|]; split; rewrite ?Hp; eauto].
    specialize (Hrun ltac:(done)). specialize (Hl ltac:(done)). subst lost.
    destruct (match queue y with m :: q => (Msg m, q) | [] => (Timeout a, []) end)
      as [r q] eqn:Hq.
    set (x := {| should_stop := false; poll_value := v; received := r |}).
    pose proof (turns_snoc l x (new_worker empty) Hrun) as Hsnoc.
    pose proof (running_not_stopped l _ Hrun) as Hno.
    rewrite Hw. unfold run_focus_worker in *. rewrite <- Hsnoc.
    destruct (turns (l ++ [x]) (new_worker empty)) as [go_on w] eqn:Ht.
    exists [x]. split; [done|]. split; cbn [worker phase];
      [by unfold run_focus_worker; rewrite Ht|rewrite Ht; by destruct go_on| |].
    + exists []. split; [|done]. rewrite app_nil_r in *. rewrite messages_app.
      rewrite Hs. destruct (queue y) as [|m q']; injection Hq as <- <-; cbn.
      * by rewrite !app_nil_r.
      * by rewrite <- (assoc_L (++)).
    + rewrite messages_app, elem_of_app. intros [Hin|Hin]; [done|].
      exists (messages l). split; [|done]. f_equal. unfold messages, message_of in *. cbn in *.
      rewrite app_nil_r in *. destruct r as [m| |]; try by apply elem_of_nil in Hin.
      by apply list_elem_of_singleton in Hin as <-.
Qed.

Lemma calls_cons e es : calls (e :: es) = calls [e] ++ calls es.
Proof. unfold calls. cbn. by rewrite app_nil_r. Qed.

Lemma calls_app es es' : calls (es ++ es') = calls es ++ calls es'.
Proof. apply bind_app. Qed.

(** The turns of a run. *)
Fixpoint worker_changes (y : System) (es : list Event) : nat :=
  match es with
  | [] => 0
  | e :: es' => turns_made y e + worker_changes (step y e) es'
  end.

Lemma run_tracks empty sent l y es :
  tracks empty sent l y ->
  exists l', length l' = worker_changes y es /\ tracks empty (sent ++ calls es) (l ++ l') (run y es).
Proof.
  revert sent l y. induction es as [|e es IH]; intros sent l y Hy.
  { exists []. by rewrite !app_nil_r. }
  destruct (step_tracks _ _ _ _ e Hy) as (l1&Hn1&H1'). destruct (IH _ _ _ H1') as (l2&Hn2&H2').
  exists (l1 ++ l2). cbn [worker_changes]. rewrite length_app, (assoc_L (++)).
  split; [by rewrite Hn1, Hn2|]. by rewrite calls_cons, (assoc_L (++)).
Qed.

Lemma new_tracks empty : tracks empty [] [] (new empty).
Proof. split; [done|done|by exists []|by intros ?%not_elem_of_nil]. Qed.

(** *** While the handle lives *)

(** An arm of the loop does not end it. *)
Definition goes_on (m : @M I Flow) : Prop := forall w, (m w).1 <> Break.

Lemma goes_on_bind {A} (m : @M I A) k : (forall x, goes_on (k x)) -> goes_on (m ≫= k).
Proof. intros Hk w. unfold mbind, M_bind. destruct (m w). apply Hk. Qed.
Lemma goes_on_bind_flow m k : goes_on m -> (forall x, x <> Break -> goes_on (k x)) -> goes_on (m ≫= k).
Proof. intros Hm Hk w. unfold mbind, M_bind. pose proof (Hm w). destruct (m w). by apply Hk. Qed.
Lemma goes_on_proceed : goes_on (mret Proceed).
Proof. by intros w. Qed.
Lemma goes_on_continue : goes_on (mret Continue).
Proof. by intros w. Qed.

Ltac go_on :=
  first [apply goes_on_bind; intros | apply goes_on_proceed | apply goes_on_continue | case_match].

Lemma arm_goes_on v r : r <> Msg Stop -> r <> Disconnected -> goes_on (on_received v r).
Proof.
  intros H1' H2'. destruct r as [[pid app|t|info|info|]|[info|err]|]; cbn [on_received on_message]; try done.
  - unfold on_app_change. by repeat go_on.
  - assert (goes_on (decide_title t)) as Hd by (unfold decide_title, hold_title; by repeat go_on).
    unfold on_window_change. go_on. case_match; [by repeat go_on|]. go_on. case_match; [unfold hold_title; by repeat go_on|].
    apply goes_on_bind_flow; [done|]. intros [] Hne; [by repeat go_on..|done].
  - unfold on_app_change_info. by repeat go_on.
  - unfold on_window_change_info. by repeat go_on.
  - unfold on_poll. by repeat go_on.
  - unfold on_poll_error. by repeat go_on.
Qed.

Lemma turn_goes_on x (w : Worker) :
  should_stop x = false -> received x <> Msg Stop -> received x <> Disconnected -> (turn x w).1 = true.
Proof.
  intros Hs H1' H2'. unfold turn. rewrite Hs. unfold mbind at 1, M_bind at 1.
  pose proof (arm_goes_on (poll_value x) (received x) H1' H2' w) as Hgo.
  destruct (on_received _ _ w) as [[] w']; [|done|done].
  unfold mbind, M_bind. destruct (end_coalescing w') as [? w2]. by destruct (emit_scheduled w2).
Qed.

(** A call through the handle, or the worker's own step. *)
Definition live (e : Event) : Prop :=
  match e with Call Stop | DropFlag => False | _ => True end.

Lemma live_step y e :
  live e -> stop_flag y = false -> phase y <> Ended -> Stop ∉ queue y ->
  stop_flag (step y e) = false /\ phase (step y e) <> Ended /\ Stop ∉ queue (step y e).
Proof.
  intros He Hf Hp Hq. destruct e as [m| |v|a]; cbn [step]; [|by destruct He|..].
  - unfold send. destruct (phase y) eqn:E; [| |done]; (split; [done|split; [by cbn; rewrite ?E|]]); cbn;
      rewrite elem_of_app, list_elem_of_singleton; (intros [?|<-]; [done|by destruct He]).
  - unfold load. destruct (phase y) eqn:E; [rewrite Hf|..]; cbn; rewrite ?E; by split_and!.
  - unfold receive. destruct (phase y) as [|v|] eqn:E; [rewrite E; by split_and!| |done].
    destruct (queue y) as [|m q] eqn:Eq.
    + match goal with |- context [turn ?x ?w] => pose proof (turn_goes_on x w eq_refl) as Hgo;
        destruct (turn x w) as [b w'] end.
      cbn in *. rewrite Hgo by done. by split_and!.
    + rewrite not_elem_of_cons in Hq. destruct Hq as [Hm Hq].
      match goal with |- context [turn ?x ?w] => pose proof (turn_goes_on x w eq_refl) as Hgo;
        destruct (turn x w) as [b w'] end.
      cbn in *. rewrite Hgo by congruence. by split_and!.
Qed.

Lemma live_run es : forall y,
  Forall live es -> stop_flag y = false -> phase y <> Ended -> Stop ∉ queue y ->
  stop_flag (run y es) = false /\ phase (run y es) <> Ended /\ Stop ∉ queue (run y es).
Proof.
  induction es as [|e es IH]; intros y Hes Hf Hp Hq; [done|].
  apply Forall_cons in Hes as [He Hes]. destruct (live_step y e He Hf Hp Hq) as (?&?&?). by apply IH.
Qed.

Lemma live_calls es : Forall live es -> Stop ∉ calls es.
Proof.
  induction 1 as [|e es He _ IH]; [apply not_elem_of_nil|]. rewrite calls_cons, elem_of_app.
  intros [Hin|]; [|done]. destruct e as [m| | |]; try by apply elem_of_nil in Hin.
  cbn in Hin. apply list_elem_of_singleton in Hin as <-. done.
Qed.

(** *** After the flag is set *)
Definition receiving (y : System) : bool := match phase y with Receiving _ => true | _ => false end.

Lemma receive_cases a y v :
  phase y = Receiving v ->
  exists q b w, receive a y = {| queue := q; stop_flag := stop_flag y;
                                 phase := if b : bool then AtTop else Ended; worker := w |}.
Proof.
  intros Hp. unfold receive. rewrite Hp.
  destruct (match queue y with m :: q => _ | [] => _ end) as [r q].
  match goal with |- context [turn ?x ?w] => destruct (turn x w) as [b w'] end.
  by exists q, b, w'.
Qed.

Lemma stopped_step y e :
  stop_flag y = true ->
  stop_flag (step y e) = true /\
  (turns_made y e + Nat.b2n (receiving (step y e)) <= Nat.b2n (receiving y))%nat /\
  (phase y = Ended -> phase (step y e) = Ended) /\
  (forall v, e = Load v -> receiving y = false -> phase (step y e) = Ended) /\
  (forall a, e = Receive a -> receiving (step y e) = false).
Proof.
  intros Hs. unfold receiving, turns_made. destruct e as [m| |v|a]; cbn [step].
  - unfold send. destruct (phase y) eqn:Hp; cbn; rewrite ?Hp; split_and!; done.
  - cbn. destruct (phase y); split_and!; done.
  - unfold load. destruct (phase y) eqn:Hp; cbn; rewrite ?Hs, ?Hp; split_and!; done.
  - destruct (phase y) as [|v|] eqn:Hp.
    + unfold receive. rewrite Hp, Hp. by split_and!.
    + destruct (receive_cases a y v Hp) as (q&b&w&->). cbn. destruct b; by split_and!.
    + unfold receive. rewrite Hp, Hp. by split_and!.
Qed.

Lemma stopping_run es : forall y,
  stop_flag y = true ->
  stop_flag (run y es) = true /\
  (worker_changes y es + Nat.b2n (receiving (run y es)) <= Nat.b2n (receiving y))%nat /\
  (phase y = Ended -> phase (run y es) = Ended).
Proof.
  induction es as [|e es IH]; intros y Hs; [done|]. cbn [worker_changes].
  destruct (stopped_step y e Hs) as (Hs'&Hn&He&_). destruct (IH _ Hs') as (H1'&H2'&H3').
  change (run y (e :: es)) with (run (step y e) es). split_and!; [done|lia|auto].
Qed.

Lemma run_events_app y es es' : run y (es ++ es') = run (run y es) es'.
Proof. apply foldl_app. Qed.

(** The wait and the next look at the flag end the worker. *)
Lemma stopping_ends y es a v :
  stop_flag y = true -> [Receive a; Load v] `sublist_of` es -> phase (run y es) = Ended.
Proof.
  intros Hs (k1&k2&->&(k3&k4&->&_)%sublist_cons_l)%sublist_cons_l.
  rewrite run_events_app. destruct (stopping_run k1 y Hs) as (Hs1&_).
  change (run (run y k1) (?e :: ?k)) with (run (step (run y k1) e) k).
  destruct (stopped_step _ (Receive a) Hs1) as (Hs2&_&_&_&Hr). specialize (Hr a eq_refl).
  rewrite run_events_app. destruct (stopping_run k3 _ Hs2) as (Hs3&Hn&_).
  change (run ?z (?e :: ?k)) with (run (step z e) k).
  destruct (stopped_step _ (Load v) Hs3) as (Hs4&_&_&Hl&_).
  destruct (stopping_run k4 _ Hs4) as (_&_&He). apply He, (Hl v eq_refl).
  rewrite Hr in Hn. destruct (receiving (run _ k3)); [cbn in Hn; lia|done].
Qed.

(** What is received up to the first [Stop]. *)
Lemma prefix_to_stop (k c r rest : list FocusMsg) :
  c ++ Stop :: r = k ++ rest -> Stop ∉ c ->
  (Stop ∈ k -> exists k', k = k' ++ [Stop] /\ Stop ∉ k') -> k `prefix_of` c ++ [Stop].
Proof.
  intros Heq Hc Hk. assert (Stop ∈ k \/ Stop ∉ k) as [Hin|Hno].
  { clear. induction k as [|x k [IH|IH]]; [right; apply not_elem_of_nil|left; by right|].
    destruct x; try (right; by apply not_elem_of_cons). left. left. }
  - destruct (Hk Hin) as (k'&->&Hk'). rewrite <- (assoc_L (++)) in Heq. cbn in Heq.
    enough (c = k') as -> by done. clear Hk Hin. revert k' Hk' Heq.
    induction c as [|x c IH]; intros [|y k'] Hk' Heq; [done|..].
    + injection Heq as <- _. destruct Hk'. left.
    + injection Heq as -> _. destruct Hc. left.
    + injection Heq as -> Heq. rewrite not_elem_of_cons in Hc. rewrite not_elem_of_cons in Hk'.
      f_equal. apply IH; tauto.
  - clear Hk. revert c Hc Heq. induction k as [|x k IH]; intros c Hc Heq; [apply prefix_nil|].
    rewrite not_elem_of_cons in Hno. destruct c as [|y c].
    + injection Heq as <- _. by destruct Hno.
    + injection Heq as -> Heq. rewrite not_elem_of_cons in Hc. apply prefix_cons, IH; tauto.
Qed.

(** C28: in any interleaving of calls, drop and worker thread: while the handle lives the
    worker runs, and has received the calls made so far, each once and in order, but for
    those still in the channel.  When the handle is dropped (a [Stop] is sent, then the
    flag is set, with the worker going on in between) the worker receives nothing that was
    sent after the [Stop], makes at most one more turn after the flag is set, and is gone,
    so that the join returns, as soon as it has left its wait and looked at the flag. *)
Theorem drop_ends_worker empty es mid es' :
  Forall live es ->
  let y0 := run (new empty) es in
  let y1 := run y0 (Call Stop :: mid ++ [DropFlag]) in
  let y2 := run y1 es' in
  exists l0 l1 l2,
    worker y0 = run_focus_worker empty l0 /\ calls es = messages l0 ++ queue y0 /\ phase y0 <> Ended /\
    worker y1 = run_focus_worker empty (l0 ++ l1) /\
    worker y2 = run_focus_worker empty (l0 ++ l1 ++ l2) /\ (length l2 <= 1)%nat /\
    messages (l0 ++ l1 ++ l2) `prefix_of` calls es ++ [Stop] /\
    (forall a v, [Receive a; Load v] `sublist_of` es' -> phase y2 = Ended).
Proof.
  intros Hes y0 y1 y2.
  destruct (run_tracks empty [] [] _ es (new_tracks empty)) as (l0&_&T0). cbn [app] in T0.
  destruct (run_tracks _ _ _ _ (Call Stop :: mid ++ [DropFlag]) T0) as (l1&_&T1).
  destruct (run_tracks _ _ _ _ es' T1) as (l2&Hn&T2). fold y0 in T0, T1, T2. fold y1 in T1, T2, Hn.
  rewrite <- (assoc_L (++) l0) in T2.
  assert (stop_flag y1 = true) as Hflag.
  { unfold y1. change (Call Stop :: mid ++ [DropFlag]) with ((Call Stop :: mid) ++ [DropFlag]).
    by rewrite run_events_app. }
  destruct (live_run es (new empty) Hes eq_refl) as (_&Hlive&_); [done|apply not_elem_of_nil|].
  exists l0, l1, l2. split_and!; [apply T0| |done|apply T1|apply T2| | |].
  - destruct (tr_sent _ _ _ _ T0) as (lost&Hs&Hl). by rewrite Hs, (Hl Hlive), app_nil_r.
  - destruct (stopping_run es' y1 Hflag) as (_&Hle&_).
    assert (Nat.b2n (receiving y1) <= 1)%nat by (by destruct (receiving y1); cbn; lia).
    change (length l2 = worker_changes y1 es') in Hn. lia.
  - destruct (tr_sent _ _ _ _ T2) as (lost&Hs&_).
    eapply (prefix_to_stop _ _ _ _); [|by apply live_calls|apply T2].
    rewrite <- Hs, calls_cons, calls_app, <- !(assoc_L (++)). reflexivity.
  - intros a v Hsub. by eapply stopping_ends.
Qed.
End wrapper.

(** The handle is dropped while the worker waits, with a call in the channel that it handles
    in that turn; it then ends by the flag, with the [Stop] still in the channel. *)
Lemma drop_ends_worker_witness :
  let es := [Load 500; Call (AppChange 7 "Mail"); Call (WindowChange "Inbox"); Receive (inr "busy");
             Load 500] in
  let es' := [Call (WindowChange "late"); Receive (inr "busy"); Load 500; Receive (inr "busy")] in
  let y0 := @run hash_order_id chrono_ref _ _ (demo_env 1) (@new _ (demo_env 1) demo_interner) es in
  let y1 := @run hash_order_id chrono_ref _ _ (demo_env 1) y0 [Call Stop; DropFlag] in
  let y2 := @run hash_order_id chrono_ref _ _ (demo_env 1) y1 es' in
  phase y2 = Ended /\ queue y2 = [Stop; WindowChange "late"] /\ s_app_name (state (worker y2)) = "Mail".
Proof.
  intros es es' y0 y1 y2. split; [|by vm_compute].
  destruct (@drop_ends_worker hash_order_id chrono_ref _ _ (demo_env 1) demo_interner es [] es')
    as (l0&l1&l2&_&_&_&_&_&_&_&Hend); [by repeat constructor|].
  apply (Hend (inr "busy") 500). repeat constructor.
Defined.
End FocusWrapper.
