(* ===== verification/Records.v ===== *)
(** Activity records and the [RecordBuilder] of [crates/core/src/records.rs]: the
    hints of the pipeline cut the day into records.

    [Utc::now()] is a stream of readings; a builder operation takes the number of
    readings made so far and returns it advanced.  The titles are interned through
    the interface of file Interner. *)
From S2P Require Import Prelude Events Interner.

Record ActivityRecord := {
  record_id : Z;
  run_id : option string;
  start_time : instant;
  end_time : option instant;
  state : ActivityState;
  focus_info : option WindowFocusInfo;
  event_count : Z;
  triggering_events : list Z
}.

#[export] Instance ActivityRecord_eq_dec : EqDecision ActivityRecord.
Proof. solve_decision. Defined.

Definition set_title (f : WindowFocusInfo) (t : string) : WindowFocusInfo := {|
  pid := pid f; process_start_time := process_start_time f; app_name := app_name f;
  window_title := t; window_id := window_id f;
  window_instance_start := window_instance_start f;
  window_position := window_position f; window_size := window_size f
|}.

Section builder.
Context (utc_now : nat -> instant) {I : Type} `{TitleInterner I}.

Record RecordBuilder := {
  current_state : ActivityState;
  current_record : option ActivityRecord;
  current_focus : option WindowFocusInfo;
  next_record_id : Z;
  string_interner : I
}.

Definition with_next_record_id (initial_state : ActivityState) (next : Z) (i : I)
    : RecordBuilder := {|
  current_state := initial_state;
  current_record := None;
  current_focus := None;
  next_record_id := next;
  string_interner := i
|}.

Definition builder_new (initial_state : ActivityState) (i : I) : RecordBuilder :=
  with_next_record_id initial_state 0 i.

Definition set_state (b : RecordBuilder) (s : ActivityState) : RecordBuilder := {|
  current_state := s; current_record := current_record b;
  current_focus := current_focus b; next_record_id := next_record_id b;
  string_interner := string_interner b |}.
Definition set_record (b : RecordBuilder) (r : option ActivityRecord) : RecordBuilder := {|
  current_state := current_state b; current_record := r;
  current_focus := current_focus b; next_record_id := next_record_id b;
  string_interner := string_interner b |}.
Definition set_focus (b : RecordBuilder) (f : option WindowFocusInfo) : RecordBuilder := {|
  current_state := current_state b; current_record := current_record b;
  current_focus := f; next_record_id := next_record_id b;
  string_interner := string_interner b |}.

Definition start_new_current (b : RecordBuilder) (n : nat) : RecordBuilder * nat :=
  let now_utc := utc_now n in
  ({| current_state := current_state b;
      current_record := Some {|
        record_id := next_record_id b; run_id := None; start_time := now_utc;
        end_time := None; state := current_state b; focus_info := current_focus b;
        event_count := 0; triggering_events := [] |};
      current_focus := current_focus b;
      next_record_id := u64_add (next_record_id b) 1;
      string_interner := string_interner b |}, S n).

Definition close (r : ActivityRecord) (t : instant) : ActivityRecord := {|
  record_id := record_id r; run_id := run_id r; start_time := start_time r;
  end_time := Some t; state := state r; focus_info := focus_info r;
  event_count := event_count r; triggering_events := triggering_events r |}.

Definition finalize_current (b : RecordBuilder) (n : nat)
    : RecordBuilder * nat * option ActivityRecord :=
  match current_record b with
  | Some rec => (set_record b None, S n, Some (close rec (utc_now n)))
  | None => (b, n, None)
  end.

Definition apply_focus_change (b : RecordBuilder) (n : nat) (f : WindowFocusInfo)
    : RecordBuilder * nat * option ActivityRecord :=
  let b := set_focus b (Some f) in
  let '(b, n, completed) := finalize_current b n in
  let '(b, n) := start_new_current b n in
  (b, n, completed).

Definition apply_title_change (b : RecordBuilder) (n : nat) (wid : Z) (new_title : string)
    : RecordBuilder * nat * option ActivityRecord :=
  let should_update :=
    match current_focus b with Some cf => window_id cf =? wid | None => false end in
  if should_update then
    let '(b, n, completed) := finalize_current b n in
    let b :=
      match current_focus b with
      | Some cf =>
          let '(i, title) := intern_text (string_interner b) new_title in
          {| current_state := current_state b; current_record := current_record b;
             current_focus := Some (set_title cf title);
             next_record_id := next_record_id b; string_interner := i |}
      | None => b
      end in
    let '(b, n) := start_new_current b n in
    (b, n, completed)
  else (b, n, None).

Definition transition_to (b : RecordBuilder) (n : nat) (to : ActivityState)
    : RecordBuilder * nat * option ActivityRecord :=
  if bool_decide (current_state b <> to) then
    let '(b, n, completed) := finalize_current b n in
    let b := set_state b to in
    let '(b, n) := start_new_current b n in
    (b, n, completed)
  else (b, n, None).

Definition on_hint (b : RecordBuilder) (n : nat) (env : EventEnvelope)
    : RecordBuilder * nat * option ActivityRecord :=
  match env_kind env with
  | Hint FocusChanged =>
      match env_payload env with PFocus f => apply_focus_change b n f | _ => (b, n, None) end
  | Hint StateChanged =>
      match env_payload env with PState _ to => transition_to b n to | _ => (b, n, None) end
  | Hint TitleChanged =>
      match env_payload env with
      | PTitle wid title => apply_title_change b n wid title
      | _ => (b, n, None)
      end
  | _ => (b, n, None)
  end.

Definition finalize_all (b : RecordBuilder) (n : nat)
    : RecordBuilder * nat * option ActivityRecord := finalize_current b n.

(** The builder over a stream of envelopes, and the records it completes. *)
Definition hint_step (bn : RecordBuilder * nat) (e : EventEnvelope)
    : RecordBuilder * nat * list ActivityRecord :=
  let '(b, n, r) := on_hint bn.1 bn.2 e in ((b, n), option_list r).

Definition build (bn : RecordBuilder * nat) (l : list EventEnvelope)
    : RecordBuilder * nat * list ActivityRecord := run_list hint_step bn l.

Lemma build_cons b n e l :
  build (b, n) (e :: l) =
    let '(b', n', o) := on_hint b n e in
    ((build (b', n') l).1, option_list o ++ (build (b', n') l).2).
Proof.
  unfold build. rewrite run_list_cons.
  assert (hint_step (b, n) e =
    ((on_hint b n e).1, option_list (on_hint b n e).2)) as ->
    by (unfold hint_step; cbn; by destruct (on_hint b n e) as [[] ?]).
  by destruct (on_hint b n e) as [[b' n'] o].
Qed.

(** ** What cuts the day

    The state and focus after an envelope that starts a new record. *)
Definition cut (s : ActivityState) (f : option WindowFocusInfo) (e : EventEnvelope)
    : option (ActivityState * option WindowFocusInfo) :=
  match env_kind e, env_payload e with
  | Hint FocusChanged, PFocus fi => Some (s, Some fi)
  | Hint StateChanged, PState _ to => if decide (s = to) then None else Some (to, f)
  | Hint TitleChanged, PTitle wid title =>
      match f with
      | Some cf => if decide (window_id cf = wid) then Some (s, Some (set_title cf title))
                   else None
      | None => None
      end
  | _, _ => None
  end.

Fixpoint segments (s : ActivityState) (f : option WindowFocusInfo) (l : list EventEnvelope)
    : list (ActivityState * option WindowFocusInfo) :=
  match l with
  | [] => []
  | e :: l' =>
      match cut s f e with
      | Some (s', f') => (s', f') :: segments s' f' l'
      | None => segments s f l'
      end
  end.

(** Consecutive 64-bit ids. *)
Fixpoint number {A} (id : Z) (l : list A) : list (Z * A) :=
  match l with
  | [] => []
  | x :: l' => (id, x) :: number (u64_add id 1) l'
  end.

Definition summary (r : ActivityRecord) : Z * (ActivityState * option WindowFocusInfo) :=
  (record_id r, (state r, focus_info r)).

(** The open record shows the state and focus of the builder. *)
Definition in_step (b : RecordBuilder) : Prop :=
  forall r, current_record b = Some r ->
    state r = current_state b /\ focus_info r = current_focus b.

Section refinement.
Context (ok : I -> Prop) `{!TitleInternerLaws I ok}.

Lemma on_hint_cut b n e :
  ok (string_interner b) ->
  let '(b', n', o) := on_hint b n e in
  ok (string_interner b') /\
  match cut (current_state b) (current_focus b) e with
  | Some (s, f) =>
      exists m,
      n' = S m /\
      (o = None /\ current_record b = None /\ m = n \/
       exists r, current_record b = Some r /\ o = Some (close r (utc_now n)) /\ m = S n) /\
      current_state b' = s /\ current_focus b' = f /\
      next_record_id b' = u64_add (next_record_id b) 1 /\
      current_record b' = Some {|
        record_id := next_record_id b; run_id := None; start_time := utc_now m;
        end_time := None; state := s; focus_info := f;
        event_count := 0; triggering_events := [] |}
  | None => b' = b /\ n' = n /\ o = None
  end.
Proof.
  intros Hok. unfold on_hint, cut.
  destruct (env_kind e) as [|[]]; try done;
    destruct (env_payload e) as [?|?|fi|?|wid title|from to|]; try done.
  - unfold apply_focus_change, finalize_current; cbn.
    destruct (current_record b) as [r|]; cbn; (split; [done|]); eexists; eauto 10.
  - unfold transition_to, finalize_current. case_bool_decide as Hd; case_decide; try done.
    destruct (current_record b) as [r|]; cbn; (split; [done|]); eexists; eauto 10.
  - unfold apply_title_change, finalize_current.
    destruct (current_focus b) as [cf|] eqn:Hf; [|done].
    destruct (Z.eqb_spec (window_id cf) wid); case_decide; try done.
    pose proof (intern_text_text (string_interner b) title Hok) as Ht.
    pose proof (intern_text_ok (string_interner b) title Hok) as Hi.
    destruct (current_record b) as [r|]; cbn; rewrite Hf;
      destruct (intern_text (string_interner b) title) as [i t]; cbn in *; subst;
      (split; [done|]); eexists; eauto 10.
Qed.

Lemma build_segments b n l :
  ok (string_interner b) ->
  let r := build (b, n) l in
  map summary (r.2 ++ option_list (current_record r.1.1))
    = map summary (option_list (current_record b)) ++
      number (next_record_id b) (segments (current_state b) (current_focus b) l).
Proof.
  revert b n. induction l as [|e l IH]; intros b n Hok; cbn zeta; [cbn; by rewrite app_nil_r|].
  rewrite build_cons. pose proof (on_hint_cut b n e Hok) as Hc.
  destruct (on_hint b n e) as [[b' n'] o]. destruct Hc as [Hok' Hc].
  specialize (IH b' n' Hok'). cbn in IH.
  destruct (build (b', n') l) as [bn2 rs]. cbn in *.
  rewrite <- (assoc_L (++)), map_app, IH.
  destruct (cut (current_state b) (current_focus b) e) as [[s f]|].
  - destruct Hc as (m&->&Ho&->&->&->&->). cbn.
    destruct Ho as [(->&->&_)|(r&->&->&_)]; done.
  - destruct Hc as (->&->&->). done.
Qed.
End refinement.

(** ** The timeline *)
Section timeline.
Context (clock_mono : forall i j, (i <= j)%nat -> utc_now i <= utc_now j).
Context (ok : I -> Prop) `{!TitleInternerLaws I ok}.

(** [tiles t l]: closed records, each ending no earlier than it starts and
    starting no earlier than the previous one ended ([t] for the first). *)
Fixpoint tiles (t : instant) (l : list ActivityRecord) : Prop :=
  match l with
  | [] => True
  | r :: l' =>
      t <= start_time r /\
      exists e, end_time r = Some e /\ start_time r <= e /\ tiles e l'
  end.

(** The open record started at a reading already made, not before [t]. *)
Definition open_since (t : instant) (b : RecordBuilder) (n : nat) : Prop :=
  match current_record b with
  | Some r => t <= start_time r /\ end_time r = None /\
              exists k, (k < n)%nat /\ start_time r = utc_now k
  | None => forall k, (n <= k)%nat -> t <= utc_now k
  end.

Lemma tiles_finalize t b n :
  open_since t b n ->
  let '(b', n', o) := finalize_all b n in tiles t (option_list o).
Proof.
  unfold open_since, finalize_all, finalize_current. intros Ho.
  destruct (current_record b) as [r|]; cbn; [|done].
  destruct Ho as (?&?&k&?&Hk). split; [done|]. eexists. split; [done|].
  split; [|done]. rewrite Hk. apply clock_mono. lia.
Qed.

Lemma build_tiles t b n l :
  ok (string_interner b) -> open_since t b n ->
  let '(b', n', rs) := build (b, n) l in
  tiles t (rs ++ option_list (finalize_all b' n').2).
Proof.
  revert t b n. induction l as [|e l IH]; intros t b n Hok Ho.
  { cbn. pose proof (tiles_finalize t b n Ho) as Hf.
    destruct (finalize_all b n) as [[] ?]. apply Hf. }
  rewrite build_cons. pose proof (on_hint_cut ok b n e Hok) as Hc.
  destruct (on_hint b n e) as [[b' n'] o]. destruct Hc as [Hok' Hc].
  specialize (fun t => IH t b' n' Hok').
  destruct (build (b', n') l) as [[b2 n2] rs].
  destruct (cut (current_state b) (current_focus b) e) as [[s f]|].
  2: { destruct Hc as (->&->&->). by apply IH. }
  destruct Hc as (m&->&Hr&_&_&_&Hrec). unfold open_since in *.
  destruct Hr as [(->&Hn&->)|(r&Hr&->&->)].
  - rewrite Hn in Ho. cbn. apply IH. rewrite Hrec. cbn. split; [apply Ho; lia|]. eauto.
  - rewrite Hr in Ho. destruct Ho as (?&?&k&?&Hk). cbn.
    split; [done|]. eexists. split; [done|]. split; [rewrite Hk; apply clock_mono; lia|].
    apply IH. rewrite Hrec. cbn. split; [apply clock_mono; lia|]. eauto.
Qed.
End timeline.

(** ** Theorems *)

(** C8: fed any envelopes, a builder that starts without an open record produces
    one record per cutting hint (a focus change, a change of state, a new title of
    the focused window), with consecutive ids from [next], each showing the state
    and focus in force after that hint; all but the last are complete and the last
    one is the builder's open record. *)
Theorem build_refines_segments (ok : I -> Prop) `{!TitleInternerLaws I ok} s next i n l :
  ok i ->
  let r := build (with_next_record_id s next i, n) l in
  map summary (r.2 ++ option_list (current_record r.1.1)) = number next (segments s None l).
Proof. intros Hi. by apply (build_segments ok (with_next_record_id s next i) n l). Qed.

(** Under a clock that does not go back, the completed records together with
    the one [finalize_all] closes tile the time from the first reading on: each ends
    no earlier than it starts, and starts no earlier than the one before ended. *)
Theorem build_timeline (ok : I -> Prop) `{!TitleInternerLaws I ok} s next i n l :
  (forall j k, (j <= k)%nat -> utc_now j <= utc_now k) -> ok i ->
  let '(b', n', rs) := build (with_next_record_id s next i, n) l in
  tiles (utc_now n) (rs ++ option_list (finalize_all b' n').2).
Proof.
  intros Hm Hi. apply (build_tiles Hm ok); [done|]. intros k Hk. by apply Hm.
Qed.
End builder.

(** Two focus changes and a change of state, with the real interner. *)
Definition demo_focus_info (app : string) : WindowFocusInfo := {|
  pid := 7; process_start_time := 1; app_name := app; window_title := "t";
  window_id := 3; window_instance_start := 0;
  window_position := None; window_size := None |}.
Definition demo_hint (k : HintKind) (p : EventPayload) : EventEnvelope := {|
  env_id := 1; env_timestamp := 0; env_source := Hook; env_kind := Hint k;
  env_payload := p; env_derived := false; env_polling := false; env_sensitive := false |}.
Definition demo_hints : list EventEnvelope := [
  demo_hint FocusChanged (PFocus (demo_focus_info "a"));
  demo_hint StateChanged (PState Inactive Active);
  demo_hint TitleChanged (PTitle 3 "u");
  demo_hint TitleChanged (PTitle 9 "v")].
Definition demo_interner : StringInterner.StringInterner * StringInterner.arc_heap :=
  (StringInterner.new, {| StringInterner.arcs := ∅; StringInterner.next_addr := 0 |}).

Lemma demo_interner_ok : StringInterner.interner_ok demo_interner.1 demo_interner.2.
Proof.
  split; cbn.
  - intros s a. by rewrite lookup_empty.
  - intros a x. by rewrite lookup_empty.
  - rewrite map_size_empty. lia.
  - lia.
Qed.

Lemma build_refines_segments_witness :
  let r := build Z.of_nat (with_next_record_id Inactive 41 demo_interner, 0%nat) demo_hints in
  map (fun r => record_id r) r.2 = [41; 42] /\
  map summary (r.2 ++ option_list (current_record r.1.1))
    = number 41 (segments Inactive None demo_hints).
Proof.
  split; [reflexivity|].
  exact (build_refines_segments Z.of_nat (fun st => StringInterner.interner_ok st.1 st.2)
    Inactive 41 demo_interner 0 demo_hints demo_interner_ok).
Defined.

Lemma build_timeline_witness :
  let '(b', n', rs) := build Z.of_nat
    (with_next_record_id Inactive 0 demo_interner, 0%nat) demo_hints in
  tiles 0 (rs ++ option_list (finalize_all Z.of_nat b' n').2).
Proof.
  refine (build_timeline Z.of_nat (fun st => StringInterner.interner_ok st.1 st.2)
    Inactive 0 demo_interner 0 demo_hints _ demo_interner_ok).
  intros j k Hjk. lia.
Defined.
