(* ===== verification/Aggregation.v ===== *)
(** Aggregation of records into applications, windows and groups:
    [aggregate_activities_since] of [crates/core/src/records.rs].

    A first pass adds every record to its application and window; then, per
    application, short-lived windows of one title become ephemeral groups, windows of
    one title seen close together temporal groups, and the rest is trimmed to the
    most recent.  Every iteration of a hash table is in an unspecified order. *)
From S2P Require Import Prelude Events Records.

Record WindowActivity := {
  wa_window_id : Z;
  wa_window_title : string;
  wa_duration_seconds : Z;
  wa_first_seen : instant;
  wa_last_seen : instant;
  wa_record_count : Z
}.

Record EphemeralGroup := {
  eg_title_key : string;
  eg_distinct_ids : gset Z;
  eg_occurrence_count : Z;
  eg_total_duration_seconds : Z;
  eg_first_seen : instant;
  eg_last_seen : instant
}.

Record TemporalGroup := {
  tg_title_key : string;
  tg_distinct_ids : gset Z;
  tg_occurrence_count : Z;
  tg_total_duration_seconds : Z;
  tg_max_duration_seconds : Z;
  tg_first_seen : instant;
  tg_last_seen : instant;
  tg_anchor_last_seen : instant
}.

Record AggregatedActivity := {
  aa_app_name : string;
  aa_pid : Z;
  aa_process_start_time : Z;
  aa_windows : gmap Z WindowActivity;
  aa_ephemeral_groups : gmap string EphemeralGroup;
  aa_temporal_groups : list TemporalGroup;
  aa_total_duration_seconds : Z;
  aa_first_seen : instant;
  aa_last_seen : instant
}.

Definition set_windows (a : AggregatedActivity) (w : gmap Z WindowActivity)
    (e : gmap string EphemeralGroup) (t : list TemporalGroup) : AggregatedActivity := {|
  aa_app_name := aa_app_name a; aa_pid := aa_pid a;
  aa_process_start_time := aa_process_start_time a;
  aa_windows := w; aa_ephemeral_groups := e; aa_temporal_groups := t;
  aa_total_duration_seconds := aa_total_duration_seconds a;
  aa_first_seen := aa_first_seen a; aa_last_seen := aa_last_seen a |}.

Abbreviation app_map := (gmap (Z * Z) AggregatedActivity) (only parsing).

(** A window with its id, as the code pairs them. *)
Abbreviation item := (Z * WindowActivity)%type (only parsing).

Section aggregation.
Context `{Chrono} `{HashOrder} `{UnicodeText}.

Definition normalize_title (s : string) : string := str_to_lowercase (str_trim s).

(** ** First pass *)

(** The part of a record inside the window of interest: its application key,
    clipped start and end, and whole seconds; [None] for a record that is
    skipped. *)
Definition contribution (since now : instant) (record : ActivityRecord)
    : option (Z * Z * WindowFocusInfo * instant * instant * Z) :=
  match focus_info record with
  | Some f =>
      let app_key := (uw 32 (pid f), process_start_time f) in
      let rec_start := Z.max (start_time record) since in
      let rec_end := default now (end_time record) in
      if rec_end <=? since then None
      else
        let dur := num_seconds (rec_end - rec_start) in
        if dur <=? 0 then None
        else Some (app_key, f, rec_start, rec_end, uw 64 dur)
  | None => None
  end.

Definition add_window (ws : gmap Z WindowActivity) (f : WindowFocusInfo)
    (rec_start rec_end : instant) (duration : Z) : gmap Z WindowActivity :=
  if negb (bool_decide (window_title f = "")) && (0 <? window_id f) then
    let w := default {|
        wa_window_id := window_id f; wa_window_title := window_title f;
        wa_duration_seconds := 0; wa_first_seen := rec_start;
        wa_last_seen := rec_end; wa_record_count := 0 |} (ws !! window_id f) in
    <[window_id f := {|
        wa_window_id := wa_window_id w; wa_window_title := window_title f;
        wa_duration_seconds := u64_add (wa_duration_seconds w) duration;
        wa_first_seen := Z.min (wa_first_seen w) rec_start;
        wa_last_seen := Z.max (wa_last_seen w) rec_end;
        wa_record_count := u32_add (wa_record_count w) 1 |}]> ws
  else ws.

Definition add_record (since now : instant) (m : app_map) (record : ActivityRecord)
    : app_map :=
  match contribution since now record with
  | None => m
  | Some (app_key, f, rec_start, rec_end, duration) =>
      let a := default {|
          aa_app_name := app_name f; aa_pid := pid f;
          aa_process_start_time := process_start_time f;
          aa_windows := ∅; aa_ephemeral_groups := ∅; aa_temporal_groups := [];
          aa_total_duration_seconds := 0; aa_first_seen := rec_start;
          aa_last_seen := rec_end |} (m !! app_key) in
      <[app_key := {|
          aa_app_name := aa_app_name a; aa_pid := aa_pid a;
          aa_process_start_time := aa_process_start_time a;
          aa_windows := add_window (aa_windows a) f rec_start rec_end duration;
          aa_ephemeral_groups := aa_ephemeral_groups a;
          aa_temporal_groups := aa_temporal_groups a;
          aa_total_duration_seconds := u64_add (aa_total_duration_seconds a) duration;
          aa_first_seen := Z.min (aa_first_seen a) rec_start;
          aa_last_seen := Z.max (aa_last_seen a) rec_end |}]> m
  end.

Definition collect_apps (since now : instant) (records : list ActivityRecord) : app_map :=
  foldl (add_record since now) ∅ records.

(** ** Ephemeral groups *)

Definition stage_window (thresh : Z)
    (acc : gmap string EphemeralGroup * gmap string (list Z)) (iw : item)
    : gmap string EphemeralGroup * gmap string (list Z) :=
  let '(staged, group_members) := acc in
  let '(id, w) := iw in
  if wa_duration_seconds w <? thresh then
    let title_key := normalize_title (wa_window_title w) in
    let g := default {|
        eg_title_key := title_key; eg_distinct_ids := ∅; eg_occurrence_count := 0;
        eg_total_duration_seconds := 0; eg_first_seen := wa_first_seen w;
        eg_last_seen := wa_last_seen w |} (staged !! title_key) in
    (<[title_key := {|
        eg_title_key := eg_title_key g;
        eg_distinct_ids := {[id]} ∪ eg_distinct_ids g;
        eg_occurrence_count := u32_add (eg_occurrence_count g) 1;
        eg_total_duration_seconds :=
          u64_add (eg_total_duration_seconds g) (wa_duration_seconds w);
        eg_first_seen := Z.min (eg_first_seen g) (wa_first_seen w);
        eg_last_seen := Z.max (eg_last_seen g) (wa_last_seen w) |}]> staged,
     <[title_key := default [] (group_members !! title_key) ++ [id]]> group_members)
  else acc.

Definition stage_windows (thresh : Z) (ws : gmap Z WindowActivity) :=
  foldl (stage_window thresh) (∅, ∅) (hash_order (map_to_list ws)).

Definition keep_group (min_distinct : Z) (members : gmap string (list Z))
    (acc : gmap string EphemeralGroup * gmap Z WindowActivity)
    (tg : string * EphemeralGroup) :=
  let '(groups, ws) := acc in
  let '(title_key, group) := tg in
  if min_distinct <=? Z.of_nat (size (eg_distinct_ids group)) then
    (<[title_key := group]> groups,
     match members !! title_key with
     | Some ids => delete_keys ws ids
     | None => ws
     end)
  else acc.

Definition ephemeral_pass (thresh min_distinct : Z) (a : AggregatedActivity)
    : AggregatedActivity :=
  let '(staged, members) := stage_windows thresh (aa_windows a) in
  let '(groups, ws) :=
    foldl (keep_group min_distinct members) (aa_ephemeral_groups a, aa_windows a)
      (hash_order (map_to_list staged)) in
  set_windows a ws groups (aa_temporal_groups a).

(** ** Temporal groups *)

(** [windows[0]] panics on an empty slice: [None]. *)
Definition build_temporal_group (title_key : string) (windows : list item)
    : option TemporalGroup :=
  match windows with
  | [] => None
  | (_, w0) :: _ =>
      let distinct_ids : gset Z := list_to_set (map fst windows) in
      let total := foldl (fun t (iw : item) => usat_add 64 t (wa_duration_seconds iw.2))
                     0 windows in
      let max_duration := foldl (fun t (iw : item) => Z.max t (wa_duration_seconds iw.2))
                            0 windows in
      let first_seen := foldl (fun t (iw : item) =>
          if wa_first_seen iw.2 <? t then wa_first_seen iw.2 else t)
          (wa_first_seen w0) windows in
      let last_seen := foldl (fun t (iw : item) =>
          if t <? wa_last_seen iw.2 then wa_last_seen iw.2 else t)
          (wa_last_seen w0) windows in
      Some {|
        tg_title_key := title_key; tg_distinct_ids := distinct_ids;
        tg_occurrence_count := uw 32 (Z.of_nat (size distinct_ids));
        tg_total_duration_seconds := total; tg_max_duration_seconds := max_duration;
        tg_first_seen := first_seen; tg_last_seen := last_seen;
        tg_anchor_last_seen := last_seen |}
  end.

(** [grouped_ids] and [temporal_clusters], extended by a finished cluster. *)
Definition flush_cluster (title_key : string) (current : list item)
    (acc : gset Z * list TemporalGroup) : gset Z * list TemporalGroup :=
  if (2 <=? Z.of_nat (length current)) then
    (acc.1 ∪ list_to_set (map fst current),
     acc.2 ++ option_list (build_temporal_group title_key current))
  else acc.

(** The loop over one title's windows, the most recent first; [current] and
    [prev_last_seen] are its locals. *)
Fixpoint cluster_loop (title_key : string) (items current : list item)
    (prev_last_seen : instant) (acc : gset Z * list TemporalGroup)
    : gset Z * list TemporalGroup :=
  match items with
  | [] => flush_cluster title_key current acc
  | (win_id, win) :: items' =>
      match current with
      | [] => cluster_loop title_key items' [(win_id, win)] (wa_last_seen win) acc
      | _ =>
          if prev_last_seen - wa_last_seen win <=? minutes 60 then
            cluster_loop title_key items' (current ++ [(win_id, win)])
              (wa_last_seen win) acc
          else
            cluster_loop title_key items' [(win_id, win)] (wa_last_seen win)
              (flush_cluster title_key current acc)
      end
  end.

Definition cluster_title (acc : gset Z * list TemporalGroup)
    (ti : string * list item) : gset Z * list TemporalGroup :=
  let '(title_key, items) := ti in
  if Z.of_nat (length items) <? 2 then acc
  else cluster_loop title_key (sort_desc (fun iw : item => wa_last_seen iw.2) items)
         [] 0 acc.

Definition by_title_step (m : gmap string (list item)) (iw : item) :=
  let title_key := normalize_title (wa_window_title iw.2) in
  <[title_key := default [] (m !! title_key) ++ [iw]]> m.

Definition temporal_pass (a : AggregatedActivity) : AggregatedActivity :=
  let by_title := foldl by_title_step ∅ (hash_order (map_to_list (aa_windows a))) in
  let '(grouped_ids, temporal_clusters) :=
    foldl cluster_title (∅, []) (hash_order (map_to_list by_title)) in
  let ws := delete_keys (aa_windows a) (hash_order (elements grouped_ids)) in
  set_windows a ws (aa_ephemeral_groups a) temporal_clusters.

(** ** Trim *)
Definition trim_pass (max_windows : Z) (a : AggregatedActivity) : AggregatedActivity :=
  if (0 <? max_windows) && (max_windows <? Z.of_nat (size (aa_windows a))) then
    let win_vec := sort_desc (fun iw : item => wa_last_seen iw.2)
                     (hash_order (map_to_list (aa_windows a))) in
    set_windows a (list_to_map (take (Z.to_nat max_windows) win_vec))
      (aa_ephemeral_groups a) (aa_temporal_groups a)
  else a.

Definition finish_app (thresh min_distinct max_windows : Z) (a : AggregatedActivity)
    : AggregatedActivity :=
  trim_pass max_windows (temporal_pass (ephemeral_pass thresh min_distinct a)).

Definition aggregate_activities_since (records : list ActivityRecord)
    (since now : instant) (thresh min_distinct max_windows : Z)
    : list AggregatedActivity :=
  let apps := fmap (finish_app thresh min_distinct max_windows)
                (collect_apps since now records) in
  sort_desc aa_last_seen (hash_order (map snd (map_to_list apps))).

(** ** Lemmas: first pass *)

Definition aa_key (a : AggregatedActivity) : Z * Z :=
  (uw 32 (aa_pid a), aa_process_start_time a).

(** The contributions of a key: clipped start, end, seconds. *)
Definition contributions (since now : instant) (k : Z * Z) (l : list ActivityRecord)
    : list (instant * instant * Z) :=
  omap (fun r =>
    match contribution since now r with
    | Some (k', _, s, e, d) => if decide (k' = k) then Some (s, e, d) else None
    | None => None
    end) l.

(** [a] sums up the contributions [cs]. *)
Definition sums_up (a : AggregatedActivity) (cs : list (instant * instant * Z)) : Prop :=
  aa_total_duration_seconds a = uw 64 (zsum (map snd cs)) /\
  Forall (fun c => aa_first_seen a <= c.1.1 /\ c.1.2 <= aa_last_seen a) cs /\
  (exists c, c ∈ cs /\ c.1.1 = aa_first_seen a) /\
  (exists c, c ∈ cs /\ c.1.2 = aa_last_seen a).

Lemma contribution_key since now r k f s e d :
  contribution since now r = Some (k, f, s, e, d) ->
  k = (uw 32 (pid f), process_start_time f).
Proof. unfold contribution. intros. split_matches; done. Qed.

Lemma contributions_snoc since now k l r :
  contributions since now k (l ++ [r]) =
    contributions since now k l ++
    match contribution since now r with
    | Some (k', _, s, e, d) => if decide (k' = k) then [(s, e, d)] else []
    | None => []
    end.
Proof.
  unfold contributions. rewrite omap_app. f_equal. cbn.
  destruct (contribution since now r) as [[[[[k' f] s] e] d]|]; [|done].
  by destruct (decide (k' = k)).
Qed.

Lemma sums_up_first k f s e d :
  k = (uw 32 (pid f), process_start_time f) ->
  forall a, aa_total_duration_seconds a = u64_add 0 d ->
  aa_first_seen a = s -> aa_last_seen a = e -> sums_up a [(s, e, d)].
Proof.
  intros _ a Ht Hf Hl. unfold sums_up. cbn. rewrite Ht, Hf, Hl.
  split; [unfold u64_add; f_equal; lia|]. split; [by repeat constructor|].
  split; eexists; (split; [by left|done]).
Qed.

Lemma sums_up_snoc a cs s e d b :
  sums_up a cs ->
  aa_total_duration_seconds b = u64_add (aa_total_duration_seconds a) d ->
  aa_first_seen b = Z.min (aa_first_seen a) s ->
  aa_last_seen b = Z.max (aa_last_seen a) e -> sums_up b (cs ++ [(s, e, d)]).
Proof.
  intros (Ht&Hall&(c1&Hc1&He1)&(c2&Hc2&He2)) Hbt Hbf Hbl. unfold sums_up.
  rewrite Hbt, Hbf, Hbl. split; [|split; [|split]].
  - rewrite Ht, map_app, zsum_app. unfold u64_add. rewrite uw_add_l. cbn. f_equal. lia.
  - apply Forall_app. split; [|repeat constructor; cbn; lia].
    eapply Forall_impl; [done|]. cbn. lia.
  - destruct (Z.min_spec (aa_first_seen a) s) as [[_ ->]|[_ ->]]; [exists c1|exists (s, e, d)];
      (split; [apply elem_of_app|done]); [by left|right; by left].
  - destruct (Z.max_spec (aa_last_seen a) e) as [[_ ->]|[_ ->]]; [exists (s, e, d)|exists c2];
      (split; [apply elem_of_app|done]); [right; by left|by left].
Qed.

Lemma collect_spec since now l k :
  match collect_apps since now l !! k with
  | Some a => aa_key a = k /\ aa_ephemeral_groups a = ∅ /\
              sums_up a (contributions since now k l)
  | None => contributions since now k l = []
  end.
Proof.
  induction l as [|r l IH] using rev_ind; [done|].
  unfold collect_apps in *. rewrite foldl_app, contributions_snoc. cbn [foldl].
  unfold add_record at 1.
  destruct (contribution since now r) as [[[[[k' f] s] e] d]|] eqn:Hc;
    [|by rewrite app_nil_r].
  pose proof (contribution_key _ _ _ _ _ _ _ _ Hc) as Hk'.
  destruct (decide (k' = k)) as [->|Hne].
  2: { rewrite lookup_insert_ne, app_nil_r by done. apply IH. }
  rewrite lookup_insert_eq.
  destruct (foldl (add_record since now) ∅ l !! k) as [a|]; cbn [default from_option].
  - destruct IH as (Hk&He&Hs). split; [done|]. split; [done|].
    by eapply sums_up_snoc.
  - rewrite IH. split; [done|]. split; [done|].
    eapply sums_up_first; [done|reflexivity| |]; cbn; lia.
Qed.

Lemma finish_app_same thresh min_distinct max_windows a :
  let r := finish_app thresh min_distinct max_windows a in
  aa_key r = aa_key a /\ aa_total_duration_seconds r = aa_total_duration_seconds a /\
  aa_first_seen r = aa_first_seen a /\ aa_last_seen r = aa_last_seen a.
Proof.
  unfold finish_app, trim_pass, temporal_pass, ephemeral_pass, aa_key.
  destruct (stage_windows thresh (aa_windows a)) as [st mem].
  destruct (foldl (keep_group min_distinct mem) _ _) as [gs ws]. cbn.
  destruct (foldl cluster_title _ _) as [ids cl]. cbn. by split_matches.
Qed.

(** ** Lemmas: ephemeral groups *)

Definition title_of (w : WindowActivity) : string := normalize_title (wa_window_title w).

(** The ids of the short-lived windows of title [t]. *)
Definition short_ids (thresh : Z) (t : string) (l : list item) : list Z :=
  map fst (filter (fun iw : item =>
    wa_duration_seconds iw.2 < thresh /\ title_of iw.2 = t) l).

Lemma short_ids_snoc thresh t l (iw : item) :
  short_ids thresh t (l ++ [iw]) = short_ids thresh t l ++
    if decide (wa_duration_seconds iw.2 < thresh /\ title_of iw.2 = t) then [iw.1] else [].
Proof.
  unfold short_ids. rewrite filter_app, map_app. f_equal. cbn. by case_decide.
Qed.

Lemma elem_of_short_ids thresh t l id :
  id ∈ short_ids thresh t l <->
  exists w, (id, w) ∈ l /\ wa_duration_seconds w < thresh /\ title_of w = t.
Proof.
  unfold short_ids. rewrite list_elem_of_fmap. split.
  - intros ([i w]&->&[Hp Hin]%list_elem_of_filter). cbn in *. eauto.
  - intros (w&Hin&Hp). exists (id, w). split; [done|]. by apply list_elem_of_filter.
Qed.

(** The staged groups and their members after the windows [l]. *)
Definition staged_ok (thresh : Z) (l : list item)
    (acc : gmap string EphemeralGroup * gmap string (list Z)) : Prop :=
  forall t,
    default [] (acc.2 !! t) = short_ids thresh t l /\
    match acc.1 !! t with
    | Some g => eg_distinct_ids g = list_to_set (short_ids thresh t l)
    | None => short_ids thresh t l = []
    end.

Lemma stage_windows_ok thresh l :
  staged_ok thresh l (foldl (stage_window thresh) (∅, ∅) l).
Proof.
  induction l as [|[id w] l IH] using rev_ind; [done|].
  rewrite foldl_app. cbn [foldl].
  destruct (foldl (stage_window thresh) (∅, ∅) l) as [st mem].
  intros t. destruct (IH t) as [Hl1 Hl2]. rewrite short_ids_snoc. cbn [stage_window fst snd] in *.
  fold (title_of w).
  destruct (Z.ltb_spec (wa_duration_seconds w) thresh) as [Hlt|Hge]; cbn [fst snd].
  2: { rewrite decide_False, app_nil_r by lia. done. }
  destruct (decide (title_of w = t)) as [<-|Hne].
  - rewrite decide_True, !lookup_insert_eq by done. cbn. rewrite Hl1. split; [done|].
    rewrite list_to_set_app_L. cbn. destruct (st !! title_of w) as [g|]; cbn.
    + rewrite Hl2. set_solver.
    + rewrite Hl2. set_solver.
  - rewrite decide_False, app_nil_r by tauto. by rewrite !lookup_insert_ne.
Qed.

Lemma keep_group_spec min_distinct members ws0 l :
  NoDup (map fst l) ->
  let r := foldl (keep_group min_distinct members) (∅, ws0) l in
  (forall t g, r.1 !! t = Some g <->
     (t, g) ∈ l /\ min_distinct <= Z.of_nat (size (eg_distinct_ids g))) /\
  (forall id w, r.2 !! id = Some w <->
     ws0 !! id = Some w /\
     forall t g, (t, g) ∈ l -> min_distinct <= Z.of_nat (size (eg_distinct_ids g)) ->
       id ∉ default [] (members !! t)).
Proof.
  induction l as [|[t0 g0] l IH] using rev_ind; intros Hnd; cbn zeta.
  { split; cbn; intros.
    - rewrite lookup_empty. split; [done|]. by intros [?%elem_of_nil _].
    - split; [|by intros [? _]]. intros ?. split; [done|]. by intros ?? ?%elem_of_nil. }
  rewrite map_app in Hnd. apply NoDup_app in Hnd as (Hnd&Hdis&_).
  rewrite foldl_app. cbn [foldl]. destruct (IH Hnd) as [Hl1 Hl2].
  destruct (foldl (keep_group min_distinct members) (∅, ws0) l) as [gs ws].
  cbn [fst snd keep_group] in *.
  destruct (Z.leb_spec min_distinct (Z.of_nat (size (eg_distinct_ids g0)))) as [Hle|Hgt];
    cbn [fst snd].
  - split.
    + intros t g. rewrite lookup_insert_Some, Hl1, elem_of_app, list_elem_of_singleton.
      split; [naive_solver|]. intros [[Hin|[= -> ->]] Hm]; [|by left]. right.
      split; [|done]. intros <-. apply (Hdis t0); [by apply (list_elem_of_fmap_2 fst _ _ Hin)|].
      by left.
    + intros id w. transitivity (ws !! id = Some w /\ id ∉ default [] (members !! t0)).
      { destruct (members !! t0) as [ids|]; cbn; [apply delete_keys_Some|].
        split; [intros ?; split; [done|apply not_elem_of_nil]|by intros [? _]]. }
      rewrite Hl2. setoid_rewrite elem_of_app. setoid_rewrite list_elem_of_singleton.
      naive_solver.
  - split.
    + intros t g. rewrite Hl1, elem_of_app, list_elem_of_singleton.
      split; [naive_solver|]. intros [[Hin|[= -> ->]] Hm]; [done|lia].
    + intros id w. rewrite Hl2. setoid_rewrite elem_of_app.
      setoid_rewrite list_elem_of_singleton. split; [|naive_solver].
      intros [Hw Hall]. split; [done|]. intros t g [Hin|[= -> ->]] Hm; [eauto|lia].
Qed.

(** A window of [ws] is short-lived with title [t]. *)
Definition short_lived (thresh : Z) (ws : gmap Z WindowActivity) (t : string) (id : Z) : Prop :=
  exists w, ws !! id = Some w /\ wa_duration_seconds w < thresh /\ title_of w = t.

Lemma ephemeral_pass_spec thresh min_distinct a :
  aa_ephemeral_groups a = ∅ ->
  let r := ephemeral_pass thresh min_distinct a in
  (forall t g, aa_ephemeral_groups r !! t = Some g ->
     min_distinct <= Z.of_nat (size (eg_distinct_ids g)) /\
     forall id, id ∈ eg_distinct_ids g <-> short_lived thresh (aa_windows a) t id) /\
  (forall id w, aa_windows r !! id = Some w <->
     aa_windows a !! id = Some w /\
     ~ exists t g, aa_ephemeral_groups r !! t = Some g /\ id ∈ eg_distinct_ids g) /\
  aa_temporal_groups r = aa_temporal_groups a.
Proof.
  intros Hemp. unfold ephemeral_pass, stage_windows.
  set (l := hash_order (map_to_list (aa_windows a))).
  pose proof (stage_windows_ok thresh l) as Hst.
  destruct (foldl (stage_window thresh) (∅, ∅) l) as [st mem]. unfold staged_ok in Hst.
  cbn [fst snd] in Hst. rewrite Hemp.
  destruct (keep_group_spec min_distinct mem (aa_windows a) (hash_order (map_to_list st))
    (hash_map_NoDup st)) as [Hl1 Hl2].
  destruct (foldl (keep_group min_distinct mem) _ _) as [gs ws]. cbn [fst snd] in *. cbn.
  setoid_rewrite hash_map_elem in Hl1. setoid_rewrite hash_map_elem in Hl2.
  assert (forall t id, id ∈ short_ids thresh t l <-> short_lived thresh (aa_windows a) t id)
    as Hshort.
  { intros t id. rewrite elem_of_short_ids. unfold l. by setoid_rewrite hash_map_elem. }
  assert (forall t g id, st !! t = Some g ->
    (id ∈ eg_distinct_ids g <-> id ∈ default [] (mem !! t))) as Hmem.
  { intros t g id Ht. destruct (Hst t) as [Hm Hg]. rewrite Ht in Hg.
    by rewrite Hg, Hm, elem_of_list_to_set. }
  split; [|split; [|done]].
  - intros t g [Hs Hm]%Hl1. split; [done|]. intros id.
    rewrite (Hmem t g id Hs), (proj1 (Hst t)). apply Hshort.
  - intros id w. rewrite Hl2. apply and_iff_compat_l. split.
    + intros Hall (t&g&[Hs Hm]%Hl1&Hid). apply (Hall t g Hs Hm). by apply (Hmem t g).
    + intros Hno t g Hs Hm Hid. apply Hno. exists t, g. split; [by apply Hl1|].
      by apply (Hmem t g).
Qed.

(** ** Lemmas: temporal groups *)

(** A window continues a cluster when it was last seen at most an hour before its
    predecessor. *)
Definition close_to (x y : item) : bool :=
  wa_last_seen x.2 - wa_last_seen y.2 <=? minutes 60.

Lemma cluster_loop_runs t items current prev acc :
  current <> [] ->
  cluster_loop t items current (wa_last_seen prev.2) acc
    = foldl (fun acc run => flush_cluster t run acc) acc
        (join_run close_to current prev (runs_by close_to items)).
Proof.
  revert current prev acc. induction items as [|[id w] items IH]; intros current prev acc Hc;
    [done|].
  rewrite join_run_step. cbn [cluster_loop]. destruct current as [|c cs]; [done|].
  unfold close_to at 1. cbn [snd].
  destruct (wa_last_seen prev.2 - wa_last_seen w <=? minutes 60); cbn [foldl];
    by apply (IH _ (id, w)).
Qed.

(** The clusters of one title: its runs of at least two windows. *)
Definition big_runs (items : list item) : list (list item) :=
  filter (fun run => (2 <= length run)%nat)
    (runs_by close_to (sort_desc (fun iw : item => wa_last_seen iw.2) items)).

Definition run_ids (run : list item) : list Z := map fst run.

Lemma omap_cons_app {A B} (f : A -> option B) x l :
  omap f (x :: l) = option_list (f x) ++ omap f l.
Proof. cbn. by destruct (f x). Qed.

Lemma flush_runs t runs acc :
  foldl (fun acc run => flush_cluster t run acc) acc runs =
    let big := filter (fun run => (2 <= length run)%nat) runs in
    (acc.1 ∪ list_to_set (big ≫= run_ids), acc.2 ++ omap (build_temporal_group t) big).
Proof.
  revert acc. induction runs as [|run runs IH]; intros [ids gs]; cbn [foldl].
  { cbn. rewrite app_nil_r. f_equal. set_solver. }
  rewrite IH. unfold flush_cluster. rewrite filter_cons.
  destruct (Z.leb_spec 2 (Z.of_nat (length run))); case_decide; try lia; [|done].
  cbn [fst snd]. cbn zeta. cbn [mbind list_bind].
  rewrite list_to_set_app_L, omap_cons_app, <- (assoc_L (++)). f_equal. set_solver.
Qed.

Lemma cluster_title_runs acc t items :
  cluster_title acc (t, items) =
    (acc.1 ∪ list_to_set (big_runs items ≫= run_ids),
     acc.2 ++ omap (build_temporal_group t) (big_runs items)).
Proof.
  unfold cluster_title, big_runs. destruct acc as [ids gs].
  pose proof (sort_by_length (fun a b : item => wa_last_seen b.2 <=? wa_last_seen a.2) items)
    as Hlen. fold (sort_desc (fun iw : item => wa_last_seen iw.2) items) in Hlen.
  destruct (Z.ltb_spec (Z.of_nat (length items)) 2) as [Hlt|Hge].
  - set (l := sort_desc _ items) in *.
    assert (filter (fun run => (2 <= length run)%nat) (runs_by close_to l) = []) as ->.
    { destruct l as [|x [|y l']]; [done|done|cbn in Hlen; lia]. }
    cbn. rewrite app_nil_r. f_equal. set_solver.
  - destruct (sort_desc _ items) as [|[id w] l]; [cbn in Hlen; lia|]. cbn [cluster_loop].
    rewrite (cluster_loop_runs _ _ _ (id, w)), flush_runs by done. by rewrite runs_by_cons.
Qed.

(** All clusters, each with its title, in the order they are found. *)
Definition clusters (groups : list (string * list item)) : list (string * list item) :=
  groups ≫= fun ti => map (pair ti.1) (big_runs ti.2).

Definition cluster_ids (c : string * list item) : list Z := run_ids c.2.

Lemma cluster_titles_runs groups acc :
  foldl cluster_title acc groups =
    (acc.1 ∪ list_to_set (clusters groups ≫= cluster_ids),
     acc.2 ++ omap (fun c => build_temporal_group c.1 c.2) (clusters groups)).
Proof.
  revert acc. induction groups as [|[t items] groups IH]; intros [ids gs]; cbn [foldl].
  { cbn. rewrite app_nil_r. f_equal. set_solver. }
  rewrite IH, cluster_title_runs. unfold clusters. cbn [mbind list_bind fst snd].
  rewrite bind_app, omap_app, <- (assoc_L (++)).
  assert (map (pair t) (big_runs items) ≫= cluster_ids = big_runs items ≫= run_ids) as ->.
  { induction (big_runs items) as [|r rs IHr]; [done|]. cbn. by rewrite IHr. }
  assert (omap (fun c => build_temporal_group c.1 c.2) (map (pair t) (big_runs items))
    = omap (build_temporal_group t) (big_runs items)) as ->.
  { induction (big_runs items) as [|r rs IHr]; [done|]. cbn. by rewrite IHr. }
  rewrite list_to_set_app_L. f_equal. set_solver.
Qed.

(** The windows by title. *)
Lemma by_title_ok l t :
  foldl by_title_step ∅ l !! t =
    let s := filter (fun iw : item => title_of iw.2 = t) l in
    match s with [] => None | _ => Some s end.
Proof.
  induction l as [|iw l IH] using rev_ind; [done|].
  rewrite foldl_app, filter_app. cbn [foldl]. unfold by_title_step at 1.
  fold (title_of iw.2). rewrite filter_cons, filter_nil.
  destruct (decide (title_of iw.2 = t)) as [<-|Hne].
  - rewrite lookup_insert_eq, IH. cbn zeta.
    by destruct (filter _ l).
  - rewrite lookup_insert_ne, app_nil_r by done. apply IH.
Qed.

Lemma big_runs_sub items run : run ∈ big_runs items ->
  (2 <= length run)%nat /\ forall x, x ∈ run -> x ∈ items.
Proof.
  unfold big_runs. intros [Hl Hin]%list_elem_of_filter. split; [done|].
  intros x Hx. rewrite <- (sort_desc_perm (fun iw : item => wa_last_seen iw.2) items).
  rewrite <- (runs_by_concat close_to (sort_desc _ items)).
  apply list_elem_of_In, in_concat. exists run. by rewrite <- !list_elem_of_In.
Qed.

Lemma big_runs_NoDup items :
  NoDup (map fst items) -> NoDup (big_runs items ≫= run_ids).
Proof.
  intros Hnd. assert (big_runs items ≫= run_ids = map fst (concat (big_runs items))) as ->.
  { induction (big_runs items) as [|r rs IH]; [done|]. cbn. by rewrite IH, map_app. }
  eapply sublist_NoDup; [|apply fmap_sublist, concat_filter_sublist].
  rewrite runs_by_concat.
  by rewrite (sort_desc_perm (fun iw : item => wa_last_seen iw.2) items).
Qed.

(** The windows of an application by title, in the order they are visited. *)
Definition title_groups (ws : gmap Z WindowActivity) : list (string * list item) :=
  hash_order (map_to_list (foldl by_title_step ∅ (hash_order (map_to_list ws)))).

Lemma title_groups_elem ws t items :
  (t, items) ∈ title_groups ws ->
  items = filter (fun iw : item => title_of iw.2 = t) (hash_order (map_to_list ws)).
Proof.
  unfold title_groups. rewrite hash_map_elem, by_title_ok.
  cbn zeta. destruct (filter _ _); [done|]. by intros [= <-].
Qed.

Lemma clusters_elem ws c :
  c ∈ clusters (title_groups ws) ->
  (2 <= length c.2)%nat /\
  (forall id w, (id, w) ∈ c.2 -> ws !! id = Some w /\ title_of w = c.1).
Proof.
  unfold clusters. intros ([t items]&Hc&Hin)%list_elem_of_bind.
  apply list_elem_of_fmap in Hc as (run&->&Hrun). cbn [fst snd] in *.
  apply big_runs_sub in Hrun as [Hlen Hsub]. split; [done|].
  intros id w Hw%Hsub. apply title_groups_elem in Hin. subst items.
  apply list_elem_of_filter in Hw as [Ht Hw]. by apply hash_map_elem in Hw.
Qed.

Lemma clusters_NoDup ws : NoDup (clusters (title_groups ws) ≫= cluster_ids).
Proof.
  assert (clusters (title_groups ws) ≫= cluster_ids
    = title_groups ws ≫= fun ti => big_runs ti.2 ≫= run_ids) as ->.
  { unfold clusters. induction (title_groups ws) as [|[t items] l IH]; [done|].
    cbn [mbind list_bind fst snd]. rewrite bind_app, IH. f_equal.
    induction (big_runs items) as [|r rs IHr]; [done|]. cbn. by rewrite IHr. }
  assert (forall t items id, (t, items) ∈ title_groups ws ->
    id ∈ big_runs items ≫= run_ids -> exists w, ws !! id = Some w /\ title_of w = t)
    as Htitle.
  { intros t items id Hin (run&Hid&Hrun)%list_elem_of_bind.
    apply list_elem_of_fmap in Hid as ([i w]&->&Hw).
    apply big_runs_sub in Hrun as [_ Hsub]. apply Hsub in Hw.
    apply title_groups_elem in Hin. subst items.
    apply list_elem_of_filter in Hw as [Ht Hw]. apply hash_map_elem in Hw. eauto. }
  apply NoDup_bind.
  - intros [t1 i1] [t2 i2] id Hin1 Hin2 Hid1 Hid2. cbn in *.
    destruct (Htitle t1 i1 id Hin1 Hid1) as (w1&?&?), (Htitle t2 i2 id Hin2 Hid2) as (w2&?&?).
    assert (t1 = t2) as <- by congruence. f_equal.
    by rewrite (title_groups_elem _ _ _ Hin1), (title_groups_elem _ _ _ Hin2).
  - intros [t items] Hin. cbn. apply big_runs_NoDup.
    rewrite (title_groups_elem _ _ _ Hin).
    eapply sublist_NoDup; [|apply fmap_sublist, sublist_filter].
    apply hash_map_NoDup.
  - unfold title_groups. eapply NoDup_fmap_1, hash_map_NoDup.
Qed.

Lemma build_temporal_group_ids t run g :
  build_temporal_group t run = Some g ->
  tg_title_key g = t /\ tg_distinct_ids g = list_to_set (run_ids run).
Proof. unfold build_temporal_group. destruct run as [|[id w] run]; [done|]. by intros [= <-]. Qed.

Lemma temporal_pass_spec a :
  let r := temporal_pass a in
  (forall i g, aa_temporal_groups r !! i = Some g ->
     (2 <= size (tg_distinct_ids g))%nat /\
     forall id, id ∈ tg_distinct_ids g ->
       exists w, aa_windows a !! id = Some w /\ title_of w = tg_title_key g) /\
  (forall id w, aa_windows r !! id = Some w <->
     aa_windows a !! id = Some w /\
     ~ exists i g, aa_temporal_groups r !! i = Some g /\ id ∈ tg_distinct_ids g) /\
  (forall i j gi gj id, aa_temporal_groups r !! i = Some gi ->
     aa_temporal_groups r !! j = Some gj ->
     id ∈ tg_distinct_ids gi -> id ∈ tg_distinct_ids gj -> i = j) /\
  aa_ephemeral_groups r = aa_ephemeral_groups a.
Proof.
  unfold temporal_pass. fold (title_groups (aa_windows a)).
  rewrite cluster_titles_runs. cbn.
  set (ws := aa_windows a). set (cs := clusters (title_groups ws)).
  assert (Forall2 (fun c g => build_temporal_group c.1 c.2 = Some g) cs
    (omap (fun c => build_temporal_group c.1 c.2) cs)) as Hgs.
  { apply omap_total, Forall_forall. intros c Hc.
    apply clusters_elem in Hc as [Hlen _]. destruct c as [t [|[id w] run]]; cbn in *; [lia|].
    by eexists. }
  set (gs := omap _ cs) in *.
  assert (forall i g, gs !! i = Some g -> exists c, cs !! i = Some c /\
    tg_title_key g = c.1 /\ forall id, id ∈ tg_distinct_ids g <-> id ∈ cluster_ids c) as Hg.
  { intros i g Hi. destruct (Forall2_lookup_r _ _ _ _ _ Hgs Hi) as (c&Hc&Hb).
    exists c. split; [done|]. apply build_temporal_group_ids in Hb as [Ht Hids].
    split; [done|]. intros id. rewrite Hids. apply elem_of_list_to_set. }
  pose proof (clusters_NoDup ws) as Hnd. fold cs in Hnd.
  split; [|split; [|split; [|done]]].
  - intros i g Hi. destruct (Forall2_lookup_r _ _ _ _ _ Hgs Hi) as (c&Hc&Hb).
    apply build_temporal_group_ids in Hb as [Ht Hids].
    apply list_elem_of_lookup_2 in Hc as Hin.
    destruct (clusters_elem ws c Hin) as [Hlen Hmem]. split.
    + rewrite Hids, size_list_to_set; [unfold run_ids; by rewrite length_map|].
      apply list_elem_of_split in Hin as (l1&l2&Hl). rewrite Hl, bind_app in Hnd.
      apply NoDup_app in Hnd as (_&_&Hnd). cbn in Hnd. by apply NoDup_app in Hnd as (?&_&_).
    + intros id. rewrite Hids, elem_of_list_to_set. unfold run_ids.
      intros ([i' w]&->&Hw)%list_elem_of_fmap. apply Hmem in Hw as [? ?]. exists w.
      by rewrite Ht.
  - intros id w. rewrite delete_keys_Some, hash_order_perm, elem_of_elements,
      elem_of_union, elem_of_list_to_set. apply and_iff_compat_l.
    rewrite list_elem_of_bind. split.
    + intros Hno (i&g&Hi&Hid). apply Hno. right. destruct (Hg i g Hi) as (c&Hc&_&Hids).
      exists c. split; [by apply Hids|]. by eapply list_elem_of_lookup_2.
    + intros Hno [Hemp|(c&Hid&Hc)]; [by apply elem_of_empty in Hemp|].
      apply list_elem_of_lookup_1 in Hc as [i Hi].
      destruct (Forall2_lookup_l _ _ _ _ _ Hgs Hi) as (g&Hgi&_).
      apply Hno. exists i, g. split; [done|].
      destruct (Hg i g Hgi) as (c'&Hc'&_&Hids). simplify_eq. by apply Hids.
  - intros i j gi gj id Hi Hj Hidi Hidj.
    destruct (Hg i gi Hi) as (ci&Hci&_&Hids), (Hg j gj Hj) as (cj&Hcj&_&Hidsj).
    eapply (NoDup_bind_index cluster_ids cs); [done|done|done|by apply Hids|by apply Hidsj].
Qed.

(** ** Theorems *)

(** One application per key with a contributing record, with the sums. *)
Lemma aggregate_sums records since now thresh min_distinct max_windows :
  let r := aggregate_activities_since records since now thresh min_distinct max_windows in
  StronglySorted (fun a b => aa_last_seen b <= aa_last_seen a) r /\
  NoDup (map aa_key r) /\
  (forall a, a ∈ r -> sums_up a (contributions since now (aa_key a) records)) /\
  (forall k, contributions since now k records <> [] -> k ∈ map aa_key r).
Proof.
  intros r. split; [apply sort_desc_sorted|].
  set (apps := fmap (finish_app thresh min_distinct max_windows)
                 (collect_apps since now records)).
  assert (r ≡ₚ map snd (map_to_list apps)) as Hr.
  { unfold r, aggregate_activities_since. by rewrite sort_desc_perm, hash_order_perm. }
  assert (forall k a, apps !! k = Some a ->
    aa_key a = k /\ sums_up a (contributions since now k records)) as Happ.
  { intros k a. unfold apps. rewrite lookup_fmap_Some. intros (a0&<-&Ha0).
    pose proof (collect_spec since now records k) as Hc. rewrite Ha0 in Hc.
    destruct Hc as (Hk&_&Hs).
    destruct (finish_app_same thresh min_distinct max_windows a0) as (E1&E2&E3&E4).
    split; [congruence|]. unfold sums_up in *. by rewrite E2, E3, E4. }
  assert (map aa_key (map snd (map_to_list apps)) = map fst (map_to_list apps)) as Hkeys.
  { rewrite map_map. apply map_ext_in. intros [k a] Hin.
    apply list_elem_of_In, elem_of_map_to_list in Hin. by apply Happ. }
  split; [|split].
  - rewrite Hr, Hkeys. apply NoDup_fst_map_to_list.
  - intros a. rewrite Hr. intros ([k b]&->&Hin)%list_elem_of_fmap.
    apply elem_of_map_to_list in Hin. cbn. destruct (Happ k b Hin) as [-> ?]. done.
  - intros k Hne. rewrite Hr, Hkeys.
    pose proof (collect_spec since now records k) as Hc.
    destruct (collect_apps since now records !! k) as [a|] eqn:Ha; [|done].
    apply list_elem_of_fmap. exists (k, finish_app thresh min_distinct max_windows a).
    split; [done|]. apply elem_of_map_to_list. unfold apps. by rewrite lookup_fmap, Ha.
Qed.

(** *** The reference of the totals

    What a record and the window [since, now] share, said of the record alone: the share
    of the application [k] starts where both have started, ends where the record does
    (or now, when it is open), and is at least a second long. *)
Inductive shares (since now : instant) (r : ActivityRecord) (k : Z * Z)
    : instant * instant * Z -> Prop :=
  | shares_from f s e :
      focus_info r = Some f -> k = (uw 32 (pid f), process_start_time f) ->
      (forall t, s <= t <-> start_time r <= t /\ since <= t) ->
      match end_time r with Some e' => e = e' | None => e = now end ->
      1 <= num_seconds (e - s) ->
      shares since now r k (s, e, num_seconds (e - s)).

(** The shares of the records, in their order; the others have none. *)
Inductive all_shares (since now : instant) (k : Z * Z)
    : list ActivityRecord -> list (instant * instant * Z) -> Prop :=
  | all_shares_nil : all_shares since now k [] []
  | all_shares_one r l c cs :
      shares since now r k c -> all_shares since now k l cs ->
      all_shares since now k (r :: l) (c :: cs)
  | all_shares_none r l cs :
      (forall c, ~ shares since now r k c) -> all_shares since now k l cs ->
      all_shares since now k (r :: l) cs.

Context `{!ChronoLaws}.

Lemma contribution_of_share since now r k c :
  shares since now r k c ->
  exists f, contribution since now r = Some (k, f, c.1.1, c.1.2, uw 64 c.2).
Proof.
  intros [f s e Hf -> Hs He Hd]. exists f. unfold contribution. rewrite Hf.
  assert (s = Z.max (start_time r) since) as ->.
  { pose proof (Hs s). pose proof (Hs (Z.max (start_time r) since)). lia. }
  assert (default now (end_time r) = e) as -> by (by destruct (end_time r)).
  assert (Z.max (start_time r) since < e) as Hlt.
  { rewrite num_seconds_spec in Hd. destruct (Z.lt_ge_cases (Z.max (start_time r) since) e) as [|Hge]; [done|].
    pose proof (Z.quot_le_mono (e - Z.max (start_time r) since) 0 1000000000).
    rewrite Z.quot_0_l in *; lia. }
  by rewrite (proj2 (Z.leb_gt e since)), (proj2 (Z.leb_gt (num_seconds _) 0)) by lia.
Qed.

Lemma share_of_contribution since now r k f s e d :
  contribution since now r = Some (k, f, s, e, d) ->
  exists n, shares since now r k (s, e, n) /\ d = uw 64 n.
Proof.
  unfold contribution. destruct (focus_info r) as [g|] eqn:Hg; [|done].
  destruct (Z.leb_spec (default now (end_time r)) since); [done|].
  destruct (Z.leb_spec (num_seconds (default now (end_time r) - Z.max (start_time r) since)) 0); [done|].
  intros [= <- <- <- <- <-]. eexists. split; [|reflexivity].
  econstructor; [done|done|lia|by destruct (end_time r)|lia].
Qed.

Lemma all_shares_contributions since now k l : exists cs,
  all_shares since now k l cs /\
  contributions since now k l = map (fun c => (c.1, uw 64 c.2)) cs.
Proof.
  induction l as [|r l (cs&Hcs&IH)]; [exists []; by split; [constructor|]|].
  unfold contributions in *. cbn [omap list_omap]. rewrite IH.
  destruct (contribution since now r) as [[[[[k' f] s] e] d]|] eqn:Hc.
  2: { exists cs. split; [|done]. apply all_shares_none; [|done].
       intros c (f&Hf)%contribution_of_share. congruence. }
  destruct (decide (k' = k)) as [->|Hne].
  - destruct (share_of_contribution _ _ _ _ _ _ _ _ Hc) as (n&Hn&->).
    exists ((s, e, n) :: cs). split; [by constructor|done].
  - exists cs. split; [|done]. apply all_shares_none; [|done].
    intros c (f'&Hf')%contribution_of_share. congruence.
Qed.

Lemma share_in since now k l cs c :
  all_shares since now k l cs -> c ∈ cs -> exists rec, rec ∈ l /\ shares since now rec k c.
Proof.
  induction 1 as [|r l c' cs Hr _ IH|r l cs _ _ IH]; [by intros ?%elem_of_nil|..].
  - intros [->|Hc]%elem_of_cons; [exists r; by split; [left|]|].
    destruct (IH Hc) as (rec&?&?). exists rec. by split; [right|].
  - intros Hc. destruct (IH Hc) as (rec&?&?). exists rec. by split; [right|].
Qed.

Lemma zsum_uw l : uw 64 (zsum (map (uw 64) l)) = uw 64 (zsum l).
Proof.
  induction l as [|x l IH]; [done|]. cbn [map]. unfold zsum in *. cbn [foldr].
  unfold uw in *. rewrite Z.add_mod_idemp_l by done.
  rewrite <- (Z.add_mod_idemp_r _ (foldr _ _ (map _ l))), IH by done. by rewrite Z.add_mod_idemp_r.
Qed.

Lemma sums_up_shares a cs :
  sums_up a (map (fun c => (c.1, uw 64 c.2)) cs) -> sums_up a cs.
Proof.
  unfold sums_up. rewrite map_map. cbn [snd].
  rewrite <- (map_map snd (uw 64)), zsum_uw. intros (Ht&Hall&(c1&Hc1&E1)&(c2&Hc2&E2)).
  apply list_elem_of_fmap in Hc1 as (d1&->&Hd1), Hc2 as (d2&->&Hd2).
  split; [done|]. split; [|split; eauto].
  apply Forall_forall. intros c Hc. rewrite Forall_forall in Hall.
  apply (Hall (c.1, uw 64 c.2)). apply list_elem_of_fmap. by exists c.
Qed.

(** C33: whatever the order in which tables are iterated, the result lists each
    application (process and start time) that shares at least a second with the window,
    once, and no other, the most recently seen first; its total is the 64-bit sum of the
    whole seconds that its records share with the window, and its first and last times are
    the least start and the greatest end of these shares. *)
Theorem aggregate_totals records since now thresh min_distinct max_windows :
  let r := aggregate_activities_since records since now thresh min_distinct max_windows in
  StronglySorted (fun a b => aa_last_seen b <= aa_last_seen a) r /\
  NoDup (map aa_key r) /\
  (forall a, a ∈ r -> exists cs, all_shares since now (aa_key a) records cs /\
     aa_total_duration_seconds a = uw 64 (zsum (map snd cs)) /\
     Forall (fun c => aa_first_seen a <= c.1.1 /\ c.1.2 <= aa_last_seen a) cs /\
     (exists c, c ∈ cs /\ c.1.1 = aa_first_seen a) /\
     (exists c, c ∈ cs /\ c.1.2 = aa_last_seen a)) /\
  (forall k, k ∈ map aa_key r <-> exists rec c, rec ∈ records /\ shares since now rec k c).
Proof.
  intros r. destruct (aggregate_sums records since now thresh min_distinct max_windows) as (Hsort&Hnd&Hsum&Hin').
  fold r in Hsort, Hnd, Hsum, Hin'. split; [done|]. split; [done|].
  assert (forall a, a ∈ r -> exists cs, all_shares since now (aa_key a) records cs /\ sums_up a cs) as Ha.
  { intros a Hin. destruct (all_shares_contributions since now (aa_key a) records) as (cs&Hcs&E).
    exists cs. split; [done|]. apply sums_up_shares. rewrite <- E. by apply Hsum. }
  split; [done|]. intros k. split.
  - intros (a&->&(cs&Hcs&_&_&(c&Hc&_)&_)%Ha)%list_elem_of_fmap.
    destruct (share_in _ _ _ _ _ _ Hcs Hc) as (rec&?&?). by exists rec, c.
  - intros (rec&c&Hin&(f&Hf)%contribution_of_share). apply Hin'.
    apply list_elem_of_split in Hin as (l1&l2&->). unfold contributions. rewrite omap_app.
    cbn [omap list_omap]. rewrite Hf, decide_True by done. by destruct (omap _ l1).
Qed.

Definition in_ephemeral (a : AggregatedActivity) (id : Z) : Prop :=
  exists t g, aa_ephemeral_groups a !! t = Some g /\ id ∈ eg_distinct_ids g.
Definition in_temporal (a : AggregatedActivity) (id : Z) : Prop :=
  exists i g, aa_temporal_groups a !! i = Some g /\ id ∈ tg_distinct_ids g.

(** The grouping passes put every window of an application in exactly one lane
    (left alone, ephemeral, temporal) and lose none; an ephemeral group holds at
    least [min_distinct] windows and is exactly the short-lived windows of its title;
    a temporal group holds at least two windows of its title, and no window is in two
    groups. *)
Theorem lanes_partition thresh min_distinct a :
  aa_ephemeral_groups a = ∅ ->
  let r := temporal_pass (ephemeral_pass thresh min_distinct a) in
  (forall id, is_Some (aa_windows a !! id) ->
     is_Some (aa_windows r !! id) \/ in_ephemeral r id \/ in_temporal r id) /\
  (forall id w, aa_windows r !! id = Some w ->
     aa_windows a !! id = Some w /\ ~ in_ephemeral r id /\ ~ in_temporal r id) /\
  (forall id, ~ (in_ephemeral r id /\ in_temporal r id)) /\
  (forall t g, aa_ephemeral_groups r !! t = Some g ->
     min_distinct <= Z.of_nat (size (eg_distinct_ids g)) /\
     forall id, id ∈ eg_distinct_ids g <-> short_lived thresh (aa_windows a) t id) /\
  (forall i g, aa_temporal_groups r !! i = Some g ->
     (2 <= size (tg_distinct_ids g))%nat /\
     forall id, id ∈ tg_distinct_ids g ->
       exists w, aa_windows a !! id = Some w /\ title_of w = tg_title_key g) /\
  (forall i j gi gj id, aa_temporal_groups r !! i = Some gi ->
     aa_temporal_groups r !! j = Some gj ->
     id ∈ tg_distinct_ids gi -> id ∈ tg_distinct_ids gj -> i = j).
Proof.
  intros Hemp r.
  destruct (ephemeral_pass_spec thresh min_distinct a Hemp) as (He1&He2&_).
  set (m := ephemeral_pass thresh min_distinct a) in *.
  destruct (temporal_pass_spec m) as (Ht1&Ht2&Ht3&Ht4). fold r in Ht1, Ht2, Ht3, Ht4.
  assert (forall id, in_ephemeral r id <->
    exists t g, aa_ephemeral_groups m !! t = Some g /\ id ∈ eg_distinct_ids g) as Hre
    by (unfold in_ephemeral; by rewrite Ht4).
  split; [|split; [|split; [|split; [|split; [|done]]]]].
  - intros id [w Hw]. destruct (aa_windows r !! id) as [w'|] eqn:Hr; [by left; eexists|].
    right. destruct (aa_windows m !! id) as [w'|] eqn:Hm.
    + right. unfold in_temporal. destruct (decide (Exists (fun g => id ∈ tg_distinct_ids g)
        (aa_temporal_groups r))) as [Hex|Hno].
      * apply Exists_exists in Hex as (g&Hg&Hid). apply list_elem_of_lookup_1 in Hg as [i Hi].
        eauto.
      * exfalso. assert (aa_windows r !! id = Some w') as Habs; [|congruence].
        apply Ht2. split; [done|]. intros (i&g&Hi&Hid). apply Hno, Exists_exists.
        exists g. split; [by eapply list_elem_of_lookup_2|done].
    + left. rewrite Hre. set (t := title_of w).
      destruct (aa_ephemeral_groups m !! t) as [g|] eqn:Hg.
      * exists t, g. split; [done|]. apply (He1 t g Hg).
        destruct (decide (wa_duration_seconds w < thresh)) as [Hs|Hs]; [by exists w|].
        exfalso. assert (aa_windows m !! id = Some w) as Habs; [|congruence].
        apply He2. split; [done|]. intros (t'&g'&Hg'&Hid).
        apply (He1 t' g' Hg') in Hid as (w2&?&?&_). by simplify_eq.
      * exfalso. assert (aa_windows m !! id = Some w) as Habs; [|congruence].
        apply He2. split; [done|]. intros (t'&g'&Hg'&Hid).
        apply (He1 t' g' Hg') in Hid as (w2&?&?&Htt).
        unfold t in Hg. simplify_eq.
  - intros id w [Hm Hnt]%Ht2. apply He2 in Hm as [Ha Hne]. split; [done|]. by rewrite Hre.
  - intros id [Hie (i&g&Hi&Hid)]. destruct (Ht1 i g Hi) as [_ Hw].
    destruct (Hw id Hid) as (w&Hm&_). apply He2 in Hm as [_ Hne]. apply Hne. by apply Hre.
  - rewrite Ht4. apply He1.
  - intros i g Hi. destruct (Ht1 i g Hi) as [Hs Hw]. split; [done|].
    intros id Hid. destruct (Hw id Hid) as (w&Hm&Ht). apply He2 in Hm as [Ha _]. eauto.
Qed.

Lemma take_sorted {A} (key : A -> Z) n l x y :
  StronglySorted (fun a b => key b <= key a) l ->
  x ∈ take n l -> y ∈ drop n l -> key y <= key x.
Proof.
  intros Hs. revert n. induction Hs as [|z l Hs IH Hz]; intros n Hx Hy.
  - rewrite take_nil in Hx. by apply elem_of_nil in Hx.
  - destruct n as [|n]; cbn in *; [by apply elem_of_nil in Hx|].
    apply elem_of_cons in Hx as [->|Hx]; [|by eapply IH].
    rewrite Forall_forall in Hz. apply Hz. eapply subseteq_drop, Hy.
Qed.

(** With a positive limit the trim keeps at most that many windows, unchanged,
    exactly the limit when there were more, and every window it drops was last seen
    no later than every window it keeps; the groups are not touched. *)
Theorem trim_keeps_recent max_windows a :
  0 < max_windows ->
  let r := trim_pass max_windows a in
  Z.of_nat (size (aa_windows r)) = Z.min max_windows (Z.of_nat (size (aa_windows a))) /\
  aa_windows r ⊆ aa_windows a /\
  (forall id w id' w', aa_windows r !! id = Some w ->
     aa_windows a !! id' = Some w' -> aa_windows r !! id' = None ->
     wa_last_seen w' <= wa_last_seen w) /\
  aa_ephemeral_groups r = aa_ephemeral_groups a /\
  aa_temporal_groups r = aa_temporal_groups a.
Proof.
  intros Hmax r. subst r. unfold trim_pass. rewrite (proj2 (Z.ltb_lt _ _) Hmax). cbn [andb].
  destruct (Z.ltb_spec max_windows (Z.of_nat (size (aa_windows a)))) as [Hgt|Hle].
  2: { split; [lia|]. split; [done|]. split; [|done]. intros. congruence. }
  cbn. set (v := sort_desc _ _).
  assert (v ≡ₚ map_to_list (aa_windows a)) as Hv
    by (unfold v; by rewrite sort_desc_perm, hash_order_perm).
  assert (NoDup (map fst v)) as Hnd by (rewrite Hv; apply NoDup_fst_map_to_list).
  assert (NoDup (map fst (take (Z.to_nat max_windows) v))) as Hndt.
  { eapply sublist_NoDup; [done|]. apply fmap_sublist, sublist_take. }
  assert (forall id w, list_to_map (M := gmap Z WindowActivity)
    (take (Z.to_nat max_windows) v) !! id = Some w <->
    (id, w) ∈ take (Z.to_nat max_windows) v) as Hlook.
  { intros. symmetry. by apply elem_of_list_to_map. }
  assert (length v = size (aa_windows a)) as Hlen
    by (by rewrite Hv, length_map_to_list).
  split; [|split; [|split; [|done]]].
  - rewrite <- length_map_to_list, map_to_list_to_map, length_take by done. lia.
  - apply map_subseteq_spec. intros id w Hin%Hlook. apply elem_of_map_to_list.
    rewrite <- Hv. by eapply subseteq_take.
  - intros id w id' w' Hin%Hlook Ha Hno.
    apply elem_of_map_to_list in Ha. rewrite <- Hv in Ha.
    rewrite <- (take_drop (Z.to_nat max_windows) v) in Ha.
    apply elem_of_app in Ha as [Ha|Ha]; [apply Hlook in Ha; congruence|].
    pose proof (take_sorted (fun iw : item => wa_last_seen iw.2) (Z.to_nat max_windows) v
      (id, w) (id', w') (sort_desc_sorted _ _) Hin Ha) as Hle. done.
Qed.
End aggregation.

(** A record that began before the window, an open one and one that ended before it, of one
    application; and one of another that shares less than a second. *)
Definition demo_activity (p s : Z) (e : option Z) : ActivityRecord := {|
  record_id := 0; run_id := None; start_time := secs s; end_time := secs <$> e; state := Active;
  focus_info := Some {| pid := p; process_start_time := 7; app_name := "a"; window_title := "w";
    window_id := 3; window_instance_start := 0; window_position := None; window_size := None |};
  event_count := 0; triggering_events := [] |}.
Definition demo_activities : list ActivityRecord :=
  [demo_activity 1 50 (Some 110); demo_activity 1 140 None; demo_activity 1 20 (Some 90);
   demo_activity 2 60 (Some 100)].

Lemma aggregate_totals_witness :
  let r := @aggregate_activities_since chrono_ref hash_order_id unicode_ascii demo_activities
    (secs 100) (secs 200) 60 2 10 in
  map (fun a => (aa_pid a, aa_total_duration_seconds a, aa_first_seen a, aa_last_seen a)) r
    = [(1, 70, secs 100, secs 200)] /\
  forall k, k ∈ map aa_key r <->
    exists rec c, rec ∈ demo_activities /\ @shares chrono_ref (secs 100) (secs 200) rec k c.
Proof.
  intros r. split; [vm_compute; reflexivity|].
  exact (proj2 (proj2 (proj2 (@aggregate_totals chrono_ref hash_order_id unicode_ascii chrono_ref_laws
    demo_activities (secs 100) (secs 200) 60 2 10)))).
Defined.

(** Two short pop-ups of one title, two neighbouring windows of another, one alone. *)
Definition demo_window (id : Z) (t : string) (d last : Z) : item := (id, {|
  wa_window_id := id; wa_window_title := t; wa_duration_seconds := d;
  wa_first_seen := 0; wa_last_seen := last; wa_record_count := 1 |}).
Definition demo_app : AggregatedActivity := {|
  aa_app_name := "a"; aa_pid := 1; aa_process_start_time := 1;
  aa_windows := list_to_map [demo_window 1 "Popup" 5 100; demo_window 2 "popup" 6 200;
    demo_window 3 "mail" 900 (minutes 10); demo_window 4 "Mail" 900 (minutes 50);
    demo_window 5 "mail" 900 (minutes 500)];
  aa_ephemeral_groups := ∅; aa_temporal_groups := [];
  aa_total_duration_seconds := 0; aa_first_seen := 0; aa_last_seen := 0 |}.

Lemma lanes_partition_witness :
  let r := @temporal_pass hash_order_id unicode_ascii
    (@ephemeral_pass hash_order_id unicode_ascii 60 2 demo_app) in
  map fst (map_to_list (aa_windows r)) = [5] /\ ~ in_ephemeral r 5 /\ ~ in_temporal r 5.
Proof.
  split; [vm_compute; reflexivity|].
  refine (proj2 (proj1 (proj2 (@lanes_partition hash_order_id unicode_ascii 60 2
    demo_app eq_refl)) 5 (demo_window 5 "mail" 900 (minutes 500)).2 _)).
  vm_compute. reflexivity.
Defined.

Lemma trim_keeps_recent_witness :
  Z.of_nat (size (aa_windows (@trim_pass hash_order_rev 2 demo_app))) = 2 /\
  is_Some (aa_windows (@trim_pass hash_order_rev 2 demo_app) !! 5).
Proof.
  split.
  - exact (proj1 (@trim_keeps_recent hash_order_rev 2 demo_app eq_refl)).
  - vm_compute. eauto.
Defined.
