(* ===== verification/Threads.v ===== *)
(** The thread registry of [crates/common/src/threading.rs].

    A join handle of the operating system is an opaque number.  Each operation of the
    registry runs under its mutex and is one function; [join] takes the mutex twice
    and waits in between, so it is two functions, and the drop of the consumed handle
    comes after. *)
From S2P Require Import Prelude.

Inductive ThreadStatus := Reserved | Running | Joining | Joined | Detached | Panicked.

#[export] Instance ThreadStatus_eq_dec : EqDecision ThreadStatus.
Proof. solve_decision. Defined.

Record ThreadRecord := {
  id : Z;
  name : string;
  status : ThreadStatus;
  handle : option Z
}.

Record ThreadSnapshot := { snap_id : Z; snap_name : string; snap_status : ThreadStatus }.

Record ThreadRegistry := { next_id : Z; records : list ThreadRecord }.

Record ThreadHandle := { th_id : Z; th_name : string }.

Definition registry_new : ThreadRegistry := {| next_id := 0; records := [] |}.

Definition record_snapshot (r : ThreadRecord) : ThreadSnapshot :=
  {| snap_id := id r; snap_name := name r; snap_status := status r |}.

Definition is_active (r : ThreadRecord) : bool :=
  match status r with Running | Joining => true | _ => false end.

(** [iter_mut().find(p)] and the update of what it found. *)
Fixpoint update_first (p : ThreadRecord -> bool) (f : ThreadRecord -> ThreadRecord)
    (l : list ThreadRecord) : list ThreadRecord :=
  match l with
  | [] => []
  | r :: l' => if p r then f r :: l' else r :: update_first p f l'
  end.

Definition find_first (p : ThreadRecord -> bool) (l : list ThreadRecord) : option ThreadRecord :=
  List.find p l.

Definition has_id (i : Z) (r : ThreadRecord) : bool := id r =? i.
Definition has_name (n : string) (r : ThreadRecord) : bool := bool_decide (name r = n).

Definition set_slot (s : ThreadStatus) (h : option Z) (r : ThreadRecord) : ThreadRecord :=
  {| id := id r; name := name r; status := s; handle := h |}.

Definition reserve_slot (reg : ThreadRegistry) (n : string) : ThreadRegistry :=
  if existsb (has_name n) (records reg) then reg
  else {| next_id := uw 64 (next_id reg + 1);
          records := records reg ++
            [{| id := next_id reg; name := n; status := Reserved; handle := None |}] |}.

Definition reserve_slots (reg : ThreadRegistry) (slots : list string) : ThreadRegistry :=
  foldl reserve_slot reg slots.

Definition with_slots (slots : list string) : ThreadRegistry :=
  reserve_slots registry_new slots.

(** A slot [spawn] takes over: its name, and no handle in it. *)
Definition free_slot (n : string) (r : ThreadRecord) : bool :=
  has_name n r && match handle r with None => true | Some _ => false end.

(** [spawn]; [os] is the handle the operating system gave, [None] when it refused. *)
Definition spawn (reg : ThreadRegistry) (n : string) (os : option Z)
    : ThreadRegistry * option ThreadHandle :=
  match os with
  | None => (reg, None)
  | Some h =>
      match find_first (free_slot n) (records reg) with
      | Some r =>
          ({| next_id := next_id reg;
              records := update_first (free_slot n) (set_slot Running (Some h))
                           (records reg) |},
           Some {| th_id := id r; th_name := n |})
      | None =>
          ({| next_id := uw 64 (next_id reg + 1);
              records := records reg ++
                [{| id := next_id reg; name := n; status := Running; handle := Some h |}] |},
           Some {| th_id := next_id reg; th_name := n |})
      end
  end.

Definition set_records (reg : ThreadRegistry) (l : list ThreadRecord) : ThreadRegistry :=
  {| next_id := next_id reg; records := l |}.

(** [join] up to the wait: the handle waited for, [None] for no wait at all. *)
Definition join_begin (reg : ThreadRegistry) (t : ThreadHandle) : ThreadRegistry * option Z :=
  match find_first (has_id (th_id t)) (records reg) with
  | Some r =>
      (set_records reg (update_first (has_id (th_id t)) (set_slot Joining None) (records reg)),
       handle r)
  | None => (reg, None)
  end.

(** [join] after the wait, with its result. *)
Definition join_end (reg : ThreadRegistry) (t : ThreadHandle) (ok : bool) : ThreadRegistry :=
  set_records reg
    (update_first (has_id (th_id t))
       (fun r => set_slot (if ok then Joined else Panicked) (handle r) r) (records reg)).

(** [Drop for ThreadHandle]. *)
Definition drop_handle (reg : ThreadRegistry) (t : ThreadHandle) : ThreadRegistry :=
  set_records reg
    (update_first (has_id (th_id t))
       (fun r => match handle r with
                 | Some _ => set_slot Detached None r
                 | None => set_slot (status r) None r
                 end) (records reg)).

(** [join] with nothing between its parts. *)
Definition join (reg : ThreadRegistry) (t : ThreadHandle) (ok : bool)
    : ThreadRegistry * option Z :=
  let '(reg, h) := join_begin reg t in
  (drop_handle (join_end reg t ok) t, h).

Definition active_thread_names (reg : ThreadRegistry) : list string :=
  map name (List.filter is_active (records reg)).
Definition active_count (reg : ThreadRegistry) : Z :=
  Z.of_nat (length (List.filter is_active (records reg))).
Definition snapshot (reg : ThreadRegistry) : list ThreadSnapshot :=
  map record_snapshot (records reg).

(** ** Uninterrupted use

    The registry with the handles its users hold, each with the join handle of its
    thread; operations follow one another without interleaving. *)
Record sys := { reg : ThreadRegistry; held : list (Z * Z) }.

Inductive step : sys -> sys -> Prop :=
  | step_reserve s slots :
      next_id (reg s) + Z.of_nat (length slots) < 2 ^ 64 ->
      step s {| reg := reserve_slots (reg s) slots; held := held s |}
  | step_spawn s n h r t :
      next_id (reg s) + 1 < 2 ^ 64 ->
      spawn (reg s) n (Some h) = (r, Some t) ->
      step s {| reg := r; held := (th_id t, h) :: held s |}
  | step_join s l1 l2 i h n ok :
      held s = l1 ++ (i, h) :: l2 ->
      step s {| reg := (join (reg s) {| th_id := i; th_name := n |} ok).1; held := l1 ++ l2 |}
  | step_drop s l1 l2 i h n :
      held s = l1 ++ (i, h) :: l2 ->
      step s {| reg := drop_handle (reg s) {| th_id := i; th_name := n |}; held := l1 ++ l2 |}.

(** Ids are distinct and below the counter; a record holds a join handle exactly while
    its thread handle is held, and it is then [Running]. *)
Record reg_ok (s : sys) : Prop := {
  ok_ids : NoDup (map id (records (reg s)));
  ok_below : Forall (fun r => 0 <= id r < next_id (reg s)) (records (reg s));
  ok_next : 0 <= next_id (reg s) < 2 ^ 64;
  ok_held : NoDup (map fst (held s));
  ok_handles i h : (i, h) ∈ held s <->
    exists r, r ∈ records (reg s) /\ id r = i /\ handle r = Some h;
  ok_running : Forall (fun r => handle r = None \/ status r = Running) (records (reg s))
}.

Lemma find_first_Some p l r : find_first p l = Some r -> r ∈ l /\ p r = true.
Proof. intros [Hin Hp]%find_some. by apply list_elem_of_In in Hin. Qed.

Lemma update_first_split p f l r :
  find_first p l = Some r ->
  exists l1 l2, l = l1 ++ r :: l2 /\ update_first p f l = l1 ++ f r :: l2 /\
    Forall (fun x => p x = false) l1.
Proof.
  induction l as [|x l IH]; [done|]. unfold find_first in *. cbn.
  destruct (p x) eqn:Hp.
  - intros [= ->]. by exists [], l.
  - intros Hr. destruct (IH Hr) as (l1&l2&->&->&Hl). exists (x :: l1), l2.
    split; [done|]. split; [done|]. by constructor.
Qed.

Lemma update_first_none p f l : find_first p l = None -> update_first p f l = l.
Proof.
  unfold find_first. induction l as [|x l IH]; [done|]. cbn.
  destruct (p x); [done|]. intros Hn. by rewrite IH.
Qed.

Lemma find_id l r :
  NoDup (map id l) -> r ∈ l -> find_first (has_id (id r)) l = Some r.
Proof.
  unfold find_first, has_id. induction l as [|x l IH]; cbn; [by intros _ ?%elem_of_nil|].
  intros [Hx Hnd]%NoDup_cons [->|Hin]%elem_of_cons; [by rewrite Z.eqb_refl|].
  destruct (Z.eqb_spec (id x) (id r)) as [He|]; [|auto].
  exfalso. apply Hx. rewrite He. by apply list_elem_of_fmap_2.
Qed.

(** Replacing one record by one with the same id. *)
Lemma ok_replace nid l1 l2 r r' hs hs' :
  reg_ok {| reg := {| next_id := nid; records := l1 ++ r :: l2 |}; held := hs |} ->
  id r' = id r -> (handle r' = None \/ status r' = Running) ->
  NoDup (map fst hs') ->
  (forall i h, (i, h) ∈ hs' <->
     ((i, h) ∈ hs /\ i <> id r) \/ (i = id r /\ handle r' = Some h)) ->
  reg_ok {| reg := {| next_id := nid; records := l1 ++ r' :: l2 |}; held := hs' |}.
Proof.
  intros [H1 H2 H3 H4 H5 H6] Hid Hrun Hnd Hhs. cbn in *.
  split; cbn; try done.
  - rewrite map_app in *. cbn in *. by rewrite Hid.
  - rewrite !Forall_app, !Forall_cons in *. by rewrite Hid.
  - intros i h. rewrite Hhs, H5. split.
    + intros [[(x&Hx&<-&Hh) Hne]|[-> Hh]].
      * exists x. split; [|done]. rewrite !elem_of_app, !elem_of_cons in *.
        destruct Hx as [?|[->|?]]; [by left|done|by right; right].
      * exists r'. rewrite elem_of_app, elem_of_cons. by split; [right; left|].
    + intros (x&Hx&<-&Hh). rewrite elem_of_app, elem_of_cons in Hx.
      assert (x ∈ l1 \/ x ∈ l2 -> id x <> id r) as Hne.
      { intros Hin He. rewrite map_app in H1. cbn in H1.
        apply NoDup_app in H1 as (_&Hd&[Hr _]%NoDup_cons).
        destruct Hin as [Hin|Hin].
        - apply (Hd (id x)); [by apply list_elem_of_fmap_2|]. rewrite He. by left.
        - apply Hr. rewrite <- He. by apply list_elem_of_fmap_2. }
      destruct Hx as [Hin|[->|Hin]].
      * left. split; [|by auto]. exists x. rewrite elem_of_app, elem_of_cons. by auto.
      * right. by rewrite Hid.
      * left. split; [|by auto]. exists x. rewrite elem_of_app, elem_of_cons. by auto.
  - rewrite !Forall_app, !Forall_cons in *. by destruct H6 as (?&?&?).
Qed.

Lemma ok_append nid l hs r hs' :
  reg_ok {| reg := {| next_id := nid; records := l |}; held := hs |} ->
  nid + 1 < 2 ^ 64 -> id r = nid -> (handle r = None \/ status r = Running) ->
  NoDup (map fst hs') ->
  (forall i h, (i, h) ∈ hs' <-> (i, h) ∈ hs \/ (i = nid /\ handle r = Some h)) ->
  reg_ok {| reg := {| next_id := uw 64 (nid + 1); records := l ++ [r] |}; held := hs' |}.
Proof.
  intros [H1 H2 H3 H4 H5 H6] Hn Hid Hrun Hnd Hhs. cbn in *.
  assert (uw 64 (nid + 1) = nid + 1) as Hw by (apply uw_small; unfold in_u; lia).
  split; cbn; rewrite ?Hw; try done; try lia.
  - rewrite map_app, NoDup_app. split; [done|]. split; [|apply NoDup_singleton].
    intros i Hi ->%list_elem_of_singleton. apply list_elem_of_fmap in Hi as (x&Hx&Hin).
    rewrite Forall_forall in H2. specialize (H2 x Hin). lia.
  - rewrite Forall_app, Forall_singleton. split; [|lia].
    apply (Forall_impl _ _ _ H2). cbn. lia.
  - intros i h. rewrite Hhs, H5. setoid_rewrite elem_of_app.
    setoid_rewrite list_elem_of_singleton. naive_solver.
  - by rewrite Forall_app, Forall_singleton.
Qed.

Lemma reserve_ok s n :
  reg_ok s -> next_id (reg s) + 1 < 2 ^ 64 ->
  reg_ok {| reg := reserve_slot (reg s) n; held := held s |} /\
  next_id (reserve_slot (reg s) n) <= next_id (reg s) + 1.
Proof.
  intros Hok Hn. unfold reserve_slot. destruct s as [[nid l] hs]; cbn in *.
  destruct (existsb (has_name n) l); cbn; [split; [done|lia]|].
  assert (0 <= nid) by (pose proof (ok_next _ Hok); cbn in *; lia).
  split; [|unfold uw; rewrite Z.mod_small by lia; lia].
  eapply ok_append; [done|done|done|by left|apply (ok_held _ Hok)|].
  intros i h. cbn. naive_solver.
Qed.

Lemma held_id s i h :
  reg_ok s -> (i, h) ∈ held s ->
  exists r, r ∈ records (reg s) /\ id r = i /\ handle r = Some h /\
    find_first (has_id i) (records (reg s)) = Some r.
Proof.
  intros Hok (r&Hr&<-&Hh)%(ok_handles _ Hok). exists r. split; [done|]. split; [done|].
  split; [done|]. apply find_id; [apply (ok_ids _ Hok)|done].
Qed.

Lemma held_remove (l1 l2 : list (Z * Z)) i h :
  NoDup (map fst (l1 ++ (i, h) :: l2)) ->
  NoDup (map fst (l1 ++ l2)) /\
  forall j k, (j, k) ∈ l1 ++ l2 <-> (j, k) ∈ l1 ++ (i, h) :: l2 /\ j <> i.
Proof.
  rewrite map_app. cbn. intros (Hn1&Hd&[Hi Hn2]%NoDup_cons)%NoDup_app. split.
  - rewrite map_app. apply NoDup_app. split; [done|]. split; [|done].
    intros x Hx Hx2. apply (Hd x Hx). by right.
  - intros j k. rewrite !elem_of_app, elem_of_cons. split.
    + intros [Hin|Hin]; (split; [by auto|]); intros ->.
      * apply (Hd i); [by apply (list_elem_of_fmap_2 fst _ _ Hin)|by left].
      * apply Hi. by apply (list_elem_of_fmap_2 fst _ _ Hin).
    + naive_solver.
Qed.

Lemma update_first_at p g l1 x l2 :
  Forall (fun x => p x = false) l1 -> p x = true ->
  update_first p g (l1 ++ x :: l2) = l1 ++ g x :: l2.
Proof.
  intros Hl Hp. induction Hl as [|y l1 Hy Hl IH]; cbn; [by rewrite Hp|]. by rewrite Hy, IH.
Qed.

(** The uninterrupted [join] of a record that is found. *)
Lemma join_found rg t ok r :
  find_first (has_id (th_id t)) (records rg) = Some r ->
  exists l1 l2, records rg = l1 ++ r :: l2 /\
    join rg t ok = (set_records rg (l1 ++ set_slot (if ok then Joined else Panicked) None r :: l2),
                    handle r).
Proof.
  intros Hf. destruct (update_first_split _ (set_slot Joining None) _ _ Hf)
    as (l1&l2&Hl&Hu&Hno). apply find_first_Some in Hf as Hr. destruct Hr as [_ Hp].
  exists l1, l2. split; [done|]. unfold join, join_begin. rewrite Hf, Hu.
  unfold join_end, drop_handle. cbn [set_records records next_id].
  rewrite !update_first_at by done. done.
Qed.

Lemma drop_found rg t r h :
  find_first (has_id (th_id t)) (records rg) = Some r -> handle r = Some h ->
  exists l1 l2, records rg = l1 ++ r :: l2 /\
    drop_handle rg t = set_records rg (l1 ++ set_slot Detached None r :: l2).
Proof.
  intros Hf Hh. unfold drop_handle.
  destruct (update_first_split _ (fun r => match handle r with
    | Some _ => set_slot Detached None r | None => set_slot (status r) None r end) _ _ Hf)
    as (l1&l2&Hl&Hu&_). exists l1, l2. split; [done|]. by rewrite Hu, Hh.
Qed.

Lemma step_ok s s' : reg_ok s -> step s s' -> reg_ok s'.
Proof.
  intros Hok Hs. destruct Hs as [s slots Hn|s n h r t Hn Hsp|s l1 l2 i h n ok Hh|s l1 l2 i h n Hh].
  - revert s Hok Hn. induction slots as [|n slots IH]; intros s Hok Hn; cbn.
    { by destruct s. }
    cbn in Hn. destruct (reserve_ok s n Hok) as [Hok' Hle]; [lia|].
    apply (IH {| reg := reserve_slot (reg s) n; held := held s |}); [done|]. cbn. lia.
  - unfold spawn in Hsp. destruct s as [[nid l] hs]; cbn [reg held records next_id] in *.
    destruct (find_first (free_slot n) l) as [x|] eqn:Hf; injection Hsp as <- <-; cbn [th_id].
    + destruct (update_first_split _ (set_slot Running (Some h)) _ _ Hf) as (l1&l2&Hl&Hu&_).
      rewrite Hu. apply find_first_Some in Hf as [Hin Hfree]. unfold free_slot in Hfree.
      apply andb_prop in Hfree as [_ Hnone]. destruct (handle x) eqn:Hhx; [done|].
      assert (forall k, (id x, k) ∉ hs) as Hno.
      { intros k (r&Hr&Hid&Hk)%(ok_handles _ Hok). cbn in Hr.
        pose proof (find_id _ _ (ok_ids _ Hok) Hr) as F1.
        pose proof (find_id _ _ (ok_ids _ Hok) Hin) as F2. cbn in *. rewrite Hid in F1.
        simplify_eq. }
      rewrite Hl in Hok. eapply ok_replace; [exact Hok|done|by right| |].
      * cbn. apply NoDup_cons. split; [|apply (ok_held _ Hok)].
        intros ([i k]&Hi&Hk)%list_elem_of_fmap. cbn in Hi. subst i. by apply (Hno k).
      * intros i k. rewrite elem_of_cons. cbn. split; [|naive_solver].
        intros [[= -> ->]|Hk]; [by right|]. left. split; [done|]. intros ->. by apply (Hno k).
    + assert (forall k, (nid, k) ∉ hs) as Hno.
      { intros k (r&Hr&Hid&Hk)%(ok_handles _ Hok). cbn in *.
        pose proof (ok_below _ Hok) as Hb. rewrite Forall_forall in Hb.
        specialize (Hb r Hr). cbn in Hb. lia. }
      eapply ok_append; [done|done|done|by right| |].
      * cbn. apply NoDup_cons. split; [|apply (ok_held _ Hok)].
        intros ([i k]&Hi&Hk)%list_elem_of_fmap. cbn in Hi. subst i. by apply (Hno k).
      * intros i k. rewrite elem_of_cons. cbn. naive_solver.
  - destruct (held_id s i h Hok) as (r&Hr&Hid&Hhr&Hf).
    { rewrite Hh. rewrite elem_of_app, elem_of_cons. by auto. }
    destruct (join_found (reg s) {| th_id := i; th_name := n |} ok r Hf) as (k1&k2&Hl&->).
    destruct s as [[nid l] hs]; cbn in *. subst l hs.
    destruct (held_remove l1 l2 i h (ok_held _ Hok)) as [Hnd Hmem].
    eapply ok_replace; [done|done|by left|done|]. intros j k. rewrite Hmem. cbn. naive_solver.
  - destruct (held_id s i h Hok) as (r&Hr&Hid&Hhr&Hf).
    { rewrite Hh. rewrite elem_of_app, elem_of_cons. by auto. }
    destruct (drop_found (reg s) {| th_id := i; th_name := n |} r h Hf Hhr) as (k1&k2&Hl&->).
    destruct s as [[nid l] hs]; cbn in *. subst l hs.
    destruct (held_remove l1 l2 i h (ok_held _ Hok)) as [Hnd Hmem].
    eapply ok_replace; [done|done|by left|done|]. intros j k. rewrite Hmem. cbn. naive_solver.
Qed.

Lemma steps_ok s s' : rtc step s s' -> reg_ok s -> reg_ok s'.
Proof. induction 1; eauto using step_ok. Qed.

Lemma new_ok : reg_ok {| reg := registry_new; held := [] |}.
Proof.
  split; cbn; try constructor; try lia.
  - intros []%elem_of_nil.
  - by intros (r&[]%elem_of_nil&_).
Qed.

(** ** Theorems *)

(** As long as operations do not interleave with a wait and fewer than 2^64
    slots are made, in every reachable state the ids are distinct, and a [join] through
    a held handle waits for exactly the thread of the [spawn] that gave the handle,
    leaves its record [Joined] or [Panicked] by the result and all other records as
    they were. *)
Theorem join_waits_for_its_thread s i h n ok :
  rtc step {| reg := registry_new; held := [] |} s -> (i, h) ∈ held s ->
  NoDup (map id (records (reg s))) /\
  (join (reg s) {| th_id := i; th_name := n |} ok).2 = Some h /\
  exists l1 l2 r, records (reg s) = l1 ++ r :: l2 /\ id r = i /\
    records (join (reg s) {| th_id := i; th_name := n |} ok).1
      = l1 ++ set_slot (if ok then Joined else Panicked) None r :: l2.
Proof.
  intros Hs Hin. assert (reg_ok s) as Hok by (by apply (steps_ok _ _ Hs), new_ok).
  split; [apply (ok_ids _ Hok)|].
  destruct (held_id s i h Hok Hin) as (r&Hr&Hid&Hhr&Hf).
  destruct (join_found (reg s) {| th_id := i; th_name := n |} ok r Hf) as (l1&l2&Hl&->).
  split; [done|]. by exists l1, l2, r.
Qed.

Lemma join_waits_for_its_thread_witness :
  let s := {| reg := (spawn (with_slots ["api"; "ingest"]) "ingest" (Some 71)).1;
              held := [(1, 71)] |} in
  (join (reg s) {| th_id := 1; th_name := "ingest" |} true).2 = Some 71.
Proof.
  intros s.
  refine (proj1 (proj2 (join_waits_for_its_thread s 1 71 "ingest" true _ _))).
  - eapply rtc_l.
    + apply (step_reserve {| reg := registry_new; held := [] |} ["api"; "ingest"]).
      vm_compute. reflexivity.
    + apply rtc_once.
      exact (step_spawn {| reg := with_slots ["api"; "ingest"]; held := [] |} "ingest" 71
        (spawn (with_slots ["api"; "ingest"]) "ingest" (Some 71)).1
        {| th_id := 1; th_name := "ingest" |} eq_refl eq_refl).
  - vm_compute. by left.
Defined.

(** A [spawn] of the same name between the two halves of a [join] takes over the
    record of the joining thread; the end of that [join] then marks the new thread
    [Joined] and the drop of the old handle detaches it: the new handle, still held,
    no longer waits for anything. *)
Theorem join_race_detaches n h1 h2 ok :
  let '(r1, t1) := spawn registry_new n (Some h1) in
  let '(r2, w1) := join_begin r1 (default {| th_id := 0; th_name := n |} t1) in
  let '(r3, t2) := spawn r2 n (Some h2) in
  let r4 := join_end r3 (default {| th_id := 0; th_name := n |} t1) ok in
  let r5 := drop_handle r4 (default {| th_id := 0; th_name := n |} t1) in
  w1 = Some h1 /\ t2 = t1 /\
  snapshot r4 = [{| snap_id := 0; snap_name := n;
                    snap_status := if ok then Joined else Panicked |}] /\
  map handle (records r4) = [Some h2] /\
  snapshot r5 = [{| snap_id := 0; snap_name := n; snap_status := Detached |}] /\
  (join_begin r5 (default {| th_id := 0; th_name := n |} t2)).2 = None.
Proof.
  cbn. unfold free_slot, has_name. cbn. by rewrite bool_decide_eq_true_2.
Qed.
