(* ===== verification/Handles.v ===== *)
(** The threads of the pipeline: how [spawn_pipeline] of src/daemon/pipeline.rs starts
    them through the registry (Threads) and how [PipelineHandles::join] ends them.

    What the stages do is in Pipeline; here a thread is the handle that the operating
    system gave, and what it ended with. *)
From S2P Require Import Prelude Threads.

(** The names of the stages' threads, in the order in which they are started. *)
Definition stage_names : list string :=
  ["pipeline-storage"; "pipeline-hints"; "pipeline-compression"; "pipeline-snapshot";
   "pipeline-envelope"; "pipeline-ingest"].

(** The spawns, each with its [?]: when one fails, the handles so far are dropped. *)
Fixpoint spawn_stages (os : string -> option Z) (rg : ThreadRegistry) (names : list string)
    (handles : list ThreadHandle) : ThreadRegistry * option (list ThreadHandle) :=
  match names with
  | [] => (rg, Some handles)
  | n :: names' =>
      match spawn rg n (os n) with
      | (rg', Some t) => spawn_stages os rg' names' (handles ++ [t])
      | (rg', None) => (foldl drop_handle rg' handles, None)
      end
  end.

(** [spawn_pipeline]; [os n] is the handle that the operating system gives for the
    thread named [n], [None] when it refuses. *)
Definition spawn_pipeline (os : string -> option Z) (rg : ThreadRegistry)
    : ThreadRegistry * option (list ThreadHandle) :=
  spawn_stages os rg stage_names [].

Section join.
(** What a thread panicked with, if it did. *)
Context (panic : Z -> option string).

(** [ThreadHandle::join] with its result; the second component is what it waited for. *)
Definition join_thread (rg : ThreadRegistry) (t : ThreadHandle)
    : ThreadRegistry * option Z * option string :=
  let h := (join_begin rg t).2 in
  let result := h ≫= panic in
  ((join rg t (bool_decide (result = None))).1, h, result).

(** The loop of [PipelineHandles::join], with the threads waited for so far. *)
Fixpoint join_each (rg : ThreadRegistry) (handles : list ThreadHandle) (waited : list Z)
    (first_err : option string) : ThreadRegistry * list Z * option string :=
  match handles with
  | [] => (rg, waited, first_err)
  | t :: handles' =>
      let '(rg', h, result) := join_thread rg t in
      join_each rg' handles' (waited ++ option_list h)
        (match first_err with Some e => Some e | None => result end)
  end.

(** [PipelineHandles::join]; the last component is its error. *)
Definition join_handles (rg : ThreadRegistry) (handles : list ThreadHandle)
    : ThreadRegistry * list Z * option string :=
  join_each rg (reverse handles) [] None.
End join.

(** ** Lemmas *)

(** The handles held by the pipeline, as the registry's users hold them. *)
Definition tags (P : list (ThreadHandle * Z)) : list (Z * Z) :=
  map (fun p => (th_id p.1, p.2)) P.

Lemma drop_step rg l1 t h l2 :
  step {| reg := rg; held := l1 ++ (th_id t, h) :: l2 |}
       {| reg := drop_handle rg t; held := l1 ++ l2 |}.
Proof. destruct t as [i n]. by eapply (step_drop {| reg := rg; held := _ |}). Qed.

Lemma join_step rg l1 t h l2 ok :
  step {| reg := rg; held := l1 ++ (th_id t, h) :: l2 |}
       {| reg := (join rg t ok).1; held := l1 ++ l2 |}.
Proof. destruct t as [i n]. by eapply (step_join {| reg := rg; held := _ |}). Qed.

Lemma drop_all_steps P base : forall rg,
  rtc step {| reg := rg; held := tags P ++ base |}
           {| reg := foldl drop_handle rg (reverse (map fst P)); held := base |}.
Proof.
  induction P as [|[t h] P IH] using rev_ind; intros rg; [done|].
  unfold tags. rewrite !map_app, reverse_app, <- (app_assoc _ _ base). cbn.
  eapply rtc_l; [apply (drop_step rg (tags P) t h base)|]. apply IH.
Qed.

Lemma spawn_some rg n h rg' t :
  spawn rg n (Some h) = (rg', Some t) -> 0 <= next_id rg -> next_id rg + 1 < 2 ^ 64 ->
  th_name t = n /\ next_id rg' <= next_id rg + 1.
Proof.
  unfold spawn. intros Hs H0 Hn.
  destruct (find_first _ _); injection Hs as <- <-; cbn; [split; [done|lia]|].
  split; [done|]. unfold uw. rewrite Z.mod_small by lia. lia.
Qed.

Lemma spawn_stages_steps os base names : forall s P,
  reg_ok s -> next_id (reg s) + Z.of_nat (length names) < 2 ^ 64 ->
  held s = tags P ++ base ->
  match spawn_stages os (reg s) names (reverse (map fst P)) with
  | (rg, Some handles) => exists Q,
      handles = reverse (map fst (Q ++ P)) /\
      map th_name (reverse (map fst Q)) = names /\
      mapM os names = Some (reverse (map snd Q)) /\
      rtc step s {| reg := rg; held := tags (Q ++ P) ++ base |}
  | (rg, None) => rtc step s {| reg := rg; held := base |} /\ Exists (fun n => os n = None) names
  end.
Proof.
  induction names as [|n names IH]; intros s P Hok Hn Hh; cbn [spawn_stages].
  { exists []. by destruct s; cbn in *; subst. }
  cbn [length] in Hn. pose proof (ok_next _ Hok) as H0.
  destruct (spawn (reg s) n (os n)) as [rg [t|]] eqn:Hsp.
  - destruct (os n) as [h|] eqn:Ho; [|discriminate].
    destruct (spawn_some _ _ _ _ _ Hsp) as [Hname Hnext]; [lia..|].
    assert (step s {| reg := rg; held := (th_id t, h) :: held s |}) as Hst
      by (eapply step_spawn; [lia|exact Hsp]).
    specialize (IH _ ((t, h) :: P) (step_ok _ _ Hok Hst)). cbn [reg held] in IH.
    rewrite Hh in IH, Hst. specialize (IH ltac:(lia) eq_refl). cbn [map fst] in IH.
    rewrite reverse_cons in IH.
    destruct (spawn_stages _ rg names _) as [rg' [hs|]].
    + destruct IH as (Q&->&HQ&HM&Hr). exists (Q ++ [(t, h)]).
      rewrite <- !(app_assoc Q). split; [done|]. split.
      { rewrite map_app, reverse_app. cbn. by rewrite HQ, Hname. }
      split; [|by eapply rtc_l].
      cbn. rewrite Ho. cbn. rewrite HM. cbn. by rewrite map_app, reverse_app.
    + destruct IH as [Hr Hex]. split; [by eapply rtc_l|]. by right.
  - unfold spawn in Hsp. destruct (os n) eqn:Ho; [by destruct (find_first _ _)|].
    injection Hsp as <-. split; [|by left]. destruct s; cbn in *. subst.
    apply drop_all_steps.
Qed.

(** The record with an id, when it holds no handle, is out of every other join's way. *)
Definition ended (rg : ThreadRegistry) (i : Z) (st : ThreadStatus) : Prop :=
  exists r, r ∈ records rg /\ id r = i /\ status r = st.

Lemma join_thread_spec panic rg t h l2 (s := {| reg := rg; held := (th_id t, h) :: l2 |}) :
  reg_ok s ->
  let st := match panic h with Some _ => Panicked | None => Joined end in
  exists rg', join_thread panic rg t = (rg', Some h, panic h) /\
    step s {| reg := rg'; held := l2 |} /\ ended rg' (th_id t) st /\
    forall i x, i <> th_id t -> ended rg i x -> ended rg' i x.
Proof.
  intros Hok st. destruct (held_id s (th_id t) h Hok) as (r&Hr&Hid&Hh&Hf); [by left|].
  cbn in Hr, Hf. unfold join_thread.
  assert ((join_begin rg t).2 = Some h) as Hb by (unfold join_begin; by rewrite Hf).
  rewrite Hb. cbn.
  destruct (join_found rg t (bool_decide (panic h = None)) r Hf) as (l1&l3&Hl&Hj).
  eexists. split; [reflexivity|]. split; [apply (join_step rg [] t h l2)|]. rewrite Hj. cbn.
  split.
  - eexists. split; [apply elem_of_app; right; by left|]. split; [done|].
    cbn. subst st. by destruct (panic h).
  - intros i x Hi (r'&Hin&Hid'&Hst). exists r'. split; [|done].
    unfold set_records. cbn. rewrite Hl, elem_of_app, elem_of_cons in Hin.
    rewrite elem_of_app, elem_of_cons. destruct Hin as [?|[->|?]]; [tauto|congruence|tauto].
Qed.

Lemma join_each_spec panic P base : forall rg waited err,
  reg_ok {| reg := rg; held := tags P ++ base |} ->
  exists rg',
    join_each panic rg (map fst P) waited err =
      (rg', waited ++ map snd P, head (option_list err ++ omap panic (map snd P))) /\
    rtc step {| reg := rg; held := tags P ++ base |} {| reg := rg'; held := base |} /\
    (forall t h, (t, h) ∈ P ->
       ended rg' (th_id t) (match panic h with Some _ => Panicked | None => Joined end)) /\
    forall i x, i ∉ map fst (tags P) -> ended rg i x -> ended rg' i x.
Proof.
  induction P as [|[t h] P IH]; intros rg waited err Hok; cbn [map fst snd tags join_each omap].
  - exists rg. rewrite app_nil_r. split; [by destruct err|]. split; [done|].
    split; [by intros ?? ?%elem_of_nil|done].
  - destruct (join_thread_spec panic rg t h (tags P ++ base) Hok) as (rg1&->&Hst&He&Hk).
    destruct (IH rg1 (waited ++ [h]) (match err with Some e => Some e | None => panic h end)
      (step_ok _ _ Hok Hst)) as (rg2&HE&Hr&Hall&Hkeep).
    exists rg2. split.
    { change (option_list (Some h)) with [h]. etransitivity; [exact HE|]. f_equal; [f_equal; by rewrite <- app_assoc|].
      destruct err; [done|]. cbn. by destruct (panic h). }
    split; [by eapply rtc_l|]. pose proof (ok_held _ Hok) as Hnd. cbn in Hnd.
    apply NoDup_cons in Hnd as [Hnt _]. rewrite map_app, elem_of_app in Hnt.
    split.
    + intros t' h' [[= -> ->]|Hin]%elem_of_cons; [|by apply Hall].
      apply Hkeep; [tauto|exact He].
    + intros i x [Hi1 Hi2]%not_elem_of_cons Hx. apply Hkeep; [done|]. by apply Hk.
Qed.

(** ** Theorems *)


(** When the operating system refuses a thread, the threads already started are detached:
    the registry holds no handle but those that others hold, so nobody can wait for
    them. *)
Theorem refused_stage_detaches os s rg :
  rtc step {| reg := registry_new; held := [] |} s -> next_id (reg s) + 6 < 2 ^ 64 ->
  spawn_pipeline os (reg s) = (rg, None) ->
  Exists (fun n => os n = None) stage_names /\
  forall r h, r ∈ records rg -> handle r = Some h -> (id r, h) ∈ held s.
Proof.
  intros Hs Hn Hsp. assert (reg_ok s) as Hok by (by apply (steps_ok _ _ Hs), new_ok).
  pose proof (spawn_stages_steps os (held s) stage_names s [] Hok Hn eq_refl) as H.
  unfold spawn_pipeline in Hsp. cbn [map] in H. unfold reverse at 1 in H. cbn [rev_append] in H.
  rewrite Hsp in H. destruct H as [Hr Hex]. split; [done|].
  intros r h Hin Hh. apply (ok_handles _ (steps_ok _ _ Hr Hok)). by exists r.
Qed.

(** ** Witnesses *)

(** The slots that [EventCoordinator::new] reserves. *)
Definition coordinator_slots : list string :=
  ["api-grpc"; "api-http"; "system-tracker"; "pipeline-data"; "pipeline-storage";
   "pipeline-hints"; "focus-worker"].

Lemma slots_reached :
  rtc step {| reg := registry_new; held := [] |}
    {| reg := with_slots coordinator_slots; held := [] |}.
Proof. apply rtc_once, (step_reserve {| reg := registry_new; held := [] |}). by vm_compute. Qed.


Lemma refused_stage_detaches_witness :
  let s := {| reg := with_slots coordinator_slots; held := [] |} in
  let os n := if String.eqb n "pipeline-snapshot" then None else Some 7 in
  forall r h, r ∈ records (spawn_pipeline os (reg s)).1 -> handle r = Some h -> (id r, h) ∈ held s.
Proof.
  intros s os.
  exact (proj2 (refused_stage_detaches os s _ slots_reached ltac:(by vm_compute) eq_refl)).
Defined.
