(* ===== verification/SnapshotBus.v ===== *)
(** Snapshots and the snapshot bus of [crates/core/src/snapshot.rs].

    A [tokio::sync::watch] channel holds the last value sent; the bus keeps a
    receiver of each of its channels, so a send always takes effect.  The wall clock
    ([monotonic_ns]) is an argument. *)
From S2P Require Import Prelude Events Records.

Record Transition := {
  t_from : ActivityState;
  t_to : ActivityState;
  t_at : instant;
  t_by_signal : option string;
  t_run_id : option string
}.

#[export] Instance Transition_eq_dec : EqDecision Transition.
Proof. solve_decision. Defined.

Record Counts := { signals_seen : Z; hints_seen : Z; records_emitted : Z }.
Definition counts_default : Counts :=
  {| signals_seen := 0; hints_seen := 0; records_emitted := 0 |}.

Record StorageInfo := { backlog_count : Z; last_flush_at : option instant }.

Record ConfigSummary := {
  cs_active_grace_secs : Z;
  cs_idle_threshold_secs : Z;
  cs_retention_minutes : Z;
  cs_ephemeral_max_duration_secs : Z;
  cs_ephemeral_min_distinct_ids : Z;
  cs_ephemeral_app_max_duration_secs : Z;
  cs_ephemeral_app_min_distinct_procs : Z
}.
Definition config_default : ConfigSummary := {|
  cs_active_grace_secs := 0; cs_idle_threshold_secs := 0; cs_retention_minutes := 0;
  cs_ephemeral_max_duration_secs := 0; cs_ephemeral_min_distinct_ids := 0;
  cs_ephemeral_app_max_duration_secs := 0; cs_ephemeral_app_min_distinct_procs := 0 |}.

Record SnapshotWindow := {
  sw_window_id : string;
  sw_window_title : string;
  sw_first_seen : instant;
  sw_last_seen : instant;
  sw_duration_seconds : Z;
  sw_is_group : bool
}.

Record SnapshotApp := {
  sa_app_name : string;
  sa_pid : Z;
  sa_process_start_time : Z;
  sa_windows : list SnapshotWindow;
  sa_total_duration_secs : Z;
  sa_total_duration_pretty : string
}.

Record Snapshot := {
  s_seq : Z;
  s_mono_ns : Z;
  s_run_id : option string;
  s_activity_state : ActivityState;
  s_focus : option WindowFocusInfo;
  s_last_transition : option Transition;
  s_transitions_recent : list Transition;
  s_counts : Counts;
  s_cadence_ms : Z;
  s_cadence_reason : string;
  s_next_timeout : option instant;
  s_storage : StorageInfo;
  s_config : ConfigSummary;
  s_health : list string;
  s_aggregated_apps : list SnapshotApp;
  s_records : list ActivityRecord
}.

(** [monotonic_ns]: the nanoseconds of the wall clock, zero before the epoch, as
    64 bits. *)
Definition monotonic_ns (now : instant) : Z := uw 64 (Z.max 0 now).

Definition snapshot_empty (now : instant) : Snapshot := {|
  s_seq := 0; s_mono_ns := monotonic_ns now; s_run_id := None;
  s_activity_state := Inactive; s_focus := None; s_last_transition := None;
  s_transitions_recent := []; s_counts := counts_default; s_cadence_ms := 0;
  s_cadence_reason := ""; s_next_timeout := None;
  s_storage := {| backlog_count := 0; last_flush_at := None |};
  s_config := config_default; s_health := []; s_aggregated_apps := []; s_records := []
|}.

Record SnapshotBus := {
  seq : Z;
  bus_run_id : option string;
  current_snapshot : Snapshot;
  health : list string;
  transitions : list Transition
}.

Definition bus_new (now : instant) : SnapshotBus := {|
  seq := 0; bus_run_id := None; current_snapshot := snapshot_empty now;
  health := []; transitions := [] |}.

Definition new_with_run_id (now : instant) (run : string) : SnapshotBus := {|
  seq := 0; bus_run_id := Some run; current_snapshot := snapshot_empty now;
  health := []; transitions := [] |}.

Definition recent_transitions (b : SnapshotBus) (limit : Z) : list Transition :=
  let len := Z.of_nat (length (transitions b)) in
  let n := Z.min limit len in
  take (Z.to_nat n) (rev (transitions b)).

(** The rings of [push_transition] and [push_health]: [pop_front] when 64 are held,
    then [push_back]. *)
Definition push_ring {A} (buf : list A) (x : A) : list A :=
  (if 64 <=? Z.of_nat (length buf) then tail buf else buf) ++ [x].

Definition push_transition (b : SnapshotBus) (t : Transition) : SnapshotBus := {|
  seq := seq b; bus_run_id := bus_run_id b; current_snapshot := current_snapshot b;
  health := health b; transitions := push_ring (transitions b) t |}.

Definition push_health (b : SnapshotBus) (msg : string) : SnapshotBus := {|
  seq := seq b; bus_run_id := bus_run_id b; current_snapshot := current_snapshot b;
  health := push_ring (health b) msg; transitions := transitions b |}.

Definition current_health (b : SnapshotBus) : list string := health b.

(** What a caller of [publish_basic] passes. *)
Record publication := {
  p_state : ActivityState;
  p_focus : option WindowFocusInfo;
  p_last_transition : option Transition;
  p_records : list ActivityRecord;
  p_counts : Counts;
  p_cadence_ms : Z;
  p_cadence_reason : string;
  p_next_timeout : option instant;
  p_storage : StorageInfo;
  p_config : ConfigSummary;
  p_health : list string;
  p_aggregated_apps : list SnapshotApp
}.

Definition publish_basic (b : SnapshotBus) (now : instant) (p : publication) : SnapshotBus :=
  let seq' := u64_add (seq b) 1 in
  let transitions_recent := recent_transitions b 5 in
  let snap := {|
    s_seq := seq'; s_mono_ns := monotonic_ns now; s_run_id := bus_run_id b;
    s_activity_state := p_state p; s_focus := p_focus p;
    s_last_transition := p_last_transition p;
    s_transitions_recent := transitions_recent; s_counts := p_counts p;
    s_cadence_ms := p_cadence_ms p; s_cadence_reason := p_cadence_reason p;
    s_next_timeout := p_next_timeout p; s_storage := p_storage p;
    s_config := p_config p; s_health := p_health p;
    s_aggregated_apps := p_aggregated_apps p; s_records := p_records p |} in
  {| seq := seq'; bus_run_id := bus_run_id b; current_snapshot := snap;
     health := health b; transitions := transitions b |}.

(** ** Histories *)
Inductive bus_op :=
  | PushTransition (t : Transition)
  | PushHealth (msg : string)
  | Publish (now : instant) (p : publication).

(** An operation, and the snapshot it publishes. *)
Definition bus_step (b : SnapshotBus) (o : bus_op) : SnapshotBus * list Snapshot :=
  match o with
  | PushTransition t => (push_transition b t, [])
  | PushHealth m => (push_health b m, [])
  | Publish now p => let b := publish_basic b now p in (b, [current_snapshot b])
  end.

Definition op_transition (o : bus_op) : option Transition :=
  match o with PushTransition t => Some t | _ => None end.
Definition op_health (o : bus_op) : option string :=
  match o with PushHealth m => Some m | _ => None end.

(** The last [n] elements. *)
Definition last_n {A} (n : nat) (l : list A) : list A := drop (length l - n) l.

Lemma tail_drop {A} n (l : list A) : tail (drop n l) = drop (S n) l.
Proof. revert n. induction l as [|x l IH]; intros [|n]; cbn; auto. Qed.

Lemma push_ring_last_n {A} (l : list A) x : push_ring (last_n 64 l) x = last_n 64 (l ++ [x]).
Proof.
  unfold push_ring, last_n. rewrite length_drop, length_app. cbn [length].
  destruct (Z.leb_spec 64 (Z.of_nat (length l - (length l - 64)))).
  - rewrite drop_app_le by lia. f_equal.
    replace (length l + 1 - 64)%nat with (S (length l - 64)) by lia.
    apply tail_drop.
  - replace (length l - 64)%nat with 0%nat by lia.
    replace (length l + 1 - 64)%nat with 0%nat by lia. done.
Qed.

(** The bus after a history that pushed [ts] and [hs] and published [n] snapshots. *)
Definition bus_after (b : SnapshotBus) (ts : list Transition) (hs : list string) (n : Z) : Prop :=
  transitions b = last_n 64 ts /\ health b = last_n 64 hs /\ seq b = uw 64 n.

Lemma bus_step_after b ts hs n o :
  bus_after b ts hs n ->
  bus_after (bus_step b o).1 (ts ++ option_list (op_transition o))
    (hs ++ option_list (op_health o)) (n + Z.of_nat (length (bus_step b o).2)).
Proof.
  intros (Ht&Hh&Hs). unfold bus_after. destruct o as [t|m|now p]; cbn;
    rewrite ?app_nil_r, ?Z.add_0_r, ?Ht, ?Hh, ?Hs, ?push_ring_last_n; auto.
  unfold u64_add. by rewrite uw_add_l.
Qed.

Lemma recent_last_n b ts k :
  transitions b = last_n 64 ts -> 0 <= k <= 64 ->
  recent_transitions b k = take (Z.to_nat k) (rev ts).
Proof.
  intros Ht Hk. unfold recent_transitions. rewrite Ht. unfold last_n.
  assert (rev ts = rev (drop (length ts - 64) ts) ++ rev (take (length ts - 64) ts)) as ->.
  { rewrite <- rev_app_distr. by rewrite take_drop. }
  rewrite length_drop.
  destruct (Z.min_spec k (Z.of_nat (length ts - (length ts - 64)))) as [[Hlt ->]|[Hge ->]].
  - rewrite take_app_le; [done|]. rewrite length_rev, length_drop. lia.
  - rewrite firstn_all2 by (rewrite length_rev, length_drop; lia).
    rewrite take_app_ge by (rewrite length_rev, length_drop; lia).
    rewrite length_rev, length_drop.
    destruct (decide (length ts <= 64)%nat).
    + replace (length ts - 64)%nat with 0%nat by lia. cbn [take rev].
      by rewrite firstn_nil, app_nil_r.
    + replace (Z.to_nat k - _)%nat with 0%nat by lia. cbn. by rewrite app_nil_r.
Qed.

(** After any history of pushes and publications on a new bus, [recent_transitions]
    gives the newest transitions first, up to the limit and up to 64, and the health
    list is the last 64 messages in order; the snapshots are numbered 1, 2, 3, ... in
    64 bits, and each carries the five newest transitions pushed before it. *)
Theorem bus_history now ops :
  let r := run_list bus_step (bus_new now) ops in
  let ts := omap op_transition ops in
  (forall k, 0 <= k <= 64 -> recent_transitions r.1 k = take (Z.to_nat k) (rev ts)) /\
  current_health r.1 = last_n 64 (omap op_health ops) /\
  forall i s, r.2 !! i = Some s ->
    s_seq s = uw 64 (Z.of_nat i + 1) /\
    exists pre post, ops = pre ++ post /\
      s_transitions_recent s = take 5 (rev (omap op_transition pre)).
Proof.
  intros r ts.
  enough (bus_after r.1 ts (omap op_health ops) (Z.of_nat (length r.2)) /\
    forall i s, r.2 !! i = Some s -> s_seq s = uw 64 (Z.of_nat i + 1) /\
      exists pre post, ops = pre ++ post /\
        s_transitions_recent s = take 5 (rev (omap op_transition pre)))
    as [(Ht&Hh&_) Hs].
  { split; [|split; [by rewrite <- Hh|done]]. intros k Hk. by apply recent_last_n. }
  subst r ts. induction ops as [|o ops IH] using rev_ind; [done|].
  rewrite run_list_app, !omap_app.
  destruct (run_list bus_step (bus_new now) ops) as [b out]. cbn [fst snd] in IH.
  destruct IH as [Hb Hs]. pose proof (bus_step_after _ _ _ _ o Hb) as Hb'.
  rewrite run_list_cons. cbn [run_list fst snd]. rewrite app_nil_r. split.
  - rewrite length_app, Nat2Z.inj_add. cbn [omap list_omap]. 
    destruct (op_transition o), (op_health o); exact Hb'.
  - intros i s. rewrite lookup_app_Some. intros [Hi|[Hge Hi]].
    + destruct (Hs i s Hi) as (?&pre&post&->&?). split; [done|].
      exists pre, (post ++ [o]). by rewrite (assoc_L (++)).
    + destruct o as [t|m|t p]; cbn in Hi; try by rewrite lookup_nil in Hi.
      apply list_lookup_singleton_Some in Hi as [Hi <-]. destruct Hb as (Ht&_&Hq). cbn.
      split.
      * rewrite Hq. unfold u64_add. rewrite uw_add_l. f_equal. lia.
      * exists ops, [Publish t p]. split; [done|].
        change 5%nat with (Z.to_nat 5). by apply recent_last_n.
Qed.
