(* ===== verification/Float32.v ===== *)
(** Single precision floating point: the IEEE binary32 operations of Rust's [f32],
    as the computable specification floats of the Standard Library with a 24-bit
    mantissa and exponents up to 128. *)
From S2P Require Import Prelude.
From Stdlib Require Import SpecFloat.

Definition f32 : Type := spec_float.

(** [z as f32] for an integer [z]: rounded to nearest, ties to even. *)
Definition f32_of_Z (z : Z) : f32 := binary_normalize 24 128 z 0 false.

Definition f32_add : f32 -> f32 -> f32 := SFadd 24 128.
Definition f32_mul : f32 -> f32 -> f32 := SFmul 24 128.
Definition f32_div : f32 -> f32 -> f32 := SFdiv 24 128.
Definition f32_sqrt : f32 -> f32 := SFsqrt 24 128.
Definition f32_abs : f32 -> f32 := SFabs.
Definition f32_ltb : f32 -> f32 -> bool := SFltb.
Definition f32_eqb : f32 -> f32 -> bool := SFeqb.
Definition f32_zero : f32 := S754_zero false.

(** [f32::max]: the other operand when one is not a number. *)
Definition f32_max (a b : f32) : f32 :=
  match a, b with
  | S754_nan, _ => b
  | _, S754_nan => a
  | _, _ => if f32_ltb a b then b else a
  end.

(** Nothing is greater than itself; a comparison that holds is between numbers. *)
Lemma f32_ltb_irrefl a : f32_ltb a a = false.
Proof.
  unfold f32_ltb, SFltb. destruct (SFcompare a a) as [[]|] eqn:Hc; try done.
  destruct a as [[]|[]| |[] m e]; cbn in Hc; try done;
    rewrite Z.compare_refl, Pos.compare_refl in Hc; done.
Qed.

(** The order of the numbers: by class, then exponent, then mantissa; what is not a
    number has no place in it. *)
Definition f32_place (a : f32) : option (Z * Z * Z) :=
  match a with
  | S754_nan => None
  | S754_zero _ => Some (0, 0, 0)
  | S754_infinity s => Some (if s then -2 else 2, 0, 0)
  | S754_finite false m e => Some (1, e, Zpos m)
  | S754_finite true m e => Some (-1, - e, Zneg m)
  end.

Definition place_ltb (p q : Z * Z * Z) : bool :=
  let '(a, b, c) := p in let '(a', b', c') := q in
  (a <? a') || (a =? a') && ((b <? b') || (b =? b') && (c <? c')).

Lemma f32_ltb_place a b :
  f32_ltb a b = match f32_place a, f32_place b with
                | Some p, Some q => place_ltb p q | _, _ => false end.
Proof.
  unfold f32_ltb, SFltb.
  destruct a as [[]|[]| |[] m e], b as [[]|[]| |[] m' e']; try done;
    cbn [SFcompare f32_place place_ltb]; rewrite Z.eqb_refl, Z.ltb_irrefl; cbn [orb andb].
  all: apply eq_true_iff_eq; rewrite orb_true_iff, andb_true_iff, !Z.ltb_lt, Z.eqb_eq.
  all: destruct (Z.compare_spec e e') as [->|He|He]; try (split; [lia|done] || (split; [done|lia]) || lia).
  all: change (Pos.compare_cont Eq m m') with (Pos.compare m m');
    destruct (Pos.compare_spec m m') as [->|Hm|Hm]; cbn [CompOpp]; split; try done; lia.
Qed.

Lemma place_ltb_spec p q :
  place_ltb p q = true <->
  p.1.1 < q.1.1 \/ p.1.1 = q.1.1 /\ (p.1.2 < q.1.2 \/ p.1.2 = q.1.2 /\ p.2 < q.2).
Proof.
  destruct p as [[a b] c], q as [[a' b'] c']. cbn.
  rewrite orb_true_iff, andb_true_iff, orb_true_iff, andb_true_iff, !Z.ltb_lt, !Z.eqb_eq. done.
Qed.

Lemma f32_ltb_trans a b c : f32_ltb a b = true -> f32_ltb b c = true -> f32_ltb a c = true.
Proof.
  rewrite !f32_ltb_place. destruct (f32_place a), (f32_place b), (f32_place c); try done.
  rewrite !place_ltb_spec. lia.
Qed.

Lemma f32_not_less_ltb a b c :
  f32_ltb b a = false -> f32_ltb b c = true -> f32_place a <> None -> f32_ltb a c = true.
Proof.
  rewrite !f32_ltb_place. destruct (f32_place a), (f32_place b), (f32_place c); try done.
  intros H1 H2 _. apply place_ltb_spec in H2. apply not_true_iff_false in H1.
  rewrite place_ltb_spec in H1. apply place_ltb_spec. lia.
Qed.

(** A bound on a number that is not less than another bounds that one too. *)
Lemma f32_ltb_not_less a b c :
  f32_ltb a c = true -> f32_ltb b c = false -> f32_place b <> None -> f32_ltb a b = true.
Proof.
  rewrite !f32_ltb_place. destruct (f32_place a), (f32_place b), (f32_place c); try done.
  intros H1 H2 _. apply place_ltb_spec in H1. apply not_true_iff_false in H2.
  rewrite place_ltb_spec in H2. apply place_ltb_spec. lia.
Qed.

Lemma f32_ltb_number a b : f32_ltb a b = true -> f32_place a <> None /\ f32_place b <> None.
Proof. rewrite f32_ltb_place. by destruct (f32_place a), (f32_place b). Qed.

Example f32_third : f32_div (f32_of_Z 1) (f32_of_Z 3) = S754_finite false 11184811 (-25).
Proof. reflexivity. Qed.
