(* ===== verification/CompactEvents.v ===== *)
(** Compact events: the data of [crates/core/src/compression.rs]. *)
From S2P Require Import Prelude Events Float32.

Record RawEventPointer := { rp_table : string; rp_ids : list Z }.

Definition DEFAULT_RAW_EVENT_TABLE : string := "raw_events".

(** [RawEventPointer::new]. *)
Definition pointer_new (table : string) (ids : list Z) : option RawEventPointer :=
  match ids with
  | [] => None
  | _ => Some {| rp_table := table; rp_ids := ids |}
  end.

Inductive ScrollDirection := VerticalUp | VerticalDown | HorizontalLeft | HorizontalRight.
#[export] Instance ScrollDirection_eq_dec : EqDecision ScrollDirection.
Proof. solve_decision. Defined.

Record CompactScrollSequence := {
  sc_start_time : instant;
  sc_end_time : instant;
  sc_direction : ScrollDirection;
  sc_total_amount : Z;
  sc_total_rotation : Z;
  sc_scroll_count : Z;
  sc_position : MousePosition;
  sc_raw_event_ids : option RawEventPointer
}.

Inductive MouseTrajectoryType := Movement | Drag.
#[export] Instance MouseTrajectoryType_eq_dec : EqDecision MouseTrajectoryType.
Proof. solve_decision. Defined.

Record CompactMouseTrajectory := {
  mt_start_time : instant;
  mt_end_time : instant;
  mt_event_type : MouseTrajectoryType;
  mt_start_position : MousePosition;
  mt_end_position : MousePosition;
  mt_simplified_path : list MousePosition;
  mt_total_distance : f32;
  mt_max_velocity : f32;
  mt_raw_event_ids : option RawEventPointer
}.

Record CompactKeyboardActivity := {
  kb_start_time : instant;
  kb_end_time : instant;
  kb_keystrokes : Z;
  kb_keys_per_minute : f32;
  kb_density_per_sec : f32;
  kb_raw_event_ids : option RawEventPointer
}.

Record CompactFocusEvent := {
  fe_timestamp : instant;
  fe_app_name_id : Z;
  fe_window_title_id : Z;
  fe_pid : Z;
  fe_window_position : option MousePosition;
  fe_raw_event_ids : option RawEventPointer
}.

Inductive CompactEvent :=
  | Scroll (s : CompactScrollSequence)
  | MouseTrajectory (t : CompactMouseTrajectory)
  | Keyboard (k : CompactKeyboardActivity)
  | Focus (f : CompactFocusEvent).

(** [std::mem::size_of] is the compiler's: the sizes are parameters. *)
Class MemSizes := {
  size_of_scroll : Z;
  size_of_trajectory : Z;
  size_of_position : Z;
  size_of_keyboard : Z;
  size_of_focus : Z
}.

Definition memory_size `{MemSizes} (e : CompactEvent) : Z :=
  match e with
  | Scroll _ => size_of_scroll
  | MouseTrajectory t =>
      uw 64 (size_of_trajectory
             + uw 64 (Z.of_nat (length (mt_simplified_path t)) * size_of_position))
  | Keyboard _ => size_of_keyboard
  | Focus _ => size_of_focus
  end.

Definition infer_scroll_direction (amount : Z) (axis : WheelAxis) : ScrollDirection :=
  match axis with
  | Vertical => if 0 <? amount then VerticalUp else VerticalDown
  | Horizontal => if 0 <? amount then HorizontalRight else HorizontalLeft
  end.

(** The ids an event points to, and the time it spans. *)
Definition pointer_ids (p : option RawEventPointer) : list Z :=
  match p with Some p => rp_ids p | None => [] end.

Definition event_ids (e : CompactEvent) : list Z :=
  pointer_ids match e with
    | Scroll s => sc_raw_event_ids s
    | MouseTrajectory t => mt_raw_event_ids t
    | Keyboard k => kb_raw_event_ids k
    | Focus f => fe_raw_event_ids f
    end.

Lemma pointer_new_ids t ids : pointer_ids (pointer_new t ids) = ids.
Proof. by destruct ids. Qed.

#[export] Hint Rewrite pointer_new_ids : kron_rw.
