(* ===== verification/Compressor.v ===== *)
(** The compressors of [daemon/compressor.rs] for scrolling, typing and focus, with
    their string table; mouse paths are in file Trajectory and the engine that calls
    them all in file Engine.

    Scrolling and typing are grouped by loops over a current group; each is proved to
    summarise the runs ([runs_by]) of its input. *)
From S2P Require Import Prelude Events Float32 CompactEvents.

(** ** The trait [EventCompressor]

    [can_compress] and [compress] of a compressor with its state. *)
Class EventCompressor (C Out : Type) := {
  can_compress : C -> list RawEvent -> bool;
  compress : C -> list RawEvent -> C * list Out
}.

(** ** The string table *)
Module StringTable.

(** Ids are [u16]. *)
Record StringInterner := { strings : list string; lookup : gmap string Z; max_strings : Z }.

Definition with_cap (max : Z) : StringInterner :=
  {| strings := []; lookup := ∅; max_strings := Z.max max 1 |}.
Definition new : StringInterner := with_cap 4096.

Definition intern (st : StringInterner) (s : string) : StringInterner * Z :=
  match lookup st !! s with
  | Some id => (st, id)
  | None =>
      let st :=
        if max_strings st <=? Z.of_nat (length (strings st))
        then {| strings := []; lookup := ∅; max_strings := max_strings st |} else st in
      let id := uw 16 (Z.of_nat (length (strings st))) in
      ({| strings := strings st ++ [s]; lookup := <[s := id]> (lookup st);
          max_strings := max_strings st |}, id)
  end.

(** The table inverts the list. *)
Record table_ok (st : StringInterner) : Prop := {
  tb_cap : 1 <= max_strings st <= 2 ^ 16;
  tb_len : Z.of_nat (length (strings st)) <= max_strings st;
  tb_lookup s i : lookup st !! s = Some i <->
    0 <= i /\ strings st !! Z.to_nat i = Some s
}.

Lemma with_cap_ok max : max <= 2 ^ 16 -> table_ok (with_cap max).
Proof.
  intros Hm. split; cbn; [lia|lia|]. intros s i. rewrite lookup_empty, lookup_nil. by split; [|intros []].
Qed.

Lemma intern_fresh st s :
  table_ok st -> lookup st !! s = None -> Z.of_nat (length (strings st)) < max_strings st ->
  let id := uw 16 (Z.of_nat (length (strings st))) in
  table_ok {| strings := strings st ++ [s]; lookup := <[s := id]> (lookup st);
              max_strings := max_strings st |} /\
  id = Z.of_nat (length (strings st)).
Proof.
  intros Hok Hn Hlt id. pose proof (tb_cap _ Hok).
  assert (id = Z.of_nat (length (strings st))) as Hid
    by (apply uw_small; unfold in_u; lia).
  split; [|done]. split; cbn; [done|rewrite length_app; cbn; lia|].
  intros s' i. rewrite lookup_insert_Some, (tb_lookup _ Hok). rewrite Hid. split.
  - intros [[<- <-]|[Hne [Hi Hs']]].
    + split; [lia|]. rewrite Nat2Z.id. apply list_lookup_middle. done.
    + split; [done|]. by apply lookup_app_l_Some.
  - intros [Hi [Hs'|[Hge Hs']]%lookup_app_Some].
    + right. split; [|done]. intros <-.
      assert (lookup st !! s = Some i) as Hx by (by apply (tb_lookup _ Hok)). congruence.
    + left. apply list_lookup_singleton_Some in Hs' as [Hz <-]. split; [done|]. lia.
Qed.

Lemma table_intern_ok st s :
  table_ok st -> table_ok (intern st s).1 /\ lookup (intern st s).1 !! s = Some (intern st s).2.
Proof.
  intros Hok. unfold intern. destruct (lookup st !! s) as [id|] eqn:Hs; [done|].
  destruct (Z.leb_spec (max_strings st) (Z.of_nat (length (strings st)))) as [Hfull|Hroom].
  - destruct (intern_fresh {| strings := []; lookup := ∅; max_strings := max_strings st |} s)
      as [H1 _]; cbn.
    + pose proof (tb_cap _ Hok). split; cbn; [done|lia|].
      intros s' i. rewrite lookup_empty, lookup_nil. by split; [|intros []].
    + apply lookup_empty.
    + pose proof (tb_cap _ Hok). lia.
    + split; [exact H1|]. by rewrite lookup_insert_eq.
  - destruct (intern_fresh st s Hok Hs Hroom) as [H1 _]. split; [exact H1|].
    cbn. by rewrite lookup_insert_eq.
Qed.

(** With a capacity that fits the 16-bit ids, every string interned gets the
    position at which the table stores it, so two strings interned from one state on
    without a reset get different ids; a table is emptied only when full. *)
Theorem intern_ids st s :
  table_ok st ->
  let '(st', id) := intern st s in
  table_ok st' /\ 0 <= id < 2 ^ 16 /\ strings st' !! Z.to_nat id = Some s /\
  (forall s' id', lookup st' !! s' = Some id' -> id' = id -> s' = s) /\
  (lookup st !! s = None -> Z.of_nat (length (strings st)) < max_strings st ->
     strings st' = strings st ++ [s]).
Proof.
  intros Hok. destruct (table_intern_ok st s Hok) as [H1 H2].
  assert (lookup st !! s = None -> Z.of_nat (length (strings st)) < max_strings st ->
    strings (intern st s).1 = strings st ++ [s]) as H3.
  { intros Hn Hlt. unfold intern. rewrite Hn. cbn. by rewrite (proj2 (Z.leb_gt _ _) Hlt). }
  destruct (intern st s) as [st' id]; cbn [fst snd] in *.
  apply (tb_lookup _ H1) in H2 as [Hi Hs]. split; [done|]. split; [|split; [done|split; [|done]]].
  - split; [done|]. apply lookup_lt_Some in Hs. pose proof (tb_len _ H1). pose proof (tb_cap _ H1).
    lia.
  - intros s' id' [_ Hs']%(tb_lookup _ H1) ->. congruence.
Qed.

Lemma intern_ids_witness :
  let st := (intern (with_cap 2) "a").1 in
  (intern st "b").2 = 1 /\ strings (intern st "b").1 !! 1%nat = Some "b".
Proof.
  intros st. split; [reflexivity|].
  assert (table_ok st) as Hok.
  { apply table_intern_ok, with_cap_ok. lia. }
  pose proof (intern_ids st "b" Hok) as Hi.
  change (intern st "b") with ((intern st "b").1, 1) in *. apply Hi.
Defined.

(** A capacity above 65,536 is accepted, and then ids collide: once 65,536 strings are
    stored, the next new string is given the id 0 of the first one. *)
Theorem intern_wraps st first rest s :
  strings st = first :: rest -> Z.of_nat (length (strings st)) = 2 ^ 16 ->
  2 ^ 16 < max_strings st -> lookup st !! first = Some 0 -> lookup st !! s = None ->
  let '(st', id) := intern st s in
  id = 0 /\ first <> s /\ lookup st' !! first = Some 0 /\ lookup st' !! s = Some 0.
Proof.
  intros Hst Hl Hm Hf Hn. assert (first <> s) as Hne by congruence.
  unfold intern. rewrite Hn, Hl, (proj2 (Z.leb_gt _ _)), Hl by lia. cbn [lookup].
  split; [done|]. split; [done|]. by rewrite lookup_insert_eq, lookup_insert_ne.
Qed.

Lemma intern_wraps_witness :
  let st := {| strings := "x" :: replicate (Z.to_nat 65535) "y";
               lookup := {[ "x" := 0; "y" := 7 ]}; max_strings := 100000 |} in
  lookup (intern st "z").1 !! "z" = Some 0.
Proof.
  intros st.
  assert (Z.of_nat (length (strings st)) = 2 ^ 16) as Hl.
  { cbn [strings length st]. rewrite length_replicate. lia. }
  pose proof (intern_wraps st "x" (replicate (Z.to_nat 65535) "y") "z" eq_refl Hl
    ltac:(cbn [max_strings st]; lia) eq_refl eq_refl) as Hw.
  destruct (intern st "z") as [st' id]. apply Hw.
Defined.

End StringTable.

(** ** Scrolling *)
Section compressors.
Context `{Chrono}.

(** An event of [extract_scroll_events]: id, time, position, signed amount,
    rotation, axis. *)
Record scroll_event := {
  se_id : Z; se_time : instant; se_position : MousePosition;
  se_amount : Z; se_rotation : Z; se_axis : WheelAxis
}.

Definition extract_scroll_event (e : RawEvent) : option scroll_event :=
  match e with
  | RawMouseInput timestamp event_id data =>
      match wheel_amount data, wheel_rotation data, wheel_axis data with
      | Some amount, Some rotation, Some axis =>
          let signed_amount := if 0 <=? rotation then amount else sw 32 (- amount) in
          Some {| se_id := event_id; se_time := timestamp; se_position := position data;
                  se_amount := signed_amount; se_rotation := rotation; se_axis := axis |}
      | _, _, _ => None
      end
  | _ => None
  end.

Definition extract_scroll_events (events : list RawEvent) : list scroll_event :=
  omap extract_scroll_event events.

Record ScrollCompressor := { sc_max_gap_ms : Z }.
Definition scroll_new : ScrollCompressor := {| sc_max_gap_ms := 500 |}.

Definition determine_direction (signed_amount : Z) (axis : WheelAxis) : ScrollDirection :=
  infer_scroll_direction signed_amount axis.

Definition se_direction (e : scroll_event) : ScrollDirection :=
  determine_direction (se_amount e) (se_axis e).

Definition new_sequence (e : scroll_event) : CompactScrollSequence := {|
  sc_start_time := se_time e; sc_end_time := se_time e; sc_direction := se_direction e;
  sc_total_amount := se_amount e; sc_total_rotation := se_rotation e;
  sc_scroll_count := 1; sc_position := se_position e;
  sc_raw_event_ids := pointer_new DEFAULT_RAW_EVENT_TABLE [se_id e]
|}.

Definition extend_sequence (q : CompactScrollSequence) (e : scroll_event)
    : CompactScrollSequence := {|
  sc_start_time := sc_start_time q; sc_end_time := se_time e;
  sc_direction := sc_direction q;
  sc_total_amount := i32_add (sc_total_amount q) (se_amount e);
  sc_total_rotation := i32_add (sc_total_rotation q) (se_rotation e);
  sc_scroll_count := u32_add (sc_scroll_count q) 1;
  sc_position := sc_position q;
  sc_raw_event_ids :=
    match sc_raw_event_ids q with
    | Some link => Some {| rp_table := rp_table link; rp_ids := rp_ids link ++ [se_id e] |}
    | None => pointer_new DEFAULT_RAW_EVENT_TABLE [se_id e]
    end
|}.

(** The loop of [compress]: [current_sequence] and the sequences pushed. *)
Fixpoint scroll_loop (c : ScrollCompressor) (l : list scroll_event)
    (current : option CompactScrollSequence) (sequences : list CompactScrollSequence)
    : list CompactScrollSequence :=
  match l with
  | [] => match current with Some q => sequences ++ [q] | None => sequences end
  | e :: l' =>
      let fresh :=
        scroll_loop c l' (Some (new_sequence e))
          (match current with Some q => sequences ++ [q] | None => sequences end) in
      match current with
      | Some q =>
          if bool_decide (sc_direction q = se_direction e)
             && (num_milliseconds (se_time e - sc_end_time q) <? sc_max_gap_ms c)
          then scroll_loop c l' (Some (extend_sequence q e)) sequences
          else fresh
      | None => fresh
      end
  end.

Definition scroll_can_compress (c : ScrollCompressor) (events : list RawEvent) : bool :=
  (1 <? Z.of_nat (length (extract_scroll_events events))).

Definition scroll_compress (c : ScrollCompressor) (events : list RawEvent)
    : list CompactScrollSequence :=
  let scroll_events := extract_scroll_events events in
  match scroll_events with
  | [] => []
  | _ => scroll_loop c scroll_events None []
  end.

#[global] Instance scroll_compressor : EventCompressor ScrollCompressor CompactScrollSequence := {|
  can_compress := scroll_can_compress;
  compress c events := (c, scroll_compress c events)
|}.

(** The reference: the run of scroll events and what it sums up to. *)
Definition scroll_cont (gap : Z) (a b : scroll_event) : bool :=
  bool_decide (se_direction a = se_direction b)
  && (num_milliseconds (se_time b - se_time a) <? gap).

Definition scroll_summary (run : list scroll_event) : option CompactScrollSequence :=
  match run with
  | [] => None
  | e :: _ => Some {|
      sc_start_time := se_time e; sc_end_time := se_time (List.last run e);
      sc_direction := se_direction e;
      sc_total_amount := sw 32 (zsum (map se_amount run));
      sc_total_rotation := sw 32 (zsum (map se_rotation run));
      sc_scroll_count := uw 32 (Z.of_nat (length run));
      sc_position := se_position e;
      sc_raw_event_ids := Some {| rp_table := DEFAULT_RAW_EVENT_TABLE; rp_ids := map se_id run |} |}
  end.

(** Amounts and rotations are [i32]. *)
Definition se_fits (e : scroll_event) : Prop := in_s 32 (se_amount e) /\ in_s 32 (se_rotation e).

(** [q] is the summary of the run [run], whose last event is [e]. *)
Definition sums_run (q : CompactScrollSequence) (run : list scroll_event) (e : scroll_event) : Prop :=
  scroll_summary run = Some q /\ last run = Some e /\ se_direction e = sc_direction q.

Lemma new_sequence_sums e : se_fits e -> sums_run (new_sequence e) [e] e.
Proof.
  intros [Ha Hr]. split; [|done]. unfold scroll_summary, new_sequence; cbn.
  by rewrite !Z.add_0_r, !sw_small.
Qed.

Lemma extend_sequence_sums q run a e :
  sums_run q run a -> se_direction e = sc_direction q ->
  sums_run (extend_sequence q e) (run ++ [e]) e.
Proof.
  intros (Hs&Hl&Hd) He. destruct run as [|x run]; [done|]. cbn [scroll_summary app] in Hs.
  injection Hs as <-. split; [|split; [by rewrite last_snoc|done]].
  unfold scroll_summary, extend_sequence. cbn [app sc_start_time sc_end_time sc_direction
    sc_total_amount sc_total_rotation sc_scroll_count sc_position sc_raw_event_ids rp_ids rp_table].
  f_equal. unfold i32_add, u32_add.
  rewrite !sw_add_l, uw_add_l. f_equal.
  - change (x :: run ++ [e]) with ((x :: run) ++ [e]). by rewrite last_last.
  - change (x :: run ++ [e]) with ((x :: run) ++ [e]). rewrite map_app, zsum_app. cbn.
    f_equal. unfold zsum. lia.
  - change (x :: run ++ [e]) with ((x :: run) ++ [e]). rewrite map_app, zsum_app. cbn.
    f_equal. unfold zsum. lia.
  - f_equal. cbn. rewrite length_app. cbn. lia.
  - change (x :: run ++ [e]) with ((x :: run) ++ [e]). by rewrite map_app.
Qed.

Lemma scroll_loop_runs c l q run a out :
  Forall se_fits l -> sums_run q run a ->
  scroll_loop c l (Some q) out
    = out ++ omap scroll_summary
        (join_run (scroll_cont (sc_max_gap_ms c)) run a
           (runs_by (scroll_cont (sc_max_gap_ms c)) l)).
Proof.
  revert q run a out. induction l as [|e l IH]; intros q run a out Hf Hq.
  { cbn. by rewrite (proj1 Hq). }
  apply Forall_cons in Hf as [He Hf]. rewrite join_run_step. cbn [scroll_loop].
  assert (sc_end_time q = se_time a) as ->.
  { destruct Hq as (Hs&Hl&_). destruct run as [|x run]; [done|]. cbn [scroll_summary] in Hs.
    injection Hs as <-. cbn [sc_end_time]. f_equal.
    change (List.last (x :: run) x = a). apply last_Some in Hl as [l' ->]. by rewrite last_last. }
  assert (sc_direction q = se_direction a) as Hd by (symmetry; apply Hq). rewrite Hd.
  unfold scroll_cont at 1.
  destruct (bool_decide (se_direction a = se_direction e)
    && (num_milliseconds (se_time e - se_time a) <? sc_max_gap_ms c)) eqn:Hc.
  - apply andb_prop in Hc as [Hde _]. apply bool_decide_eq_true in Hde.
    apply IH; [done|]. eapply extend_sequence_sums; [done|congruence].
  - rewrite (IH _ [e] e) by (done || by apply new_sequence_sums).
    cbn [omap list_omap]. rewrite (proj1 Hq). by rewrite <- (assoc_L (++)).
Qed.

(** ** Typing *)
Record KeyboardActivityCompressor := { kb_max_gap_ms : Z }.
Definition keyboard_new : KeyboardActivityCompressor := {| kb_max_gap_ms := 30000 |}.
Definition with_gap_ms (gap : Z) : KeyboardActivityCompressor := {| kb_max_gap_ms := gap |}.

Definition extract_keyboard_event (e : RawEvent) : option (Z * instant) :=
  match e with
  | RawKeyboardInput timestamp event_id _ => Some (event_id, timestamp)
  | _ => None
  end.
Definition extract_keyboard_events (events : list RawEvent) : list (Z * instant) :=
  omap extract_keyboard_event events.

Definition keyboard_can_compress (events : list RawEvent) : bool :=
  existsb (fun e => match e with RawKeyboardInput _ _ _ => true | _ => false end) events.

(** The flush of a group. *)
Definition flush_group (group_start group_end : instant) (group_ids : list Z)
    : CompactKeyboardActivity :=
  let duration_secs := f32_of_Z (Z.max (num_seconds (group_end - group_start)) 1) in
  let keystrokes := uw 32 (Z.of_nat (length group_ids)) in
  {| kb_start_time := group_start; kb_end_time := group_end;
     kb_keystrokes := keystrokes;
     kb_keys_per_minute :=
       f32_div (f32_of_Z keystrokes) (f32_div duration_secs (f32_of_Z 60));
     kb_density_per_sec := f32_div (f32_of_Z keystrokes) duration_secs;
     kb_raw_event_ids := pointer_new DEFAULT_RAW_EVENT_TABLE group_ids |}.

Fixpoint keyboard_loop (c : KeyboardActivityCompressor) (keys : list (Z * instant))
    (group_start group_end : instant) (group_ids : list Z)
    (out : list CompactKeyboardActivity) : list CompactKeyboardActivity :=
  match keys with
  | [] => out ++ [flush_group group_start group_end group_ids]
  | (id, ts) :: keys' =>
      let gap := num_milliseconds (ts - group_end) in
      if gap <=? kb_max_gap_ms c
      then keyboard_loop c keys' group_start ts (group_ids ++ [id]) out
      else keyboard_loop c keys' ts ts [id]
             (out ++ [flush_group group_start group_end group_ids])
  end.

Definition keyboard_compress (c : KeyboardActivityCompressor) (events : list RawEvent)
    : list CompactKeyboardActivity :=
  match sort_asc snd (extract_keyboard_events events) with
  | [] => []
  | (id, ts) :: keys => keyboard_loop c keys ts ts [id] []
  end.

#[global] Instance keyboard_compressor :
  EventCompressor KeyboardActivityCompressor CompactKeyboardActivity := {|
  can_compress _ := keyboard_can_compress;
  compress c events := (c, keyboard_compress c events)
|}.

(** The reference: runs of keys at most the gap apart. *)
Definition keyboard_cont (gap : Z) (a b : Z * instant) : bool :=
  num_milliseconds (b.2 - a.2) <=? gap.

Definition keyboard_summary (run : list (Z * instant)) : option CompactKeyboardActivity :=
  match run with
  | [] => None
  | k :: _ => Some (flush_group k.2 (List.last run k).2 (map fst run))
  end.

Lemma keyboard_loop_runs c keys k run a out :
  last (k :: run) = Some a ->
  keyboard_loop c keys k.2 a.2 (map fst (k :: run)) out
    = out ++ omap keyboard_summary
        (join_run (keyboard_cont (kb_max_gap_ms c)) (k :: run) a
           (runs_by (keyboard_cont (kb_max_gap_ms c)) keys)).
Proof.
  revert k run a out. induction keys as [|[id ts] keys IH]; intros k run a out Hl.
  - apply last_Some in Hl as [l' Hl]. cbn [keyboard_loop runs_by join_run omap list_omap].
    unfold keyboard_summary. rewrite Hl at 2. by rewrite last_last.
  - rewrite join_run_step. cbn [keyboard_loop]. unfold keyboard_cont at 1. cbn [snd].
    destruct (num_milliseconds (ts - a.2) <=? kb_max_gap_ms c).
    + change ((k :: run) ++ [(id, ts)]) with (k :: (run ++ [(id, ts)])).
      rewrite <- (IH k (run ++ [(id, ts)]) (id, ts)).
      * cbn [map fst]. by rewrite map_app.
      * change (k :: run ++ [(id, ts)]) with ((k :: run) ++ [(id, ts)]). by rewrite last_snoc.
    + pose proof (IH (id, ts) [] (id, ts) (out ++ [flush_group k.2 a.2 (map fst (k :: run))])
        eq_refl) as Hi. cbn [map fst snd] in Hi. cbn [map]. rewrite Hi.
      cbn [omap list_omap]. apply last_Some in Hl as [l' Hl].
      assert (keyboard_summary (k :: run) = Some (flush_group k.2 a.2 (k.1 :: map fst run))) as ->.
      { unfold keyboard_summary. rewrite Hl at 1. by rewrite last_last. }
      by rewrite <- (assoc_L (++)).
Qed.

(** ** Focus *)
Record FocusEventProcessor := { string_interner : StringTable.StringInterner }.
Definition focus_new : FocusEventProcessor := {| string_interner := StringTable.new |}.
Definition focus_with_cap (max : Z) : FocusEventProcessor :=
  {| string_interner := StringTable.with_cap max |}.

Definition focus_can_compress (events : list RawEvent) : bool :=
  existsb (fun e => match e with RawWindowFocusChange _ _ _ => true | _ => false end) events.

Definition focus_step (p : FocusEventProcessor) (e : RawEvent)
    : FocusEventProcessor * list CompactFocusEvent :=
  match e with
  | RawWindowFocusChange timestamp event_id f =>
      let '(st, app_name_id) := StringTable.intern (string_interner p) (app_name f) in
      let '(st, window_title_id) := StringTable.intern st (window_title f) in
      ({| string_interner := st |},
       [{| fe_timestamp := timestamp; fe_app_name_id := app_name_id;
           fe_window_title_id := window_title_id; fe_pid := pid f;
           fe_window_position := window_position f;
           fe_raw_event_ids := pointer_new DEFAULT_RAW_EVENT_TABLE [event_id] |}])
  | _ => (p, [])
  end.

Definition focus_compress (p : FocusEventProcessor) (events : list RawEvent)
    : FocusEventProcessor * list CompactFocusEvent := run_list focus_step p events.

#[global] Instance focus_compressor : EventCompressor FocusEventProcessor CompactFocusEvent := {|
  can_compress _ := focus_can_compress;
  compress := focus_compress
|}.

(** The raw focus events. *)
Definition focus_event_id (e : RawEvent) : option Z :=
  match e with RawWindowFocusChange _ i _ => Some i | _ => None end.

Lemma focus_compress_ids p events :
  concat (map (fun f => pointer_ids (fe_raw_event_ids f)) (focus_compress p events).2)
    = omap focus_event_id events.
Proof.
  unfold focus_compress. revert p. induction events as [|e events IH]; intros p; [done|].
  rewrite run_list_cons. cbn [snd]. rewrite map_app, concat_app, IH. destruct e; cbn; try done.
  destruct (StringTable.intern (string_interner p) _) as [st a].
  by destruct (StringTable.intern st _).
Qed.

Lemma scroll_summary_ids run q : scroll_summary run = Some q ->
  pointer_ids (sc_raw_event_ids q) = map se_id run.
Proof. unfold scroll_summary. destruct run; [done|]. by intros [= <-]. Qed.

Lemma keyboard_summary_ids run k : keyboard_summary run = Some k ->
  pointer_ids (kb_raw_event_ids k) = map fst run.
Proof.
  unfold keyboard_summary. destruct run; [done|]. intros [= <-]. cbn [flush_group kb_raw_event_ids].
  apply pointer_new_ids.
Qed.

(** Summaries that keep the ids of their run lose none. *)
Lemma summaries_ids {A B} (f : list A -> option B) (ids : B -> list Z) (id : A -> Z) runs :
  (forall run b, f run = Some b -> ids b = map id run) ->
  (forall run, run <> [] -> is_Some (f run)) ->
  Forall (fun run => run <> []) runs ->
  concat (map ids (omap f runs)) = map id (concat runs).
Proof.
  intros Hf Hs. induction 1 as [|run runs Hr Hrs IH]; [done|].
  destruct (Hs run Hr) as [b Hb]. cbn. rewrite Hb. cbn. by rewrite IH, map_app, (Hf run b).
Qed.

(** ** Theorems *)

Lemma scroll_compress_runs c events :
  Forall se_fits (extract_scroll_events events) ->
  scroll_compress c events
    = omap scroll_summary
        (runs_by (scroll_cont (sc_max_gap_ms c)) (extract_scroll_events events)).
Proof.
  intros Hf. unfold scroll_compress. destruct (extract_scroll_events events) as [|e l]; [done|].
  apply Forall_cons in Hf as [He Hf]. cbn [scroll_loop].
  rewrite (scroll_loop_runs _ _ _ [e] e) by (done || by apply new_sequence_sums).
  by rewrite runs_by_cons.
Qed.

Lemma keyboard_compress_runs c events :
  keyboard_compress c events
    = omap keyboard_summary
        (runs_by (keyboard_cont (kb_max_gap_ms c))
           (sort_asc snd (extract_keyboard_events events))).
Proof.
  unfold keyboard_compress. destruct (sort_asc snd _) as [|[id ts] keys]; [done|].
  rewrite runs_by_cons. by apply (keyboard_loop_runs c keys (id, ts) [] (id, ts) []).
Qed.

(** The scroll compressor gives one sequence per maximal run of wheel events of one
    direction, each less than the gap after its predecessor: first and last time,
    first position, the 32-bit sums of amounts and rotations, the count and the ids;
    so the ids of all sequences are those of the wheel events, in order. *)
Theorem scroll_compress_spec c events :
  Forall se_fits (extract_scroll_events events) ->
  scroll_compress c events
    = omap scroll_summary
        (runs_by (scroll_cont (sc_max_gap_ms c)) (extract_scroll_events events)) /\
  concat (map (fun q => pointer_ids (sc_raw_event_ids q)) (scroll_compress c events))
    = map se_id (extract_scroll_events events).
Proof.
  intros Hf. rewrite scroll_compress_runs by done. split; [done|].
  rewrite (summaries_ids _ _ se_id).
  - by rewrite runs_by_concat.
  - apply scroll_summary_ids.
  - intros [|x run] Hr; [done|]. by eexists.
  - apply runs_by_nonempty.
Qed.

(** The keyboard compressor gives one activity per maximal run of key presses at
    most the gap apart, in time order, whatever the order of the input: start, end,
    count and ids of the run; every key press is in exactly one of them. *)
Theorem keyboard_compress_spec c events :
  keyboard_compress c events
    = omap keyboard_summary
        (runs_by (keyboard_cont (kb_max_gap_ms c))
           (sort_asc snd (extract_keyboard_events events))) /\
  concat (map (fun k => pointer_ids (kb_raw_event_ids k)) (keyboard_compress c events))
    ≡ₚ map fst (extract_keyboard_events events) /\
  Forall (linked (keyboard_cont (kb_max_gap_ms c)))
    (runs_by (keyboard_cont (kb_max_gap_ms c))
       (sort_asc snd (extract_keyboard_events events))).
Proof.
  rewrite keyboard_compress_runs. split; [done|]. split; [|apply runs_by_linked].
  rewrite (summaries_ids _ _ fst).
  - by rewrite runs_by_concat, sort_asc_perm.
  - apply keyboard_summary_ids.
  - intros [|x run] Hr; [done|]. by eexists.
  - apply runs_by_nonempty.
Qed.
End compressors.

(** Two wheel steps up, one down, one up again much later. *)
Definition demo_wheel (i ms rotation : Z) : RawEvent :=
  RawMouseInput (millis ms) i {|
    position := {| pos_x := 1; pos_y := 2 |}; button := None; click_count := None;
    event_type := None; wheel_amount := Some 3; wheel_rotation := Some rotation;
    wheel_axis := Some Vertical; wheel_scroll_type := None |}.
Definition demo_wheels : list RawEvent :=
  [demo_wheel 1 0 1; demo_wheel 2 100 1; demo_wheel 3 150 (-1); demo_wheel 4 2000 (-1)].

Lemma scroll_compress_spec_witness :
  map (fun q => pointer_ids (sc_raw_event_ids q))
    (@scroll_compress chrono_ref scroll_new demo_wheels) = [[1; 2]; [3]; [4]] /\
  concat (map (fun q => pointer_ids (sc_raw_event_ids q))
    (@scroll_compress chrono_ref scroll_new demo_wheels)) = [1; 2; 3; 4].
Proof.
  split; [vm_compute; reflexivity|].
  refine (proj2 (@scroll_compress_spec chrono_ref scroll_new demo_wheels _)).
  cbn. rewrite !Forall_cons, Forall_nil. unfold se_fits, in_s.
  vm_compute. repeat split; discriminate.
Defined.
