(* ===== verification/Trajectory.v ===== *)
(** The mouse trajectory compressor of [daemon/compressor.rs]: grouping of moves into
    paths, Douglas-Peucker simplification, distance and velocity in [f32]. *)
From S2P Require Import Prelude Events Float32 CompactEvents Compressor.

Record MouseTrajectoryCompressor := {
  mt_max_gap_ms : Z;
  mt_min_distance : f32;
  mt_epsilon : f32
}.
Definition mouse_new : MouseTrajectoryCompressor := {|
  mt_max_gap_ms := 200; mt_min_distance := f32_of_Z 5; mt_epsilon := f32_of_Z 2 |}.

(** An event of [extract_mouse_events]: id, time, position, kind of trajectory. *)
Record mouse_event := {
  me_id : Z; me_time : instant; me_position : MousePosition; me_type : MouseTrajectoryType
}.

Definition extract_mouse_event (e : RawEvent) : option mouse_event :=
  match e with
  | RawMouseInput timestamp event_id data =>
      match event_type data with
      | Some Moved => Some {| me_id := event_id; me_time := timestamp;
                              me_position := position data; me_type := Movement |}
      | Some Dragged => Some {| me_id := event_id; me_time := timestamp;
                                me_position := position data; me_type := Drag |}
      | _ => None
      end
  | _ => None
  end.
Definition extract_mouse_events (events : list RawEvent) : list mouse_event :=
  omap extract_mouse_event events.

Definition calculate_distance (p1 p2 : MousePosition) : f32 :=
  let dx := f32_of_Z (i32_sub (pos_x p2) (pos_x p1)) in
  let dy := f32_of_Z (i32_sub (pos_y p2) (pos_y p1)) in
  f32_sqrt (f32_add (f32_mul dx dx) (f32_mul dy dy)).

Definition perpendicular_distance (point line_start line_end : MousePosition) : f32 :=
  let a := f32_of_Z (i32_sub (pos_y line_end) (pos_y line_start)) in
  let b := f32_of_Z (i32_sub (pos_x line_start) (pos_x line_end)) in
  let c := f32_of_Z (i32_sub (i32_mul (pos_x line_end) (pos_y line_start))
                             (i32_mul (pos_x line_start) (pos_y line_end))) in
  let numerator :=
    f32_abs (f32_add (f32_add (f32_mul a (f32_of_Z (pos_x point)))
                              (f32_mul b (f32_of_Z (pos_y point)))) c) in
  let denominator := f32_sqrt (f32_add (f32_mul a a) (f32_mul b b)) in
  if f32_eqb denominator f32_zero then f32_zero else f32_div numerator denominator.

(** ** Douglas-Peucker *)
Definition origin : MousePosition := {| pos_x := 0; pos_y := 0 |}.

(** The loop over the inner points: the greatest distance and its index. *)
Definition far_step (points : list MousePosition) (acc : f32 * nat) (i : nat) : f32 * nat :=
  let '(max_distance, max_index) := acc in
  let distance := perpendicular_distance (List.nth i points origin) (List.nth 0 points origin)
                    (List.nth (length points - 1) points origin) in
  if f32_ltb max_distance distance then (distance, i) else acc.

Definition farthest (points : list MousePosition) : f32 * nat :=
  foldl (far_step points) (f32_zero, 0%nat) (seq 1 (length points - 2)).

(** [fuel] bounds the depth of the recursion; [None] when it runs out. *)
Fixpoint douglas_peucker_fuel (fuel : nat) (epsilon : f32) (points : list MousePosition)
    : option (list MousePosition) :=
  if (length points <=? 2)%nat then Some points
  else
    let '(max_distance, max_index) := farthest points in
    if f32_ltb epsilon max_distance then
      match fuel with
      | O => None
      | S fuel =>
          match douglas_peucker_fuel fuel epsilon (take (S max_index) points),
                douglas_peucker_fuel fuel epsilon (drop max_index points) with
          | Some left_, Some right_ => Some (removelast left_ ++ right_)
          | _, _ => None
          end
      end
    else Some [List.nth 0 points origin; List.nth (length points - 1) points origin].

(** As many steps as points are enough ([douglas_peucker_total] below). *)
Definition douglas_peucker (epsilon : f32) (points : list MousePosition) : list MousePosition :=
  default [] (douglas_peucker_fuel (length points) epsilon points).

Definition pairs {A} (l : list A) : list (A * A) := zip l (tail l).

Definition calculate_path_distance (positions : list MousePosition) : f32 :=
  foldl f32_add f32_zero (map (fun p => calculate_distance p.1 p.2) (pairs positions)).

Section mouse.
Context `{Chrono}.

Definition calculate_max_velocity (path : list (instant * MousePosition)) : f32 :=
  foldl f32_max f32_zero
    (map (fun p : (instant * MousePosition) * (instant * MousePosition) =>
        let distance := calculate_distance p.1.2 p.2.2 in
        let time_ms := f32_of_Z (Z.max (num_milliseconds (p.2.1 - p.1.1)) 1) in
        f32_mul (f32_div distance time_ms) (f32_of_Z 1000)) (pairs path)).

(** [build_trajectory]; [first().unwrap()] panics on an empty path: [None]. *)
Definition build_trajectory (c : MouseTrajectoryCompressor)
    (path : list (Z * instant * MousePosition)) (ty : MouseTrajectoryType)
    : option CompactMouseTrajectory :=
  match path, last path with
  | first_ :: _, Some last_ =>
      let positions := map snd path in
      Some {|
        mt_start_time := first_.1.2; mt_end_time := last_.1.2; mt_event_type := ty;
        mt_start_position := first_.2; mt_end_position := last_.2;
        mt_simplified_path := douglas_peucker (mt_epsilon c) positions;
        mt_total_distance := calculate_path_distance positions;
        mt_max_velocity := calculate_max_velocity (map (fun p => (p.1.2, p.2)) path);
        mt_raw_event_ids := pointer_new DEFAULT_RAW_EVENT_TABLE (map (fun p => p.1.1) path) |}
  | _, _ => None
  end.

Definition path_point (e : mouse_event) : Z * instant * MousePosition :=
  (me_id e, me_time e, me_position e).

(** The end of a path: kept when it has more than two points. *)
Definition finalize_path (c : MouseTrajectoryCompressor)
    (current_path : list (Z * instant * MousePosition))
    (current_type : option MouseTrajectoryType) (trajectories : list CompactMouseTrajectory)
    : list CompactMouseTrajectory :=
  if 2 <? Z.of_nat (length current_path) then
    match current_type with
    | Some t => trajectories ++ option_list (build_trajectory c current_path t)
    | None => trajectories
    end
  else trajectories.

Definition ends_path (c : MouseTrajectoryCompressor) (last_time : instant)
    (last_pos : MousePosition) (current_type : option MouseTrajectoryType) (e : mouse_event)
    : bool :=
  let time_gap := num_milliseconds (me_time e - last_time) in
  let distance := calculate_distance last_pos (me_position e) in
  let type_changed := match current_type with
                      | Some t => bool_decide (t <> me_type e) | None => false end in
  (mt_max_gap_ms c <? time_gap) || f32_ltb distance (mt_min_distance c) || type_changed.

Fixpoint mouse_loop (c : MouseTrajectoryCompressor) (l : list mouse_event)
    (current_path : list (Z * instant * MousePosition))
    (current_type : option MouseTrajectoryType) (trajectories : list CompactMouseTrajectory)
    : list CompactMouseTrajectory :=
  match l with
  | [] => finalize_path c current_path current_type trajectories
  | e :: l' =>
      let '(path, out) :=
        match last current_path with
        | Some (_, last_time, last_pos) =>
            if ends_path c last_time last_pos current_type e
            then ([], finalize_path c current_path current_type trajectories)
            else (current_path, trajectories)
        | None => (current_path, trajectories)
        end in
      mouse_loop c l' (path ++ [path_point e]) (Some (me_type e)) out
  end.

Definition mouse_can_compress (events : list RawEvent) : bool :=
  2 <? Z.of_nat (length (extract_mouse_events events)).

Definition mouse_compress (c : MouseTrajectoryCompressor) (events : list RawEvent)
    : list CompactMouseTrajectory :=
  let mouse_events := extract_mouse_events events in
  if Z.of_nat (length mouse_events) <? 3 then []
  else mouse_loop c mouse_events [] None [].

#[global] Instance mouse_compressor :
  EventCompressor MouseTrajectoryCompressor CompactMouseTrajectory := {|
  can_compress _ := mouse_can_compress;
  compress c events := (c, mouse_compress c events)
|}.

(** ** Lemmas: the simplification *)

Lemma far_step_index points acc l :
  Forall (fun i => 1 <= i < length points - 1)%nat l ->
  (acc = (f32_zero, 0) \/ 1 <= acc.2 < length points - 1)%nat ->
  (let r := foldl (far_step points) acc l in
   r = (f32_zero, 0) \/ 1 <= r.2 < length points - 1)%nat.
Proof.
  revert acc. induction l as [|i l IH]; intros [d j] Hl Hacc; [done|].
  apply Forall_cons in Hl as [Hi Hl]. cbn [foldl]. apply IH; [done|].
  unfold far_step. destruct (f32_ltb d _); [by right|done].
Qed.

Lemma farthest_index points :
  (farthest points = (f32_zero, 0) \/ 1 <= (farthest points).2 < length points - 1)%nat.
Proof.
  apply far_step_index; [|by left]. apply Forall_forall. intros i Hi%elem_of_seq. lia.
Qed.

(** A path from [a] to [b] over inner points of the list. *)
Definition thins (points path : list MousePosition) : Prop :=
  exists a b inner kept, points = a :: inner ++ [b] /\ path = a :: kept ++ [b] /\
    kept `sublist_of` inner.

Lemma endpoints_split (points : list MousePosition) :
  (2 <= length points)%nat ->
  exists a b inner, points = a :: inner ++ [b] /\
    a = List.nth 0 points origin /\ b = List.nth (length points - 1) points origin.
Proof.
  destruct points as [|a l]; cbn; [lia|]. intros Hl.
  destruct l as [|y l] using rev_ind; cbn in Hl; [lia|]. clear IHl.
  exists a, y, l. split; [done|]. split; [done|]. rewrite length_app. cbn.
  replace (length l + 1 - 0)%nat with (S (length l)) by lia. cbn.
  rewrite app_nth2 by lia. by rewrite Nat.sub_diag.
Qed.

Lemma douglas_peucker_fuel_thins epsilon fuel points :
  f32_ltb epsilon f32_zero = false ->
  (2 <= length points)%nat -> (length points <= fuel + 2)%nat ->
  exists path, douglas_peucker_fuel fuel epsilon points = Some path /\ thins points path.
Proof.
  intros He. revert points. induction fuel as [|fuel IH]; intros points H2 Hf.
  - cbn. rewrite (proj2 (Nat.leb_le _ _)) by lia. exists points. split; [done|].
    destruct (endpoints_split points H2) as (a&b&inner&->&_). by exists a, b, inner, inner.
  - cbn [douglas_peucker_fuel]. destruct (Nat.leb_spec (length points) 2) as [Hle|Hgt].
    { exists points. split; [done|].
      destruct (endpoints_split points H2) as (a&b&inner&->&_). by exists a, b, inner, inner. }
    pose proof (farthest_index points) as Hfar.
    destruct (farthest points) as [d k]; cbn [snd] in Hfar.
    destruct (f32_ltb epsilon d) eqn:Hd.
    + destruct Hfar as [[= -> ->]|Hk]; [congruence|].
      destruct (IH (take (S k) points)) as (left&->&(a1&p1&i1&k1&Hp1&->&Hs1));
        [rewrite length_take; lia|rewrite length_take; lia|].
      destruct (IH (drop k points)) as (right&->&(p2&b2&i2&k2&Hp2&->&Hs2));
        [rewrite length_drop; lia|rewrite length_drop; lia|].
      eexists. split; [done|].
      assert (points = take k points ++ drop k points) as Hsplit by (by rewrite take_drop).
      assert (take (S k) points = take k points ++ [p2]) as Htk.
      { rewrite (take_S_r _ _ p2); [done|].
        rewrite <- (Nat.add_0_r k), <- lookup_drop, Hp2. done. }
      rewrite Hp1 in Htk. change (a1 :: i1 ++ [p1]) with ((a1 :: i1) ++ [p1]) in Htk.
      apply app_inj_tail in Htk as [Htk ->].
      rewrite Hp2, <- Htk in Hsplit.
      exists a1, b2, (i1 ++ p2 :: i2), (k1 ++ p2 :: k2). split; [|split].
      * rewrite Hsplit. cbn. by rewrite <- (assoc_L (++)).
      * change (a1 :: k1 ++ [p2]) with ((a1 :: k1) ++ [p2]). rewrite removelast_last.
        cbn. by rewrite <- (assoc_L (++)).
      * apply sublist_app; [done|]. by apply sublist_skip.
    + eexists. split; [done|]. destruct (endpoints_split points H2) as (a&b&inner&Hp&<-&<-).
      exists a, b, inner, []. split; [done|]. split; [done|]. apply sublist_nil_l.
Qed.

(** *** The simplification as a relation

    The distance of a point to the line through the ends, in [f32]. *)
Definition off_chord (p a b : MousePosition) : f32 :=
  let num z := f32_of_Z (sw 32 z) in
  let u := num (pos_y b - pos_y a) in
  let v := num (pos_x a - pos_x b) in
  let w := num (sw 32 (pos_x b * pos_y a) - sw 32 (pos_x a * pos_y b)) in
  let norm := f32_sqrt (f32_add (f32_mul u u) (f32_mul v v)) in
  if f32_eqb norm f32_zero then f32_zero
  else f32_div (f32_abs (f32_add (f32_add (f32_mul u (f32_of_Z (pos_x p)))
         (f32_mul v (f32_of_Z (pos_y p)))) w)) norm.

(** A path whose inner points are all within the tolerance of the line through its ends
    is reduced to the ends; otherwise it is simplified on both sides of an inner point
    that is beyond the tolerance and that no other is farther than. *)
Inductive simplifies (epsilon : f32) : list MousePosition -> list MousePosition -> Prop :=
  | simplifies_flat a inner b :
      Forall (fun p => f32_ltb epsilon (off_chord p a b) = false) inner ->
      simplifies epsilon (a :: inner ++ [b]) [a; b]
  | simplifies_split a l m r b p1 p2 :
      f32_ltb epsilon (off_chord m a b) = true ->
      Forall (fun p => f32_ltb (off_chord m a b) (off_chord p a b) = false) (l ++ r) ->
      simplifies epsilon (a :: l ++ [m]) (p1 ++ [m]) ->
      simplifies epsilon (m :: r ++ [b]) (m :: p2) ->
      simplifies epsilon (a :: l ++ m :: r ++ [b]) (p1 ++ m :: p2).

Lemma perpendicular_off_chord p a b : perpendicular_distance p a b = off_chord p a b.
Proof. reflexivity. Qed.

(** The scan for the greatest distance finds a bound of all of them. *)
Lemma far_steps_greatest points l : forall d j,
  f32_place d <> None ->
  let dist i := perpendicular_distance (List.nth i points origin) (List.nth 0 points origin)
                  (List.nth (length points - 1) points origin) in
  let r := foldl (far_step points) (d, j) l in
  f32_place r.1 <> None /\ f32_ltb r.1 d = false /\
  (forall i, i ∈ l -> f32_ltb r.1 (dist i) = false) /\
  (r = (d, j) \/ r.2 ∈ l /\ r.1 = dist r.2).
Proof.
  induction l as [|i l IH]; intros d j Hd dist r.
  { split; [done|]. split; [apply f32_ltb_irrefl|]. split; [by intros i ?%elem_of_nil|by left]. }
  subst r. cbn [foldl].
  assert (far_step points (d, j) i = if f32_ltb d (dist i) then (dist i, i) else (d, j)) as -> by done.
  destruct (f32_ltb d (dist i)) eqn:Hi.
  - destruct (IH (dist i) i (proj2 (f32_ltb_number _ _ Hi))) as (H1&H2&H3&H4).
    set (r := foldl _ _ l) in *. split; [done|]. split; [|split].
    + destruct (f32_ltb r.1 d) eqn:E; [|done].
      by rewrite (f32_ltb_trans r.1 d (dist i) E Hi) in H2.
    + intros k [->|Hk]%elem_of_cons; [done|by apply H3].
    + right. destruct H4 as [H4|[H4 H5]]. 
      { rewrite H4. split; [left|done]. } { split; [by right|done]. }
  - destruct (IH d j Hd) as (H1&H2&H3&H4). set (r := foldl _ _ l) in *.
    split; [done|]. split; [done|]. split.
    + intros k [->|Hk]%elem_of_cons; [|by apply H3].
      destruct (f32_ltb r.1 (dist i)) eqn:E; [|done].
      by rewrite (f32_not_less_ltb d r.1 (dist i) H2 E Hd) in Hi.
    + destruct H4 as [->|[H4 H5]]; [by left|right; split; [by right|done]].
Qed.

(** What the scan says of a path's inner points. *)
Lemma farthest_spec a inner b (points := a :: inner ++ [b]) :
  f32_place (farthest points).1 <> None /\
  (forall p, p ∈ inner -> f32_ltb (farthest points).1 (off_chord p a b) = false) /\
  (farthest points = (f32_zero, 0%nat) \/
   exists l m r, inner = l ++ m :: r /\ (farthest points).2 = S (length l) /\
     (farthest points).1 = off_chord m a b).
Proof.
  assert (length points = S (S (length inner))) as Hlen
    by (unfold points; cbn; rewrite length_app; cbn; lia).
  assert (List.nth 0 points origin = a) as Ha by done.
  assert (List.nth (length points - 1) points origin = b) as Hb.
  { replace (length points - 1)%nat with (length (a :: inner)) by (rewrite Hlen; cbn; lia).
    unfold points. rewrite app_comm_cons, app_nth2 by lia. by rewrite Nat.sub_diag. }
  assert (forall i, (i < length inner)%nat -> List.nth (S i) points origin = List.nth i inner origin) as Hin.
  { intros i Hi. unfold points. cbn. by rewrite app_nth1. }
  unfold farthest. rewrite Hlen. replace (S (S (length inner)) - 2)%nat with (length inner) by lia.
  destruct (far_steps_greatest points (seq 1 (length inner)) f32_zero 0 ltac:(done)) as (H1&_&H3&H4).
  rewrite Ha, Hb in H3, H4. set (f := foldl _ _ _) in *. split; [done|]. split.
  - intros p Hp. apply list_elem_of_lookup in Hp as [i Hi]. pose proof (lookup_lt_Some _ _ _ Hi) as Hl.
    specialize (H3 (S i)). rewrite elem_of_seq, Hin in H3 by done.
    rewrite (nth_lookup_Some _ _ _ _ Hi) in H3. rewrite <- perpendicular_off_chord. apply H3. lia.
  - destruct H4 as [->|[Hi Hd]]; [by left|]. right. apply elem_of_seq in Hi.
    destruct f.2 as [|k] eqn:Ek; [lia|]. rewrite Hin in Hd by lia.
    destruct (lookup_lt_is_Some_2 inner k) as [m Hm]; [lia|].
    exists (take k inner), m, (drop (S k) inner). split; [by rewrite take_drop_middle|].
    rewrite length_take_le by lia. split; [done|]. by rewrite Hd, (nth_lookup_Some _ _ _ _ Hm).
Qed.

Lemma simplifies_ends epsilon points path :
  simplifies epsilon points path ->
  (forall a b inner, points = a :: inner ++ [b] -> exists kept, path = a :: kept ++ [b]).
Proof.
  induction 1 as [a inner b Hf|a l m r b p1 p2 Hm Hall H1 IH1 H2 IH2]; intros a' b' inner' Heq.
  - injection Heq as -> Heq. apply app_inj_tail in Heq as [-> ->]. by exists [].
  - injection Heq as -> Heq. destruct (IH1 a' m l eq_refl) as [k1 Hk1].
    destruct (IH2 m b r eq_refl) as [k2 Hk2].
    change (a' :: k1 ++ [m]) with ((a' :: k1) ++ [m]) in Hk1.
    apply app_inj_tail in Hk1 as [-> _]. injection Hk2 as ->.
    assert (b = b') as ->.
    { change (m :: r ++ [b]) with ([m] ++ r ++ [b]) in Heq. rewrite !(assoc_L (++)) in Heq.
      by apply app_inj_tail in Heq as [_ ->]. }
    exists (k1 ++ m :: k2). cbn. by rewrite <- (assoc_L (++)).
Qed.

Lemma douglas_peucker_fuel_simplifies epsilon fuel : forall points path,
  f32_ltb epsilon f32_zero = false -> (2 <= length points)%nat ->
  douglas_peucker_fuel fuel epsilon points = Some path -> simplifies epsilon points path.
Proof.
  induction fuel as [|fuel IH]; intros points path He H2.
  all: destruct (endpoints_split points H2) as (a&b&inner&Hp&Ha&Hb).
  all: cbn [douglas_peucker_fuel]; destruct (Nat.leb_spec (length points) 2) as [Hle|Hgt];
    [intros [= <-]; subst points; cbn in Hle; rewrite length_app in Hle; cbn in Hle;
     destruct inner; [by apply (simplifies_flat epsilon a [] b)|cbn in Hle; lia]|].
  all: destruct (farthest_spec a inner b) as (Hn&Hall&Hfar); rewrite <- Hp in Hn, Hall, Hfar;
    destruct (farthest points) as [d k]; cbn [fst snd] in *; destruct (f32_ltb epsilon d) eqn:Hd.
  1: done.
  2: { destruct Hfar as [[= -> ->]|(l&m&r&Hin&->&->)]; [congruence|].
       assert (take (S (S (length l))) points = a :: l ++ [m]) as Ht.
       { rewrite Hp, Hin. cbn. f_equal. rewrite <- (assoc_L (++)). cbn.
         rewrite take_app_ge by lia. by replace (S (length l) - length l)%nat with 1%nat by lia. }
       assert (drop (S (length l)) points = m :: r ++ [b]) as Hdr.
       { rewrite Hp, Hin. cbn. rewrite <- (assoc_L (++)). by rewrite drop_app_length. }
       rewrite Ht, Hdr.
       destruct (douglas_peucker_fuel fuel epsilon (a :: l ++ [m])) as [left_|] eqn:E1; [|done].
       destruct (douglas_peucker_fuel fuel epsilon (m :: r ++ [b])) as [right_|] eqn:E2; [|done].
       intros [= <-].
       apply IH in E1; [|done|cbn; rewrite length_app; cbn; lia].
       apply IH in E2; [|done|cbn; rewrite length_app; cbn; lia].
       destruct (simplifies_ends _ _ _ E1 a m l eq_refl) as [k1 ->].
       destruct (simplifies_ends _ _ _ E2 m b r eq_refl) as [k2 ->].
       change (a :: k1 ++ [m]) with ((a :: k1) ++ [m]). rewrite removelast_last.
       rewrite Hp, Hin, <- (assoc_L (++)). cbn [app].
       apply (simplifies_split epsilon a l m r b (a :: k1) (k2 ++ [b])); try done.
       apply Forall_forall. intros p Hpin. apply Hall. rewrite Hin.
       rewrite !elem_of_app, elem_of_cons in *. tauto. }
  all: intros [= <-]; rewrite <- Ha, <- Hb, Hp; apply simplifies_flat, Forall_forall; intros p Hpin;
    specialize (Hall p Hpin); destruct (f32_ltb epsilon (off_chord p a b)) eqn:E; [|done];
    by rewrite (f32_ltb_not_less _ _ _ E Hall Hn) in Hd.
Qed.


(** ** Lemmas: the grouping *)

(** [b] continues the path that ends in [a]. *)
Definition mouse_cont (c : MouseTrajectoryCompressor) (a b : mouse_event) : bool :=
  negb (ends_path c (me_time a) (me_position a) (Some (me_type a)) b).

Definition mouse_summary (c : MouseTrajectoryCompressor) (run : list mouse_event)
    : option CompactMouseTrajectory :=
  if 2 <? Z.of_nat (length run) then
    match last run with
    | Some e => build_trajectory c (map path_point run) (me_type e)
    | None => None
    end
  else None.

Lemma finalize_path_summary c run a out :
  last run = Some a ->
  finalize_path c (map path_point run) (Some (me_type a)) out
    = out ++ option_list (mouse_summary c run).
Proof.
  intros Hl. unfold finalize_path, mouse_summary. rewrite length_map, Hl.
  destruct (2 <? _); [done|]. by rewrite app_nil_r.
Qed.

Lemma mouse_loop_runs c l run a out :
  last run = Some a ->
  mouse_loop c l (map path_point run) (Some (me_type a)) out
    = out ++ omap (mouse_summary c) (join_run (mouse_cont c) run a (runs_by (mouse_cont c) l)).
Proof.
  revert run a out. induction l as [|e l IH]; intros run a out Hl.
  - cbn [mouse_loop runs_by join_run omap list_omap]. rewrite (finalize_path_summary c run a) by done.
    by destruct (mouse_summary c run).
  - rewrite join_run_step. cbn [mouse_loop].
    assert (last (map path_point run) = Some (path_point a)) as ->
      by (change (last (path_point <$> run) = Some (path_point a)); by rewrite fmap_last, Hl).
    unfold path_point at 1. unfold mouse_cont at 1.
    destruct (ends_path c (me_time a) (me_position a) (Some (me_type a)) e); cbn [negb].
    + rewrite (finalize_path_summary c run a) by done.
      rewrite (IH [e] e) by done. cbn [omap list_omap].
      rewrite <- (assoc_L (++)). by destruct (mouse_summary c run).
    + rewrite <- (IH (run ++ [e]) e) by (by rewrite last_snoc). by rewrite map_app.
Qed.

Lemma mouse_compress_runs c events :
  mouse_compress c events
    = omap (mouse_summary c) (runs_by (mouse_cont c) (extract_mouse_events events)).
Proof.
  unfold mouse_compress. set (l := extract_mouse_events events).
  destruct (Z.ltb_spec (Z.of_nat (length l)) 3) as [Hlt|Hge].
  - symmetry. assert (forall runs, (length (concat runs) < 3)%nat ->
      omap (mouse_summary c) runs = []) as Hnil.
    { induction runs as [|run runs IH]; [done|]. cbn. rewrite length_app. intros Hr.
      unfold mouse_summary at 1. rewrite (proj2 (Z.ltb_ge _ _)) by lia. apply IH. lia. }
    apply Hnil. rewrite runs_by_concat. lia.
  - destruct l as [|e l']; [cbn in Hge; lia|]. cbn [mouse_loop last map app].
    pose proof (mouse_loop_runs c l' [e] e [] eq_refl) as Hr. cbn [map] in Hr.
    cbn [last app] in *. by rewrite Hr, runs_by_cons.
Qed.

(** *** The reference

    What the compressor is to find, said of the events alone. *)
Definition is_move (e : RawEvent) : bool :=
  match e with
  | RawMouseInput _ _ data =>
      bool_decide (event_type data = Some Moved) || bool_decide (event_type data = Some Dragged)
  | _ => false
  end.

(** A move or a drag with its id, its time and its place. *)
Definition is_of (e : RawEvent) (m : mouse_event) : Prop :=
  exists data, e = RawMouseInput (me_time m) (me_id m) data /\ me_position m = position data /\
    event_type data = Some (match me_type m with Movement => Moved | Drag => Dragged end).

Definition euclidean (p q : MousePosition) : f32 :=
  let square z := f32_mul (f32_of_Z (sw 32 z)) (f32_of_Z (sw 32 z)) in
  f32_sqrt (f32_add (square (pos_x q - pos_x p)) (square (pos_y q - pos_y p))).

(** [b] goes on with the path of [a]: the same kind of move, soon enough, and not within
    the minimal distance. *)
Definition continues (c : MouseTrajectoryCompressor) (a b : mouse_event) : Prop :=
  me_type a = me_type b /\
  num_milliseconds (me_time b - me_time a) <= mt_max_gap_ms c /\
  f32_ltb (euclidean (me_position a) (me_position b)) (mt_min_distance c) = false.

(** The way along a path, and its greatest speed in pixels per second. *)
Fixpoint travelled (so_far : f32) (run : list mouse_event) : f32 :=
  match run with
  | a :: (b :: _) as rest =>
      travelled (f32_add so_far (euclidean (me_position a) (me_position b))) rest
  | _ => so_far
  end.
Definition speed (a b : mouse_event) : f32 :=
  f32_mul (f32_div (euclidean (me_position a) (me_position b))
    (f32_of_Z (Z.max 1 (num_milliseconds (me_time b - me_time a))))) (f32_of_Z 1000).
Fixpoint fastest (so_far : f32) (run : list mouse_event) : f32 :=
  match run with
  | a :: (b :: _) as rest => fastest (f32_max so_far (speed a b)) rest
  | _ => so_far
  end.

Record describes (c : MouseTrajectoryCompressor) (run : list mouse_event)
    (t : CompactMouseTrajectory) : Prop := {
  ds_kind : Forall (fun e => me_type e = mt_event_type t) run;
  ds_start : (fun e => (me_time e, me_position e)) <$> head run
    = Some (mt_start_time t, mt_start_position t);
  ds_end : (fun e => (me_time e, me_position e)) <$> last run
    = Some (mt_end_time t, mt_end_position t);
  ds_ids : mt_raw_event_ids t = pointer_new DEFAULT_RAW_EVENT_TABLE (map me_id run);
  ds_path : simplifies (mt_epsilon c) (map me_position run) (mt_simplified_path t);
  ds_distance : mt_total_distance t = travelled f32_zero run;
  ds_velocity : mt_max_velocity t = fastest f32_zero run
}.

Lemma extract_moves events :
  Forall2 is_of (filter (fun e => is_move e = true) events) (extract_mouse_events events).
Proof.
  induction events as [|e events IH]; [constructor|]. rewrite filter_cons.
  unfold extract_mouse_events in *. cbn [omap list_omap].
  destruct e as [|ts i data|]; cbn [extract_mouse_event is_move];
    try (rewrite decide_False by done; exact IH).
  destruct (event_type data) as [[]|] eqn:Ht; cbn;
    try (rewrite decide_False by done; exact IH);
    (rewrite decide_True by done; constructor; [by exists data|exact IH]).
Qed.

Lemma mouse_cont_continues c a b : mouse_cont c a b = true <-> continues c a b.
Proof.
  unfold mouse_cont, ends_path, continues. rewrite negb_true_iff, !orb_false_iff, Z.ltb_ge.
  rewrite bool_decide_eq_false. change (calculate_distance ?p ?q) with (euclidean p q).
  destruct (decide (me_type a = me_type b)); tauto.
Qed.

Lemma path_distance_travelled run : forall d,
  foldl f32_add d (map (fun p => calculate_distance p.1 p.2) (pairs (map me_position run)))
    = travelled d run.
Proof.
  induction run as [|a [|b run] IH]; intros d; [done|done|]. etransitivity; [|exact (IH (f32_add d (euclidean (me_position a) (me_position b))))]. done.
Qed.

Lemma path_velocity_fastest run : forall d,
  foldl f32_max d (map (fun p : (instant * MousePosition) * (instant * MousePosition) =>
      f32_mul (f32_div (calculate_distance p.1.2 p.2.2)
        (f32_of_Z (Z.max (num_milliseconds (p.2.1 - p.1.1)) 1))) (f32_of_Z 1000))
    (pairs (map (fun e => (me_time e, me_position e)) run))) = fastest d run.
Proof.
  induction run as [|a [|b run] IH]; intros d; [done|done|]. etransitivity; [|exact (IH (f32_max d (speed a b)))]. unfold speed. by rewrite Z.max_comm.
Qed.

Lemma linked_kind c run e :
  linked (mouse_cont c) run -> last run = Some e -> Forall (fun x => me_type x = me_type e) run.
Proof.
  induction run as [|a [|b run] IH]; [done|by intros _ [= ->]; repeat constructor|].
  intros [(Hab&_)%mouse_cont_continues Hl] He.
  change (last (b :: run) = Some e) in He. specialize (IH Hl He). constructor; [|done].
  apply Forall_cons in IH as [Hb _]. congruence.
Qed.

Lemma mouse_summary_describes c run :
  f32_ltb (mt_epsilon c) f32_zero = false -> linked (mouse_cont c) run -> (3 <= length run)%nat ->
  exists t, mouse_summary c run = Some t /\ describes c run t.
Proof.
  intros He Hk Hl. unfold mouse_summary. rewrite (proj2 (Z.ltb_lt _ _)) by lia.
  destruct (last run) as [e|] eqn:Hlast; [|apply last_None in Hlast; subst; cbn in Hl; lia].
  pose proof (linked_kind c run e Hk Hlast) as Hkind.
  destruct run as [|x run]; [done|]. unfold build_trajectory. cbn [map].
  assert (last (path_point x :: map path_point run) = Some (path_point e)) as ->
    by (change (last (path_point <$> (x :: run)) = Some (path_point e)); by rewrite fmap_last, Hlast).
  assert (map snd (map path_point run) = map me_position run) as Hpos by apply map_map.
  eexists. split; [reflexivity|]. cbn [map snd path_point]. rewrite Hpos.
  split; cbn [mt_event_type mt_start_time mt_start_position mt_end_time mt_end_position
    mt_raw_event_ids mt_simplified_path mt_total_distance mt_max_velocity]; try done.
  - by rewrite Hlast.
  - f_equal. cbn. by rewrite map_map.
  - unfold douglas_peucker.
    destruct (douglas_peucker_fuel_thins (mt_epsilon c) (length (map me_position (x :: run)))
      (map me_position (x :: run)) He) as (path&Hp&_); [rewrite length_map; lia|lia|].
    cbn [map] in Hp |- *. rewrite Hp. cbn [default]. eapply douglas_peucker_fuel_simplifies; [done| |done].
    cbn in *. rewrite length_map. lia.
  - apply (path_distance_travelled (x :: run)).
  - unfold calculate_max_velocity. rewrite <- (path_velocity_fastest (x :: run)). do 2 f_equal.
    cbn [map]. by rewrite map_map.
Qed.

(** ** Theorems *)

(** With a tolerance that is not negative the recursive simplification terminates
    within as many levels as there are points, for every path of at least two points,
    and any more fuel changes nothing; the result runs from the first to the last
    point over a subsequence of the points between. *)
Theorem douglas_peucker_total epsilon points fuel :
  f32_ltb epsilon f32_zero = false -> (2 <= length points)%nat ->
  (length points <= fuel + 2)%nat ->
  exists path a b inner kept,
    douglas_peucker_fuel fuel epsilon points = Some path /\
    points = a :: inner ++ [b] /\ path = a :: kept ++ [b] /\ kept `sublist_of` inner.
Proof.
  intros He Hl Hf.
  destruct (douglas_peucker_fuel_thins epsilon fuel points He Hl Hf)
    as (path&Hp&a&b&inner&kept&?&?&?).
  by exists path, a, b, inner, kept.
Qed.

(** A path that returns to its first point is simplified to that point twice,
    however far it went in between: the line through equal end points has no
    direction and every distance to it counts as zero. *)
Theorem closed_path_collapses epsilon p inner :
  f32_ltb epsilon f32_zero = false -> inner <> [] ->
  douglas_peucker epsilon (p :: inner ++ [p]) = [p; p].
Proof.
  intros He Hin. set (points := p :: inner ++ [p]).
  assert (length points = S (S (length inner))) as Hlen.
  { unfold points. cbn. rewrite length_app. cbn. lia. }
  destruct (endpoints_split points ltac:(lia)) as (a&b&i&Hp&Ha&Hb).
  assert (a = p /\ b = p) as [-> ->].
  { unfold points in Hp. injection Hp as -> Hp. apply app_inj_tail in Hp as [_ ->]. done. }
  assert (forall q, perpendicular_distance q p p = f32_zero) as Hperp.
  { intros q. unfold perpendicular_distance, i32_sub. rewrite !Z.sub_diag. reflexivity. }
  assert (farthest points = (f32_zero, 0%nat)) as Hfar.
  { unfold farthest. induction (seq 1 (length points - 2)) as [|j l IH]; [done|].
    cbn [foldl].
    assert (far_step points (f32_zero, 0%nat) j = (f32_zero, 0%nat)) as ->; [|exact IH].
    unfold far_step. by rewrite <- Ha, <- Hb, Hperp. }
  unfold douglas_peucker. rewrite Hlen. cbn [douglas_peucker_fuel]. rewrite Hlen, Hfar, He.
  rewrite (proj2 (Nat.leb_gt _ _)) by (destruct inner; [done|cbn; lia]).
  cbn [default]. by rewrite <- Ha, Hlen in *; rewrite <- Hb.
Qed.

End mouse.

(** A drag out and back. *)
Definition demo_points : list MousePosition :=
  [{| pos_x := 0; pos_y := 0 |}; {| pos_x := 10; pos_y := 1 |}; {| pos_x := 20; pos_y := 30 |};
   {| pos_x := 40; pos_y := 0 |}].
Definition demo_drag (i : Z) (p : MousePosition) : RawEvent :=
  RawMouseInput (millis (i * 10)) i {|
    position := p; button := None; click_count := None; event_type := Some Dragged;
    wheel_amount := None; wheel_rotation := None; wheel_axis := None;
    wheel_scroll_type := None |}.

Lemma douglas_peucker_total_witness :
  exists path a b inner kept,
    douglas_peucker_fuel 4 (f32_of_Z 2) demo_points = Some path /\
    demo_points = a :: inner ++ [b] /\ path = a :: kept ++ [b] /\ kept `sublist_of` inner.
Proof.
  apply (douglas_peucker_total (f32_of_Z 2) demo_points 4); [reflexivity|cbn; lia|cbn; lia].
Defined.

Lemma closed_path_collapses_witness :
  douglas_peucker (f32_of_Z 2) (origin :: demo_points ++ [origin]) = [origin; origin].
Proof. apply (closed_path_collapses (f32_of_Z 2)); [reflexivity|discriminate]. Defined.

(** Three drags make a trajectory; the two moves behind them do not. *)
Definition demo_move (i : Z) (p : MousePosition) : RawEvent :=
  RawMouseInput (millis (i * 10)) i {|
    position := p; button := None; click_count := None; event_type := Some Moved;
    wheel_amount := None; wheel_rotation := None; wheel_axis := None;
    wheel_scroll_type := None |}.
Definition demo_events : list RawEvent :=
  zip_with demo_drag [1; 2; 3; 4] demo_points ++ zip_with demo_move [5; 6] demo_points.

