(* ===== verification/Engine.v ===== *)
(** The compression engine of [daemon/compressor.rs]: it runs the four compressors over
    a batch, through their common interface, and keeps the totals. *)
From S2P Require Import Prelude Events Float32 CompactEvents Compressor Trajectory.

Record CompressionEngine := {
  scroll_compressor_ : ScrollCompressor;
  mouse_compressor_ : MouseTrajectoryCompressor;
  keyboard_compressor_ : KeyboardActivityCompressor;
  focus_processor : FocusEventProcessor;
  total_compact_events : Z;
  total_compact_events_bytes : Z
}.

Definition with_focus_cap (max_strings : Z) : CompressionEngine := {|
  scroll_compressor_ := scroll_new; mouse_compressor_ := mouse_new;
  keyboard_compressor_ := keyboard_new; focus_processor := focus_with_cap max_strings;
  total_compact_events := 0; total_compact_events_bytes := 0 |}.
Definition engine_new : CompressionEngine := with_focus_cap 4096.

Section engine.
Context `{Chrono} `{MemSizes}.

(** One compressor's turn: skipped when it has nothing to compress. *)
Definition run_compressor {C Out} `{EventCompressor C Out} (c : C) (raw : list RawEvent)
    (wrap : Out -> CompactEvent) : C * list CompactEvent :=
  if can_compress c raw then
    let '(c, out) := compress c raw in (c, map wrap out)
  else (c, []).

Definition compress_events (g : CompressionEngine) (raw_events : list RawEvent)
    : CompressionEngine * (list RawEvent * list CompactEvent) :=
  match raw_events with
  | [] => (g, ([], []))
  | _ =>
      let '(sc, scrolls) := run_compressor (scroll_compressor_ g) raw_events Scroll in
      let '(mc, mice) := run_compressor (mouse_compressor_ g) raw_events MouseTrajectory in
      let '(kc, keys) := run_compressor (keyboard_compressor_ g) raw_events Keyboard in
      let '(fp, focuses) := run_compressor (focus_processor g) raw_events Focus in
      let compact_events := scrolls ++ mice ++ keys ++ focuses in
      ({| scroll_compressor_ := sc; mouse_compressor_ := mc; keyboard_compressor_ := kc;
          focus_processor := fp;
          total_compact_events :=
            u64_add (total_compact_events g) (Z.of_nat (length compact_events));
          total_compact_events_bytes :=
            foldl (fun t e => u64_add t (memory_size e)) (total_compact_events_bytes g)
              compact_events |},
       (raw_events, compact_events))
  end.

(** The compact events of one kind. *)
Definition is_scroll (e : CompactEvent) : bool :=
  match e with Scroll _ => true | _ => false end.
Definition is_keyboard (e : CompactEvent) : bool :=
  match e with Keyboard _ => true | _ => false end.
Definition is_focus (e : CompactEvent) : bool :=
  match e with Focus _ => true | _ => false end.
Definition is_trajectory (e : CompactEvent) : bool :=
  match e with MouseTrajectory _ => true | _ => false end.

(** The ids the events of a kind point to. *)
Definition ids_of (p : CompactEvent -> bool) (l : list CompactEvent) : list Z :=
  concat (map event_ids (filter (fun e => p e = true) l)).

Lemma ids_of_app p l k : ids_of p (l ++ k) = ids_of p l ++ ids_of p k.
Proof. unfold ids_of. by rewrite filter_app, map_app, concat_app. Qed.

Lemma ids_of_all {A} p (wrap : A -> CompactEvent) l :
  (forall a, p (wrap a) = true) ->
  ids_of p (map wrap l) = concat (map (fun a => event_ids (wrap a)) l).
Proof.
  intros Hp. unfold ids_of. induction l as [|a l IH]; [done|].
  cbn [map]. rewrite filter_cons, decide_True by apply Hp. cbn. by rewrite IH.
Qed.

Lemma ids_of_none {A} p (wrap : A -> CompactEvent) l :
  (forall a, p (wrap a) = false) -> ids_of p (map wrap l) = [].
Proof.
  intros Hp. unfold ids_of. induction l as [|a l IH]; [done|].
  cbn [map]. rewrite filter_cons, decide_False by (rewrite Hp; congruence). exact IH.
Qed.

Lemma bytes_total l t :
  in_u 64 t ->
  foldl (fun t e => u64_add t (memory_size e)) t l = uw 64 (t + zsum (map memory_size l)).
Proof.
  revert t. induction l as [|e l IH]; intros t Ht; cbn.
  - rewrite Z.add_0_r. symmetry. by apply uw_small.
  - rewrite IH by (apply uw_bound; lia). unfold u64_add. rewrite uw_add_l. f_equal. unfold zsum. cbn. lia.
Qed.

Lemma no_keys events : keyboard_can_compress events = false -> extract_keyboard_events events = [].
Proof.
  unfold keyboard_can_compress, extract_keyboard_events.
  induction events as [|[] events IH]; cbn; auto; done.
Qed.

Lemma no_focus events : focus_can_compress events = false -> omap focus_event_id events = [].
Proof.
  unfold focus_can_compress. induction events as [|[] events IH]; cbn; auto; done.
Qed.

(** The batch of a run of one compressor, whether skipped or not. *)
Lemma keyboard_run_ids c raw :
  ids_of is_keyboard (run_compressor c raw Keyboard).2 ≡ₚ map fst (extract_keyboard_events raw).
Proof.
  unfold run_compressor; cbn [can_compress compress keyboard_compressor].
  destruct (keyboard_can_compress raw) eqn:Hk; cbn [snd].
  - rewrite ids_of_all by done. rewrite keyboard_compress_runs. cbn [event_ids].
    rewrite (summaries_ids _ (fun k => pointer_ids (kb_raw_event_ids k)) fst).
    + by rewrite runs_by_concat, sort_asc_perm.
    + apply keyboard_summary_ids.
    + intros [|x run] Hr; [done|]. by eexists.
    + apply runs_by_nonempty.
  - by rewrite no_keys.
Qed.

Lemma focus_run_ids p raw :
  ids_of is_focus (run_compressor p raw Focus).2 = omap focus_event_id raw.
Proof.
  unfold run_compressor; cbn [can_compress compress focus_compressor].
  destruct (focus_can_compress raw) eqn:Hk; cbn [snd].
  - pose proof (focus_compress_ids p raw) as Hi.
    destruct (focus_compress p raw) as [p' out]. cbn [snd] in *. by rewrite ids_of_all.
  - by rewrite no_focus.
Qed.

Lemma scroll_run_ids c raw :
  Forall se_fits (extract_scroll_events raw) ->
  ids_of is_scroll (run_compressor c raw Scroll).2
    = if scroll_can_compress c raw then map se_id (extract_scroll_events raw) else [].
Proof.
  intros Hf. unfold run_compressor; cbn [can_compress compress scroll_compressor].
  destruct (scroll_can_compress c raw); [|done]. cbn [snd].
  rewrite ids_of_all by done. rewrite scroll_compress_runs by done.
  rewrite (summaries_ids _ (fun q => pointer_ids (sc_raw_event_ids q)) se_id).
  - by rewrite runs_by_concat.
  - apply scroll_summary_ids.
  - intros [|x run] Hr; [done|]. by eexists.
  - apply runs_by_nonempty.
Qed.

Lemma run_compressor_kind {C Out} `{EventCompressor C Out} c raw (wrap : Out -> CompactEvent) p :
  (forall a, p (wrap a) = false) -> ids_of p (run_compressor c raw wrap).2 = [].
Proof.
  intros Hp. unfold run_compressor. destruct (can_compress c raw); [|done].
  destruct (compress c raw). by apply ids_of_none.
Qed.

(** Compressing a batch returns the raw events unchanged, and accounts for them:
    every key press is in exactly one keyboard activity and every focus change in one
    focus event; the wheel events are all in scroll sequences, in order, unless there
    is only one, which gives none; and the totals grow by the number and the sizes of
    the compact events, in 64 bits. *)
Theorem compress_events_accounts g raw :
  Forall se_fits (extract_scroll_events raw) -> in_u 64 (total_compact_events_bytes g) ->
  in_u 64 (total_compact_events g) ->
  let '(g', (raw', compact)) := compress_events g raw in
  raw' = raw /\
  ids_of is_keyboard compact ≡ₚ map fst (extract_keyboard_events raw) /\
  ids_of is_focus compact = omap focus_event_id raw /\
  ids_of is_scroll compact
    = (if 1 <? Z.of_nat (length (extract_scroll_events raw))
       then map se_id (extract_scroll_events raw) else []) /\
  total_compact_events g'
    = uw 64 (total_compact_events g + Z.of_nat (length compact)) /\
  total_compact_events_bytes g'
    = uw 64 (total_compact_events_bytes g + zsum (map memory_size compact)).
Proof.
  intros Hf Hb Ht. unfold compress_events. destruct raw as [|e raw0].
  { cbn. rewrite !Z.add_0_r, !uw_small by done. done. }
  set (raw := e :: raw0) in *.
  pose proof (keyboard_run_ids (keyboard_compressor_ g) raw) as Hk.
  pose proof (focus_run_ids (focus_processor g) raw) as Hfo.
  pose proof (scroll_run_ids (scroll_compressor_ g) raw Hf) as Hs.
  assert (forall p, (p = is_keyboard \/ p = is_focus \/ p = is_scroll) ->
    ids_of p (run_compressor (mouse_compressor_ g) raw MouseTrajectory).2 = []) as Hm.
  { intros p Hp. apply run_compressor_kind. intros a. by destruct Hp as [->|[->| ->]]. }
  assert (forall p, (p = is_keyboard \/ p = is_focus) ->
    ids_of p (run_compressor (scroll_compressor_ g) raw Scroll).2 = []) as Hs0.
  { intros p Hp. apply run_compressor_kind. intros a. by destruct Hp as [->| ->]. }
  assert (forall p, (p = is_scroll \/ p = is_focus) ->
    ids_of p (run_compressor (keyboard_compressor_ g) raw Keyboard).2 = []) as Hk0.
  { intros p Hp. apply run_compressor_kind. intros a. by destruct Hp as [->| ->]. }
  assert (forall p, (p = is_keyboard \/ p = is_scroll) ->
    ids_of p (run_compressor (focus_processor g) raw Focus).2 = []) as Hf0.
  { intros p Hp. apply run_compressor_kind. intros a. by destruct Hp as [->| ->]. }
  destruct (run_compressor (scroll_compressor_ g) raw Scroll) as [sc q1].
  destruct (run_compressor (mouse_compressor_ g) raw MouseTrajectory) as [mc q2].
  destruct (run_compressor (keyboard_compressor_ g) raw Keyboard) as [kc q3].
  destruct (run_compressor (focus_processor g) raw Focus) as [fc q4]. cbn [snd] in *.
  cbn [total_compact_events total_compact_events_bytes].
  rewrite !ids_of_app, (Hm is_keyboard), (Hm is_focus), (Hm is_scroll), (Hs0 is_keyboard),
    (Hs0 is_focus), (Hk0 is_scroll), (Hk0 is_focus), (Hf0 is_keyboard), (Hf0 is_scroll), Hfo, Hs
    by auto.
  rewrite !app_nil_r. split; [done|]. split; [exact Hk|]. split; [done|].
  split; [done|]. split; [done|]. by apply bytes_total.
Qed.
End engine.

(** A batch of one key press, one wheel step and one focus change. *)
Definition demo_batch : list RawEvent := [
  RawKeyboardInput 0 1 {| key_code := None; key_char := None; modifiers := [] |};
  demo_wheel 2 5 1;
  RawWindowFocusChange 10 3 {| pid := 9; process_start_time := 1; app_name := "a";
    window_title := "t"; window_id := 1; window_instance_start := 0;
    window_position := None; window_size := None |}].
Definition sizes_ref : MemSizes := {|
  size_of_scroll := 96; size_of_trajectory := 128; size_of_position := 8;
  size_of_keyboard := 72; size_of_focus := 72 |}.

Lemma compress_events_accounts_witness :
  ids_of is_scroll (@compress_events chrono_ref sizes_ref engine_new demo_batch).2.2 = [] /\
  ids_of is_focus (@compress_events chrono_ref sizes_ref engine_new demo_batch).2.2 = [3].
Proof.
  pose proof (@compress_events_accounts chrono_ref sizes_ref engine_new demo_batch) as Hc.
  destruct (@compress_events chrono_ref sizes_ref engine_new demo_batch) as [g' [raw' compact]].
  destruct Hc as (_&_&Hf&Hs&_).
  - cbn. rewrite Forall_cons, Forall_nil. unfold se_fits, in_s.
    vm_compute. repeat split; discriminate.
  - split; vm_compute; congruence.
  - split; vm_compute; congruence.
  - split; [exact Hs|exact Hf].
Defined.
