(* ===== verification/PipelineTypes.v ===== *)
(** The messages of the pipeline: [daemon/pipeline/types.rs], the input events of
    [daemon/coordinator.rs], the storage commands of [crates/storage/src/lib.rs], and
    the channels between the stages. *)
From S2P Require Import Prelude Events Records SnapshotBus CompactEvents.

Inductive FlushReason := Timeout_ | Shutdown_.
#[export] Instance FlushReason_eq_dec : EqDecision FlushReason.
Proof. solve_decision. Defined.
#[export] Instance FlushReason_countable : Countable FlushReason.
Proof.
  refine {| encode r := match r with Timeout_ => 1%positive | Shutdown_ => 2%positive end;
            decode p := match p with 1%positive => Some Timeout_ | _ => Some Shutdown_ end |}.
  by intros [].
Defined.

Record RawBatch := { rb_events : list RawEvent; rb_reason : FlushReason }.
Definition batch_is_empty (b : RawBatch) : bool :=
  match rb_events b with [] => true | _ => false end.

Inductive DeriveCommand :=
  | DBatch (b : RawBatch)
  | DTick (now : instant)
  | DShutdown.

Inductive CompressionCommand :=
  | CProcess (batch : RawBatch) (envelopes : list EventEnvelope)
  | CShutdown.

Record SnapshotUpdate := {
  u_hints_delta : Z;
  u_signals_delta : Z;
  u_focus : option WindowFocusInfo;
  u_focus_title : option (Z * string);
  u_transition : option Transition;
  u_state : option ActivityState
}.

Definition update_default : SnapshotUpdate := {|
  u_hints_delta := 0; u_signals_delta := 0; u_focus := None; u_focus_title := None;
  u_transition := None; u_state := None |}.

Definition is_none {A} (o : option A) : bool := match o with None => true | Some _ => false end.

Definition update_is_empty (u : SnapshotUpdate) : bool :=
  (u_hints_delta u =? 0) && (u_signals_delta u =? 0) && is_none (u_focus u)
  && is_none (u_focus_title u) && is_none (u_transition u) && is_none (u_state u).

Inductive SnapshotMessage :=
  | SUpdate (u : SnapshotUpdate)
  | SRecord (r : ActivityRecord)
  | SPublish
  | SHintsComplete
  | SShutdown.

Inductive KronicalEvent :=
  | KKeyboardInput
  | KMouseInput (x y : Z) (button : option MouseButton) (clicks : Z) (kind : MouseEventKind)
  | KMouseWheel (clicks x y : Z) (scroll_type : WheelScrollType) (amount rotation : Z)
      (axis : option WheelAxis)
  | KWindowFocusChange (focus_info : WindowFocusInfo)
  | KShutdown.

Inductive StorageCommand :=
  | StRawEvent (e : RawEvent)
  | StRecord (r : ActivityRecord)
  | StEnvelope (e : EventEnvelope)
  | StCompactEvents (l : list CompactEvent)
  | StTransition (t : Transition)
  | StShutdown.

(** A send of a stage, by the channel it goes to. *)
Inductive output :=
  | ToHints (e : EventEnvelope)
  | ToCompression (c : CompressionCommand)
  | ToSnapshot (m : SnapshotMessage)
  | ToStorage (c : StorageCommand).

(** What went to each channel, in order. *)
Definition to_hints (l : list output) : list EventEnvelope :=
  omap (fun o => match o with ToHints e => Some e | _ => None end) l.
Definition to_compression (l : list output) : list CompressionCommand :=
  omap (fun o => match o with ToCompression c => Some c | _ => None end) l.
Definition to_snapshot (l : list output) : list SnapshotMessage :=
  omap (fun o => match o with ToSnapshot m => Some m | _ => None end) l.
Definition to_storage (l : list output) : list StorageCommand :=
  omap (fun o => match o with ToStorage c => Some c | _ => None end) l.

(** Which channels still have a receiver: an unbounded send fails exactly when its
    receiver is gone. *)
Record open_channels := {
  hints_open : bool; compression_open : bool; snapshot_open : bool; storage_open : bool
}.
Definition all_open : open_channels :=
  {| hints_open := true; compression_open := true; snapshot_open := true; storage_open := true |}.

(** The messages delivered of a send. *)
Definition send (ok : bool) (o : output) : list output := if ok then [o] else [].

Lemma to_hints_app l k : to_hints (l ++ k) = to_hints l ++ to_hints k.
Proof. apply omap_app. Qed.
Lemma to_compression_app l k : to_compression (l ++ k) = to_compression l ++ to_compression k.
Proof. apply omap_app. Qed.
Lemma to_snapshot_app l k : to_snapshot (l ++ k) = to_snapshot l ++ to_snapshot k.
Proof. apply omap_app. Qed.
Lemma to_storage_app l k : to_storage (l ++ k) = to_storage l ++ to_storage k.
Proof. apply omap_app. Qed.

Lemma to_hints_cons o l :
  to_hints (o :: l) = (match o with ToHints e => [e] | _ => [] end) ++ to_hints l.
Proof. by destruct o. Qed.
Lemma to_compression_cons o l :
  to_compression (o :: l) = (match o with ToCompression c => [c] | _ => [] end) ++ to_compression l.
Proof. by destruct o. Qed.
Lemma to_snapshot_cons o l :
  to_snapshot (o :: l) = (match o with ToSnapshot m => [m] | _ => [] end) ++ to_snapshot l.
Proof. by destruct o. Qed.
Lemma to_storage_cons o l :
  to_storage (o :: l) = (match o with ToStorage c => [c] | _ => [] end) ++ to_storage l.
Proof. by destruct o. Qed.
Lemma to_hints_nil : to_hints [] = [].
Proof. done. Qed.
Lemma to_compression_nil : to_compression [] = [].
Proof. done. Qed.
Lemma to_snapshot_nil : to_snapshot [] = [].
Proof. done. Qed.
Lemma to_storage_nil : to_storage [] = [].
Proof. done. Qed.

(** Sends sorted by channel. *)
Ltac routes :=
  rewrite ?to_hints_app, ?to_compression_app, ?to_snapshot_app, ?to_storage_app,
    ?to_hints_cons, ?to_compression_cons, ?to_snapshot_cons, ?to_storage_cons,
    ?to_hints_nil, ?to_compression_nil, ?to_snapshot_nil, ?to_storage_nil.

#[export] Hint Rewrite to_hints_app to_compression_app to_snapshot_app to_storage_app
  @omap_app @app_nil_r : kron_rw.
