(* ===== verification/Ingest.v ===== *)
(** The ingest stage of [daemon/pipeline/ingest.rs]: events of the hooks become raw
    events with ids from the clock, batched until the next tick.

    [Utc::now()] is a stream of readings, of which an operation uses a prefix;
    [crossbeam_channel::select!] picks the next input, so the stage is a function of
    the sequence of inputs it is given. *)
From S2P Require Import Prelude Events PipelineTypes.

Section ingest.
Context `{Chrono} (utc_now : nat -> instant).

Definition EVENT_ID_SEQ_BITS : Z := 12.
Definition EVENT_ID_SEQ_MASK : Z := Z.shiftl 1 EVENT_ID_SEQ_BITS - 1.

Definition now_ms (n : nat) : Z := uw 64 (timestamp_millis (utc_now n)).

(** The loop that waits for the next millisecond: the index of the first reading from
    [n] on with another millisecond; [fuel] readings at most. *)
Fixpoint spin (fuel n : nat) (last_event_ms : Z) : option nat :=
  match fuel with
  | O => None
  | S fuel => if negb (now_ms n =? last_event_ms) then Some n else spin fuel (S n) last_event_ms
  end.

(** The clock state of the stage: [last_event_ms] and [event_seq]. *)
Record id_state := { last_event_ms : Z; event_seq : Z }.

(** [next_event_id]: the time, the id, the new state and the readings used so far. *)
Definition next_event_id (fuel : nat) (st : id_state) (n : nat)
    : option (instant * Z * id_state * nat) :=
  let ms := now_ms n in
  let finish n ms seq :=
    Some (utc_now n, Z.lor (uw 64 (Z.shiftl ms EVENT_ID_SEQ_BITS)) seq,
          {| last_event_ms := ms; event_seq := seq |}, S n) in
  if ms =? last_event_ms st then
    if EVENT_ID_SEQ_MASK <=? event_seq st then
      match spin fuel (S n) (last_event_ms st) with
      | Some k => finish k (now_ms k) 0
      | None => None
      end
    else finish n ms (u64_add (event_seq st) 1)
  else finish n ms 0.

(** [convert_kronid_to_raw]; [None] for the error. *)
Definition convert_kronid_to_raw (event : KronicalEvent) (now : instant) (event_id : Z)
    : option RawEvent :=
  match event with
  | KKeyboardInput =>
      Some (RawKeyboardInput now event_id
              {| key_code := None; key_char := None; modifiers := [] |})
  | KMouseInput x y button clicks kind =>
      Some (RawMouseInput now event_id {|
        position := {| pos_x := x; pos_y := y |}; button := button;
        click_count := if 0 <? clicks then Some clicks else None;
        event_type := Some kind; wheel_amount := None; wheel_rotation := None;
        wheel_axis := None; wheel_scroll_type := None |})
  | KMouseWheel clicks x y scroll_type amount rotation axis =>
      Some (RawMouseInput now event_id {|
        position := {| pos_x := x; pos_y := y |}; button := None;
        click_count := Some (uw 16 clicks); event_type := None;
        wheel_amount := Some (sw 32 amount); wheel_rotation := Some (sw 32 rotation);
        wheel_axis := axis; wheel_scroll_type := Some scroll_type |})
  | KWindowFocusChange f => Some (RawWindowFocusChange now event_id f)
  | KShutdown => None
  end.

Record ingest_state := {
  pending : list RawEvent;
  event_count : Z;
  ids : id_state;
  last_idle_tick : instant;
  running : bool;
  reads : nat
}.

Definition ingest_new (mono : instant) : ingest_state := {|
  pending := []; event_count := 0; ids := {| last_event_ms := 0; event_seq := 0 |};
  last_idle_tick := mono; running := true; reads := 0 |}.

(** What [select!] received: an event, the end of the event source, or a tick of the
    50 ms ticker. *)
Inductive ingest_input := IEvent (e : KronicalEvent) | IDisconnected | ITicker.

Definition stop (st : ingest_state) : ingest_state := {|
  pending := pending st; event_count := event_count st; ids := ids st;
  last_idle_tick := last_idle_tick st; running := false; reads := reads st |}.

Definition set_pending (st : ingest_state) (p : list RawEvent) : ingest_state := {|
  pending := p; event_count := event_count st; ids := ids st;
  last_idle_tick := last_idle_tick st; running := running st; reads := reads st |}.

(** The end of a loop round: the tick that is due is sent; [mono] is
    [Instant::now()]. *)
Definition send_tick (st : ingest_state) (mono : instant) (open : bool)
    : ingest_state * list DeriveCommand :=
  let now := utc_now (reads st) in
  if open then
    ({| pending := pending st; event_count := event_count st; ids := ids st;
        last_idle_tick := mono; running := running st; reads := S (reads st) |}, [DTick now])
  else (stop st, []).

(** One round of the loop. *)
Definition ingest_step (fuel : nat) (st : ingest_state) (i : ingest_input)
    (mono : instant) (open : bool) : ingest_state * list DeriveCommand :=
  match i with
  | IEvent KShutdown =>
      let '(st, out) :=
        match pending st with
        | [] => (st, [])
        | p => (set_pending st [],
                if open then [DBatch {| rb_events := p; rb_reason := Shutdown_ |}] else [])
        end in
      (stop st, out ++ if open then [DShutdown] else [])
  | IEvent e =>
      match next_event_id fuel (ids st) (reads st) with
      | None => (stop st, [])
      | Some (now, id, ids', n) =>
          let st := {| pending := pending st; event_count := u64_add (event_count st) 1;
                       ids := ids'; last_idle_tick := last_idle_tick st;
                       running := running st; reads := n |} in
          match convert_kronid_to_raw e now id with
          | Some raw => send_tick (set_pending st (pending st ++ [raw])) mono open
          | None => (st, [])
          end
      end
  | IDisconnected => (stop st, [])
  | ITicker =>
      match pending st with
      | [] =>
          if millis 500 <=? Z.max 0 (mono - last_idle_tick st)
          then send_tick st mono open else (st, [])
      | p =>
          let st := set_pending st [] in
          if open then
            let '(st, out) := send_tick st mono open in
            (st, DBatch {| rb_events := p; rb_reason := Timeout_ |} :: out)
          else (stop st, [])
      end
  end.

Fixpoint ingest_run (fuel : nat) (st : ingest_state)
    (l : list (ingest_input * instant * bool)) : ingest_state * list DeriveCommand :=
  match l with
  | [] => (st, [])
  | (i, mono, open) :: l' =>
      if running st then
        let '(st, out) := ingest_step fuel st i mono open in
        let '(st, rest) := ingest_run fuel st l' in
        (st, out ++ rest)
      else (st, [])
  end.

(** ** Ids *)

(** The ids of [k] calls in a row. *)
Fixpoint id_run (fuel : nat) (st : id_state) (n k : nat) : option (list Z * id_state * nat) :=
  match k with
  | O => Some ([], st, n)
  | S k =>
      match next_event_id fuel st n with
      | Some (_, id, st, n) =>
          match id_run fuel st n k with
          | Some (l, st, n) => Some (id :: l, st, n)
          | None => None
          end
      | None => None
      end
  end.

(** The id an id state stands for. *)
Definition last_id (st : id_state) : Z := last_event_ms st * 4096 + event_seq st.

Definition id_ok (st : id_state) : Prop :=
  0 <= last_event_ms st < 2 ^ 52 /\ 0 <= event_seq st <= 4095.

Lemma make_id ms seq :
  0 <= ms < 2 ^ 52 -> 0 <= seq <= 4095 ->
  Z.lor (uw 64 (Z.shiftl ms EVENT_ID_SEQ_BITS)) seq = ms * 4096 + seq.
Proof.
  intros Hms Hs. unfold EVENT_ID_SEQ_BITS. rewrite Z.shiftl_mul_pow2 by lia.
  rewrite uw_small by (unfold in_u; lia). symmetry.
  change (2 ^ 12) with 4096. rewrite Z.add_nocarry_lxor.
  - rewrite <- Z.lxor_lor; [done|]. apply Z.bits_inj'. intros k Hk.
    rewrite Z.land_spec, Z.bits_0. change 4096 with (2 ^ 12).
    rewrite <- Z.shiftl_mul_pow2 by lia.
    destruct (Z_lt_dec k 12).
    + by rewrite Z.shiftl_spec_low.
    + rewrite (Z.bits_above_log2 seq k); [by rewrite andb_false_r|lia|].
      destruct (Z.eq_dec seq 0) as [->|]; [cbn; lia|].
      apply Z.log2_lt_pow2; [lia|]. assert (2 ^ 12 <= 2 ^ k) by (apply Z.pow_le_mono_r; lia).
      lia.
  - apply Z.bits_inj'. intros k Hk.
    rewrite Z.land_spec, Z.bits_0. change 4096 with (2 ^ 12).
    rewrite <- Z.shiftl_mul_pow2 by lia.
    destruct (Z_lt_dec k 12).
    + by rewrite Z.shiftl_spec_low.
    + rewrite (Z.bits_above_log2 seq k); [by rewrite andb_false_r|lia|].
      destruct (Z.eq_dec seq 0) as [->|]; [cbn; lia|].
      apply Z.log2_lt_pow2; [lia|]. assert (2 ^ 12 <= 2 ^ k) by (apply Z.pow_le_mono_r; lia).
      lia.
Qed.

Lemma spin_some fuel n last k :
  spin fuel n last = Some k -> (n <= k)%nat /\ now_ms k <> last.
Proof.
  revert n. induction fuel as [|fuel IH]; intros n; cbn; [done|].
  destruct (Z.eqb_spec (now_ms n) last) as [He|Hne]; cbn.
  - intros Hk. apply IH in Hk as [? ?]. split; [lia|done].
  - intros [= <-]. by split.
Qed.

Lemma spin_enough fuel n last j :
  (j < fuel)%nat -> now_ms (n + j) <> last -> is_Some (spin fuel n last).
Proof.
  revert n j. induction fuel as [|fuel IH]; intros n j Hj Hne; [lia|]. cbn.
  destruct (Z.eqb_spec (now_ms n) last) as [He|]; cbn; [|by eexists].
  destruct j as [|j]; [by rewrite Nat.add_0_r in Hne|].
  apply (IH (S n) j); [lia|]. by rewrite Nat.add_succ_comm.
Qed.

Section monotone.
Context (ms_mono : forall i j, (i <= j)%nat -> now_ms i <= now_ms j).
Context (ms_range : forall i, 0 <= now_ms i < 2 ^ 52).

Lemma next_event_id_increases fuel st n now id st' n' :
  id_ok st -> last_event_ms st <= now_ms n ->
  next_event_id fuel st n = Some (now, id, st', n') ->
  id_ok st' /\ id = last_id st' /\ last_id st < id /\ (n < n')%nat /\
  last_event_ms st' <= now_ms n' /\ (exists k, now = utc_now k).
Proof.
  intros [Hms Hsq] Hle. unfold next_event_id.
  assert (forall k ms seq, (n <= k)%nat -> ms = now_ms k -> 0 <= seq <= 4095 ->
    last_id st < ms * 4096 + seq ->
    Some (utc_now k, Z.lor (uw 64 (Z.shiftl ms EVENT_ID_SEQ_BITS)) seq,
          {| last_event_ms := ms; event_seq := seq |}, S k) = Some (now, id, st', n') ->
    id_ok st' /\ id = last_id st' /\ last_id st < id /\ (n < n')%nat /\
    last_event_ms st' <= now_ms n' /\ (exists k, now = utc_now k)) as Hfin.
  { intros k ms seq Hk -> Hs Hlt [= <- <- <- <-]. pose proof (ms_range k). pose proof (ms_mono k (S k) ltac:(lia)).
    unfold id_ok, last_id in *; cbn [last_event_ms event_seq].
    rewrite make_id by lia. repeat split; try lia; eauto. }
  destruct (Z.eqb_spec (now_ms n) (last_event_ms st)) as [He|Hne].
  - unfold EVENT_ID_SEQ_MASK, EVENT_ID_SEQ_BITS. change (Z.shiftl 1 12 - 1) with 4095.
    destruct (Z.leb_spec 4095 (event_seq st)).
    + destruct (spin fuel (S n) (last_event_ms st)) as [k|] eqn:Hsp; [|done].
      apply spin_some in Hsp as [Hk Hne]. apply Hfin; [lia|done|lia|].
      pose proof (ms_mono n k ltac:(lia)). unfold last_id. lia.
    + assert (u64_add (event_seq st) 1 = event_seq st + 1) as ->
        by (apply uw_small; unfold in_u; lia).
      apply Hfin; [lia|done|lia|].
      unfold last_id. lia.
  - apply Hfin; [lia|done|lia|]. unfold last_id. lia.
Qed.

Lemma id_run_increases fuel st n k l st' n' :
  id_ok st -> last_event_ms st <= now_ms n ->
  id_run fuel st n k = Some (l, st', n') ->
  length l = k /\ StronglySorted Z.lt (last_id st :: l).
Proof.
  revert st n l. induction k as [|k IH]; intros st n l Hok Hle; cbn.
  { intros [= <- <- <-]. split; [done|]. repeat constructor. }
  destruct (next_event_id fuel st n) as [[[[now id] st1] n1]|] eqn:Hn; [|done].
  destruct (id_run fuel st1 n1 k) as [[[l1 st2] n2]|] eqn:Hr; [|done]. intros [= <- <- <-].
  destruct (next_event_id_increases _ _ _ _ _ _ _ Hok Hle Hn) as (Hok1&->&Hlt&_&Hle1&_).
  destruct (IH st1 n1 l1 Hok1 Hle1 Hr) as [Hlen Hs]. split; [cbn; by rewrite Hlen|].
  constructor; [done|]. constructor; [done|]. inversion Hs; subst.
  eapply Forall_impl; [done|]. cbn. lia.
Qed.
End monotone.

(** With a clock that does not go back and milliseconds of at most 52 bits, the ids of
    any number of events in a row are strictly increasing, and a call succeeds as
    soon as the clock advances within the readings it may make. *)
Theorem event_ids_increase fuel k l st' n' :
  (forall i j, (i <= j)%nat -> now_ms i <= now_ms j) ->
  (forall i, 0 <= now_ms i < 2 ^ 52) ->
  id_run fuel {| last_event_ms := 0; event_seq := 0 |} 0 k = Some (l, st', n') ->
  length l = k /\ StronglySorted Z.lt l /\
  forall j, (j < fuel)%nat -> now_ms (S n' + j) <> last_event_ms st' ->
    is_Some (next_event_id fuel st' n').
Proof.
  intros Hm Hr Hrun.
  destruct (id_run_increases Hm Hr fuel {| last_event_ms := 0; event_seq := 0 |} 0 k l st' n')
    as [Hlen Hs];
    [unfold id_ok; cbn [last_event_ms event_seq]; lia|apply (Hr 0%nat)|done|].
  split; [done|]. split; [by inversion Hs|]. intros j Hj Hne. unfold next_event_id.
  destruct (_ =? _); [|by eexists]. destruct (_ <=? _); [|by eexists].
  destruct (spin_enough fuel (S n') (last_event_ms st') j Hj) as [i ->]; [|by eexists].
  exact Hne.
Qed.

(** When the clock is set back to an earlier millisecond, ids repeat: readings at
    [a], [b], [a] of different milliseconds give the first and third event the same
    id. *)
Theorem event_ids_repeat_on_clock_step fuel st n :
  now_ms n <> last_event_ms st -> now_ms (S n) <> now_ms n -> now_ms (S (S n)) = now_ms n ->
  exists i1 i2 st' n', id_run fuel st n 3 = Some ([i1; i2; i1], st', n').
Proof.
  intros H1 H2 H3. cbn [id_run]. unfold next_event_id at 1.
  rewrite (proj2 (Z.eqb_neq _ _) H1). unfold next_event_id at 1. cbn [last_event_ms event_seq].
  rewrite (proj2 (Z.eqb_neq _ _) H2). unfold next_event_id. cbn [last_event_ms event_seq].
  rewrite H3, (proj2 (Z.eqb_neq _ _)) by congruence. eauto.
Qed.

(** ** Delivery *)

(** The events of the batches, in order. *)
Definition delivered (l : list DeriveCommand) : list RawEvent :=
  concat (omap (fun c => match c with DBatch b => Some (rb_events b) | _ => None end) l).

(** The events read from the source, as they are converted. *)
Definition accepted (i : ingest_input) : bool :=
  match i with IEvent KShutdown => false | IEvent _ => true | _ => false end.

Definition nonempty_batch (c : DeriveCommand) : Prop :=
  match c with DBatch b => rb_events b <> [] | _ => True end.

Lemma delivered_app l k : delivered (l ++ k) = delivered l ++ delivered k.
Proof. unfold delivered. by rewrite omap_app, concat_app. Qed.

(** The raw event an input becomes. *)
Definition converted (fuel : nat) (st : ingest_state) (i : ingest_input) : list RawEvent :=
  match i with
  | IEvent e =>
      match next_event_id fuel (ids st) (reads st) with
      | Some (now, id, _, _) => option_list (convert_kronid_to_raw e now id)
      | None => []
      end
  | _ => []
  end.

Fixpoint all_converted (fuel : nat) (st : ingest_state)
    (l : list (ingest_input * instant * bool)) : list RawEvent :=
  match l with
  | [] => []
  | (i, mono, open) :: l' =>
      converted fuel st i ++ all_converted fuel (ingest_step fuel st i mono open).1 l'
  end.

(** A round that does not stop keeps delivered plus pending, adding the converted
    event at the end. *)
Lemma ingest_step_conserves fuel st i mono :
  running st = true ->
  let r := ingest_step fuel st i mono true in
  running r.1 = true ->
  Forall nonempty_batch r.2 /\ DShutdown ∉ r.2 /\
  length (converted fuel st i) = (if accepted i then 1 else 0)%nat /\
  delivered r.2 ++ pending r.1 = pending st ++ converted fuel st i.
Proof.
  intros Hrun. unfold ingest_step, converted. destruct i as [[]| |]; cbn zeta.
  5: { destruct (pending st); by intros [=]. }
  1-4: destruct (next_event_id fuel (ids st) (reads st)) as [[[[now id] ids'] n]|];
       [|by intros [=]]; cbn; intros _;
       (split; [by repeat constructor|]); (split; [by intros [[=]|[]%elem_of_nil]%elem_of_cons|]);
       by split.
  - by intros [=].
  - destruct (pending st) as [|e p] eqn:Hp.
    + destruct (_ <=? _); cbn; intros _; rewrite ?Hp.
      * split; [by repeat constructor|]. by split; [intros [[=]|[]%elem_of_nil]%elem_of_cons|].
      * split; [constructor|]. by split; [apply not_elem_of_nil|].
    + cbn. intros _. split; [repeat constructor; done|].
      split; [by intros [[=]|[[=]|[]%elem_of_nil]%elem_of_cons]%elem_of_cons|].
      split; [done|]. by rewrite !app_nil_r.
Qed.

Lemma ingest_run_delivers fuel mono l st :
  Forall (fun x : ingest_input * instant * bool => x.2 = true) l ->
  running st = true -> running (ingest_run fuel st l).1 = true ->
  let r := ingest_run fuel st (l ++ [(IEvent KShutdown, mono, true)]) in
  exists out, r.2 = out ++ [DShutdown] /\ DShutdown ∉ out /\
    Forall nonempty_batch out /\ running r.1 = false /\ pending r.1 = [] /\
    delivered out = pending st ++ all_converted fuel st l /\
    length (all_converted fuel st l) = length (filter
      (fun x : ingest_input * instant * bool => accepted x.1.1 = true) l).
Proof.
  revert st. induction l as [|[[i m] o] l IH]; intros st Hopen Hst Hrun; cbn [app].
  - cbn. rewrite Hst. destruct (pending st) as [|e p] eqn:Hp; cbn.
    + exists []. rewrite Hp. split; [done|]. split; [apply not_elem_of_nil|].
      by split; [constructor|].
    + exists [DBatch {| rb_events := e :: p; rb_reason := Shutdown_ |}].
      split; [done|]. split; [by intros [[=]|[]%elem_of_nil]%elem_of_cons|].
      by split; [by repeat constructor|].
  - apply Forall_cons in Hopen as [Ho Hopen]. cbn in Ho. subst o.
    cbn [ingest_run all_converted] in *. rewrite Hst in *.
    pose proof (ingest_step_conserves fuel st i m Hst) as Hstep.
    destruct (ingest_step fuel st i m true) as [st1 o1]; cbn [fst snd] in *.
    assert (running st1 = true) as Hst1.
    { destruct (running st1) eqn:He; [done|]. destruct l as [|[[]]]; cbn in Hrun;
        rewrite ?He in Hrun; cbn in Hrun; congruence. }
    destruct (Hstep Hst1) as (Hne&Hns&Hlen&Hcons).
    destruct (IH st1 Hopen Hst1) as (out&Hout&Hnot&Hall&Hstop&Hpend&Hdel&Hcount).
    { by destruct (ingest_run fuel st1 l). }
    destruct (ingest_run fuel st1 (l ++ _)) as [st3 o3]; cbn [fst snd] in *.
    exists (o1 ++ out). rewrite Hout, (assoc_L (++)). split; [done|].
    split; [rewrite elem_of_app; tauto|]. split; [by apply Forall_app|].
    split; [done|]. split; [done|]. rewrite delivered_app, Hdel. split.
    + by rewrite !(assoc_L (++)), Hcons.
    + rewrite length_app, Hlen, Hcount, filter_cons. cbn [fst].
      destruct (accepted i); rewrite ?decide_True, ?decide_False by done; done.
Qed.

(** C25: while the downstream channel is open, ingest loses and reorders nothing: after
    any inputs that keep it running followed by the shutdown event, the events of the
    batches sent are, in order, exactly the converted input events, one each; no batch
    is empty; and [Shutdown] is sent once, last. *)
Theorem ingest_delivers_all fuel mono0 inputs mono :
  let l := map (fun im : ingest_input * instant => (im.1, im.2, true)) inputs in
  running (ingest_run fuel (ingest_new mono0) l).1 = true ->
  let r := ingest_run fuel (ingest_new mono0) (l ++ [(IEvent KShutdown, mono, true)]) in
  exists out, r.2 = out ++ [DShutdown] /\ DShutdown ∉ out /\
    Forall nonempty_batch out /\ running r.1 = false /\ pending r.1 = [] /\
    delivered out = all_converted fuel (ingest_new mono0) l /\
    length (delivered out) = length (filter (fun im : ingest_input * instant =>
      accepted im.1 = true) inputs).
Proof.
  intros l Hrun r.
  destruct (ingest_run_delivers fuel mono l (ingest_new mono0)) as (out&?&?&?&?&?&Hd&Hc);
    [|done|done|].
  { apply Forall_forall. by intros x (im&->&_)%list_elem_of_fmap. }
  exists out. do 5 (split; [done|]). split; [exact Hd|]. rewrite Hd. cbn [pending ingest_new app].
  rewrite Hc. subst l. clear.
  induction inputs as [|[i m] inputs IH]; [done|]. cbn [map].
  rewrite !filter_cons. cbn [fst]. destruct (decide _); cbn; by rewrite IH.
Qed.
End ingest.

(** A clock of one millisecond per two readings. *)
Definition demo_clock (n : nat) : instant := millis (Z.of_nat n / 2).

Lemma event_ids_increase_witness :
  exists st' n', @id_run chrono_ref demo_clock 3 {| last_event_ms := 0; event_seq := 0 |} 0 4
    = Some ([1; 2; 4096; 4097], st', n') /\ StronglySorted Z.lt [1; 2; 4096; 4097].
Proof.
  eexists _, _. split; [vm_compute; reflexivity|].
  refine (proj1 (proj2 (@event_ids_increase chrono_ref
    (fun n => demo_clock (n `min` 9)) 3 4 _ _ _ _ _ _))).
  - intros i j Hij. unfold now_ms, demo_clock, millis. cbn. rewrite !Z.div_mul by lia.
    rewrite !uw_small; [apply Z.div_le_mono; lia| |];
      unfold in_u; (split; [apply Z.div_pos; lia|]); apply Z.div_lt_upper_bound; lia.
  - intros i. unfold now_ms, demo_clock, millis. cbn. rewrite !Z.div_mul by lia.
    rewrite uw_small; unfold in_u; (split; [apply Z.div_pos; lia|]);
      apply Z.div_lt_upper_bound; lia.
  - vm_compute. reflexivity.
Defined.

Lemma event_ids_repeat_on_clock_step_witness :
  exists i1 i2 st' n', @id_run chrono_ref
    (fun n => if bool_decide (n = 1%nat) then millis 6 else millis 5) 1
    {| last_event_ms := 0; event_seq := 0 |} 0 3 = Some ([i1; i2; i1], st', n').
Proof.
  apply (@event_ids_repeat_on_clock_step chrono_ref); vm_compute; congruence.
Defined.

Lemma ingest_delivers_all_witness :
  let inputs := [(IEvent KKeyboardInput, 5); (ITicker, 50); (IEvent KKeyboardInput, 60)] in
  let r := @ingest_run chrono_ref demo_clock 3 (ingest_new 0)
    (map (fun im => (im.1, im.2, true)) inputs ++ [(IEvent KShutdown, 70, true)]) in
  pending r.1 = [] /\ exists out, r.2 = out ++ [DShutdown] /\ length (delivered out) = 2%nat.
Proof.
  intros inputs r.
  destruct (@ingest_delivers_all chrono_ref demo_clock 3 0 inputs 70 eq_refl)
    as (out&Hout&_&_&_&Hp&_&Hl).
  split; [exact Hp|]. exists out. split; [exact Hout|exact Hl].
Defined.
