(* ===== verification/Envelope.v ===== *)
(** The envelope stage of [daemon/pipeline/envelope.rs]: adapter, lock deriver and
    state deriver over the batches and ticks of ingest, with the updates it sends to
    the snapshot stage.  The state engine is used through its interface. *)
From S2P Require Import Prelude Events StateEngine StateDeriver LockDeriver Adapter Records.
From S2P Require Import SnapshotBus CompactEvents PipelineTypes.

(** [format!("{kind:?}")]. *)
Definition signal_name (k : SignalKind) : string :=
  match k with
  | KeyboardInput => "KeyboardInput"
  | MouseInput => "MouseInput"
  | AppChanged => "AppChanged"
  | WindowChanged => "WindowChanged"
  | ActivityPulse => "ActivityPulse"
  | LockStart => "LockStart"
  | LockEnd => "LockEnd"
  end.

Definition transition_reason (env : EventEnvelope) (signal_kind : option SignalKind)
    : option string :=
  match signal_kind with
  | Some kind => Some (signal_name kind)
  | None =>
      if bool_decide (env_kind env = Hint StateChanged) && bool_decide (env_source env = Derived)
      then Some "IdleTimeout" else None
  end.

Definition set_hints_delta (u : SnapshotUpdate) (n : Z) : SnapshotUpdate := {|
  u_hints_delta := n; u_signals_delta := u_signals_delta u; u_focus := u_focus u;
  u_focus_title := u_focus_title u; u_transition := u_transition u; u_state := u_state u |}.
Definition set_signals_delta (u : SnapshotUpdate) (n : Z) : SnapshotUpdate := {|
  u_hints_delta := u_hints_delta u; u_signals_delta := n; u_focus := u_focus u;
  u_focus_title := u_focus_title u; u_transition := u_transition u; u_state := u_state u |}.

Definition apply_focus_update (u : SnapshotUpdate) (env : EventEnvelope) : SnapshotUpdate :=
  match env_payload env with
  | PFocus focus => {|
      u_hints_delta := u_hints_delta u; u_signals_delta := u_signals_delta u;
      u_focus := Some focus; u_focus_title := u_focus_title u;
      u_transition := u_transition u; u_state := u_state u |}
  | PTitle wid title => {|
      u_hints_delta := u_hints_delta u; u_signals_delta := u_signals_delta u;
      u_focus := u_focus u; u_focus_title := Some (wid, title);
      u_transition := u_transition u; u_state := u_state u |}
  | _ => u
  end.

Definition apply_state_update_hint (u : SnapshotUpdate) (env : EventEnvelope)
    (signal_kind : option SignalKind) : SnapshotUpdate :=
  match env_payload env with
  | PState from to => {|
      u_hints_delta := u_hints_delta u; u_signals_delta := u_signals_delta u;
      u_focus := u_focus u; u_focus_title := u_focus_title u;
      u_transition := Some {|
        t_from := from; t_to := to; t_at := env_timestamp env;
        t_by_signal := transition_reason env signal_kind; t_run_id := None |};
      u_state := Some to |}
  | _ => u
  end.

Definition apply_state_update_signal (u : SnapshotUpdate) (env : EventEnvelope)
    (signal_kind : SignalKind) : SnapshotUpdate :=
  apply_state_update_hint u env (Some signal_kind).

(** [flush_snapshot_update]: the update left, what is sent, and success. *)
Definition flush_snapshot_update (open : open_channels) (u : SnapshotUpdate)
    : SnapshotUpdate * list output * bool :=
  if update_is_empty u then (u, [], true)
  else (update_default, send (snapshot_open open) (ToSnapshot (SUpdate u)),
        snapshot_open open).

(** [update.transition.is_some() && !flush_snapshot_update(..)]. *)
Definition flush_if_transition (open : open_channels) (u : SnapshotUpdate)
    : SnapshotUpdate * list output * bool :=
  if is_none (u_transition u) then (u, [], true) else flush_snapshot_update open u.

Section stage.
Context `{Chrono} {E : Type} `{StateEngine E}.

(** The locals of a batch: the update, the deriver and [send_failed]. *)
Record batch_state := { bs_update : SnapshotUpdate; bs_deriver : E; bs_failed : bool }.

(** The hint an envelope of the batch or the state deriver yields. *)
Definition process_hint (open : open_channels) (u : SnapshotUpdate) (hint : EventEnvelope)
    (signal_kind : option SignalKind) : SnapshotUpdate * list output * bool :=
  let u := set_hints_delta u (u64_add (u_hints_delta u) 1) in
  let u := apply_focus_update u hint in
  let u := apply_state_update_hint u hint signal_kind in
  let sent := send (hints_open open) (ToHints hint) in
  let '(u, flushed, ok) := flush_if_transition open u in
  (u, sent ++ flushed, ok).

(** The body of the loop over the envelopes; nothing after a failed send. *)
Definition process_env (open : open_channels) (b : batch_state) (env : EventEnvelope)
    : batch_state * list output :=
  if bs_failed b then (b, [])
  else
    match env_kind env with
    | Hint _ =>
        let '(u, out, ok) := process_hint open (bs_update b) env None in
        ({| bs_update := u; bs_deriver := bs_deriver b; bs_failed := negb ok |}, out)
    | Signal signal_kind =>
        let u := bs_update b in
        let u := set_signals_delta u (u64_add (u_signals_delta u) 1) in
        let u := apply_focus_update u env in
        let u := apply_state_update_signal u env signal_kind in
        let sent := send (storage_open open) (ToStorage (StEnvelope env)) in
        let '(u, flushed, ok) := flush_if_transition open u in
        if negb ok then
          ({| bs_update := u; bs_deriver := bs_deriver b; bs_failed := true |}, sent ++ flushed)
        else
          let '(d, hint) := StateDeriver.on_signal (bs_deriver b) env in
          match hint with
          | Some hint =>
              let '(u, out, ok) := process_hint open u hint (Some signal_kind) in
              ({| bs_update := u; bs_deriver := d; bs_failed := negb ok |},
               sent ++ flushed ++ out)
          | None => ({| bs_update := u; bs_deriver := d; bs_failed := false |}, sent ++ flushed)
          end
    end.

Record envelope_state := {
  es_last_focus : option WindowFocusInfo;
  es_locked : bool;
  es_deriver : E;
  es_running : bool
}.

Definition set_running (s : envelope_state) (b : bool) : envelope_state := {|
  es_last_focus := es_last_focus s; es_locked := es_locked s;
  es_deriver := es_deriver s; es_running := b |}.

(** The rest of the update, then [Publish]. *)
Definition send_update_and_publish (open : open_channels) (u : SnapshotUpdate) : list output :=
  (if update_is_empty u then [] else send (snapshot_open open) (ToSnapshot (SUpdate u)))
  ++ send (snapshot_open open) (ToSnapshot SPublish).

Definition handle_batch (s : envelope_state) (open : open_channels) (batch : RawBatch)
    : envelope_state * list output :=
  if batch_is_empty batch then (s, [])
  else
    let '(focus, envelopes) := adapt_batch (es_last_focus s) (rb_events batch) in
    let '(locked, with_lock) := derive (es_locked s) envelopes in
    let '(b, out) := run_list (process_env open)
      {| bs_update := update_default; bs_deriver := es_deriver s; bs_failed := false |}
      with_lock in
    let s := {| es_last_focus := focus; es_locked := locked; es_deriver := bs_deriver b;
                es_running := es_running s |} in
    if bs_failed b then (set_running s false, out)
    else if negb (compression_open open) then (set_running s false, out)
    else
      (set_running s (snapshot_open open),
       out ++ [ToCompression (CProcess batch with_lock)]
         ++ send_update_and_publish open (bs_update b)).

Definition handle_tick (s : envelope_state) (open : open_channels) (now : instant)
    : envelope_state * list output :=
  let '(d, hint) := StateDeriver.on_tick (es_deriver s) now in
  let s := {| es_last_focus := es_last_focus s; es_locked := es_locked s;
              es_deriver := d; es_running := es_running s |} in
  match hint with
  | None => (s, [])
  | Some hint =>
      let '(u, out, ok) := process_hint open update_default hint None in
      if negb ok then (set_running s false, out)
      else (set_running s (snapshot_open open), out ++ send_update_and_publish open u)
  end.

Definition envelope_step (s : envelope_state) (open : open_channels) (cmd : DeriveCommand)
    : envelope_state * list output :=
  match cmd with
  | DBatch batch => handle_batch s open batch
  | DTick now => handle_tick s open now
  | DShutdown =>
      (set_running s false,
       send (snapshot_open open) (ToSnapshot SShutdown)
       ++ send (compression_open open) (ToCompression CShutdown))
  end.

(** ** What a batch accounts for *)

(** The hints sent for the envelopes, in order: each hint, and after each signal the
    state change it causes. *)
Definition hints_of_step (d : E) (env : EventEnvelope) : E * list EventEnvelope :=
  match env_kind env with
  | Hint _ => (d, [env])
  | Signal _ => let '(d, o) := StateDeriver.on_signal d env in (d, option_list o)
  end.
Definition hints_of (d : E) (envs : list EventEnvelope) : E * list EventEnvelope :=
  run_list hints_of_step d envs.

Definition signals (envs : list EventEnvelope) : list EventEnvelope :=
  filter (fun e => is_signal e = true) envs.

(** The change an envelope reports, and the change an update carries. *)
Definition env_change (e : EventEnvelope) : option (ActivityState * ActivityState * instant) :=
  match env_payload e with
  | PState a b => Some (a, b, env_timestamp e)
  | _ => None
  end.
Definition update_change (u : SnapshotUpdate) : option (ActivityState * ActivityState * instant) :=
  t ← u_transition u; Some (t_from t, t_to t, t_at t).

(** The counts are 64 bits wide. *)
Definition counts_fit (u : SnapshotUpdate) : Prop :=
  in_u 64 (u_hints_delta u) /\ in_u 64 (u_signals_delta u).

(** An update has a state exactly when it has a transition, which leads to it. *)
Definition state_agrees (u : SnapshotUpdate) : Prop := u_state u = t_to <$> u_transition u.

(** The updates [us] together with the open update [u'] carry the counts and changes
    added to [u]: [dh] hints, [ds] signals, the changes [ch]. *)
Record carries (u : SnapshotUpdate) (us : list SnapshotUpdate) (u' : SnapshotUpdate)
    (dh ds : Z) (ch : list (ActivityState * ActivityState * instant)) : Prop := {
  ca_hints : uw 64 (zsum (map u_hints_delta us) + u_hints_delta u') = uw 64 (u_hints_delta u + dh);
  ca_signals :
    uw 64 (zsum (map u_signals_delta us) + u_signals_delta u') = uw 64 (u_signals_delta u + ds);
  ca_changes : omap update_change us = ch;
  ca_flushed : u_transition u' = None;
  ca_fit : counts_fit u';
  ca_hints_le : zsum (map u_hints_delta us) + u_hints_delta u' <= u_hints_delta u + dh;
  ca_signals_le : zsum (map u_signals_delta us) + u_signals_delta u' <= u_signals_delta u + ds;
  ca_fits : Forall counts_fit us;
  ca_states : u_state u = None -> Forall state_agrees us /\ u_state u' = None
}.

Lemma carries_trans u1 us1 u2 us2 u3 dh1 ds1 dh2 ds2 c1 c2 :
  carries u1 us1 u2 dh1 ds1 c1 -> carries u2 us2 u3 dh2 ds2 c2 ->
  carries u1 (us1 ++ us2) u3 (dh1 + dh2) (ds1 + ds2) (c1 ++ c2).
Proof.
  intros [A1 A2 A3 A4 A5 A6 A7 A8 A9] [B1 B2 B3 B4 B5 B6 B7 B8 B9].
  split; [| |by rewrite omap_app, A3, B3|done|done|rewrite map_app, zsum_app; lia
    |rewrite map_app, zsum_app; lia|by apply Forall_app|].
  3: { intros [HA HA']%A9. destruct (B9 HA') as [HB HB']. split; [by apply Forall_app|done]. }
  - rewrite map_app, zsum_app.
    rewrite <- (Z.add_assoc (zsum _)), <- uw_add_r, B1, uw_add_r, Z.add_assoc, <- uw_add_l, A1,
      uw_add_l. f_equal. lia.
  - rewrite map_app, zsum_app.
    rewrite <- (Z.add_assoc (zsum _)), <- uw_add_r, B2, uw_add_r, Z.add_assoc, <- uw_add_l, A2,
      uw_add_l. f_equal. lia.
Qed.

Lemma carries_nil u : u_transition u = None -> counts_fit u -> carries u [] u 0 0 [].
Proof. intros Hu Hf. split; cbn; rewrite ?Z.add_0_r; done || constructor. Qed.

Lemma update_default_fit : counts_fit update_default.
Proof. split; unfold in_u; cbn; lia. Qed.

Lemma update_is_empty_counts u :
  update_is_empty u = true -> u_hints_delta u = 0 /\ u_signals_delta u = 0.
Proof. unfold update_is_empty. rewrite !andb_true_iff, !Z.eqb_eq. tauto. Qed.

(** A flush carries everything on. *)
Lemma flush_carries u u0 dh ds :
  counts_fit u0 -> 0 <= dh -> 0 <= ds ->
  u_hints_delta u = u64_add (u_hints_delta u0) dh ->
  u_signals_delta u = u64_add (u_signals_delta u0) ds ->
  (u_state u0 = None -> state_agrees u) ->
  let '(u', out, ok) := flush_if_transition all_open u in
  ok = true /\ exists us, out = map (fun u => ToSnapshot (SUpdate u)) us /\
    carries u0 us u' dh ds (option_list (update_change u)).
Proof.
  intros [[Fh _] [Fs _]] Hdh Hds Hh Hs Hst. unfold flush_if_transition, flush_snapshot_update.
  assert (u_hints_delta u <= u_hints_delta u0 + dh /\ u_signals_delta u <= u_signals_delta u0 + ds)
    as [Lh Ls] by (rewrite Hh, Hs; split; apply uw_le; lia).
  assert (counts_fit u) as Hfit by (split; rewrite ?Hh, ?Hs; apply uw_bound; lia).
  destruct (u_transition u) as [t|] eqn:Ht; cbn.
  - assert (update_is_empty u = false) as ->.
    { unfold update_is_empty. rewrite Ht. cbn. by rewrite !andb_false_r. }
    split; [done|]. exists [u]. split; [done|].
    split; [| |by unfold update_change; cbn; rewrite Ht|done|apply update_default_fit
      |cbn; lia|cbn; lia|by apply Forall_singleton|by intros ?%Hst; split; [apply Forall_singleton|]];
      cbn; rewrite ?Hh, ?Hs, !Z.add_0_r; apply uw_uw.
  - split; [done|]. exists []. split; [done|].
    split; [| |by unfold update_change; rewrite Ht|done|done|done|done|constructor|].
    1-2: cbn [map zsum foldr]; rewrite Z.add_0_l, ?Hh, ?Hs; apply uw_uw.
    intros Hn%Hst. unfold state_agrees in Hn. rewrite Ht in Hn. by split; [constructor|].
Qed.

(** The change of an update after [apply_focus_update] and [apply_state_update_hint]. *)
Lemma applied_change u hint k :
  u_transition u = None ->
  update_change (apply_state_update_hint (apply_focus_update u hint) hint k) = env_change hint.
Proof.
  intros Hu. unfold apply_state_update_hint, apply_focus_update, env_change, update_change.
  destruct (env_payload hint); cbn; rewrite ?Hu; done.
Qed.

Lemma applied_counts u hint k :
  let u' := apply_state_update_hint (apply_focus_update u hint) hint k in
  u_hints_delta u' = u_hints_delta u /\ u_signals_delta u' = u_signals_delta u.
Proof. unfold apply_state_update_hint, apply_focus_update. by destruct (env_payload hint). Qed.

Lemma applied_state u hint k :
  u_transition u = None -> u_state u = None ->
  state_agrees (apply_state_update_hint (apply_focus_update u hint) hint k).
Proof.
  intros Hu Hs. unfold apply_state_update_hint, apply_focus_update, state_agrees.
  destruct (env_payload hint); cbn; by rewrite ?Hu, ?Hs.
Qed.

Lemma u64_add_0 z : in_u 64 z -> z = u64_add z 0.
Proof. intros Hz. unfold u64_add. rewrite Z.add_0_r. symmetry. by apply uw_small. Qed.

Lemma process_hint_carries u hint k :
  counts_fit u -> u_transition u = None ->
  let '(u', out, ok) := process_hint all_open u hint k in
  ok = true /\ exists us, out = ToHints hint :: map (fun u => ToSnapshot (SUpdate u)) us /\
    carries u us u' 1 0 (option_list (env_change hint)).
Proof.
  intros Hfit Hu. pose proof Hfit as [_ Hsig]. unfold process_hint. set (u1 := set_hints_delta u _).
  pose proof (applied_counts u1 hint k) as [Hc1 Hc2].
  pose proof (flush_carries (apply_state_update_hint (apply_focus_update u1 hint) hint k) u 1 0)
    as Hf.
  rewrite (applied_change u1 hint k Hu) in Hf.
  destruct (flush_if_transition all_open _) as [[u' out] ok].
  destruct Hf as (->&us&->&Hc); [done|lia|lia|done|rewrite Hc2; by apply u64_add_0|by apply (applied_state u1)|].
  split; [done|]. by exists us.
Qed.

(** One envelope: what is sent, and what the updates carry of it. *)
Lemma process_env_carries b env :
  bs_failed b = false -> counts_fit (bs_update b) -> u_transition (bs_update b) = None ->
  (is_signal env = true -> env_change env = None) ->
  let '(b', out) := process_env all_open b env in
  let '(d, hints) := hints_of_step (bs_deriver b) env in
  bs_failed b' = false /\ bs_deriver b' = d /\ to_hints out = hints /\
  to_storage out = (if is_signal env then [StEnvelope env] else []) /\
  to_compression out = [] /\
  exists us, to_snapshot out = map SUpdate us /\
    carries (bs_update b) us (bs_update b') (Z.of_nat (length hints))
      (if is_signal env then 1 else 0) (omap env_change hints).
Proof.
  intros Hf Hfit Hu Hsig. unfold process_env, hints_of_step, is_signal in *. rewrite Hf.
  assert (forall us, to_hints (map (fun u => ToSnapshot (SUpdate u)) us) = [] /\
    to_storage (map (fun u => ToSnapshot (SUpdate u)) us) = [] /\
    to_compression (map (fun u => ToSnapshot (SUpdate u)) us) = [] /\
    to_snapshot (map (fun u => ToSnapshot (SUpdate u)) us) = map SUpdate us) as Hus.
  { unfold to_hints, to_storage, to_compression, to_snapshot.
    induction us as [|u us (I1&I2&I3&I4)]; [done|]. cbn. by rewrite I1, I2, I3, I4. }
  destruct (env_kind env) as [k|h].
  - set (u1 := set_signals_delta (bs_update b) _).
    pose proof (applied_counts u1 env (Some k)) as [Hc1 Hc2].
    pose proof (flush_carries (apply_state_update_signal (apply_focus_update u1 env) env k)
      (bs_update b) 0 1) as Hfl.
    unfold apply_state_update_signal in *. rewrite (applied_change u1 env (Some k) Hu) in Hfl.
    rewrite (Hsig eq_refl) in Hfl.
    destruct (flush_if_transition all_open _) as [[u2 out2] ok2].
    destruct Hfl as (->&us2&->&Hca2);
      [done|lia|lia|rewrite Hc1; by apply u64_add_0, Hfit|done|by apply (applied_state u1)|].
    cbn [negb]. destruct (Hus us2) as (I1&I2&I3&I4).
    destruct (StateDeriver.on_signal (bs_deriver b) env) as [d [hint|]]; cbn [option_list].
    + pose proof (process_hint_carries u2 hint (Some k) (ca_fit _ _ _ _ _ _ Hca2)
        (ca_flushed _ _ _ _ _ _ Hca2)) as Hp.
      destruct (process_hint all_open u2 hint (Some k)) as [[u3 out3] ok3].
      destruct Hp as (->&us3&->&Hca3). destruct (Hus us3) as (J1&J2&J3&J4).
      cbn [negb bs_failed bs_deriver bs_update]. split; [done|]. split; [done|].
      unfold send; cbn [storage_open all_open]. routes.
      rewrite I1, I2, I3, I4, J1, J2, J3, J4. cbn [app].
      split; [done|]. split; [done|]. split; [done|].
      exists (us2 ++ us3). split; [by rewrite map_app|].
      pose proof (carries_trans _ _ _ _ _ _ _ _ _ _ _ Hca2 Hca3) as Hca.
      cbn in Hca |- *. by destruct (env_change hint).
    + cbn [bs_failed bs_deriver bs_update]. split; [done|]. split; [done|].
      unfold send; cbn [storage_open all_open]. routes.
      rewrite I1, I2, I3, I4. cbn [app]. split; [done|]. split; [done|]. split; [done|].
      exists us2. by split.
  - pose proof (process_hint_carries (bs_update b) env None Hfit Hu) as Hp.
    destruct (process_hint all_open (bs_update b) env None) as [[u3 out3] ok3].
    destruct Hp as (->&us3&->&Hca3). destruct (Hus us3) as (J1&J2&J3&J4).
    cbn [negb bs_failed bs_deriver bs_update]. split; [done|]. split; [done|].
    routes. rewrite J1, J2, J3, J4. split; [done|]. split; [done|]. split; [done|].
    exists us3. split; [done|]. cbn in Hca3 |- *. by destruct (env_change env).
Qed.

Lemma process_envs_carries b envs :
  bs_failed b = false -> counts_fit (bs_update b) -> u_transition (bs_update b) = None ->
  Forall (fun env => is_signal env = true -> env_change env = None) envs ->
  let '(b', out) := run_list (process_env all_open) b envs in
  let '(d, hints) := hints_of (bs_deriver b) envs in
  bs_failed b' = false /\ bs_deriver b' = d /\ to_hints out = hints /\
  to_storage out = map StEnvelope (signals envs) /\ to_compression out = [] /\
  exists us, to_snapshot out = map SUpdate us /\
    carries (bs_update b) us (bs_update b') (Z.of_nat (length hints))
      (Z.of_nat (length (signals envs))) (omap env_change hints).
Proof.
  revert b. induction envs as [|env envs IH]; intros b Hf Hfit Hu Hsig.
  { cbn. repeat (split; [done|]). exists []. split; [done|]. by apply carries_nil. }
  apply Forall_cons in Hsig as [Hs Hsig].
  unfold hints_of. rewrite !run_list_cons.
  pose proof (process_env_carries b env Hf Hfit Hu Hs) as Hstep.
  destruct (process_env all_open b env) as [b1 o1].
  destruct (hints_of_step (bs_deriver b) env) as [d1 h1]. cbn [fst snd].
  destruct Hstep as (Hf1&<-&Hh1&Hst1&Hc1&us1&Hus1&Hca1).
  specialize (IH b1 Hf1 (ca_fit _ _ _ _ _ _ Hca1) (ca_flushed _ _ _ _ _ _ Hca1) Hsig).
  unfold hints_of in IH.
  destruct (run_list (process_env all_open) b1 envs) as [b2 o2].
  destruct (run_list hints_of_step (bs_deriver b1) envs) as [d2 h2]. cbn [fst snd].
  destruct IH as (Hf2&<-&Hh2&Hst2&Hc2&us2&Hus2&Hca2).
  split; [done|]. split; [done|].
  routes. rewrite Hh1, Hh2, Hst1, Hst2, Hc1, Hc2, Hus1, Hus2. split; [done|].
  unfold signals. rewrite filter_cons. fold (signals envs).
  split; [by destruct (is_signal env); repeat case_decide|]. split; [done|].
  exists (us1 ++ us2). split; [by rewrite map_app|].
  pose proof (carries_trans _ _ _ _ _ _ _ _ _ _ _ Hca1 Hca2) as Hca.
  rewrite length_app, Nat2Z.inj_add, omap_app.
  destruct (is_signal env); repeat case_decide; try done. cbn [length].
  rewrite Nat2Z.inj_succ. by rewrite <- Z.add_1_l.
Qed.

(** The envelopes of a batch: signals never report a state change. *)
Lemma derive_step_no_change locked env :
  (is_signal env = true -> env_change env = None) ->
  Forall (fun v => is_signal v = true -> env_change v = None) (derive_step locked env).2.
Proof.
  intros He. unfold derive_step.
  destruct (env_kind env) as [[]|[]]; destruct (is_login env), locked; cbn;
    repeat case_bool_decide; cbn; repeat constructor; done.
Qed.

Lemma derive_no_change locked envs :
  Forall (fun v => is_signal v = true -> env_change v = None) envs ->
  Forall (fun v => is_signal v = true -> env_change v = None) (derive locked envs).2.
Proof.
  intros Hall. unfold derive. revert locked. induction Hall as [|e l He Hl IH]; intros b;
    [constructor|].
  rewrite run_list_cons. cbn [snd]. apply Forall_app. split; [|apply IH].
  by apply derive_step_no_change.
Qed.

Lemma adapt_batch_no_change f raw :
  Forall (fun v => is_signal v = true -> env_change v = None) (adapt_batch f raw).2.
Proof.
  unfold adapt_batch. revert f. induction raw as [|e raw IH]; intros f; [constructor|].
  rewrite run_list_cons. cbn [snd]. apply Forall_app. split; [|apply IH].
  eapply Forall_impl; [apply adapt_step_adapted|].
  intros v (_&_&Hfit&_) Hs. unfold env_fits, is_signal, env_change in *.
  by destruct (env_kind v) as [[]|], (env_payload v).
Qed.

(** What a batch becomes: the adapter and the lock deriver over its events. *)
Definition batch_envelopes (s : envelope_state) (batch : RawBatch) : list EventEnvelope :=
  (derive (es_locked s) (adapt_batch (es_last_focus s) (rb_events batch)).2).2.

(** What is left of the update goes out before [Publish]. *)
Lemma publish_carries u0 us u dh ds ch :
  u_state u0 = None -> carries u0 us u dh ds ch ->
  let out := send_update_and_publish all_open u in
  to_storage out = [] /\ to_hints out = [] /\ to_compression out = [] /\
  exists us', to_snapshot out = map SUpdate us' ++ [SPublish] /\
    carries u0 (us ++ us') update_default dh ds ch.
Proof.
  intros Hu0 [Hh Hs Hc Hf Hfit Lh Ls Hfits Hst]. pose proof (Hst Hu0) as [Hag Hn].
  unfold send_update_and_publish, send. cbn [snapshot_open all_open].
  destruct (update_is_empty u) eqn:Hempty; routes; (do 3 (split; [done|])).
  - apply update_is_empty_counts in Hempty as [E1 E2]. rewrite E1 in Hh, Lh. rewrite E2 in Hs, Ls.
    exists []. rewrite !app_nil_r. split; [done|].
    split; try done; apply update_default_fit.
  - exists [u]. split; [done|].
    split; rewrite ?map_app, ?zsum_app; cbn; rewrite ?Z.add_0_r; try done.
    + rewrite omap_app, Hc. cbn. unfold update_change. rewrite Hf. cbn. by rewrite app_nil_r.
    + apply Forall_app. split; [done|by apply Forall_singleton].
    + intros _. split; [|done]. apply Forall_app. split; [done|]. apply Forall_singleton.
      unfold state_agrees. by rewrite Hn, Hf.
Qed.

(** What a batch sends while the receivers live. *)
Lemma batch_sends s batch :
  batch_is_empty batch = false ->
  let envs := batch_envelopes s batch in
  let hints := (hints_of (es_deriver s) envs).2 in
  let '(s', out) := handle_batch s all_open batch in
  es_running s' = true /\ es_deriver s' = (hints_of (es_deriver s) envs).1 /\
  to_storage out = map StEnvelope (signals envs) /\
  to_hints out = hints /\
  to_compression out = [CProcess batch envs] /\
  exists us, to_snapshot out = map SUpdate us ++ [SPublish] /\
    carries update_default us update_default (Z.of_nat (length hints))
      (Z.of_nat (length (signals envs))) (omap env_change hints).
Proof.
  intros Hne envs hints. subst hints. unfold handle_batch. rewrite Hne.
  pose proof (derive_no_change (es_locked s) _
    (adapt_batch_no_change (es_last_focus s) (rb_events batch))) as Hsig.
  fold (batch_envelopes s batch) in Hsig. fold envs in Hsig.
  assert (envs = (derive (es_locked s) (adapt_batch (es_last_focus s) (rb_events batch)).2).2)
    as Henvs by done.
  destruct (adapt_batch _ _) as [f raws]. cbn [snd] in Henvs.
  destruct (derive (es_locked s) raws) as [l envs']. cbn [snd] in Henvs. subst envs'.
  pose proof (process_envs_carries
    {| bs_update := update_default; bs_deriver := es_deriver s; bs_failed := false |} envs
    eq_refl update_default_fit eq_refl Hsig) as Hp.
  destruct (run_list _ _ envs) as [b out].
  cbn [bs_deriver bs_update] in Hp.
  destruct (hints_of (es_deriver s) envs) as [d hints]. cbn [fst snd].
  destruct Hp as (->&<-&Hh&Hst&Hc&us&Hus&Hca). cbn [compression_open all_open negb].
  split; [done|]. split; [done|]. routes. rewrite Hh, Hst, Hc, Hus.
  destruct (publish_carries update_default us (bs_update b) _ _ _ eq_refl Hca)
    as (->&->&->&us'&->&Hca').
  rewrite !app_nil_r. split; [done|]. split; [done|]. split; [done|].
  exists (us ++ us'). split; [by rewrite map_app, <- (assoc_L (++))|done].
Qed.

(** C13: a batch is accounted for exactly while the receivers live.  With the batch's
    envelopes read off the adapter and the lock deriver: storage gets every signal, in
    order; the hints stage gets every hint, and after a signal the state change it
    causes; the compressors get the batch once, with its envelopes; the snapshot stage
    gets updates and then one [Publish], the updates' counters summing (in 64 bits) to
    the numbers of hints and signals, with every state change of the hints in an
    update of its own, in order. *)
Theorem batch_routes (s : envelope_state) (batch : RawBatch) :
  batch_is_empty batch = false ->
  let envs := batch_envelopes s batch in
  let hints := (hints_of (es_deriver s) envs).2 in
  let '(s', out) := handle_batch s all_open batch in
  es_running s' = true /\ es_deriver s' = (hints_of (es_deriver s) envs).1 /\
  to_storage out = map StEnvelope (signals envs) /\
  to_hints out = hints /\
  to_compression out = [CProcess batch envs] /\
  exists us, to_snapshot out = map SUpdate us ++ [SPublish] /\
    uw 64 (zsum (map u_hints_delta us)) = uw 64 (Z.of_nat (length hints)) /\
    uw 64 (zsum (map u_signals_delta us)) = uw 64 (Z.of_nat (length (signals envs))) /\
    omap update_change us = omap env_change hints.
Proof.
  intros Hne envs hints. pose proof (batch_sends s batch Hne) as Hb. cbv zeta in Hb.
  fold envs in Hb. fold hints in Hb. destruct (handle_batch s all_open batch) as [s' out].
  destruct Hb as (?&?&?&?&?&us&Hus&[Hh Hs Hc]). cbn in Hh, Hs. rewrite Z.add_0_r in Hh, Hs.
  split_and!; [done..|]. exists us. by split_and!.
Qed.

(** What the stage tells the snapshot stage of the hints and signals that it sends. *)
Lemma step_sends s cmd :
  let out := (envelope_step s all_open cmd).2 in
  exists us tail, to_snapshot out = map SUpdate us ++ tail /\
    tail ∈ [[]; [SPublish]; [SShutdown]] /\
    carries update_default us update_default (Z.of_nat (length (to_hints out)))
      (Z.of_nat (length (to_storage out))) (omap env_change (to_hints out)).
Proof.
  pose proof (carries_nil update_default eq_refl update_default_fit) as Hnil.
  destruct cmd as [batch|now|]; cbn [envelope_step].
  - destruct (batch_is_empty batch) eqn:He.
    { unfold handle_batch. rewrite He. exists [], []. split; [done|]. split; [by left|done]. }
    pose proof (batch_sends s batch He) as Hb. cbv zeta in Hb.
    destruct (handle_batch s all_open batch) as [s' out]. cbn [snd].
    destruct Hb as (_&_&->&->&_&us&Hus&Hca). exists us, [SPublish].
    rewrite length_map. split; [done|]. split; [by right; left|done].
  - unfold handle_tick. destruct (StateDeriver.on_tick (es_deriver s) now) as [d [hint|]].
    2: { exists [], []. split; [done|]. split; [by left|done]. }
    pose proof (process_hint_carries update_default hint None update_default_fit eq_refl) as Hp.
    destruct (process_hint all_open update_default hint None) as [[u out] ok].
    destruct Hp as (->&us&->&Hca). cbn [negb snd].
    destruct (publish_carries update_default us u _ _ _ eq_refl Hca) as (E1&E2&_&us'&E3&Hca').
    assert (forall us, to_hints (map (fun u => ToSnapshot (SUpdate u)) us) = [] /\
      to_storage (map (fun u => ToSnapshot (SUpdate u)) us) = [] /\
      to_snapshot (map (fun u => ToSnapshot (SUpdate u)) us) = map SUpdate us) as Hus.
    { clear. unfold to_hints, to_storage, to_snapshot.
      induction us as [|u us (I1&I2&I3)]; [done|]. cbn. by rewrite I1, I2, I3. }
    destruct (Hus us) as (F1&F2&F3). exists (us ++ us'), [SPublish]. routes.
    rewrite E1, E2, E3, F1, F2, F3. cbn [app length omap list_omap].
    split; [by rewrite map_app, <- (assoc_L (++))|]. split; [by right; left|].
    change (Z.of_nat 1) with 1. change (Z.of_nat 0) with 0. by destruct (env_change hint).
  - exists [], [SShutdown]. split; [done|]. split; [by right; right; left|done].
Qed.
End stage.

(** A key press on a fresh pipeline: one signal stored, one hint to the hints stage. *)
Definition demo_engine : DefaultStateEngine.state := DefaultStateEngine.new 0 5 300.
Definition demo_stage : envelope_state (E := DefaultStateEngine.state) := {|
  es_last_focus := None; es_locked := lock_new; es_deriver := demo_engine; es_running := true |}.
Definition demo_batch : RawBatch := {|
  rb_events := [RawKeyboardInput (millis 9) 7
    {| key_code := None; key_char := None; modifiers := [] |}];
  rb_reason := Timeout_ |}.

Lemma batch_routes_witness :
  let '(s', out) := @handle_batch _
    (@DefaultStateEngine.engine_class chrono_ref) demo_stage all_open demo_batch in
  es_running s' = true /\ length (to_storage out) = 1%nat /\ length (to_hints out) = 1%nat.
Proof.
  pose proof (@batch_routes _ (@DefaultStateEngine.engine_class chrono_ref)
    demo_stage demo_batch eq_refl) as Hb.
  cbv zeta in Hb. destruct (handle_batch _ _ _) as [s' out].
  destruct Hb as (Hr&_&Hst&Hh&_). rewrite Hst, Hh.
  split; [exact Hr|]. split; vm_compute; reflexivity.
Defined.
