(* ===== verification/HintsStage.v ===== *)
(** The hints stage of [daemon/pipeline/hints.rs]: every hint is stored, the record
    builder turns the hints into records, and each record goes to storage and to the
    snapshot stage.  When the envelope stage is gone the open record is finalized and
    the snapshot stage is told that the hints are complete. *)
From S2P Require Import Prelude Events Interner Records SnapshotBus CompactEvents PipelineTypes.

(** [record.run_id = run_id.clone()]. *)
Definition set_run_id (id : option string) (r : ActivityRecord) : ActivityRecord := {|
  record_id := record_id r; run_id := id; start_time := start_time r;
  end_time := end_time r; state := state r; focus_info := focus_info r;
  event_count := event_count r; triggering_events := triggering_events r |}.

Section stage.
Context (utc_now : nat -> instant) {I : Type} `{TitleInterner I}.
Context (own_run_id : option string).

(** A finalized record: to storage, then to the snapshot stage. *)
Definition emit_record (open : open_channels) (record : ActivityRecord) : list output :=
  let record := set_run_id own_run_id record in
  send (storage_open open) (ToStorage (StRecord record))
  ++ send (snapshot_open open) (ToSnapshot (SRecord record)).

Definition emit_records (open : open_channels) (o : option ActivityRecord) : list output :=
  match o with Some record => emit_record open record | None => [] end.

(** The loop body; the state is the builder and the clock readings made. *)
Definition hints_step (open : open_channels) (bn : RecordBuilder (I := I) * nat) (env : EventEnvelope)
    : RecordBuilder (I := I) * nat * list output :=
  let stored := send (storage_open open) (ToStorage (StEnvelope env)) in
  let '(b, n, o) := on_hint utc_now bn.1 bn.2 env in
  ((b, n), stored ++ emit_records open o).

(** What follows the loop. *)
Definition hints_end (open : open_channels) (bn : RecordBuilder (I := I) * nat) : list output :=
  let '(_, _, o) := finalize_all utc_now bn.1 bn.2 in
  emit_records open o ++ send (snapshot_open open) (ToSnapshot SHintsComplete).

(** The whole thread, over the hints received before the channel closes. *)
Definition hints_stage (open : open_channels) (next_record_id : Z) (i : I) (n : nat)
    (hints : list EventEnvelope) : list output :=
  let '(bn, out) := run_list (hints_step open)
    (with_next_record_id Inactive next_record_id i, n) hints in
  out ++ hints_end open bn.

(** ** What the stage stores *)
Definition stored_envelopes (l : list StorageCommand) : list EventEnvelope :=
  omap (fun c => match c with StEnvelope e => Some e | _ => None end) l.
Definition stored_records (l : list StorageCommand) : list ActivityRecord :=
  omap (fun c => match c with StRecord r => Some r | _ => None end) l.

Lemma stored_envelopes_app l k :
  stored_envelopes (l ++ k) = stored_envelopes l ++ stored_envelopes k.
Proof. apply omap_app. Qed.
Lemma stored_records_app l k :
  stored_records (l ++ k) = stored_records l ++ stored_records k.
Proof. apply omap_app. Qed.

Lemma emit_records_sent o :
  stored_envelopes (to_storage (emit_records all_open o)) = [] /\
  stored_records (to_storage (emit_records all_open o))
    = map (set_run_id own_run_id) (option_list o) /\
  to_snapshot (emit_records all_open o)
    = map SRecord (map (set_run_id own_run_id) (option_list o)).
Proof. by destruct o. Qed.

Lemma hints_step_build bn e :
  exists o, hints_step all_open bn e =
    ((hint_step utc_now bn e).1, ToStorage (StEnvelope e) :: emit_records all_open o) /\
    (hint_step utc_now bn e).2 = option_list o.
Proof.
  unfold hints_step, hint_step. destruct (on_hint utc_now bn.1 bn.2 e) as [[b n] o].
  by exists o.
Qed.

Lemma hints_run_sent bn hints :
  (run_list (hints_step all_open) bn hints).1 = (build utc_now bn hints).1 /\
  let out := (run_list (hints_step all_open) bn hints).2 in
  let rs := map (set_run_id own_run_id) (build utc_now bn hints).2 in
  stored_envelopes (to_storage out) = hints /\
  stored_records (to_storage out) = rs /\ to_snapshot out = map SRecord rs.
Proof.
  unfold build. revert bn. induction hints as [|e hints IH]; intros bn; [done|].
  rewrite !run_list_cons. destruct (hints_step_build bn e) as (o&->&->). cbn [fst snd].
  destruct (IH (hint_step utc_now bn e).1) as (E0&E1&E2&E3).
  destruct (emit_records_sent o) as (F1&F2&F3). split; [done|]. cbv zeta in *.
  rewrite to_storage_app, to_storage_cons, to_snapshot_app, to_snapshot_cons, !map_app.
  rewrite !stored_envelopes_app, !stored_records_app, E1, E2, E3, F1, F2, F3.
  by split; [|split].
Qed.

(** The records are closed. *)
Lemma on_hint_closed b n e :
  Forall (fun r => is_Some (end_time r)) (option_list (on_hint utc_now b n e).2).
Proof.
  unfold on_hint, apply_focus_change, transition_to, apply_title_change, finalize_current.
  destruct (env_kind e) as [|[]]; cbn; try constructor;
    split_matches; repeat constructor; cbn; eauto.
Qed.

Lemma build_closed bn hints :
  Forall (fun r => is_Some (end_time r)) (build utc_now bn hints).2.
Proof.
  destruct bn as [b n]. revert b n. induction hints as [|e hints IH]; intros b n; [constructor|].
  rewrite build_cons. pose proof (on_hint_closed b n e) as Ho.
  destruct (on_hint utc_now b n e) as [[b' n'] o]. cbn [fst snd] in *.
  apply Forall_app. split; [done|apply IH].
Qed.

Lemma hints_end_sent bn :
  let out := hints_end all_open bn in
  let rs := map (set_run_id own_run_id)
    (map (fun r => close r (utc_now bn.2)) (option_list (current_record bn.1))) in
  stored_envelopes (to_storage out) = [] /\
  stored_records (to_storage out) = rs /\ to_snapshot out = map SRecord rs ++ [SHintsComplete].
Proof.
  unfold hints_end, finalize_all, finalize_current.
  by destruct (current_record bn.1) as [r|].
Qed.

(** What the stage stores, and that it tells the snapshot stage the records that it stores. *)
Lemma hints_stage_stores next i n hints :
  let out := hints_stage all_open next i n hints in
  stored_envelopes (to_storage out) = hints /\
  to_snapshot out = map SRecord (stored_records (to_storage out)) ++ [SHintsComplete].
Proof.
  unfold hints_stage. set (b0 := with_next_record_id Inactive next i).
  destruct (hints_run_sent (b0, n) hints) as (_&E1&E2&E3). cbv zeta in *.
  destruct (run_list _ (b0, n) hints) as [bn out]. cbn [fst snd] in *.
  destruct (hints_end_sent bn) as (F1&F2&F3). cbv zeta in *.
  rewrite to_storage_app, to_snapshot_app, stored_envelopes_app, stored_records_app.
  rewrite E1, E2, E3, F1, F2, F3, app_nil_r. split; [done|]. by rewrite List.map_app, (assoc_L (++)).
Qed.

(** While storage and the snapshot stage listen, the stage stores every hint it
    receives, in order, and hands storage and the snapshot stage the same records in
    the same order; there is one record per cutting hint, the last one included, with
    consecutive ids and the state and focus after the hint; each is closed and carries
    the id of the run; [HintsComplete] is the last message to the snapshot stage. *)
Theorem hints_stage_records (ok : I -> Prop) `{!TitleInternerLaws I ok} next i n hints :
  ok i ->
  let out := hints_stage all_open next i n hints in
  stored_envelopes (to_storage out) = hints /\
  exists rs, stored_records (to_storage out) = rs /\
    to_snapshot out = map SRecord rs ++ [SHintsComplete] /\
    map summary rs = number next (segments Inactive None hints) /\
    Forall (fun r => is_Some (end_time r) /\ run_id r = own_run_id) rs.
Proof.
  intros Hok. unfold hints_stage. set (b0 := with_next_record_id Inactive next i).
  pose proof (build_segments utc_now ok b0 n hints Hok) as Hseg.
  pose proof (build_closed (b0, n) hints) as Hcl.
  destruct (hints_run_sent (b0, n) hints) as (E0&E1&E2&E3). cbv zeta in *.
  destruct (run_list _ (b0, n) hints) as [bn out]. cbn [fst snd] in *. subst bn.
  destruct (hints_end_sent (build utc_now (b0, n) hints).1) as (F1&F2&F3). cbv zeta in *.
  rewrite to_storage_app, to_snapshot_app, stored_envelopes_app, stored_records_app.
  rewrite E1, E2, E3, F1, F2, F3, app_nil_r. split; [done|]. eexists. split; [done|].
  split; [by rewrite (assoc_L (++)), <- map_app|].
  rewrite <- map_app. split.
  - etrans; [|exact Hseg]. rewrite !map_app, !map_map.
    by destruct (current_record _).
  - apply Forall_map, Forall_app. split.
    + eapply Forall_impl; [exact Hcl|]. by split.
    + destruct (current_record _); cbn; repeat constructor; cbn; eauto.
Qed.
End stage.

Lemma hints_stage_records_witness :
  let out := hints_stage Z.of_nat (Some "run-1") all_open 41 demo_interner 0 demo_hints in
  map record_id (stored_records (to_storage out)) = [41; 42; 43] /\
  stored_envelopes (to_storage out) = demo_hints.
Proof.
  intros out.
  destruct (hints_stage_records Z.of_nat (Some "run-1")
    (fun st => StringInterner.interner_ok st.1 st.2) 41 demo_interner 0 demo_hints
    demo_interner_ok) as [He _].
  split; [vm_compute; reflexivity|exact He].
Defined.
