(* ===== verification/CompressionStage.v ===== *)
(** The compression stage of [daemon/pipeline/compression.rs]: each batch goes through
    the compression engine; raw events (when they are kept) and compact events go to
    storage, and the statistics roll up into one report per interval. *)
From S2P Require Import Prelude Events LockDeriver SnapshotBus Float32 CompactEvents.
From S2P Require Import Compressor Trajectory Engine PipelineTypes.

(** ** Statistics *)
Record RawEventStats := { rs_total : Z; rs_keyboard : Z; rs_mouse : Z; rs_focus : Z }.
Definition raw_stats_default : RawEventStats :=
  {| rs_total := 0; rs_keyboard := 0; rs_mouse := 0; rs_focus := 0 |}.

Definition raw_stats_step (s : RawEventStats) (e : RawEvent) : RawEventStats :=
  let s := {| rs_total := u64_add (rs_total s) 1; rs_keyboard := rs_keyboard s;
              rs_mouse := rs_mouse s; rs_focus := rs_focus s |} in
  match e with
  | RawKeyboardInput _ _ _ => {| rs_total := rs_total s;
      rs_keyboard := u64_add (rs_keyboard s) 1; rs_mouse := rs_mouse s; rs_focus := rs_focus s |}
  | RawMouseInput _ _ _ => {| rs_total := rs_total s; rs_keyboard := rs_keyboard s;
      rs_mouse := u64_add (rs_mouse s) 1; rs_focus := rs_focus s |}
  | RawWindowFocusChange _ _ _ => {| rs_total := rs_total s; rs_keyboard := rs_keyboard s;
      rs_mouse := rs_mouse s; rs_focus := u64_add (rs_focus s) 1 |}
  end.
Definition raw_stats_from (events : list RawEvent) : RawEventStats :=
  foldl raw_stats_step raw_stats_default events.

Record CompactEventStats := {
  cs_total : Z; cs_scroll : Z; cs_mouse_traj : Z; cs_keyboard : Z; cs_focus : Z }.
Definition compact_stats_default : CompactEventStats :=
  {| cs_total := 0; cs_scroll := 0; cs_mouse_traj := 0; cs_keyboard := 0; cs_focus := 0 |}.

Definition compact_stats_step (s : CompactEventStats) (e : CompactEvent) : CompactEventStats :=
  let total := u64_add (cs_total s) 1 in
  match e with
  | Scroll _ => {| cs_total := total; cs_scroll := u64_add (cs_scroll s) 1;
      cs_mouse_traj := cs_mouse_traj s; cs_keyboard := cs_keyboard s; cs_focus := cs_focus s |}
  | MouseTrajectory _ => {| cs_total := total; cs_scroll := cs_scroll s;
      cs_mouse_traj := u64_add (cs_mouse_traj s) 1; cs_keyboard := cs_keyboard s;
      cs_focus := cs_focus s |}
  | Keyboard _ => {| cs_total := total; cs_scroll := cs_scroll s;
      cs_mouse_traj := cs_mouse_traj s; cs_keyboard := u64_add (cs_keyboard s) 1;
      cs_focus := cs_focus s |}
  | Focus _ => {| cs_total := total; cs_scroll := cs_scroll s;
      cs_mouse_traj := cs_mouse_traj s; cs_keyboard := cs_keyboard s;
      cs_focus := u64_add (cs_focus s) 1 |}
  end.
Definition compact_stats_from (events : list CompactEvent) : CompactEventStats :=
  foldl compact_stats_step compact_stats_default events.

(** [Instant] and [Duration] are nanoseconds of the monotonic clock. *)
Record RollupStats := {
  ro_interval : duration;
  ro_next_flush : Z;
  ro_batches : Z;
  ro_raw : RawEventStats;
  ro_compact : CompactEventStats;
  ro_by_reason : gmap FlushReason Z
}.

(** The line logged by a flush. *)
Record rollup_report := {
  rr_batches : Z; rr_timeout : Z; rr_shutdown : Z;
  rr_raw : RawEventStats; rr_compact : CompactEventStats }.

Definition rollup_new (interval : duration) (now : Z) : RollupStats := {|
  ro_interval := interval; ro_next_flush := now + interval; ro_batches := 0;
  ro_raw := raw_stats_default; ro_compact := compact_stats_default; ro_by_reason := ∅ |}.

Definition add_batch (r : RollupStats) (reason : FlushReason) (raw : RawEventStats)
    (compact : CompactEventStats) : RollupStats := {|
  ro_interval := ro_interval r; ro_next_flush := ro_next_flush r;
  ro_batches := u64_add (ro_batches r) 1;
  ro_raw := {|
    rs_total := u64_add (rs_total (ro_raw r)) (rs_total raw);
    rs_keyboard := u64_add (rs_keyboard (ro_raw r)) (rs_keyboard raw);
    rs_mouse := u64_add (rs_mouse (ro_raw r)) (rs_mouse raw);
    rs_focus := u64_add (rs_focus (ro_raw r)) (rs_focus raw) |};
  ro_compact := {|
    cs_total := u64_add (cs_total (ro_compact r)) (cs_total compact);
    cs_scroll := u64_add (cs_scroll (ro_compact r)) (cs_scroll compact);
    cs_mouse_traj := u64_add (cs_mouse_traj (ro_compact r)) (cs_mouse_traj compact);
    cs_keyboard := u64_add (cs_keyboard (ro_compact r)) (cs_keyboard compact);
    cs_focus := u64_add (cs_focus (ro_compact r)) (cs_focus compact) |};
  ro_by_reason := <[reason := u64_add (default 0 (ro_by_reason r !! reason)) 1]> (ro_by_reason r)
|}.

Definition rollup_flush (r : RollupStats) : RollupStats * list rollup_report :=
  if ro_batches r =? 0 then (r, [])
  else
    let timeout := default 0 (ro_by_reason r !! Timeout_) in
    let shutdown := default 0 (ro_by_reason r !! Shutdown_) in
    ({| ro_interval := ro_interval r; ro_next_flush := ro_next_flush r; ro_batches := 0;
        ro_raw := raw_stats_default; ro_compact := compact_stats_default;
        ro_by_reason := ∅ |},
     [{| rr_batches := ro_batches r; rr_timeout := timeout; rr_shutdown := shutdown;
         rr_raw := ro_raw r; rr_compact := ro_compact r |}]).

(** [t1] and [t2]: the clock before and after the flush. *)
Definition rollup_maybe_flush (r : RollupStats) (t1 t2 : Z) : RollupStats * list rollup_report :=
  if ro_next_flush r <=? t1 then
    let '(r, out) := rollup_flush r in
    ({| ro_interval := ro_interval r; ro_next_flush := t2 + ro_interval r;
        ro_batches := ro_batches r; ro_raw := ro_raw r; ro_compact := ro_compact r;
        ro_by_reason := ro_by_reason r |}, out)
  else (r, []).

(** ** What is forwarded *)

(** One envelope of the suppression scan: [locked] and the suppressed ids. *)
Definition suppress_step (st : bool * gset Z) (env : EventEnvelope) : bool * gset Z :=
  let '(locked, suppress) := st in
  match env_kind env with
  | Signal LockStart => (true, suppress)
  | Signal LockEnd => (false, suppress)
  | Signal (KeyboardInput | MouseInput) =>
      if locked then (locked, {[env_id env]} ∪ suppress) else (locked, suppress)
  | _ => (locked, suppress)
  end.

Definition suppressed (envelopes : list EventEnvelope) : gset Z :=
  (foldl suppress_step (false, ∅) envelopes).2.

Definition should_store (suppress : gset Z) (e : RawEvent) : bool :=
  match e with
  | RawKeyboardInput _ event_id _ | RawMouseInput _ event_id _ =>
      negb (bool_decide (event_id ∈ suppress))
  | RawWindowFocusChange _ _ _ => true
  end.

(** The loop over the events stops at the first send that fails. *)
Fixpoint send_raw (open : bool) (suppress : gset Z) (events : list RawEvent) : list output :=
  match events with
  | [] => []
  | e :: events =>
      if should_store suppress e then
        if open then ToStorage (StRawEvent e) :: send_raw open suppress events else []
      else send_raw open suppress events
  end.

Definition forward_raw_events (open : open_channels) (envelopes : list EventEnvelope)
    (processed : list RawEvent) : list output :=
  match processed with
  | [] => []
  | _ => send_raw (storage_open open) (suppressed envelopes) processed
  end.

Definition forward_compact_events (open : open_channels) (compact : list CompactEvent)
    : list output :=
  match compact with
  | [] => []
  | _ => send (storage_open open) (ToStorage (StCompactEvents compact))
  end.

Definition clear_ref (e : CompactEvent) : CompactEvent :=
  match e with
  | Scroll s => Scroll {| sc_start_time := sc_start_time s; sc_end_time := sc_end_time s;
      sc_direction := sc_direction s; sc_total_amount := sc_total_amount s;
      sc_total_rotation := sc_total_rotation s; sc_scroll_count := sc_scroll_count s;
      sc_position := sc_position s; sc_raw_event_ids := None |}
  | MouseTrajectory t => MouseTrajectory {| mt_start_time := mt_start_time t;
      mt_end_time := mt_end_time t; mt_event_type := mt_event_type t;
      mt_start_position := mt_start_position t; mt_end_position := mt_end_position t;
      mt_simplified_path := mt_simplified_path t; mt_total_distance := mt_total_distance t;
      mt_max_velocity := mt_max_velocity t; mt_raw_event_ids := None |}
  | Keyboard k => Keyboard {| kb_start_time := kb_start_time k; kb_end_time := kb_end_time k;
      kb_keystrokes := kb_keystrokes k; kb_keys_per_minute := kb_keys_per_minute k;
      kb_density_per_sec := kb_density_per_sec k; kb_raw_event_ids := None |}
  | Focus f => Focus {| fe_timestamp := fe_timestamp f; fe_app_name_id := fe_app_name_id f;
      fe_window_title_id := fe_window_title_id f; fe_pid := fe_pid f;
      fe_window_position := fe_window_position f; fe_raw_event_ids := None |}
  end.
Definition clear_raw_event_refs (l : list CompactEvent) : list CompactEvent := map clear_ref l.

(** ** The stage *)
Section stage.
Context `{Chrono} `{MemSizes}.

Record compression_state := {
  cp_engine : CompressionEngine;
  cp_rollup : RollupStats;
  cp_running : bool
}.

(** A command, with the clock readings around the rollup: the new state, the sends and
    the reports logged. *)
Definition compression_step (persist_raw_events : bool) (open : open_channels)
    (s : compression_state) (cmd : CompressionCommand) (t1 t2 : Z)
    : compression_state * list output * list rollup_report :=
  match cmd with
  | CProcess batch envelopes =>
      match rb_events batch with
      | [] => (s, [], [])
      | _ =>
          let raw_stats := raw_stats_from (rb_events batch) in
          let '(g, (processed, compact)) := compress_events (cp_engine s) (rb_events batch) in
          let compact_stats := compact_stats_from compact in
          let rollup := add_batch (cp_rollup s) (rb_reason batch) raw_stats compact_stats in
          let '(rollup, reports) := rollup_maybe_flush rollup t1 t2 in
          let raw_out :=
            if persist_raw_events then forward_raw_events open envelopes processed else [] in
          let compact := if persist_raw_events then compact else clear_raw_event_refs compact in
          ({| cp_engine := g; cp_rollup := rollup; cp_running := cp_running s |},
           raw_out ++ forward_compact_events open compact, reports)
      end
  | CShutdown =>
      let '(rollup, reports) := rollup_flush (cp_rollup s) in
      ({| cp_engine := cp_engine s; cp_rollup := rollup; cp_running := false |}, [], reports)
  end.
End stage.

(** ** The suppression scan *)

(** The lock state after a prefix of the envelopes of a batch, as the stage sees it. *)
Definition locked_after (before : list EventEnvelope) : bool :=
  (foldl suppress_step (false, ∅) before).1.

Definition is_input (e : EventEnvelope) : bool :=
  match env_kind e with Signal (KeyboardInput | MouseInput) => true | _ => false end.

Lemma suppress_step_spec b S e :
  suppress_step (b, S) e =
    ((suppress_step (b, ∅) e).1,
     if b && is_input e then {[env_id e]} ∪ S else S).
Proof. unfold suppress_step, is_input. by destruct (env_kind e) as [[]|], b. Qed.

Lemma suppress_step_flag b S e : (suppress_step (b, S) e).1 = (suppress_step (b, ∅) e).1.
Proof. by rewrite suppress_step_spec. Qed.

Lemma locked_after_snoc l e :
  locked_after (l ++ [e]) = (suppress_step (locked_after l, ∅) e).1.
Proof.
  unfold locked_after. rewrite foldl_app. cbn [foldl].
  destruct (foldl _ _ l) as [b S]. apply suppress_step_flag.
Qed.

Lemma suppressed_snoc l e :
  suppressed (l ++ [e])
    = if locked_after l && is_input e then {[env_id e]} ∪ suppressed l else suppressed l.
Proof.
  unfold suppressed, locked_after. rewrite foldl_app. cbn [foldl].
  destruct (foldl _ _ l) as [b S]. by rewrite suppress_step_spec.
Qed.

Lemma elem_of_suppressed l id :
  id ∈ suppressed l <->
  exists before e after, l = before ++ e :: after /\ env_id e = id /\
    is_input e = true /\ locked_after before = true.
Proof.
  induction l as [|e l IH] using rev_ind.
  { split; [intros Hid; by apply not_elem_of_empty in Hid|].
    intros (b&e&a&Hl&_). by destruct b. }
  rewrite suppressed_snoc.
  destruct (locked_after l && is_input e) eqn:Hc.
  - apply andb_true_iff in Hc as [Hl He]. rewrite elem_of_union, elem_of_singleton, IH. split.
    + intros [->|(b&x&a&->&Hx)]; [by exists l, e, []|].
      exists b, x, (a ++ [e]). split; [|done]. by rewrite <- (assoc_L (++)).
    + intros (b&x&a&Hs&Hx). destruct a as [|y a _] using rev_ind.
      * apply app_inj_tail in Hs as [_ <-]. left. by destruct Hx as [-> _].
      * right. rewrite app_comm_cons, (assoc_L (++)) in Hs.
        apply app_inj_tail in Hs as [-> _]. by exists b, x, a.
  - rewrite IH. split.
    + intros (b&x&a&->&Hx). exists b, x, (a ++ [e]). split; [|done].
      by rewrite <- (assoc_L (++)).
    + intros (b&x&a&Hs&Hid&Hi&Hb). destruct a as [|y a _] using rev_ind.
      * apply app_inj_tail in Hs as [-> <-]. by rewrite Hb, Hi in Hc.
      * rewrite app_comm_cons, (assoc_L (++)) in Hs.
        apply app_inj_tail in Hs as [-> _]. by exists b, x, a.
Qed.

(** On a stream in which the lock deriver's discipline holds, nothing is suppressed. *)
Lemma lock_scan_suppress b loc S l b' :
  lock_scan b l = Some b' -> (loc = true -> b = true) ->
  (foldl suppress_step (loc, S) l).2 = S.
Proof.
  revert b loc. induction l as [|e l IH]; intros b loc Hs Hloc; [done|]. cbn in Hs |- *.
  destruct (env_kind e) as [[]|[]], b; try done; destruct loc; try done;
    cbn; eauto; try by specialize (Hloc eq_refl).
  all: destruct (focus_signal e && is_login e); [done|]; eauto.
Qed.

Lemma send_raw_open S events :
  send_raw true S events
    = map (fun e => ToStorage (StRawEvent e)) (filter (fun e => should_store S e = true) events).
Proof.
  induction events as [|e events IH]; [done|]. cbn [send_raw]. rewrite filter_cons.
  destruct (should_store S e); repeat case_decide; try done. cbn. by rewrite IH.
Qed.

Lemma forward_raw_open envs events :
  forward_raw_events all_open envs events
    = map (fun e => ToStorage (StRawEvent e))
        (filter (fun e => should_store (suppressed envs) e = true) events).
Proof. unfold forward_raw_events. destruct events; [done|]. apply send_raw_open. Qed.

Lemma to_storage_raw l : to_storage (map (fun e => ToStorage (StRawEvent e)) l) = map StRawEvent l.
Proof. induction l as [|e l IH]; [done|]. cbn [map]. by rewrite to_storage_cons, IH. Qed.

Definition is_focus_change (e : RawEvent) : bool :=
  match e with RawWindowFocusChange _ _ _ => true | _ => false end.

Lemma should_store_iff envs e :
  should_store (suppressed envs) e = true <->
    is_focus_change e = true \/ raw_event_id e ∉ suppressed envs.
Proof.
  destruct e; cbn; rewrite ?negb_true_iff, ?bool_decide_eq_false; [| |by intuition];
    (split; [by right|by intros [?|?]]).
Qed.

Lemma not_suppressed envs id :
  id ∉ suppressed envs <->
  forall before v after, envs = before ++ v :: after -> env_id v = id ->
    is_input v = true -> locked_after before = false.
Proof.
  rewrite elem_of_suppressed. split.
  - intros Hn b v a Hl Hid Hi. destruct (locked_after b) eqn:Hb; [|done].
    exfalso. apply Hn. by exists b, v, a.
  - intros Hall (b&v&a&Hl&Hid&Hi&Hb). by rewrite (Hall b v a) in Hb.
Qed.

Lemma clear_ref_ids e : event_ids (clear_ref e) = [].
Proof. by destruct e. Qed.

(** ** Theorems *)

(** On a batch, with storage listening, raw events are stored only when they are
    kept: then exactly the focus changes, and the key and mouse events none of whose
    signals comes after a [LockStart] of the batch without a [LockEnd] in between, in
    order; after them one command with all compact events, if there are any.  When raw
    events are not kept, the compact events point to none. *)
Theorem compression_stage_stores `{Chrono} `{MemSizes} persist s batch envelopes t1 t2 :
  rb_events batch <> [] ->
  let '(s', out, _) := compression_step persist all_open s (CProcess batch envelopes) t1 t2 in
  let compact := (compress_events (cp_engine s) (rb_events batch)).2.2 in
  exists raw compact',
    to_storage out = map StRawEvent raw
      ++ match compact with [] => [] | _ => [StCompactEvents compact'] end /\
    cp_running s' = cp_running s /\
    (persist = true -> compact' = compact /\ raw `sublist_of` rb_events batch /\
      forall e, e ∈ raw <-> e ∈ rb_events batch /\
        (is_focus_change e = true \/ forall before v after,
           envelopes = before ++ v :: after -> env_id v = raw_event_id e ->
           is_input v = true -> locked_after before = false)) /\
    (persist = false -> raw = [] /\ compact' = map clear_ref compact /\
      Forall (fun c => event_ids c = []) compact').
Proof.
  intros Hne. unfold compression_step.
  assert (forall g, (compress_events g (rb_events batch)).2.1 = rb_events batch) as Hraw.
  { intros g. unfold compress_events. destruct (rb_events batch); [done|].
    do 4 destruct (run_compressor _ _ _). done. }
  specialize (Hraw (cp_engine s)).
  destruct (rb_events batch) as [|e0 raw0] eqn:Hev; [done|]. set (raw := e0 :: raw0) in *.
  destruct (compress_events (cp_engine s) raw) as [g [processed compact]].
  cbn [snd fst] in *. subst processed.
  destruct (rollup_maybe_flush _ t1 t2) as [ro reports]. destruct persist.
  - exists (filter (fun e => should_store (suppressed envelopes) e = true) raw), compact.
    rewrite forward_raw_open, to_storage_app, to_storage_raw. cbn [cp_running].
    split; [by destruct compact|]. split; [done|]. split; [|done]. intros _.
    split; [done|]. split; [apply sublist_filter|]. intros e.
    rewrite list_elem_of_filter, should_store_iff, not_suppressed. tauto.
  - exists [], (map clear_ref compact). cbn [cp_running app].
    split; [by destruct compact|]. split; [done|]. split; [done|]. intros _.
    split; [done|]. split; [done|]. apply Forall_map, Forall_forall.
    intros. apply clear_ref_ids.
Qed.

(** On the envelopes the lock deriver makes, the suppression has no effect: the
    deriver has already dropped the key and mouse signals of a locked screen, so no id
    is ever suppressed and every raw event of the batch is stored, locked or not. *)
Theorem lock_suppression_is_dead locked envs events :
  Forall (fun e => lock_signal e = false) envs ->
  suppressed (derive locked envs).2 = ∅ /\
  to_storage (forward_raw_events all_open (derive locked envs).2 events) = map StRawEvent events.
Proof.
  intros Henvs. destruct (derive_spec locked [] envs Henvs) as (_&_&Hscan). cbn in Hscan.
  assert (suppressed (derive locked envs).2 = ∅) as Hs
    by (by eapply lock_scan_suppress).
  split; [done|]. rewrite forward_raw_open, Hs, to_storage_raw. f_equal.
  induction events as [|e events IH]; [done|]. rewrite filter_cons, decide_True, IH; [done|].
  destruct e; cbn; by rewrite ?bool_decide_eq_false_2 by apply not_elem_of_empty.
Qed.

(** ** The rollup *)

(** The counters of a report, of the open rollup and of a batch. *)
Inductive stat :=
  | Batches | ByTimeout | ByShutdown
  | RawTotal | RawKeyboard | RawMouse | RawFocus
  | CompactTotal | CompactScroll | CompactMouse | CompactKeyboard | CompactFocus.

Definition raw_stat (s : RawEventStats) (i : stat) : Z :=
  match i with
  | RawTotal => rs_total s | RawKeyboard => rs_keyboard s
  | RawMouse => rs_mouse s | RawFocus => rs_focus s | _ => 0
  end.
Definition compact_stat (s : CompactEventStats) (i : stat) : Z :=
  match i with
  | CompactTotal => cs_total s | CompactScroll => cs_scroll s | CompactMouse => cs_mouse_traj s
  | CompactKeyboard => cs_keyboard s | CompactFocus => cs_focus s | _ => 0
  end.
Definition stat_of (batches timeout shutdown : Z) (raw : RawEventStats)
    (compact : CompactEventStats) (i : stat) : Z :=
  match i with
  | Batches => batches
  | ByTimeout => timeout
  | ByShutdown => shutdown
  | RawTotal | RawKeyboard | RawMouse | RawFocus => raw_stat raw i
  | _ => compact_stat compact i
  end.
Definition report_stat (p : rollup_report) : stat -> Z :=
  stat_of (rr_batches p) (rr_timeout p) (rr_shutdown p) (rr_raw p) (rr_compact p).
Definition rollup_stat (r : RollupStats) : stat -> Z :=
  stat_of (ro_batches r) (default 0 (ro_by_reason r !! Timeout_))
    (default 0 (ro_by_reason r !! Shutdown_)) (ro_raw r) (ro_compact r).
Record stats_input := {
  si_reason : FlushReason; si_raw : RawEventStats; si_compact : CompactEventStats;
  si_before : Z; si_after : Z }.
Definition input_stat (b : stats_input) : stat -> Z :=
  stat_of 1 (if decide (si_reason b = Timeout_) then 1 else 0)
    (if decide (si_reason b = Shutdown_) then 1 else 0) (si_raw b) (si_compact b).

(** The rollup over a stream of batches. *)
Definition rollup_step (r : RollupStats) (b : stats_input) : RollupStats * list rollup_report :=
  rollup_maybe_flush (add_batch r (si_reason b) (si_raw b) (si_compact b))
    (si_before b) (si_after b).
Definition rollup_run (r : RollupStats) (l : list stats_input)
    : RollupStats * list rollup_report := run_list rollup_step r l.

Lemma add_batch_stat r b i :
  uw 64 (rollup_stat (add_batch r (si_reason b) (si_raw b) (si_compact b)) i)
    = uw 64 (rollup_stat r i + input_stat b i).
Proof.
  unfold rollup_stat, input_stat, add_batch, stat_of, u64_add.
  destruct i; cbn; rewrite ?uw_uw; try done.
  all: destruct (si_reason b); cbn;
    rewrite ?lookup_insert_eq, ?lookup_insert_ne by done; cbn; rewrite ?uw_uw, ?Z.add_0_r; done.
Qed.

(** An open rollup without batches has no counts. *)
Definition rollup_ok (k : Z) (r : RollupStats) : Prop :=
  0 <= ro_batches r <= k /\ (ro_batches r = 0 -> forall i, rollup_stat r i = 0).

Lemma flush_stat k r i :
  rollup_ok k r ->
  let '(r', out) := rollup_flush r in
  rollup_ok k r' /\ rollup_stat r' i = 0 /\
  zsum (map (fun p => report_stat p i) out) = rollup_stat r i.
Proof.
  intros [Hk Hz]. unfold rollup_flush. destruct (Z.eqb_spec (ro_batches r) 0) as [H0|H0].
  - split; [by split|]. rewrite (Hz H0). done.
  - split; [|split]; [split; [cbn; lia|intros _ []; done]|by destruct i|].
    cbn. rewrite Z.add_0_r. by destruct i.
Qed.

Lemma add_batch_ok k r b :
  rollup_ok k r -> k + 1 < 2 ^ 64 ->
  rollup_ok (k + 1) (add_batch r (si_reason b) (si_raw b) (si_compact b)).
Proof.
  intros [Hk Hz] Hlt. unfold rollup_ok, add_batch; cbn [ro_batches]. unfold u64_add.
  rewrite uw_small by (unfold in_u; lia). split; [lia|]. intros ?. lia.
Qed.

Lemma rollup_step_stat k r b i :
  rollup_ok k r -> k + 1 < 2 ^ 64 ->
  let '(r', out) := rollup_step r b in
  rollup_ok (k + 1) r' /\
  uw 64 (zsum (map (fun p => report_stat p i) out) + rollup_stat r' i)
    = uw 64 (rollup_stat r i + input_stat b i).
Proof.
  intros Hok Hk. unfold rollup_step, rollup_maybe_flush.
  pose proof (add_batch_ok k r b Hok Hk) as Ha. rewrite <- add_batch_stat.
  set (r1 := add_batch r _ _ _) in *.
  destruct (ro_next_flush r1 <=? si_before b); [|by split].
  pose proof (flush_stat (k + 1) r1 i Ha) as Hf.
  destruct (rollup_flush r1) as [r2 out]. destruct Hf as ([Hb Hz]&H0&->).
  split; [by split|]. unfold rollup_stat in *. cbn [ro_batches ro_raw ro_compact ro_by_reason].
  by rewrite H0, Z.add_0_r.
Qed.

Lemma rollup_run_stat k r l i :
  rollup_ok k r -> k + Z.of_nat (length l) < 2 ^ 64 ->
  let '(r', out) := rollup_run r l in
  rollup_ok (k + Z.of_nat (length l)) r' /\
  uw 64 (zsum (map (fun p => report_stat p i) out) + rollup_stat r' i)
    = uw 64 (rollup_stat r i + zsum (map (fun b => input_stat b i) l)).
Proof.
  unfold rollup_run. revert k r. induction l as [|b l IH]; intros k r Hok Hk.
  { cbn. rewrite !Z.add_0_r. done. }
  cbn [length] in Hk. rewrite Nat2Z.inj_succ in Hk.
  rewrite run_list_cons. pose proof (rollup_step_stat k r b i Hok ltac:(lia)) as Hs.
  destruct (rollup_step r b) as [r1 o1]. destruct Hs as [Hok1 Hs]. cbn [fst snd].
  specialize (IH (k + 1) r1 Hok1 ltac:(lia)).
  destruct (run_list rollup_step r1 l) as [r2 o2]. destruct IH as [Hok2 IH]. cbn [fst snd].
  split; [cbn [length]; by replace (k + Z.of_nat (S (length l)))
    with (k + 1 + Z.of_nat (length l)) by lia|].
  rewrite map_app, zsum_app. cbn [map zsum foldr]. fold (zsum (map (fun b => input_stat b i) l)).
  rewrite <- Z.add_assoc, <- uw_add_r, IH, uw_add_r, !Z.add_assoc.
  by rewrite <- uw_add_l, Hs, uw_add_l.
Qed.

(** Nothing is lost between the reports: over any batches and clock, ended by the
    flush at shutdown, each counter of the reports (batches, batches by reason, raw
    events and compact events by kind) sums to the counts of the batches, modulo 2^64,
    and the rollup left over is empty. *)
Theorem rollup_accounts interval now l i :
  Z.of_nat (length l) < 2 ^ 64 ->
  let '(r, out) := rollup_run (rollup_new interval now) l in
  let '(r', final) := rollup_flush r in
  rollup_stat r' i = 0 /\
  uw 64 (zsum (map (fun p => report_stat p i) (out ++ final)))
    = uw 64 (zsum (map (fun b => input_stat b i) l)).
Proof.
  intros Hl.
  assert (rollup_ok 0 (rollup_new interval now)) as H0 by (split; [done|by intros _ []]).
  pose proof (rollup_run_stat 0 _ l i H0 Hl) as Hr.
  destruct (rollup_run _ l) as [r out]. destruct Hr as [Hok Hr].
  pose proof (flush_stat _ r i Hok) as Hf. destruct (rollup_flush r) as [r' final].
  destruct Hf as (_&Hz&Hf). split; [done|].
  rewrite map_app, zsum_app, Hf, Hr. by destruct i.
Qed.

(** The mouse event 2 of the session happens on a locked screen, and is stored. *)
Definition demo_raw : list RawEvent := [
  RawKeyboardInput 2 2 {| key_code := None; key_char := None; modifiers := [] |};
  RawKeyboardInput 4 4 {| key_code := None; key_char := None; modifiers := [] |}].

Lemma lock_suppression_is_dead_witness :
  map env_kind (derive false (take 3 demo_session)).2 = [Signal LockStart; Hint FocusChanged] /\
  to_storage (forward_raw_events all_open (derive false (take 3 demo_session)).2 demo_raw)
    = map StRawEvent demo_raw.
Proof.
  split; [reflexivity|].
  apply (lock_suppression_is_dead false (take 3 demo_session) demo_raw). repeat constructor.
Defined.

(** With an envelope between lock signals, the same event is held back. *)
Definition demo_stage_state : compression_state := {|
  cp_engine := engine_new; cp_rollup := rollup_new (secs 60) 0; cp_running := true |}.
Definition demo_locked_batch : list EventEnvelope := [
  demo_env 1 (Signal LockStart) (PLock "x"); demo_env 2 (Signal KeyboardInput) PNone;
  demo_env 3 (Signal LockEnd) (PLock "x"); demo_env 4 (Signal KeyboardInput) PNone].

Lemma compression_stage_stores_witness :
  let r := @compression_step chrono_ref sizes_ref true all_open demo_stage_state
    (CProcess {| rb_events := demo_raw; rb_reason := Timeout_ |} demo_locked_batch) 0 0 in
  length (to_storage r.1.2) = 2%nat /\ cp_running r.1.1 = true.
Proof.
  intros r. split; [vm_compute; reflexivity|].
  pose proof (@compression_stage_stores chrono_ref sizes_ref true demo_stage_state
    {| rb_events := demo_raw; rb_reason := Timeout_ |} demo_locked_batch 0 0 ltac:(done)) as Hs.
  subst r. destruct (compression_step _ _ _ _ _ _) as [[s' out] ?].
  destruct Hs as (?&?&_&Hr&_). exact Hr.
Defined.

Definition demo_stats : stats_input := {|
  si_reason := Timeout_; si_raw := raw_stats_from demo_raw; si_compact := compact_stats_default;
  si_before := 0; si_after := 0 |}.

Lemma rollup_accounts_witness :
  let '(r, out) := rollup_run (rollup_new (secs 60) 0) [demo_stats; demo_stats] in
  let '(r', final) := rollup_flush r in
  uw 64 (zsum (map (fun p => report_stat p RawKeyboard) (out ++ final))) = 4.
Proof.
  pose proof (rollup_accounts (secs 60) 0 [demo_stats; demo_stats] RawKeyboard ltac:(done)) as Hr.
  destruct (rollup_run _ _) as [r out]. destruct (rollup_flush r) as [r' final].
  destruct Hr as [_ Hr]. rewrite Hr. reflexivity.
Defined.
