(* ===== verification/AppTree.v ===== *)
(** The application tree of a snapshot: [build_app_tree] and
    [pretty_format_duration] of [daemon/pipeline/snapshot_stage.rs]. *)
From Stdlib Require Import Ascii.
From stdpp Require Import pretty.
From S2P Require Import Prelude Decimal Events Records Aggregation SnapshotBus.

(** ** Durations as text *)

Definition pretty_format_duration (seconds : Z) : string :=
  if seconds =? 0 then "0s"
  else
    let days := seconds `div` (24 * 3600) in
    let hours := (seconds `mod` (24 * 3600)) `div` 3600 in
    let minutes := (seconds `mod` 3600) `div` 60 in
    let secs := seconds `mod` 60 in
    let result := "" in
    let result := if 0 <? days then result +:+ (show days +:+ "d") else result in
    let result := if 0 <? hours then result +:+ (show hours +:+ "h") else result in
    let result := if 0 <? minutes then result +:+ (show minutes +:+ "m") else result in
    if (0 <? secs) || bool_decide (result = "") then result +:+ (show secs +:+ "s") else result.

Section tree.
Context `{Chrono} `{HashOrder} (utc_now : nat -> instant).

(** The average of a group, by its occurrences. *)
Definition average (total occurrence_count : Z) : Z :=
  if 0 <? occurrence_count then total `div` occurrence_count else 0.

Definition tree_window (w : WindowActivity) : SnapshotWindow := {|
  sw_window_id := show (wa_window_id w); sw_window_title := wa_window_title w;
  sw_first_seen := wa_first_seen w; sw_last_seen := wa_last_seen w;
  sw_duration_seconds := wa_duration_seconds w; sw_is_group := false |}.

Definition tree_group (g : EphemeralGroup) : SnapshotWindow :=
  let avg := average (eg_total_duration_seconds g) (eg_occurrence_count g) in
  {| sw_window_id := "group:" +:+ eg_title_key g;
     sw_window_title := "(short-lived) ×" +:+ show (Z.of_nat (size (eg_distinct_ids g)))
       +:+ " avg " +:+ pretty_format_duration avg;
     sw_first_seen := eg_first_seen g; sw_last_seen := eg_last_seen g;
     sw_duration_seconds := eg_total_duration_seconds g; sw_is_group := true |}.

Definition tree_temporal (idx : nat) (g : TemporalGroup) : SnapshotWindow :=
  let avg := average (tg_total_duration_seconds g) (tg_occurrence_count g) in
  {| sw_window_id := "group-temporal:" +:+ tg_title_key g +:+ ":"
       +:+ show (timestamp_secs (tg_anchor_last_seen g)) +:+ ":" +:+ show (Z.of_nat idx);
     sw_window_title := "(temporal locality) ×" +:+ show (tg_occurrence_count g)
       +:+ " avg " +:+ pretty_format_duration avg
       +:+ " max " +:+ pretty_format_duration (tg_max_duration_seconds g);
     sw_first_seen := tg_first_seen g; sw_last_seen := tg_last_seen g;
     sw_duration_seconds := tg_total_duration_seconds g; sw_is_group := true |}.

(** An application shown on its own. *)
Definition normal_app (a : AggregatedActivity) : SnapshotApp :=
  let windows := map tree_window (hash_order (map snd (map_to_list (aa_windows a)))) in
  let groups := map tree_group (hash_order (map snd (map_to_list (aa_ephemeral_groups a)))) in
  let temporal := imap tree_temporal (aa_temporal_groups a) in
  {| sa_app_name := aa_app_name a; sa_pid := aa_pid a;
     sa_process_start_time := aa_process_start_time a;
     sa_windows := sort_desc sw_last_seen (windows ++ groups ++ temporal);
     sa_total_duration_secs := aa_total_duration_seconds a;
     sa_total_duration_pretty := pretty_format_duration (aa_total_duration_seconds a) |}.

(** What the loop over a group of short-lived applications accumulates. *)
Record short_acc := {
  sh_total : Z; sh_first : instant; sh_last : instant;
  sh_pid : Z; sh_start : Z; sh_max : Z }.

Definition short_step (s : short_acc) (a : AggregatedActivity) : short_acc :=
  let longer := sh_max s <? aa_total_duration_seconds a in
  {| sh_total := usat_add 64 (sh_total s) (aa_total_duration_seconds a);
     sh_first := if aa_first_seen a <? sh_first s then aa_first_seen a else sh_first s;
     sh_last := if sh_last s <? aa_last_seen a then aa_last_seen a else sh_last s;
     sh_pid := if longer then aa_pid a else sh_pid s;
     sh_start := if longer then aa_process_start_time a else sh_start s;
     sh_max := if longer then aa_total_duration_seconds a else sh_max s |}.

(** The application a group is shown as; it reads the clock twice. *)
Definition short_app (n : nat) (name : string) (v : list AggregatedActivity) : SnapshotApp :=
  let s := foldl short_step
    {| sh_total := 0; sh_first := utc_now n; sh_last := utc_now (S n);
       sh_pid := 0; sh_start := 0; sh_max := 0 |} v in
  let count := Z.of_nat (length v) in
  let avg := average (sh_total s) count in
  {| sa_app_name := name; sa_pid := sh_pid s; sa_process_start_time := sh_start s;
     sa_windows := [{|
       sw_window_id := "app-group:" +:+ name;
       sw_window_title := "×" +:+ show count +:+ " avg " +:+ pretty_format_duration avg;
       sw_first_seen := sh_first s; sw_last_seen := sh_last s;
       sw_duration_seconds := sh_total s; sw_is_group := true |}];
     sa_total_duration_secs := sh_total s;
     sa_total_duration_pretty := pretty_format_duration (sh_total s) |}.

(** The first loop: short-lived applications by name, the others in order. *)
Definition split_step (max : Z)
    (acc : gmap string (list AggregatedActivity) * list AggregatedActivity)
    (agg : AggregatedActivity) :=
  let '(short_per_name, normal) := acc in
  if aa_total_duration_seconds agg <=? max then
    (<[aa_app_name agg := default [] (short_per_name !! aa_app_name agg) ++ [agg]]>
       short_per_name, normal)
  else (short_per_name, normal ++ [agg]).
Definition split_apps (max : Z) (l : list AggregatedActivity) :=
  foldl (split_step max) (∅, []) l.

(** The last loop: a group for each name with enough instances. *)
Definition group_step (min_distinct : Z) (acc : nat * list SnapshotApp)
    (nv : string * list AggregatedActivity) : nat * list SnapshotApp :=
  let '(n, items) := acc in
  let '(name, v) := nv in
  if min_distinct <=? Z.of_nat (length v) then (2 + n, items ++ [short_app n name v])%nat
  else (n, items).

(** The time an application is ranked by; an application without windows is last. *)
Definition app_rank (a : SnapshotApp) : instant :=
  match sa_windows a with w :: _ => sw_last_seen w | [] => 0 end.

(** The tree, and the clock readings made. *)
Definition build_app_tree (n : nat) (aggregated : list AggregatedActivity)
    (app_short_max_duration_secs app_short_min_distinct : Z) : nat * list SnapshotApp :=
  let '(short_per_name, normal) := split_apps app_short_max_duration_secs aggregated in
  let '(n, items) := foldl (group_step app_short_min_distinct) (n, map normal_app normal)
    (hash_order (map_to_list short_per_name)) in
  (n, sort_desc app_rank items).
End tree.

(** ** Reading a duration back *)

(** The value of a text of numbers, each followed by its unit: [total] read so far,
    [acc] the number being read. *)
Definition digit_value (c : Ascii.ascii) : option Z :=
  let n := Z.of_N (Ascii.N_of_ascii c) in
  if (48 <=? n) && (n <=? 57) then Some (n - 48) else None.

Definition unit_value (c : Ascii.ascii) : option Z :=
  if Ascii.eqb c "d"%char then Some 86400
  else if Ascii.eqb c "h"%char then Some 3600
  else if Ascii.eqb c "m"%char then Some 60
  else if Ascii.eqb c "s"%char then Some 1 else None.

Fixpoint read_duration (total acc : Z) (s : string) : option Z :=
  match s with
  | EmptyString => if acc =? 0 then Some total else None
  | String c s =>
      match digit_value c with
      | Some d => read_duration total (acc * 10 + d) s
      | None => u ← unit_value c; read_duration (total + acc * u) 0 s
      end
  end.

Lemma digit_value_pretty (x : N) :
  (x < 10)%N -> digit_value (pretty_N_char x) = Some (Z.of_N x).
Proof.
  intros Hx. assert (x ∈ [0; 1; 2; 3; 4; 5; 6; 7; 8; 9]%N) as Hin.
  { rewrite !elem_of_cons. lia. }
  repeat (apply elem_of_cons in Hin as [->|Hin]; [done|]). by apply elem_of_nil in Hin.
Qed.

Lemma read_pretty_go total (x : N) s :
  read_duration total 0 (pretty_N_go x s) = read_duration total (Z.of_N x) s.
Proof.
  revert s. induction (N.lt_wf_0 x) as [x _ IH]; intros s.
  destruct (decide (x = 0)%N) as [->|Hx]; [by rewrite pretty_N_go_0|].
  rewrite pretty_N_go_step by lia. rewrite IH by (apply N.div_lt; lia). cbn [read_duration].
  rewrite digit_value_pretty by (apply N.mod_lt; lia).
  f_equal. rewrite N2Z.inj_div, N2Z.inj_mod. pose proof (Z.div_mod (Z.of_N x) 10). lia.
Qed.

Lemma pretty_go_app x s t : pretty_N_go x s +:+ t = pretty_N_go x (s +:+ t).
Proof.
  revert s. induction (N.lt_wf_0 x) as [x _ IH]; intros s.
  destruct (decide (x = 0)%N) as [->|Hx]; [by rewrite !pretty_N_go_0|].
  rewrite !(pretty_N_go_step x) by lia. by rewrite IH by (apply N.div_lt; lia).
Qed.

Lemma read_show total n t :
  0 <= n -> read_duration total 0 (show n +:+ t) = read_duration total n t.
Proof.
  intros Hn. unfold show. destruct n as [|p|p]; [done| |lia].
  change (pretty (Z.pos p)) with (pretty_N_go (N.pos p) "").
  by rewrite pretty_go_app, read_pretty_go.
Qed.

Lemma append_nil_r s : s +:+ "" = s.
Proof. induction s as [|c s IH]; [done|]. change (String c s +:+ "") with (String c (s +:+ "")). by rewrite IH. Qed.

Lemma append_assoc a b c : (a +:+ b) +:+ c = a +:+ (b +:+ c).
Proof. induction a as [|x a IH]; [done|].
  change ((String x a +:+ b) +:+ c) with (String x ((a +:+ b) +:+ c)). by rewrite IH.
Qed.

(** A number with its unit adds its value. *)
Lemma read_component total n c k t :
  0 <= n -> digit_value c = None -> unit_value c = Some k ->
  read_duration total 0 (show n +:+ String c t) = read_duration (total + n * k) 0 t.
Proof. intros Hn Hd Hu. rewrite read_show by done. cbn. by rewrite Hd, Hu. Qed.

(** A component of the text. *)
Definition part (n : Z) (c : ascii) : string :=
  if 0 <? n then show n +:+ String c "" else "".

Lemma read_part total n c k t :
  0 <= n -> digit_value c = None -> unit_value c = Some k ->
  read_duration total 0 (part n c +:+ t) = read_duration (total + n * k) 0 t.
Proof.
  intros Hn Hd Hu. unfold part. destruct (Z.ltb_spec 0 n).
  - rewrite append_assoc. by apply read_component.
  - replace n with 0 by lia. cbn. f_equal. lia.
Qed.

Lemma part_pos n c : 0 < n -> part n c = show n +:+ String c "".
Proof. intros Hn. unfold part. by rewrite (proj2 (Z.ltb_lt 0 n)). Qed.

Lemma part_zero n c : n <= 0 -> part n c = "".
Proof. intros Hn. unfold part. by rewrite (proj2 (Z.ltb_ge 0 n)). Qed.

Lemma part_nonempty n c t : 0 < n -> part n c +:+ t <> "".
Proof.
  intros Hn. unfold part. destruct (Z.ltb_spec 0 n); [|lia].
  by destruct (show n).
Qed.

Lemma part_suffix (r : string) n c : (if 0 <? n then r +:+ (show n +:+ String c "") else r)
  = r +:+ part n c.
Proof. unfold part. destruct (0 <? n); [done|]. by rewrite append_nil_r. Qed.

(** The text of a duration denotes it: read back as a sum of numbers with their
    units, [pretty_format_duration] gives the seconds it was made from, for every
    non-negative number of seconds; so different durations have different texts. *)
Theorem pretty_format_duration_reads_back seconds :
  0 <= seconds -> read_duration 0 0 (pretty_format_duration seconds) = Some seconds.
Proof.
  intros Hs. unfold pretty_format_duration. destruct (Z.eqb_spec seconds 0) as [->|H0]; [done|].
  set (d := seconds `div` (24 * 3600)).
  set (h := (seconds `mod` (24 * 3600)) `div` 3600).
  set (m := (seconds `mod` 3600) `div` 60). set (s := seconds `mod` 60).
  assert (0 <= d /\ 0 <= h /\ 0 <= m /\ 0 <= s /\
    seconds = d * 86400 + h * 3600 + m * 60 + s * 1) as (Hd&Hh&Hm&Hsec&Hsum).
  { subst d h m s. repeat split; Z.div_mod_to_equations; lia. }
  clearbody d h m s. cbv zeta. rewrite !part_suffix.
  assert ((if (0 <? s) || bool_decide
      (((("" +:+ part d "d") +:+ part h "h") +:+ part m "m") = "")
    then ((("" +:+ part d "d") +:+ part h "h") +:+ part m "m") +:+ (show s +:+ "s")
    else (("" +:+ part d "d") +:+ part h "h") +:+ part m "m")
    = part d "d" +:+ (part h "h" +:+ (part m "m" +:+ (part s "s" +:+ "")))) as ->.
  { rewrite append_nil_r, !append_assoc.
    destruct (Z.ltb_spec 0 s) as [Hs0|Hs0]; cbn [orb].
    { by rewrite (part_pos s "s"). }
    rewrite (part_zero s "s"), !append_nil_r by done. case_bool_decide as He; [|done].
    exfalso. destruct (decide (0 < d)) as [Hd0|]; [exact (part_nonempty d "d" _ Hd0 He)|].
    assert (d = 0) as -> by lia.
    destruct (decide (0 < h)) as [Hh0|]; [exact (part_nonempty h "h" _ Hh0 He)|].
    assert (h = 0) as -> by lia.
    destruct (decide (0 < m)) as [Hm0|]; [|lia].
    apply (part_nonempty m "m" "" Hm0). by rewrite append_nil_r, <- He. }
  rewrite (read_part _ d _ 86400), (read_part _ h _ 3600), (read_part _ m _ 60),
    (read_part _ s _ 1) by done.
  cbn. f_equal. lia.
Qed.

(** ** The tree *)
Section tree_spec.
Context `{Chrono} `{HashOrder} (utc_now : nat -> instant).

(** The instances of a name short enough to be grouped. *)
Definition short_of (max : Z) (name : string) (l : list AggregatedActivity)
    : list AggregatedActivity :=
  filter (fun a => aa_total_duration_seconds a <= max /\ aa_app_name a = name) l.

Lemma short_of_snoc max name l a :
  short_of max name (l ++ [a]) = short_of max name l ++
    if decide (aa_total_duration_seconds a <= max /\ aa_app_name a = name) then [a] else [].
Proof. unfold short_of. rewrite filter_app, filter_cons, filter_nil. by case_decide. Qed.

Lemma split_apps_spec max l :
  (split_apps max l).2 = filter (fun a => max < aa_total_duration_seconds a) l /\
  forall name, (split_apps max l).1 !! name =
    match short_of max name l with [] => None | v => Some v end.
Proof.
  unfold split_apps. induction l as [|a l [IH1 IH2]] using rev_ind; [by split|].
  rewrite foldl_app. cbn [foldl]. destruct (foldl (split_step max) (∅, []) l) as [m normal].
  cbn [fst snd] in *. unfold split_step. rewrite filter_app, filter_cons, filter_nil.
  setoid_rewrite short_of_snoc.
  destruct (Z.leb_spec (aa_total_duration_seconds a) max); cbn [fst snd].
  - rewrite decide_False, app_nil_r by lia. split; [done|]. intros name.
    destruct (decide (aa_app_name a = name)) as [<-|Hne].
    + rewrite lookup_insert_eq, IH2, decide_True by done.
      by destruct (short_of max (aa_app_name a) l).
    + rewrite lookup_insert_ne, IH2, decide_False, app_nil_r by naive_solver. done.
  - rewrite decide_True by done. rewrite IH1. split; [done|]. intros name.
    rewrite IH2, decide_False, app_nil_r by lia. done.
Qed.

(** The groups shown, in the order of the table. *)
Definition shown_groups (min_distinct : Z) (nvs : list (string * list AggregatedActivity)) :=
  filter (fun nv => min_distinct <= Z.of_nat (length nv.2)) nvs.

Lemma group_steps min_distinct n items nvs :
  foldl (group_step utc_now min_distinct) (n, items) nvs =
    ((n + 2 * length (shown_groups min_distinct nvs))%nat,
     items ++ imap (fun i nv => short_app utc_now (n + 2 * i) nv.1 nv.2)
       (shown_groups min_distinct nvs)).
Proof.
  revert n items. induction nvs as [|[name v] nvs IH]; intros n items.
  { cbn. rewrite app_nil_r. f_equal. lia. }
  cbn [foldl]. unfold group_step at 2. unfold shown_groups. rewrite filter_cons. cbn [snd].
  fold (shown_groups min_distinct nvs).
  destruct (Z.leb_spec min_distinct (Z.of_nat (length v))); case_decide; try lia;
    rewrite IH; [|done].
  cbn [length imap fst snd]. f_equal; [lia|]. rewrite <- (assoc_L (++)). cbn [app].
  f_equal. f_equal; [f_equal; lia|]. apply imap_ext. intros i x _. cbn. f_equal. lia.
Qed.

(** The tree, for any order of the tables and any clock: ranked by the time of the
    newest window, each application's windows newest first, it consists of one entry for
    each application above the duration limit, and one group for each name with enough
    instances at or below it, made from exactly these instances in order; shorter
    applications of names with too few instances are left out. *)
Theorem build_app_tree_spec n l max min_distinct :
  let r := build_app_tree utc_now n l max min_distinct in
  exists groups,
    NoDup (map fst groups) /\
    (forall name v, (name, v) ∈ groups <->
       v = short_of max name l /\ v <> [] /\ min_distinct <= Z.of_nat (length v)) /\
    r.2 ≡ₚ map normal_app (filter (fun a => max < aa_total_duration_seconds a) l)
      ++ imap (fun i nv => short_app utc_now (n + 2 * i) nv.1 nv.2) groups /\
    r.1 = (n + 2 * length groups)%nat /\
    StronglySorted (fun a b => app_rank b <= app_rank a) r.2 /\
    Forall (fun a => StronglySorted (fun v w => sw_last_seen w <= sw_last_seen v)
      (sa_windows a)) r.2.
Proof.
  unfold build_app_tree. destruct (split_apps_spec max l) as [H1 H2].
  destruct (split_apps max l) as [m normal]. cbn [fst snd] in *. subst normal.
  rewrite group_steps. cbn [fst snd].
  set (groups := shown_groups min_distinct (hash_order (map_to_list m))).
  set (items := map normal_app _ ++ _). exists groups.
  split; [|split; [|split; [|split; [done|split; [apply sort_desc_sorted|]]]]].
  - unfold groups, shown_groups. eapply sublist_NoDup; [apply (hash_map_NoDup m)|].
    apply fmap_sublist, sublist_filter.
  - intros name v. unfold groups, shown_groups. rewrite list_elem_of_filter, hash_map_elem, H2.
    cbn [snd]. destruct (short_of max name l) eqn:Hs; split; try naive_solver.
  - apply sort_desc_perm.
  - rewrite sort_desc_perm. unfold items. apply Forall_app. split.
    + apply Forall_map, Forall_forall. intros a _. apply sort_desc_sorted.
    + apply Forall_lookup. intros i a. rewrite list_lookup_imap.
      destruct (groups !! i) as [nv|]; cbn; [|done]. intros [= <-]. repeat constructor.
Qed.

Lemma short_steps_last s v :
  sh_last (foldl short_step s v) = foldr (fun a t => Z.max (aa_last_seen a) t) (sh_last s) v.
Proof.
  revert s. induction v as [|a v IH]; intros s; [done|]. cbn [foldl foldr]. rewrite IH.
  unfold short_step. cbn [sh_last].
  assert (forall x y, foldr (fun a t => Z.max (aa_last_seen a) t) (Z.max x y) v
    = Z.max x (foldr (fun a t => Z.max (aa_last_seen a) t) y v)) as Hmax.
  { intros x y. clear. induction v as [|b v IH]; cbn; [done|]. rewrite IH. lia. }
  rewrite <- Hmax. f_equal. destruct (Z.ltb_spec (sh_last s) (aa_last_seen a)); lia.
Qed.

(** A group of short applications is always shown as seen now: its last-seen time
    starts from the clock, so with activities that lie in the past it is the reading
    made while the tree is built, whatever the instances; the tree ranks it there. *)
Theorem short_app_seen_now n name v :
  Forall (fun a => aa_last_seen a <= utc_now (S n)) v ->
  app_rank (short_app utc_now n name v) = utc_now (S n).
Proof.
  intros Hv. unfold app_rank, short_app; cbn [sa_windows sw_last_seen].
  rewrite short_steps_last. cbn [sh_last]. induction Hv as [|a v Ha Hv IH]; cbn; [done|].
  rewrite IH. lia.
Qed.
End tree_spec.

(** Five seconds of one program, an hour of another. *)
Definition demo_short (name : string) (d last : Z) : AggregatedActivity := {|
  aa_app_name := name; aa_pid := 1; aa_process_start_time := 1;
  aa_windows := ∅; aa_ephemeral_groups := ∅; aa_temporal_groups := [];
  aa_total_duration_seconds := d; aa_first_seen := 0; aa_last_seen := last |}.

Lemma short_app_seen_now_witness :
  app_rank (short_app (fun _ => secs 9000) 0 "make" [demo_short "make" 5 (secs 7)]) = secs 9000.
Proof. apply (short_app_seen_now (fun _ => secs 9000)). repeat constructor. unfold secs; cbn; lia. Defined.

Lemma pretty_format_duration_reads_back_witness :
  pretty_format_duration 93784 = "1d2h3m4s" /\
  read_duration 0 0 (pretty_format_duration 93784) = Some 93784.
Proof. split; [vm_compute; reflexivity|]. by apply pretty_format_duration_reads_back. Defined.
