(* ===== verification/Wire.v ===== *)
(** Snapshots over gRPC: the messages of src/proto/kroni.proto, the server's [to_pb]
    (src/daemon/server/grpc.rs) and the client's [map_pb_snapshot]
    (src/bin/kronictl.rs).

    A type that travels is an instance of [Wire]; [WireLaw] is the round trip up to what
    the messages do not carry, and the parts of a snapshot compose by it. *)
From S2P Require Import Prelude Decimal Events Records SnapshotBus AppTree.

(** ** Times

    [prost_types::Timestamp], and what chrono makes of its two numbers. *)
Record Timestamp := { seconds : Z; nanos : Z }.

Class ChronoParts `{Chrono} := {
  (** [DateTime::timestamp_subsec_nanos] and [DateTime::from_timestamp]. *)
  timestamp_subsec_nanos : instant -> Z;
  from_timestamp : Z -> Z -> option instant
}.
Class ChronoPartsLaws `{ChronoParts} : Prop := {
  subsec_range t : 0 <= timestamp_subsec_nanos t < 2000000000;
  from_timestamp_parts t : from_timestamp (timestamp_secs t) (timestamp_subsec_nanos t) = Some t
}.

Definition chrono_parts_ref : @ChronoParts chrono_ref := {|
  timestamp_subsec_nanos t := t mod 1000000000;
  from_timestamp s n :=
    if (0 <=? n) && (n <? 1000000000) then Some (s * 1000000000 + n) else None
|}.

Lemma chrono_parts_ref_laws : @ChronoPartsLaws chrono_ref chrono_parts_ref.
Proof.
  split; intros t; cbn; pose proof (Z.mod_pos_bound t 1000000000 ltac:(lia)); [lia|].
  rewrite (proj2 (Z.leb_le _ _)), (proj2 (Z.ltb_lt _ _)) by lia. cbn. f_equal.
  pose proof (Z.div_mod t 1000000000). lia.
Qed.

(** ** Messages *)
Record PbPosition := { pb_x : Z; pb_y : Z }.
Record PbSize := { pb_width : Z; pb_height : Z }.
Record PbFocus := {
  pf_app_name : string;
  pf_pid : Z;
  pf_window_id : string;
  pf_window_title : string;
  pf_window_instance_start : option Timestamp;
  pf_process_start_time : Z;
  pf_window_position : option PbPosition;
  pf_window_size : option PbSize
}.
Record PbTransition := {
  pt_from : Z; pt_to : Z; pt_at : option Timestamp; pt_run_id : string
}.
Record PbCounts := { pc_signals_seen : Z; pc_hints_seen : Z; pc_records_emitted : Z }.
Record PbCadence := { current_ms : Z; reason : string }.
Record PbStorage := { pb_backlog_count : Z; last_flush : option Timestamp }.
Record PbConfig := {
  pcf_active_grace_secs : Z;
  pcf_idle_threshold_secs : Z;
  pcf_retention_minutes : Z;
  pcf_ephemeral_max_duration_secs : Z;
  pcf_ephemeral_min_distinct_ids : Z;
  pcf_ephemeral_app_max_duration_secs : Z;
  pcf_ephemeral_app_min_distinct_procs : Z
}.
Record PbWin := {
  pw_window_id : string;
  pw_window_title : string;
  pw_first_seen : option Timestamp;
  pw_last_seen : option Timestamp;
  pw_duration_seconds : Z;
  pw_is_group : bool
}.
Record PbApp := {
  pa_app_name : string;
  pa_pid : Z;
  pa_process_start_time : Z;
  pa_windows : list PbWin;
  pa_total_duration_secs : Z;
  pa_total_duration_pretty : string
}.
Record PbRecord := {
  pr_record_id : Z;
  pr_run_id : string;
  pr_start_time : option Timestamp;
  pr_end_time : option Timestamp;
  pr_state : Z;
  pr_focus : option PbFocus;
  pr_event_count : Z;
  pr_triggering_events : list Z
}.
Record SnapshotReply := {
  ps_seq : Z;
  ps_mono_ns : Z;
  ps_run_id : string;
  ps_activity_state : Z;
  ps_focus : option PbFocus;
  ps_last_transition : option PbTransition;
  ps_counts : option PbCounts;
  ps_cadence : option PbCadence;
  ps_next_timeout : option Timestamp;
  ps_storage : option PbStorage;
  ps_config : option PbConfig;
  ps_health : list string;
  ps_aggregated_apps : list PbApp;
  ps_records : list PbRecord
}.

(** ** Reading the clock

    The client replaces a missing time with [Utc::now()]: decoding takes the number of
    readings so far to the result and the number of readings after it. *)
Definition Reads (A : Type) : Type := nat -> A * nat.
#[export] Instance Reads_ret : MRet Reads := fun A x k => (x, k).
#[export] Instance Reads_bind : MBind Reads := fun A B f m k => let '(x, k') := m k in f x k'.

(** ** The interface *)
Class Wire (A B : Type) := { to_wire : A -> B; of_wire : B -> Reads A }.
(** [carried a]: what arrives when [a], within its [bounds], is sent. *)
Class WireLaw (A B : Type) `{Wire A B} (bounds : A -> Prop) (carried : A -> A) : Prop :=
  wire_law a k : bounds a -> of_wire (to_wire a) k = (carried a, k).

Section wire.
Context `{ChronoParts} (utc : nat -> instant).

Definition utc_now : Reads instant := fun k => (utc k, S k).

(** [utc_to_ts], and [ts_to_utc], the server's own reading of a request. *)
Definition utc_to_ts (dt : instant) : Timestamp :=
  {| seconds := timestamp_secs dt; nanos := sw 32 (timestamp_subsec_nanos dt) |}.
Definition ts_to_utc (ts : Timestamp) : instant + string :=
  if (nanos ts <? 0) || (1000000000 <=? nanos ts) then inr "nanos out of range"
  else match from_timestamp (seconds ts) (uw 32 (nanos ts)) with
       | Some t => inl t
       | None => inr "invalid timestamp range"
       end.

(** The client's reading of a time: optional, or with the clock as a default. *)
Definition ts_opt (ts : option Timestamp) : option instant :=
  ts ≫= fun ts => from_timestamp (seconds ts) (uw 32 (nanos ts)).
Definition ts_or_now (ts : option Timestamp) : Reads instant :=
  match ts_opt ts with Some t => mret t | None => utc_now end.

(** An empty text stands for none ([unwrap_or_default], then [is_empty]). *)
Definition text_of_run (r : option string) : string := default "" r.
Definition run_of_text (s : string) : option string := if bool_decide (s = "") then None else Some s.

(** The numbers of the enum [ActivityState]. *)
Definition map_state (s : ActivityState) : Z :=
  match s with Active => 1 | Passive => 2 | Inactive => 3 | Locked => 4 end.
Definition state_of (z : Z) : ActivityState :=
  if z =? 1 then Active else if z =? 2 then Passive else if z =? 3 then Inactive
  else if z =? 4 then Locked else Inactive.

Definition map_focus (f : WindowFocusInfo) : PbFocus := {|
  pf_app_name := app_name f; pf_pid := pid f; pf_window_id := show (window_id f);
  pf_window_title := window_title f;
  pf_window_instance_start := Some (utc_to_ts (window_instance_start f));
  pf_process_start_time := process_start_time f;
  pf_window_position := (fun p => {| pb_x := pos_x p; pb_y := pos_y p |}) <$> window_position f;
  pf_window_size := (fun '(w, h) => {| pb_width := w; pb_height := h |}) <$> window_size f |}.

Definition map_record_focus (f : PbFocus) : Reads WindowFocusInfo :=
  start ← ts_or_now (pf_window_instance_start f);
  mret {| pid := pf_pid f; process_start_time := pf_process_start_time f;
          app_name := pf_app_name f; window_title := pf_window_title f;
          window_id := default 0 (parse_unsigned 32 (pf_window_id f));
          window_instance_start := start;
          window_position := (fun p => {| pos_x := pb_x p; pos_y := pb_y p |}) <$> pf_window_position f;
          window_size := (fun s => (pb_width s, pb_height s)) <$> pf_window_size f |}.

Definition focus_wire : Wire WindowFocusInfo PbFocus :=
  {| to_wire := map_focus; of_wire := map_record_focus |}.
#[local] Existing Instance focus_wire.

Definition map_transition (t : Transition) : PbTransition := {|
  pt_from := map_state (t_from t); pt_to := map_state (t_to t);
  pt_at := Some (utc_to_ts (t_at t)); pt_run_id := text_of_run (t_run_id t) |}.
Definition transition_of (t : PbTransition) : Reads Transition :=
  at_ ← ts_or_now (pt_at t);
  mret {| t_from := state_of (pt_from t); t_to := state_of (pt_to t); t_at := at_;
          t_by_signal := None; t_run_id := run_of_text (pt_run_id t) |}.
Definition transition_wire : Wire Transition PbTransition :=
  {| to_wire := map_transition; of_wire := transition_of |}.
#[local] Existing Instance transition_wire.

Definition map_window (w : SnapshotWindow) : PbWin := {|
  pw_window_id := sw_window_id w; pw_window_title := sw_window_title w;
  pw_first_seen := Some (utc_to_ts (sw_first_seen w));
  pw_last_seen := Some (utc_to_ts (sw_last_seen w));
  pw_duration_seconds := sw_duration_seconds w; pw_is_group := sw_is_group w |}.
Definition window_of (w : PbWin) : Reads SnapshotWindow :=
  first_seen ← ts_or_now (pw_first_seen w);
  last_seen ← ts_or_now (pw_last_seen w);
  mret {| sw_window_id := pw_window_id w; sw_window_title := pw_window_title w;
          sw_first_seen := first_seen; sw_last_seen := last_seen;
          sw_duration_seconds := pw_duration_seconds w; sw_is_group := pw_is_group w |}.
Definition window_wire : Wire SnapshotWindow PbWin :=
  {| to_wire := map_window; of_wire := window_of |}.
#[local] Existing Instance window_wire.

(** A list travels element by element, an optional message when it is there. *)
Definition list_wire {A B} `{Wire A B} : Wire (list A) (list B) :=
  {| to_wire := map to_wire; of_wire := mapM of_wire |}.
Definition option_wire {A B} `{Wire A B} : Wire (option A) (option B) :=
  {| to_wire := fmap to_wire;
     of_wire o := match o with Some b => x ← of_wire b; mret (Some x) | None => mret None end |}.
#[local] Existing Instances list_wire option_wire.

Definition map_app (a : SnapshotApp) : PbApp := {|
  pa_app_name := sa_app_name a; pa_pid := sa_pid a;
  pa_process_start_time := sa_process_start_time a; pa_windows := to_wire (sa_windows a);
  pa_total_duration_secs := sa_total_duration_secs a;
  pa_total_duration_pretty := sa_total_duration_pretty a |}.

(** [pretty_dur]: the same text as the server's [pretty_format_duration]. *)
Definition pretty_dur (seconds : Z) : string :=
  if seconds =? 0 then "0s"
  else
    let days := seconds `div` (24 * 3600) in
    let hours := (seconds `mod` (24 * 3600)) `div` 3600 in
    let minutes := (seconds `mod` 3600) `div` 60 in
    let secs := seconds `mod` 60 in
    let result := "" in
    let result := if 0 <? days then result +:+ (show days +:+ "d") else result in
    let result := if 0 <? hours then result +:+ (show hours +:+ "h") else result in
    let result := if 0 <? minutes then result +:+ (show minutes +:+ "m") else result in
    if (0 <? secs) || bool_decide (result = "") then result +:+ (show secs +:+ "s") else result.

Definition app_of (a : PbApp) : Reads SnapshotApp :=
  windows ← of_wire (pa_windows a);
  mret {| sa_app_name := pa_app_name a; sa_pid := pa_pid a;
          sa_process_start_time := pa_process_start_time a; sa_windows := windows;
          sa_total_duration_secs := pa_total_duration_secs a;
          sa_total_duration_pretty :=
            if bool_decide (pa_total_duration_pretty a = "")
            then pretty_dur (pa_total_duration_secs a) else pa_total_duration_pretty a |}.
Definition app_wire : Wire SnapshotApp PbApp := {| to_wire := map_app; of_wire := app_of |}.
#[local] Existing Instance app_wire.

Definition map_record (r : ActivityRecord) : PbRecord := {|
  pr_record_id := record_id r; pr_run_id := text_of_run (run_id r);
  pr_start_time := Some (utc_to_ts (start_time r)); pr_end_time := utc_to_ts <$> end_time r;
  pr_state := map_state (state r); pr_focus := to_wire (focus_info r);
  pr_event_count := event_count r; pr_triggering_events := triggering_events r |}.
Definition record_of (r : PbRecord) : Reads ActivityRecord :=
  start ← ts_or_now (pr_start_time r);
  focus ← of_wire (pr_focus r);
  mret {| record_id := pr_record_id r; run_id := run_of_text (pr_run_id r);
          start_time := start; end_time := ts_opt (pr_end_time r);
          state := state_of (pr_state r); focus_info := focus;
          event_count := pr_event_count r; triggering_events := pr_triggering_events r |}.
Definition record_wire : Wire ActivityRecord PbRecord :=
  {| to_wire := map_record; of_wire := record_of |}.
#[local] Existing Instance record_wire.

Definition counts_of (c : option PbCounts) : Counts :=
  match c with
  | Some c => {| signals_seen := pc_signals_seen c; hints_seen := pc_hints_seen c;
                 records_emitted := pc_records_emitted c |}
  | None => counts_default
  end.
Definition storage_of (s : option PbStorage) : StorageInfo :=
  match s with
  | Some s => {| backlog_count := pb_backlog_count s; last_flush_at := ts_opt (last_flush s) |}
  | None => {| backlog_count := 0; last_flush_at := None |}
  end.
Definition config_of (c : option PbConfig) : ConfigSummary :=
  match c with
  | Some c =>
      {| cs_active_grace_secs := pcf_active_grace_secs c;
         cs_idle_threshold_secs := pcf_idle_threshold_secs c;
         cs_retention_minutes := pcf_retention_minutes c;
         cs_ephemeral_max_duration_secs := pcf_ephemeral_max_duration_secs c;
         cs_ephemeral_min_distinct_ids := pcf_ephemeral_min_distinct_ids c;
         cs_ephemeral_app_max_duration_secs := pcf_ephemeral_app_max_duration_secs c;
         cs_ephemeral_app_min_distinct_procs := pcf_ephemeral_app_min_distinct_procs c |}
  | None => config_default
  end.

(** [to_pb]: the numbers of distinct ids are cut to 32 bits. *)
Definition to_pb (s : Snapshot) : SnapshotReply := {|
  ps_seq := s_seq s; ps_mono_ns := s_mono_ns s; ps_run_id := text_of_run (s_run_id s);
  ps_activity_state := map_state (s_activity_state s);
  ps_focus := to_wire (s_focus s); ps_last_transition := to_wire (s_last_transition s);
  ps_counts := Some {| pc_signals_seen := signals_seen (s_counts s);
                       pc_hints_seen := hints_seen (s_counts s);
                       pc_records_emitted := records_emitted (s_counts s) |};
  ps_cadence := Some {| current_ms := s_cadence_ms s; reason := s_cadence_reason s |};
  ps_next_timeout := utc_to_ts <$> s_next_timeout s;
  ps_storage := Some {| pb_backlog_count := backlog_count (s_storage s);
                        last_flush := utc_to_ts <$> last_flush_at (s_storage s) |};
  ps_config := Some
    {| pcf_active_grace_secs := cs_active_grace_secs (s_config s);
       pcf_idle_threshold_secs := cs_idle_threshold_secs (s_config s);
       pcf_retention_minutes := cs_retention_minutes (s_config s);
       pcf_ephemeral_max_duration_secs := cs_ephemeral_max_duration_secs (s_config s);
       pcf_ephemeral_min_distinct_ids := uw 32 (cs_ephemeral_min_distinct_ids (s_config s));
       pcf_ephemeral_app_max_duration_secs := cs_ephemeral_app_max_duration_secs (s_config s);
       pcf_ephemeral_app_min_distinct_procs :=
         uw 32 (cs_ephemeral_app_min_distinct_procs (s_config s)) |};
  ps_health := s_health s; ps_aggregated_apps := to_wire (s_aggregated_apps s);
  ps_records := to_wire (s_records s) |}.

Definition map_pb_snapshot (reply : SnapshotReply) : Reads Snapshot :=
  focus ← of_wire (ps_focus reply);
  last_transition ← of_wire (ps_last_transition reply);
  aggregated_apps ← of_wire (ps_aggregated_apps reply);
  records ← of_wire (ps_records reply);
  mret {| s_seq := ps_seq reply; s_mono_ns := ps_mono_ns reply;
          s_run_id := run_of_text (ps_run_id reply);
          s_activity_state := state_of (ps_activity_state reply);
          s_focus := focus; s_last_transition := last_transition;
          s_transitions_recent := []; s_counts := counts_of (ps_counts reply);
          s_cadence_ms := from_option current_ms 0 (ps_cadence reply);
          s_cadence_reason := from_option reason "" (ps_cadence reply);
          s_next_timeout := ts_opt (ps_next_timeout reply);
          s_storage := storage_of (ps_storage reply); s_config := config_of (ps_config reply);
          s_health := ps_health reply; s_aggregated_apps := aggregated_apps;
          s_records := records |}.

Definition snapshot_wire : Wire Snapshot SnapshotReply :=
  {| to_wire := to_pb; of_wire := map_pb_snapshot |}.
#[local] Existing Instance snapshot_wire.

(** ** What arrives *)
Definition carried_run (r : option string) : option string := r ≫= run_of_text.

Definition carried_transition (t : Transition) : Transition :=
  {| t_from := t_from t; t_to := t_to t; t_at := t_at t; t_by_signal := None;
     t_run_id := carried_run (t_run_id t) |}.
Definition carried_app (a : SnapshotApp) : SnapshotApp :=
  {| sa_app_name := sa_app_name a; sa_pid := sa_pid a;
     sa_process_start_time := sa_process_start_time a; sa_windows := sa_windows a;
     sa_total_duration_secs := sa_total_duration_secs a;
     sa_total_duration_pretty :=
       if bool_decide (sa_total_duration_pretty a = "")
       then pretty_format_duration (sa_total_duration_secs a) else sa_total_duration_pretty a |}.
Definition carried_record (r : ActivityRecord) : ActivityRecord :=
  {| record_id := record_id r; run_id := carried_run (run_id r); start_time := start_time r;
     end_time := end_time r; state := state r; focus_info := focus_info r;
     event_count := event_count r; triggering_events := triggering_events r |}.
Definition carried_config (c : ConfigSummary) : ConfigSummary :=
  {| cs_active_grace_secs := cs_active_grace_secs c;
     cs_idle_threshold_secs := cs_idle_threshold_secs c;
     cs_retention_minutes := cs_retention_minutes c;
     cs_ephemeral_max_duration_secs := cs_ephemeral_max_duration_secs c;
     cs_ephemeral_min_distinct_ids := uw 32 (cs_ephemeral_min_distinct_ids c);
     cs_ephemeral_app_max_duration_secs := cs_ephemeral_app_max_duration_secs c;
     cs_ephemeral_app_min_distinct_procs := uw 32 (cs_ephemeral_app_min_distinct_procs c) |}.
Definition carried_snapshot (s : Snapshot) : Snapshot :=
  {| s_seq := s_seq s; s_mono_ns := s_mono_ns s; s_run_id := carried_run (s_run_id s);
     s_activity_state := s_activity_state s; s_focus := s_focus s;
     s_last_transition := carried_transition <$> s_last_transition s;
     s_transitions_recent := []; s_counts := s_counts s; s_cadence_ms := s_cadence_ms s;
     s_cadence_reason := s_cadence_reason s; s_next_timeout := s_next_timeout s;
     s_storage := s_storage s; s_config := carried_config (s_config s); s_health := s_health s;
     s_aggregated_apps := map carried_app (s_aggregated_apps s);
     s_records := map carried_record (s_records s) |}.

(** Window ids are [u32]. *)
Definition focus_bounds (f : WindowFocusInfo) : Prop := in_u 32 (window_id f).
Definition record_bounds (r : ActivityRecord) : Prop :=
  forall f, focus_info r = Some f -> focus_bounds f.
Record snapshot_bounds (s : Snapshot) : Prop := {
  sb_focus f : s_focus s = Some f -> focus_bounds f;
  sb_records : Forall record_bounds (s_records s)
}.

(** ** The laws *)
Section laws.
Context `{!ChronoPartsLaws}.

Lemma ts_opt_utc t : ts_opt (Some (utc_to_ts t)) = Some t.
Proof.
  unfold ts_opt. cbn. pose proof (subsec_range t).
  rewrite sw_small, uw_small by (unfold in_u, in_s; lia). apply from_timestamp_parts.
Qed.

Lemma ts_opt_map o : ts_opt (utc_to_ts <$> o) = o.
Proof. destruct o as [t|]; [apply ts_opt_utc|done]. Qed.

Lemma ts_or_now_utc t k : ts_or_now (Some (utc_to_ts t)) k = (t, k).
Proof. unfold ts_or_now. by rewrite ts_opt_utc. Qed.

Lemma state_of_map s : state_of (map_state s) = s.
Proof. by destruct s. Qed.

Lemma run_of_text_of_run r : run_of_text (text_of_run r) = carried_run r.
Proof. by destruct r as [s|]. Qed.

#[local] Instance focus_law : WireLaw WindowFocusInfo PbFocus focus_bounds id.
Proof.
  intros f k Hf. cbn. unfold map_record_focus, mbind, Reads_bind. cbn [pf_window_instance_start map_focus].
  rewrite ts_or_now_utc. cbn. rewrite unsigned_roundtrip by done. cbn.
  destruct f as [???? ?? pos size]; cbn. by destruct pos as [[]|], size as [[]|].
Qed.

#[local] Instance transition_law :
  WireLaw Transition PbTransition (fun _ => True) carried_transition.
Proof.
  intros t k _. cbn. unfold transition_of, mbind, Reads_bind. cbn [pt_at map_transition].
  rewrite ts_or_now_utc. cbn. by rewrite !state_of_map, run_of_text_of_run.
Qed.

#[local] Instance window_law : WireLaw SnapshotWindow PbWin (fun _ => True) id.
Proof.
  intros w k _. cbn. unfold window_of, mbind, Reads_bind. cbn [pw_first_seen pw_last_seen map_window].
  rewrite !ts_or_now_utc. by destruct w.
Qed.

#[local] Instance list_law {A B} `{WireLaw A B bounds carried} :
  WireLaw (list A) (list B) (Forall bounds) (map carried).
Proof.
  intros l k Hl. revert k. cbn. induction Hl as [|a l Ha Hl IH]; intros k; [done|].
  cbn. unfold mbind, Reads_bind in *. rewrite wire_law by done. cbn in IH. by rewrite IH.
Qed.

#[local] Instance option_law {A B} `{WireLaw A B bounds carried} :
  WireLaw (option A) (option B) (fun o => forall a, o = Some a -> bounds a) (fmap carried).
Proof.
  intros [a|] k Ha; [|done]. cbn. unfold mbind, Reads_bind. by rewrite wire_law by auto.
Qed.

#[local] Instance app_law : WireLaw SnapshotApp PbApp (fun _ => True) carried_app.
Proof.
  intros a k _. change (app_of (map_app a) k = (carried_app a, k)).
  unfold app_of, mbind, Reads_bind. cbn [pa_windows map_app].
  rewrite (wire_law (sa_windows a)) by (by apply Forall_true). cbn. by rewrite map_id.
Qed.

#[local] Instance record_law : WireLaw ActivityRecord PbRecord record_bounds carried_record.
Proof.
  intros r k Hr. change (record_of (map_record r) k = (carried_record r, k)).
  unfold record_of, mbind, Reads_bind. cbn [pr_start_time pr_focus map_record].
  rewrite ts_or_now_utc, (wire_law (focus_info r)) by done. cbn.
  by rewrite state_of_map, run_of_text_of_run, ts_opt_map, option_fmap_id.
Qed.

Lemma snapshot_law : WireLaw Snapshot SnapshotReply snapshot_bounds carried_snapshot.
Proof.
  intros s k [Hf Hr]. change (map_pb_snapshot (to_pb s) k = (carried_snapshot s, k)).
  unfold map_pb_snapshot, mbind, Reads_bind.
  cbn [ps_focus ps_last_transition ps_aggregated_apps ps_records to_pb].
  rewrite (wire_law (s_focus s)), (wire_law (s_last_transition s)),
    (wire_law (s_aggregated_apps s)), (wire_law (s_records s)) by
    (done || by apply Forall_true). cbn.
  rewrite run_of_text_of_run, state_of_map, !ts_opt_map, option_fmap_id.
  unfold carried_snapshot. by destruct (s_counts s), (s_storage s).
Qed.
(** ** Theorems *)

(** What the messages can carry. *)
Record lossless (s : Snapshot) : Prop := {
  ll_run : s_run_id s <> Some "";
  ll_transition t : s_last_transition s = Some t -> t_by_signal t = None /\ t_run_id t <> Some "";
  ll_transitions : s_transitions_recent s = [];
  ll_ids : in_u 32 (cs_ephemeral_min_distinct_ids (s_config s));
  ll_procs : in_u 32 (cs_ephemeral_app_min_distinct_procs (s_config s));
  ll_apps : Forall (fun a => sa_total_duration_pretty a <> "") (s_aggregated_apps s);
  ll_records : Forall (fun r => run_id r <> Some "") (s_records s)
}.

Lemma carried_run_id r : r <> Some "" -> carried_run r = r.
Proof.
  destruct r as [r|]; [|done]. intros Hr. cbn. unfold run_of_text.
  rewrite bool_decide_false by congruence. done.
Qed.

Lemma map_carried {A} (f : A -> A) (P : A -> Prop) l :
  (forall a, P a -> f a = a) -> Forall P l -> map f l = l.
Proof. intros Hf. induction 1 as [|a l Ha Hl IH]; cbn; [done|]. by rewrite Hf, IH. Qed.

Lemma lossless_carried s : lossless s -> carried_snapshot s = s.
Proof.
  intros [Hr Ht Htr Hi Hp Ha Hre]. unfold carried_snapshot.
  rewrite (carried_run_id _ Hr), (map_carried carried_app (fun a => sa_total_duration_pretty a <> "")),
    (map_carried carried_record (fun r => run_id r <> Some "")) by first
    [ done | intros [] Hx; unfold carried_record, carried_app; cbn in *;
        rewrite ?carried_run_id, ?bool_decide_false by done; done ].
  assert (carried_transition <$> s_last_transition s = s_last_transition s) as ->.
  { destruct (s_last_transition s) as [t|]; [|done]. destruct (Ht t eq_refl) as [Hb Hrun].
    cbn. unfold carried_transition. rewrite carried_run_id, <- Hb by done. by destruct t. }
  assert (carried_config (s_config s) = s_config s) as ->.
  { unfold carried_config. rewrite !uw_small by done. by destruct (s_config s). }
  rewrite <- Htr. by destruct s.
Qed.

(** C17: what a client reads from the server's reply is the snapshot itself but for what
    the messages do not carry: the recent transitions and the signal of the last one
    are gone, an empty run id reads as none, an empty duration text is computed anew,
    and the two numbers of distinct ids are cut to 32 bits.  No default is ever taken
    from the clock, and a snapshot without those features arrives exactly. *)
Theorem snapshot_over_the_wire s k :
  snapshot_bounds s ->
  map_pb_snapshot (to_pb s) k = (carried_snapshot s, k) /\
  (lossless s -> carried_snapshot s = s).
Proof. intros Hs. split; [by apply snapshot_law|apply lossless_carried]. Qed.

(** The server reads a time of a request back exactly when it is not a leap second,
    and refuses every time whose nanoseconds are not those of a second. *)
Theorem request_time_read :
  (forall t, timestamp_subsec_nanos t < 1000000000 -> ts_to_utc (utc_to_ts t) = inl t) /\
  (forall ts, ~ 0 <= nanos ts < 1000000000 -> ts_to_utc ts = inr "nanos out of range").
Proof.
  split.
  - intros t Ht. unfold ts_to_utc. cbn. pose proof (subsec_range t).
    rewrite sw_small by (unfold in_s; lia).
    rewrite (proj2 (Z.ltb_ge _ _)), (proj2 (Z.leb_gt _ _)) by lia. cbn.
    rewrite uw_small by (unfold in_u; lia). by rewrite from_timestamp_parts.
  - intros ts Hts. unfold ts_to_utc.
    destruct (Z.ltb_spec (nanos ts) 0); [done|]. by rewrite (proj2 (Z.leb_le _ _)) by lia.
Qed.
End laws.
End wire.

(** ** The theorem on a concrete snapshot *)
Definition demo_focus : WindowFocusInfo :=
  {| pid := 7; process_start_time := 5; app_name := "Mail"; window_title := "Inbox";
     window_id := 4294967295; window_instance_start := secs 1700000000 + 5;
     window_position := Some {| pos_x := -3; pos_y := 4 |}; window_size := Some (800, 600) |}.
Definition demo_transition : Transition :=
  {| t_from := Passive; t_to := Active; t_at := secs 1700000000 + 7;
     t_by_signal := Some "keyboard"; t_run_id := Some "run" |}.
Definition demo_snapshot : Snapshot :=
  {| s_seq := 3; s_mono_ns := 1; s_run_id := Some ""; s_activity_state := Locked;
     s_focus := Some demo_focus; s_last_transition := Some demo_transition;
     s_transitions_recent := [demo_transition]; s_counts := counts_default; s_cadence_ms := 500;
     s_cadence_reason := "idle"; s_next_timeout := Some (-5);
     s_storage := {| backlog_count := 2; last_flush_at := Some 9 |};
     s_config := config_default; s_health := ["ok"];
     s_aggregated_apps :=
       [{| sa_app_name := "Mail"; sa_pid := 7; sa_process_start_time := 5; sa_windows := [];
           sa_total_duration_secs := 3661; sa_total_duration_pretty := "" |}];
     s_records := [] |}.

Lemma snapshot_over_the_wire_witness :
  let arrived := (@map_pb_snapshot chrono_ref chrono_parts_ref (fun _ => 0)
    (@to_pb chrono_ref chrono_parts_ref (fun _ => 0) demo_snapshot) 0%nat).1 in
  s_focus arrived = Some demo_focus /\ s_transitions_recent arrived = [] /\
  s_run_id arrived = None /\ map sa_total_duration_pretty (s_aggregated_apps arrived) = ["1h1m1s"].
Proof.
  rewrite (proj1 (@snapshot_over_the_wire chrono_ref chrono_parts_ref (fun _ => 0)
    chrono_parts_ref_laws demo_snapshot 0%nat ltac:(split; [intros f [= <-]; split; cbn; lia|constructor]))).
  cbn. split_and!; try done.
Defined.
