(* ===== verification/SnapshotStage.v ===== *)
(** The snapshot stage of [daemon/pipeline/snapshot_stage.rs]: it keeps the state shown
    to clients, publishes snapshots on the bus, stores the transitions, and ends the
    storage stage once both the hints and the envelope stage are done.

    [Utc::now()] is a stream of readings, and so are the storage metrics read from
    their watch channel; a step takes the number of readings made so far. *)
From Stdlib Require Import Ascii.
From S2P Require Import Prelude Events Records Aggregation SnapshotBus CompactEvents.
From S2P Require Import PipelineTypes AppTree.

Definition POLL_SUSPEND_MS : Z := 0.

Record stage_config := {
  sg_summary : ConfigSummary;
  sg_retention_minutes : Z;
  sg_ephemeral_max : Z;
  sg_ephemeral_min : Z;
  sg_max_windows : Z;
  sg_app_max : Z;
  sg_app_min : Z
}.

(** The locals of the thread, and what it shares: the bus and the poll handle. *)
Record stage_state := {
  ss_bus : SnapshotBus;
  ss_poll : Z;
  ss_counts : Counts;
  ss_records : list ActivityRecord;
  ss_state : ActivityState;
  ss_focus : option WindowFocusInfo;
  ss_last : option Transition;
  ss_hist : list ascii;
  ss_shutdown : bool;
  ss_hints_complete : bool;
  ss_sent : bool
}.

Definition set_bus (s : stage_state) (b : SnapshotBus) : stage_state := {|
  ss_bus := b; ss_poll := ss_poll s; ss_counts := ss_counts s; ss_records := ss_records s;
  ss_state := ss_state s; ss_focus := ss_focus s; ss_last := ss_last s; ss_hist := ss_hist s;
  ss_shutdown := ss_shutdown s; ss_hints_complete := ss_hints_complete s;
  ss_sent := ss_sent s |}.

Definition attach_run_id (b : SnapshotBus) (t : Transition) : Transition :=
  match t_run_id t with
  | Some _ => t
  | None => {| t_from := t_from t; t_to := t_to t; t_at := t_at t;
               t_by_signal := t_by_signal t; t_run_id := bus_run_id b |}
  end.

(** One of the stored transitions the stage starts from. *)
Definition hydrate_step (s : stage_state) (t : Transition) : stage_state :=
  let t := attach_run_id (ss_bus s) t in
  {| ss_bus := push_transition (ss_bus s) t; ss_poll := ss_poll s; ss_counts := ss_counts s;
     ss_records := ss_records s; ss_state := t_to t; ss_focus := ss_focus s;
     ss_last := Some t; ss_hist := ss_hist s; ss_shutdown := ss_shutdown s;
     ss_hints_complete := ss_hints_complete s; ss_sent := ss_sent s |}.

Definition stage_new (bus : SnapshotBus) (poll : Z) (initial_records : list ActivityRecord)
    : stage_state := {|
  ss_bus := bus; ss_poll := poll; ss_counts := counts_default; ss_records := initial_records;
  ss_state := Inactive; ss_focus := None; ss_last := None; ss_hist := [];
  ss_shutdown := false; ss_hints_complete := false; ss_sent := false |}.

Definition hydrate (s : stage_state) (initial_transitions : list Transition) : stage_state :=
  foldl hydrate_step s initial_transitions.

(** The title of the focused window. *)
Definition apply_title (focus : option WindowFocusInfo) (title : option (Z * string))
    : option WindowFocusInfo :=
  match title, focus with
  | Some (wid, title), Some f =>
      if window_id f =? wid then Some (Records.set_title f title) else Some f
  | _, _ => focus
  end.

Definition apply_update (s : stage_state) (u : SnapshotUpdate)
    : stage_state * list StorageCommand :=
  let counts := {|
    signals_seen := usat_add 64 (signals_seen (ss_counts s)) (u_signals_delta u);
    hints_seen := usat_add 64 (hints_seen (ss_counts s)) (u_hints_delta u);
    records_emitted := records_emitted (ss_counts s) |} in
  let focus := match u_focus u with Some f => Some f | None => ss_focus s end in
  let state := match u_state u with Some st => st | None => ss_state s end in
  let focus := apply_title focus (u_focus_title u) in
  match u_transition u with
  | Some t =>
      let t := attach_run_id (ss_bus s) t in
      ({| ss_bus := push_transition (ss_bus s) t; ss_poll := ss_poll s; ss_counts := counts;
          ss_records := ss_records s; ss_state := state; ss_focus := focus; ss_last := Some t;
          ss_hist := ss_hist s; ss_shutdown := ss_shutdown s;
          ss_hints_complete := ss_hints_complete s; ss_sent := ss_sent s |},
       [StTransition t])
  | None =>
      ({| ss_bus := ss_bus s; ss_poll := ss_poll s; ss_counts := counts;
          ss_records := ss_records s; ss_state := state; ss_focus := focus;
          ss_last := ss_last s; ss_hist := ss_hist s; ss_shutdown := ss_shutdown s;
          ss_hints_complete := ss_hints_complete s; ss_sent := ss_sent s |}, [])
  end.

Definition state_char (a : ActivityState) : ascii :=
  match a with Active => "A" | Passive => "P" | Inactive => "I" | Locked => "L" end%char.

(** The history of states: a new state is appended, and ten are kept. *)
Definition push_state (hist : list ascii) (ch : ascii) : list ascii :=
  if bool_decide (last hist = Some ch) then hist
  else
    let hist := hist ++ [ch] in
    if 10 <? Z.of_nat (length hist) then tail hist else hist.

Definition update_records (s : stage_state) (record : ActivityRecord) : stage_state := {|
  ss_bus := ss_bus s; ss_poll := ss_poll s;
  ss_counts := {|
    signals_seen := signals_seen (ss_counts s); hints_seen := hints_seen (ss_counts s);
    records_emitted := usat_add 64 (records_emitted (ss_counts s)) 1 |};
  ss_records := ss_records s ++ [record];
  ss_state := ss_state s; ss_focus := ss_focus s; ss_last := ss_last s;
  ss_hist := push_state (ss_hist s) (state_char (state record));
  ss_shutdown := ss_shutdown s; ss_hints_complete := ss_hints_complete s;
  ss_sent := ss_sent s |}.

(** The records in front that ended before the retention window. *)
Fixpoint drop_old (now since : instant) (l : list ActivityRecord) : list ActivityRecord :=
  match l with
  | front :: l' => if default now (end_time front) <? since then drop_old now since l' else l
  | [] => []
  end.

Definition cadence (a : ActivityState) : Z :=
  match a with
  | Active => 2000
  | Passive => 10000
  | Inactive => 20000
  | Locked => POLL_SUSPEND_MS
  end.

Definition state_name (a : ActivityState) : string :=
  match a with
  | Active => "Active"
  | Passive => "Passive"
  | Inactive => "Inactive"
  | Locked => "Locked"
  end.

Section stage.
Context `{Chrono} `{HashOrder} `{UnicodeText}.
Context (utc_now : nat -> instant) (metrics : nat -> StorageInfo) (cfg : stage_config).

Definition retention : duration := minutes (sw 64 (sg_retention_minutes cfg)).

(** [publish_snapshot]: the new state and the readings made. *)
Definition publish_snapshot (s : stage_state) (n : nat) : stage_state * nat :=
  let now := utc_now n in
  let since := now - retention in
  let recent_records := drop_old now since (ss_records s) in
  let aggregated := aggregate_activities_since recent_records since now
    (sg_ephemeral_max cfg) (sg_ephemeral_min cfg) (sg_max_windows cfg) in
  let ms := cadence (ss_state s) in
  let '(n, aggregated_apps) :=
    build_app_tree utc_now (S n) aggregated (sg_app_max cfg) (sg_app_min cfg) in
  let reason := state_name (ss_state s) in
  let next_timeout := Some (utc_now n + millis ms) in
  let bus := publish_basic (ss_bus s) (utc_now (S n)) {|
    p_state := ss_state s; p_focus := ss_focus s; p_last_transition := ss_last s;
    p_records := recent_records; p_counts := ss_counts s; p_cadence_ms := uw 32 ms;
    p_cadence_reason := reason; p_next_timeout := next_timeout; p_storage := metrics n;
    p_config := sg_summary cfg; p_health := current_health (ss_bus s);
    p_aggregated_apps := aggregated_apps |} in
  ({| ss_bus := bus; ss_poll := ms; ss_counts := ss_counts s; ss_records := recent_records;
      ss_state := ss_state s; ss_focus := ss_focus s; ss_last := ss_last s;
      ss_hist := ss_hist s; ss_shutdown := ss_shutdown s;
      ss_hints_complete := ss_hints_complete s; ss_sent := ss_sent s |}, S (S n)).

Definition set_sent (s : stage_state) : stage_state := {|
  ss_bus := ss_bus s; ss_poll := ss_poll s; ss_counts := ss_counts s;
  ss_records := ss_records s; ss_state := ss_state s; ss_focus := ss_focus s;
  ss_last := ss_last s; ss_hist := ss_hist s; ss_shutdown := ss_shutdown s;
  ss_hints_complete := ss_hints_complete s; ss_sent := true |}.

(** [maybe_finalize]: [true] when the stage is done. *)
Definition maybe_finalize (shutdown_requested hints_complete : bool) (s : stage_state) (n : nat)
    : stage_state * nat * list StorageCommand * bool :=
  if negb shutdown_requested || negb hints_complete || ss_sent s then (s, n, [], false)
  else
    let '(s, n) := publish_snapshot s n in
    (set_sent s, n, [StShutdown], true).

Definition set_hints_complete (s : stage_state) : stage_state := {|
  ss_bus := ss_bus s; ss_poll := ss_poll s; ss_counts := ss_counts s;
  ss_records := ss_records s; ss_state := ss_state s; ss_focus := ss_focus s;
  ss_last := ss_last s; ss_hist := ss_hist s; ss_shutdown := ss_shutdown s;
  ss_hints_complete := true; ss_sent := ss_sent s |}.

Definition set_shutdown (s : stage_state) : stage_state := {|
  ss_bus := ss_bus s; ss_poll := ss_poll s; ss_counts := ss_counts s;
  ss_records := ss_records s; ss_state := ss_state s; ss_focus := ss_focus s;
  ss_last := ss_last s; ss_hist := ss_hist s; ss_shutdown := true;
  ss_hints_complete := ss_hints_complete s; ss_sent := ss_sent s |}.

(** One message: the new state, the readings made, the storage commands, and whether
    the loop ends. *)
Definition snapshot_step (s : stage_state) (n : nat) (msg : SnapshotMessage)
    : stage_state * nat * list StorageCommand * bool :=
  match msg with
  | SUpdate update => let '(s, out) := apply_update s update in (s, n, out, false)
  | SRecord record => (update_records s record, n, [], false)
  | SPublish => let '(s, n) := publish_snapshot s n in (s, n, [], false)
  | SHintsComplete =>
      let s := set_hints_complete s in
      maybe_finalize (ss_shutdown s) (ss_hints_complete s) s n
  | SShutdown =>
      let s := set_shutdown s in
      maybe_finalize (ss_shutdown s) (ss_hints_complete s) s n
  end.

(** The loop over the messages received until the channel closes. *)
Fixpoint snapshot_loop (s : stage_state) (n : nat) (msgs : list SnapshotMessage)
    : stage_state * nat * list StorageCommand :=
  match msgs with
  | [] => (s, n, [])
  | msg :: msgs =>
      let '(s, n, out, done) := snapshot_step s n msg in
      if done then (s, n, out)
      else let '(s, n, rest) := snapshot_loop s n msgs in (s, n, out ++ rest)
  end.

(** The thread: hydration and a first snapshot, the loop, and the shutdown of storage
    if the loop did not send it. *)
Definition snapshot_stage (bus : SnapshotBus) (poll : Z)
    (initial_records : list ActivityRecord) (initial_transitions : list Transition)
    (msgs : list SnapshotMessage) : stage_state * list StorageCommand :=
  let s := hydrate (stage_new bus poll initial_records) initial_transitions in
  let '(s, n) := publish_snapshot s 0 in
  let '(s, n, out) := snapshot_loop s n msgs in
  if negb (ss_sent s) then
    let '(s, _, out', _) := maybe_finalize true true s n in (s, out ++ out')
  else (s, out).
End stage.

(** ** What the stage has handled *)

(** The messages up to the one that completes both [HintsComplete] and [Shutdown]. *)
Fixpoint until_done (shutdown hints : bool) (msgs : list SnapshotMessage)
    : list SnapshotMessage :=
  match msgs with
  | [] => []
  | msg :: msgs =>
      let shutdown := match msg with SShutdown => true | _ => shutdown end in
      let hints := match msg with SHintsComplete => true | _ => hints end in
      msg :: if shutdown && hints then [] else until_done shutdown hints msgs
  end.

Definition msg_update (m : SnapshotMessage) : option SnapshotUpdate :=
  match m with SUpdate u => Some u | _ => None end.
Definition msg_transition (m : SnapshotMessage) : option Transition :=
  u ← msg_update m; u_transition u.
Definition msg_record (m : SnapshotMessage) : option ActivityRecord :=
  match m with SRecord r => Some r | _ => None end.

(** A 64-bit counter after the given increments: their sum, up to the maximum. *)
Definition saturated (base : Z) (l : list Z) : Z := foldl (usat_add 64) base l.

Lemma saturated_sum base l :
  0 <= base <= u64_max -> Forall (fun x => 0 <= x) l ->
  saturated base l = Z.min u64_max (base + zsum l).
Proof.
  intros Hb Hl. revert base Hb. unfold saturated.
  induction Hl as [|x l Hx Hl IH]; intros base Hb; [cbn; lia|]. cbn [foldl].
  rewrite IH; [|unfold usat_add, u64_max in *; lia].
  assert (0 <= zsum l) as Hz by (clear -Hl; induction Hl; unfold zsum in *; cbn in *; lia).
  unfold usat_add, u64_max in *. unfold zsum in *. cbn [foldr]. lia.
Qed.

Lemma zsum_ones {A} (l : list A) : zsum (map (fun _ => 1) l) = Z.of_nat (length l).
Proof. unfold zsum. induction l as [|x l IH]; cbn [map foldr length]; lia. Qed.

(** What the stage shows, as a function of the messages handled. *)
Record shows (s0 s : stage_state) (handled : list SnapshotMessage) : Prop := {
  sh_run : bus_run_id (ss_bus s) = bus_run_id (ss_bus s0);
  sh_hints : hints_seen (ss_counts s) =
    saturated (hints_seen (ss_counts s0)) (map u_hints_delta (omap msg_update handled));
  sh_signals : signals_seen (ss_counts s) =
    saturated (signals_seen (ss_counts s0)) (map u_signals_delta (omap msg_update handled));
  sh_records : records_emitted (ss_counts s) =
    saturated (records_emitted (ss_counts s0)) (map (fun _ => 1) (omap msg_record handled));
  sh_state : ss_state s = default (ss_state s0) (last (omap u_state (omap msg_update handled)));
  sh_transition : ss_last s = match last (omap msg_transition handled) with
    | Some t => Some (attach_run_id (ss_bus s0) t) | None => ss_last s0 end
}.

Lemma attach_run_id_ext b b' t :
  bus_run_id b = bus_run_id b' -> attach_run_id b t = attach_run_id b' t.
Proof. unfold attach_run_id. by intros ->. Qed.

Lemma attach_run_id_map b b' l :
  bus_run_id b = bus_run_id b' -> map (attach_run_id b) l = map (attach_run_id b') l.
Proof. intros Hb. apply map_ext. intros t. by apply attach_run_id_ext. Qed.

Lemma shows_refl s : shows s s [].
Proof. by split. Qed.

Lemma shows_trans s0 s1 s2 l1 l2 : shows s0 s1 l1 -> shows s1 s2 l2 -> shows s0 s2 (l1 ++ l2).
Proof.
  intros [A1 A2 A3 A4 A5 A6] [B1 B2 B3 B4 B5 B6].
  split; rewrite ?omap_app, ?map_app; unfold saturated in *; rewrite ?foldl_app.
  - congruence.
  - by rewrite B2, A2.
  - by rewrite B3, A3.
  - by rewrite B4, A4.
  - rewrite B5, A5, last_app. by destruct (last (omap u_state (omap msg_update l2))).
  - rewrite B6, last_app. destruct (last (omap msg_transition l2)); [|done].
    f_equal. by apply attach_run_id_ext.
Qed.

Lemma shows_sent s0 s l : shows s0 s l -> shows s0 (set_sent s) l.
Proof. intros []. by split. Qed.

Section stage_spec.
Context `{Chrono} `{HashOrder} `{UnicodeText}.
Context (utc_now : nat -> instant) (metrics : nat -> StorageInfo) (cfg : stage_config).

(** The last snapshot published is the state of the stage. *)
Definition published (s : stage_state) : Prop :=
  let snap := current_snapshot (ss_bus s) in
  s_counts snap = ss_counts s /\ s_activity_state snap = ss_state s /\
  s_focus snap = ss_focus s /\ s_last_transition snap = ss_last s /\
  s_records snap = ss_records s /\ s_run_id snap = bus_run_id (ss_bus s) /\
  s_config snap = sg_summary cfg /\
  ss_poll s = cadence (ss_state s) /\ s_cadence_ms snap = cadence (ss_state s).

Lemma cadence_u32 a : uw 32 (cadence a) = cadence a.
Proof. by destruct a. Qed.

Lemma publish_spec s n :
  let '(s', n') := publish_snapshot utc_now metrics cfg s n in
  published s' /\ shows s s' [] /\ ss_shutdown s' = ss_shutdown s /\
  ss_hints_complete s' = ss_hints_complete s /\ ss_sent s' = ss_sent s.
Proof.
  unfold publish_snapshot, published. destruct (build_app_tree _ _ _ _ _) as [n1 apps]. cbn.
  rewrite cadence_u32. split; [done|]. by split.
Qed.

(** A step that does not end the loop shows one message more. *)
Lemma maybe_finalize_spec s n sd hc :
  ss_sent s = false ->
  let '(s', n', out, done) := maybe_finalize utc_now metrics cfg sd hc s n in
  done = sd && hc /\ ss_sent s' = done /\ shows s s' [] /\
  ss_shutdown s' = ss_shutdown s /\ ss_hints_complete s' = ss_hints_complete s /\
  out = (if done then [StShutdown] else []) /\ (done = true -> published s').
Proof.
  intros Hs. unfold maybe_finalize. rewrite Hs.
  destruct sd, hc; cbn [negb orb andb]; [|by rewrite Hs; auto using shows_refl..].
  pose proof (publish_spec s n) as Hp.
  destruct (publish_snapshot utc_now metrics cfg s n) as [s1 n1].
  destruct Hp as (Hp&Hsh&?&?&?). split; [done|]. split; [done|].
  split; [by apply shows_sent|]. by split.
Qed.

Lemma snapshot_step_spec s n msg :
  ss_sent s = false ->
  let sd := match msg with SShutdown => true | _ => ss_shutdown s end in
  let hc := match msg with SHintsComplete => true | _ => ss_hints_complete s end in
  let '(s', n', out, done) := snapshot_step utc_now metrics cfg s n msg in
  done = match msg with SShutdown | SHintsComplete => sd && hc | _ => false end /\
  ss_sent s' = done /\ shows s s' [msg] /\
  ss_shutdown s' = sd /\ ss_hints_complete s' = hc /\
  out = map StTransition (map (attach_run_id (ss_bus s)) (omap msg_transition [msg]))
    ++ (if done then [StShutdown] else []) /\
  (done = true -> published s').
Proof.
  intros Hs. destruct msg as [u|r| | |]; cbn [snapshot_step].
  - unfold apply_update. unfold msg_transition; cbn.
    destruct (u_transition u) as [t|] eqn:Ht, (u_state u) eqn:Hst; cbn;
      (split; [done|]); (split; [done|]); (split; [|done]);
      (split; unfold msg_transition; cbn; rewrite ?Ht, ?Hst; done).
  - split; [done|]. split; [done|]. by split.
  - pose proof (publish_spec s n) as Hp.
    destruct (publish_snapshot utc_now metrics cfg s n) as [s1 n1].
    destruct Hp as (Hp&Hsh&?&?&?). split; [done|]. split; [congruence|].
    split; [|done]. by destruct Hsh; split.
  - pose proof (maybe_finalize_spec (set_hints_complete s) n
      (ss_shutdown s) true Hs) as Hf. cbn [ss_shutdown ss_hints_complete set_hints_complete].
    destruct (maybe_finalize _ _ _ _ _ _ _) as [[[s' n'] out] done].
    destruct Hf as (->&Hs'&Hsh&E1&E2&->&Hp). split; [done|]. split; [done|].
    split; [|done]. by destruct Hsh; split.
  - pose proof (maybe_finalize_spec (set_shutdown s) n
      true (ss_hints_complete s) Hs) as Hf. cbn [ss_shutdown ss_hints_complete set_shutdown].
    destruct (maybe_finalize _ _ _ _ _ _ _) as [[[s' n'] out] done].
    destruct Hf as (->&Hs'&Hsh&E1&E2&->&Hp). split; [done|]. split; [done|].
    split; [|done]. by destruct Hsh; split.
Qed.

Lemma snapshot_loop_spec s n msgs :
  ss_sent s = false -> ss_shutdown s && ss_hints_complete s = false ->
  let handled := until_done (ss_shutdown s) (ss_hints_complete s) msgs in
  let '(s', n', out) := snapshot_loop utc_now metrics cfg s n msgs in
  shows s s' handled /\
  out = map StTransition (map (attach_run_id (ss_bus s)) (omap msg_transition handled))
    ++ (if ss_sent s' then [StShutdown] else []) /\
  (ss_sent s' = true -> published s').
Proof.
  revert s n. induction msgs as [|msg msgs IH]; intros s n Hs Hf.
  { cbn. rewrite Hs. split; [apply shows_refl|by split]. }
  cbn [snapshot_loop until_done].
  pose proof (snapshot_step_spec s n msg Hs) as Hstep.
  set (sd := match msg with SShutdown => true | _ => ss_shutdown s end) in *.
  set (hc := match msg with SHintsComplete => true | _ => ss_hints_complete s end) in *.
  destruct (snapshot_step utc_now metrics cfg s n msg) as [[[s1 n1] o1] done].
  destruct Hstep as (Hd&Hsent&Hsh&Hsd&Hhc&->&Hp).
  assert (done = sd && hc) as Hdone by (subst sd hc done; by destruct msg).
  destruct done.
  - rewrite <- Hdone. rewrite Hsent. split; [done|]. by split.
  - rewrite <- Hdone. specialize (IH s1 n1 Hsent). rewrite Hsd, Hhc in IH.
    specialize (IH (eq_sym Hdone)). cbv zeta in IH.
    destruct (snapshot_loop utc_now metrics cfg s1 n1 msgs) as [[s2 n2] o2].
    destruct IH as (Hsh2&->&Hp2). split; [|split; [|done]].
    + by apply (shows_trans s s1 s2 [msg]).
    + rewrite (attach_run_id_map _ _ _ (sh_run _ _ _ Hsh)).
      change (msg :: until_done sd hc msgs) with ([msg] ++ until_done sd hc msgs).
      by rewrite omap_app, !map_app, app_nil_r, <- (assoc_L (++)).
Qed.

Lemma hydrate_spec s ts :
  let s' := hydrate s ts in
  ss_state s' = default (ss_state s) (t_to <$> last ts) /\
  ss_last s' = match last ts with
    | Some t => Some (attach_run_id (ss_bus s) t) | None => ss_last s end /\
  bus_run_id (ss_bus s') = bus_run_id (ss_bus s) /\
  ss_counts s' = ss_counts s /\ ss_sent s' = ss_sent s /\ ss_shutdown s' = ss_shutdown s /\
  ss_hints_complete s' = ss_hints_complete s.
Proof.
  unfold hydrate. revert s. induction ts as [|t ts IH]; intros s; [done|]. cbn [foldl].
  destruct (IH (hydrate_step s t)) as (E1&E2&E3&E4&E5&E6&E7). cbv zeta in *.
  rewrite E1, E2, E3, E4, E5, E6, E7, last_cons.
  split; [destruct (last ts); [done|]; cbn; unfold attach_run_id; by destruct (t_run_id t)|].
  split; [|done]. by destruct (last ts).
Qed.
End stage_spec.

(** ** Theorems *)
Section theorems.
Context `{Chrono} `{HashOrder} `{UnicodeText}.
Context (utc_now : nat -> instant) (metrics : nat -> StorageInfo) (cfg : stage_config).
Let stage := snapshot_stage utc_now metrics cfg.

(** The stage ends with a snapshot of all it handled. *)
Lemma stage_runs bus poll records ts msgs :
  let handled := until_done false false msgs in
  let '(s, out) := stage bus poll records ts msgs in
  published cfg s /\ shows (hydrate (stage_new bus poll records) ts) s handled /\
  out = map StTransition (map (attach_run_id bus) (omap msg_transition handled)) ++ [StShutdown].
Proof.
  intros handled. unfold stage, snapshot_stage. set (s0 := stage_new bus poll records).
  destruct (hydrate_spec s0 ts) as (_&_&Hrun&_&Hsent&Hsd&Hhc). cbv zeta in *.
  pose proof (publish_spec utc_now metrics cfg (hydrate s0 ts) 0) as Hp.
  destruct (publish_snapshot utc_now metrics cfg (hydrate s0 ts) 0) as [s1 n1].
  destruct Hp as (_&Hsh1&Esd&Ehc&Esent).
  pose proof (snapshot_loop_spec utc_now metrics cfg s1 n1 msgs) as Hl.
  rewrite Esd, Ehc, Esent, Hsd, Hhc, Hsent in Hl. specialize (Hl eq_refl eq_refl).
  cbn [ss_shutdown ss_hints_complete stage_new s0] in Hl. fold handled in Hl.
  destruct (snapshot_loop utc_now metrics cfg s1 n1 msgs) as [[s2 n2] out].
  destruct Hl as (Hsh2&->&Hp2). pose proof (shows_trans _ _ _ _ _ Hsh1 Hsh2) as Hsh.
  rewrite (attach_run_id_map (ss_bus s1) bus) by (by rewrite (sh_run _ _ _ Hsh1)).
  destruct (ss_sent s2) eqn:Hs2; cbn [negb]; [by auto|].
  unfold maybe_finalize. cbn [negb orb]. rewrite Hs2.
  pose proof (publish_spec utc_now metrics cfg s2 n2) as Hp.
  destruct (publish_snapshot utc_now metrics cfg s2 n2) as [s3 n3].
  destruct Hp as (Hp&Hsh3&_). split; [exact Hp|]. split; [|by rewrite app_nil_r].
  apply shows_sent. rewrite <- (app_nil_r handled). by eapply shows_trans.
Qed.

(** C15: whatever messages arrive and whenever the channel closes, the stage sends the
    storage stage the transitions of the updates it handles, in order and with the run
    attached, and then [Shutdown], exactly once and as its last command; it handles the
    messages up to the one that completes both [HintsComplete] and [Shutdown], and all
    of them when the channel closes before. *)
Theorem storage_shutdown_once bus poll records ts msgs :
  (stage bus poll records ts msgs).2
    = map StTransition (map (attach_run_id bus)
        (omap msg_transition (until_done false false msgs))) ++ [StShutdown].
Proof.
  pose proof (stage_runs bus poll records ts msgs) as Hr. cbv zeta in Hr.
  destruct (stage bus poll records ts msgs) as [s out]. by destruct Hr as (_&_&Hout).
Qed.

(** The snapshot left on the bus when the stage ends accounts for everything it
    handled: the counts are the saturated sums of the hints, signals and records, the
    state and the last transition are those of the newest update that has one (else of
    the last stored transition it started from, else [Inactive]); and the poll handle
    holds the cadence of that state. *)
Theorem final_snapshot_accounts bus poll records ts msgs :
  let handled := until_done false false msgs in
  let updates := omap msg_update handled in
  Forall (fun u => 0 <= u_hints_delta u /\ 0 <= u_signals_delta u) updates ->
  let s := (stage bus poll records ts msgs).1 in
  let snap := current_snapshot (ss_bus s) in
  s_counts snap = {|
    hints_seen := Z.min u64_max (zsum (map u_hints_delta updates));
    signals_seen := Z.min u64_max (zsum (map u_signals_delta updates));
    records_emitted := Z.min u64_max (Z.of_nat (length (omap msg_record handled))) |} /\
  s_activity_state snap
    = default (default Inactive (t_to <$> last ts)) (last (omap u_state updates)) /\
  s_last_transition snap = attach_run_id bus <$> last (ts ++ omap msg_transition handled) /\
  ss_poll s = cadence (s_activity_state snap).
Proof.
  intros handled updates Hpos. cbv zeta. set (s0 := stage_new bus poll records).
  destruct (hydrate_spec s0 ts) as (Hst&Hlast&Hrun&Hcounts&_). cbv zeta in *.
  pose proof (stage_runs bus poll records ts msgs) as Hr. cbv zeta in Hr.
  destruct (stage bus poll records ts msgs) as [s out]. cbn [fst].
  destruct Hr as ((Hc&Ha&_&Hl&_&_&_&Hpoll&_)&[_ B2 B3 B4 B5 B6]&_).
  fold s0 handled in B2, B3, B4, B5, B6. fold updates in B2, B3, B5.
  rewrite Hc, Ha, Hl, B5, B6, Hst, Hlast, last_app. rewrite Hcounts in B2, B3, B4.
  split; [|split; [done|split; [|congruence]]].
  - destruct (ss_counts s) as [sig hin rec]. cbn in B2, B3, B4. subst.
    rewrite !saturated_sum, zsum_ones; [done|unfold u64_max; lia|by apply Forall_map, Forall_true
      |unfold u64_max; lia| |unfold u64_max; lia|].
    all: apply Forall_map; eapply Forall_impl; [exact Hpos|]; by intros ? [].
  - destruct (last (omap msg_transition handled)) as [t|]; cbn; [|by destruct (last ts)].
    f_equal. by apply attach_run_id_ext.
Qed.

(** Started from stored transitions listed newest first, as the storage backends
    return them, the stage takes the oldest one for the current state, and shows it as
    long as no update brings another. *)
Theorem hydrate_shows_oldest bus poll records ts msgs :
  StronglySorted (fun a b => t_at b <= t_at a) ts -> ts <> [] ->
  omap u_state (omap msg_update (until_done false false msgs)) = [] ->
  exists t, t ∈ ts /\ Forall (fun t' => t_at t <= t_at t') ts /\
    s_activity_state (current_snapshot (ss_bus (stage bus poll records ts msgs).1)) = t_to t.
Proof.
  intros Hsort Hne Hno. set (s0 := stage_new bus poll records).
  destruct (hydrate_spec s0 ts) as (Hst&_). cbv zeta in *.
  pose proof (stage_runs bus poll records ts msgs) as Hr. cbv zeta in Hr.
  destruct (stage bus poll records ts msgs) as [s out]. cbn [fst].
  destruct Hr as ((_&Ha&_)&[_ _ _ _ B5 _]&_). fold s0 in B5.
  rewrite Ha, B5, Hno, Hst. cbn [last default]. clear -Hsort Hne.
  destruct ts as [|t ts _] using rev_ind; [done|]. exists t. rewrite last_snoc. cbn.
  split; [apply elem_of_app; right; by left|]. split; [|done].
  apply Forall_app. split; [|by repeat constructor].
  apply Forall_forall. intros t' Ht'. apply list_elem_of_split in Ht' as (l1&l2&->).
  rewrite <- (assoc_L (++)) in Hsort. cbn [app] in Hsort.
  induction l1 as [|x l1 IH]; cbn in Hsort; apply StronglySorted_inv in Hsort as [Hs Hf].
  - apply Forall_app in Hf as [_ Hf]. by apply Forall_cons in Hf as [? _].
  - apply IH; [|done]. by destruct l1.
Qed.

Lemma drop_old_filter now since l :
  StronglySorted (fun a b => default now (end_time a) <= default now (end_time b)) l ->
  drop_old now since l = filter (fun r => since <= default now (end_time r)) l.
Proof.
  induction 1 as [|r l Hs IH Hf]; [done|]. cbn [drop_old]. rewrite filter_cons.
  destruct (Z.ltb_spec (default now (end_time r)) since) as [Hlt|Hge]; case_decide; try lia; [done|].
  f_equal. clear -Hf Hge. induction Hf as [|x l Hx Hf IH]; [done|].
  rewrite filter_cons. case_decide; [by f_equal|lia].
Qed.

(** A snapshot of records in the order of their ends shows, and the stage keeps,
    exactly those that end inside the retention window (an open one ends now), and the
    applications of the snapshot are the tree of what the aggregation makes of them. *)
Theorem publish_keeps_retention s n :
  let now := utc_now n in
  StronglySorted (fun a b => default now (end_time a) <= default now (end_time b)) (ss_records s) ->
  let '(s', n') := publish_snapshot utc_now metrics cfg s n in
  let kept := filter (fun r => now - retention cfg <= default now (end_time r)) (ss_records s) in
  ss_records s' = kept /\ s_records (current_snapshot (ss_bus s')) = kept /\
  s_aggregated_apps (current_snapshot (ss_bus s'))
    = (build_app_tree utc_now (S n)
         (aggregate_activities_since kept (now - retention cfg) now
           (sg_ephemeral_max cfg) (sg_ephemeral_min cfg) (sg_max_windows cfg))
         (sg_app_max cfg) (sg_app_min cfg)).2.
Proof.
  cbv zeta. intros Hs. unfold publish_snapshot. rewrite (drop_old_filter _ _ _ Hs).
  by destruct (build_app_tree _ _ _ _ _) as [n1 apps].
Qed.
End theorems.

(** A session: two stored transitions, an update and a record, then the end. *)
Definition demo_cfg : stage_config := {|
  sg_summary := config_default; sg_retention_minutes := 60; sg_ephemeral_max := 60;
  sg_ephemeral_min := 2; sg_max_windows := 5; sg_app_max := 90; sg_app_min := 2 |}.
Definition demo_transition (from to : ActivityState) (at_ : instant) : Transition :=
  {| t_from := from; t_to := to; t_at := at_; t_by_signal := None; t_run_id := None |}.
Definition demo_update : SnapshotUpdate := {|
  u_hints_delta := 2; u_signals_delta := 1; u_focus := None; u_focus_title := None;
  u_transition := Some (demo_transition Passive Active 9); u_state := Some Active |}.
Definition demo_stage (ts : list Transition) (msgs : list SnapshotMessage) :=
  @snapshot_stage chrono_ref hash_order_id unicode_ascii (fun n => secs (Z.of_nat n))
    (fun _ => {| backlog_count := 0; last_flush_at := None |}) demo_cfg (bus_new 0) 0 [] ts msgs.
Definition newest_first : list Transition :=
  [demo_transition Active Passive 8; demo_transition Inactive Active 7].

Lemma final_snapshot_accounts_witness :
  let s := (demo_stage newest_first [SUpdate demo_update; SShutdown; SUpdate demo_update;
    SHintsComplete; SUpdate demo_update]).1 in
  hints_seen (s_counts (current_snapshot (ss_bus s))) = 4 /\ ss_poll s = 2000.
Proof.
  intros s.
  pose proof (@final_snapshot_accounts chrono_ref hash_order_id unicode_ascii
    (fun n => secs (Z.of_nat n)) (fun _ => {| backlog_count := 0; last_flush_at := None |})
    demo_cfg (bus_new 0) 0 [] newest_first
    [SUpdate demo_update; SShutdown; SUpdate demo_update; SHintsComplete; SUpdate demo_update]
    ltac:(cbn; rewrite !Forall_cons, Forall_nil; cbn; lia)) as (Hc&Ha&_&Hp).
  split; [etrans; [apply (f_equal hints_seen Hc)|reflexivity]|].
  etrans; [apply Hp|]. etrans; [apply (f_equal cadence Ha)|reflexivity].
Defined.

Lemma hydrate_shows_oldest_witness :
  exists t, t ∈ newest_first /\ Forall (fun t' => t_at t <= t_at t') newest_first /\
    s_activity_state (current_snapshot (ss_bus (demo_stage newest_first [SPublish]).1)) = t_to t.
Proof.
  apply (@hydrate_shows_oldest chrono_ref hash_order_id unicode_ascii).
  - repeat constructor; cbn; lia.
  - discriminate.
  - reflexivity.
Defined.

Definition demo_ended (t : instant) : ActivityRecord := {|
  record_id := t; run_id := None; start_time := 0; end_time := Some t; state := Active;
  focus_info := None; event_count := 0; triggering_events := [] |}.

Lemma publish_keeps_retention_witness :
  let s := stage_new (bus_new 0) 0 [demo_ended (minutes 5); demo_ended (minutes 100)] in
  map record_id (ss_records (@publish_snapshot chrono_ref hash_order_id unicode_ascii
    (fun _ => minutes 120) (fun _ => {| backlog_count := 0; last_flush_at := None |})
    demo_cfg s 0).1) = [minutes 100].
Proof.
  intros s.
  pose proof (@publish_keeps_retention chrono_ref hash_order_id unicode_ascii
    (fun _ => minutes 120) (fun _ => {| backlog_count := 0; last_flush_at := None |})
    demo_cfg s 0 ltac:(repeat constructor; unfold minutes; cbn; lia)) as Hp.
  destruct (publish_snapshot _ _ _ _ _) as [s' n']. destruct Hp as [Hr _].
  cbn [fst]. rewrite Hr. reflexivity.
Defined.
