(* ===== verification/Pipeline.v ===== *)
(** The pipeline of [daemon/pipeline.rs]: the six stages as threads that communicate
    over first-in first-out channels.

    A schedule is a list of actors; each takes one step of its stage: it receives one
    message and performs its sends.  A stage that leaves its loop drops its receiver
    and its senders; a channel whose senders are all gone ends the loop of its
    receiver once it is empty.  Every stage has readings of the clock of its own. *)
From Stdlib Require Import Inverse_Image.
From S2P Require Import Prelude Events StateEngine StateDeriver LockDeriver Adapter Interner.
From S2P Require Import Records Aggregation SnapshotBus CompactEvents Compressor Trajectory.
From S2P Require Import Engine PipelineTypes Envelope HintsStage CompressionStage AppTree.
From S2P Require Import SnapshotStage.

Inductive actor := AIngest | AEnvelope | AHints | ACompression | ASnapshot | AStorage.
#[export] Instance actor_eq_dec : EqDecision actor.
Proof. solve_decision. Defined.

Section pipeline.
Context `{HC : Chrono} `{HO : HashOrder} `{HU : UnicodeText} `{HM : MemSizes}.
Context {E : Type} `{HE : StateEngine E} {I : Type} `{HI : TitleInterner I}.
Context (hints_now snapshot_now : nat -> instant) (mono_now : nat -> Z)
  (metrics : nat -> StorageInfo) (cfg : stage_config).
Context (persist_raw_events : bool) (own_run_id : option string).

(** The channels, the states of the stages and which of them have ended; [n_stored] is
    what the storage stage has handed to the backend. *)
Record net := {
  n_feed : list DeriveCommand;
  n_derive : list DeriveCommand;
  n_hints : list EventEnvelope;
  n_compression : list CompressionCommand;
  n_snapshot : list SnapshotMessage;
  n_storage : list StorageCommand;
  st_envelope : envelope_state (E := E);
  st_hints : RecordBuilder (I := I) * nat;
  st_compression : compression_state * nat;
  st_snapshot : stage_state * nat;
  envelope_done : bool;
  hints_done : bool;
  compression_done : bool;
  snapshot_done : bool;
  storage_done : bool;
  n_stored : list StorageCommand
}.

Definition channels (p : net) : open_channels := {|
  hints_open := negb (hints_done p); compression_open := negb (compression_done p);
  snapshot_open := negb (snapshot_done p); storage_open := negb (storage_done p) |}.

(** The sends of a stage, each at the end of its channel. *)
Definition deliver (p : net) (out : list output) : net := {|
  n_feed := n_feed p; n_derive := n_derive p;
  n_hints := n_hints p ++ to_hints out;
  n_compression := n_compression p ++ to_compression out;
  n_snapshot := n_snapshot p ++ to_snapshot out;
  n_storage := n_storage p ++ to_storage out;
  st_envelope := st_envelope p; st_hints := st_hints p; st_compression := st_compression p;
  st_snapshot := st_snapshot p;
  envelope_done := envelope_done p; hints_done := hints_done p;
  compression_done := compression_done p; snapshot_done := snapshot_done p;
  storage_done := storage_done p; n_stored := n_stored p |}.

(** What is sent to a channel without a receiver is gone. *)
Definition storage_sends (p : net) (l : list StorageCommand) : list output :=
  if storage_done p then [] else map ToStorage l.

Definition ingest_net (p : net) : option net :=
  match n_feed p with
  | [] => None
  | c :: feed => Some {|
      n_feed := feed;
      n_derive := if envelope_done p then n_derive p else n_derive p ++ [c];
      n_hints := n_hints p; n_compression := n_compression p; n_snapshot := n_snapshot p;
      n_storage := n_storage p; st_envelope := st_envelope p; st_hints := st_hints p;
      st_compression := st_compression p; st_snapshot := st_snapshot p;
      envelope_done := envelope_done p; hints_done := hints_done p;
      compression_done := compression_done p; snapshot_done := snapshot_done p;
      storage_done := storage_done p; n_stored := n_stored p |}
  end.

Definition set_envelope (p : net) (q : list DeriveCommand) (s : envelope_state (E := E))
    (done : bool) : net := {|
  n_feed := n_feed p; n_derive := q; n_hints := n_hints p; n_compression := n_compression p;
  n_snapshot := n_snapshot p; n_storage := n_storage p; st_envelope := s;
  st_hints := st_hints p; st_compression := st_compression p; st_snapshot := st_snapshot p;
  envelope_done := done; hints_done := hints_done p; compression_done := compression_done p;
  snapshot_done := snapshot_done p; storage_done := storage_done p; n_stored := n_stored p |}.

Definition envelope_net (p : net) : option net :=
  if envelope_done p then None
  else
    match n_derive p with
    | cmd :: q =>
        let '(s, out) := envelope_step (st_envelope p) (channels p) cmd in
        Some (deliver (set_envelope p (if es_running s then q else []) s (negb (es_running s))) out)
    | [] =>
        match n_feed p with
        | [] => Some (set_envelope p [] (st_envelope p) true)
        | _ => None
        end
    end.

Definition set_hints (p : net) (q : list EventEnvelope) (bn : RecordBuilder (I := I) * nat)
    (done : bool) : net := {|
  n_feed := n_feed p; n_derive := n_derive p; n_hints := q; n_compression := n_compression p;
  n_snapshot := n_snapshot p; n_storage := n_storage p; st_envelope := st_envelope p;
  st_hints := bn; st_compression := st_compression p; st_snapshot := st_snapshot p;
  envelope_done := envelope_done p; hints_done := done;
  compression_done := compression_done p; snapshot_done := snapshot_done p;
  storage_done := storage_done p; n_stored := n_stored p |}.

Definition hints_net (p : net) : option net :=
  if hints_done p then None
  else
    match n_hints p with
    | env :: q =>
        let '(bn, out) := hints_step hints_now own_run_id (channels p) (st_hints p) env in
        Some (deliver (set_hints p q bn false) out)
    | [] =>
        if envelope_done p then
          Some (deliver (set_hints p [] (st_hints p) true)
            (hints_end hints_now own_run_id (channels p) (st_hints p)))
        else None
    end.

Definition set_compression (p : net) (q : list CompressionCommand)
    (s : compression_state * nat) (done : bool) : net := {|
  n_feed := n_feed p; n_derive := n_derive p; n_hints := n_hints p; n_compression := q;
  n_snapshot := n_snapshot p; n_storage := n_storage p; st_envelope := st_envelope p;
  st_hints := st_hints p; st_compression := s; st_snapshot := st_snapshot p;
  envelope_done := envelope_done p; hints_done := hints_done p; compression_done := done;
  snapshot_done := snapshot_done p; storage_done := storage_done p; n_stored := n_stored p |}.

Definition compression_net (p : net) : option net :=
  if compression_done p then None
  else
    let '(s, n) := st_compression p in
    match n_compression p with
    | cmd :: q =>
        let '(s, out, _) := compression_step persist_raw_events (channels p) s cmd
          (mono_now n) (mono_now (S n)) in
        Some (deliver (set_compression p (if cp_running s then q else []) (s, S (S n))
          (negb (cp_running s))) out)
    | [] =>
        if envelope_done p then Some (set_compression p [] (s, n) true) else None
    end.

Definition set_snapshot (p : net) (q : list SnapshotMessage) (s : stage_state * nat)
    (done : bool) : net := {|
  n_feed := n_feed p; n_derive := n_derive p; n_hints := n_hints p;
  n_compression := n_compression p; n_snapshot := q; n_storage := n_storage p;
  st_envelope := st_envelope p; st_hints := st_hints p; st_compression := st_compression p;
  st_snapshot := s; envelope_done := envelope_done p; hints_done := hints_done p;
  compression_done := compression_done p; snapshot_done := done;
  storage_done := storage_done p; n_stored := n_stored p |}.

(** The loop ends when both sides are done, or when its senders are gone. *)
Definition snapshot_net (p : net) : option net :=
  if snapshot_done p then None
  else
    let '(s, n) := st_snapshot p in
    match n_snapshot p with
    | msg :: q =>
        let '(s, n, out, done) := snapshot_step snapshot_now metrics cfg s n msg in
        Some (deliver (set_snapshot p (if done : bool then [] else q) (s, n) done)
          (storage_sends p out))
    | [] =>
        if envelope_done p && hints_done p then
          let '(s, n, out, _) := maybe_finalize snapshot_now metrics cfg true true s n in
          Some (deliver (set_snapshot p [] (s, n) true) (storage_sends p out))
        else None
    end.

Definition set_storage (p : net) (q stored : list StorageCommand) (done : bool) : net := {|
  n_feed := n_feed p; n_derive := n_derive p; n_hints := n_hints p;
  n_compression := n_compression p; n_snapshot := n_snapshot p; n_storage := q;
  st_envelope := st_envelope p; st_hints := st_hints p; st_compression := st_compression p;
  st_snapshot := st_snapshot p; envelope_done := envelope_done p; hints_done := hints_done p;
  compression_done := compression_done p; snapshot_done := snapshot_done p;
  storage_done := done; n_stored := stored |}.

(** The storage stage: every command goes to the backend until [Shutdown]. *)
Definition storage_net (p : net) : option net :=
  if storage_done p then None
  else
    match n_storage p with
    | StShutdown :: _ => Some (set_storage p [] (n_stored p) true)
    | cmd :: q => Some (set_storage p q (n_stored p ++ [cmd]) false)
    | [] =>
        if envelope_done p && hints_done p && compression_done p && snapshot_done p
        then Some (set_storage p [] (n_stored p) true) else None
    end.

Definition net_step (p : net) (a : actor) : option net :=
  match a with
  | AIngest => ingest_net p
  | AEnvelope => envelope_net p
  | AHints => hints_net p
  | ACompression => compression_net p
  | ASnapshot => snapshot_net p
  | AStorage => storage_net p
  end.

(** A schedule in which every actor can move. *)
Fixpoint net_run (p : net) (l : list actor) : option net :=
  match l with
  | [] => Some p
  | a :: l => p ← net_step p a; net_run p l
  end.

Definition reachable (p q : net) : Prop := exists l, net_run p l = Some q.

(** ** The start *)

(** [spawn_pipeline]: what the stages start from.  [records] and [transitions] are the
    results of the two storage queries, an error being [None]. *)
Definition hydrate_recent_records (fetched : option (list ActivityRecord)) : list ActivityRecord :=
  match fetched with Some records => records | None => [] end.
Definition hydrate_recent_transitions (fetched : option (list Transition)) : list Transition :=
  match fetched with Some transitions => transitions | None => [] end.

(** [iter().max()]. *)
Definition max_record_id (l : list ActivityRecord) : option Z :=
  match map record_id l with [] => None | x :: ids => Some (foldl Z.max x ids) end.

Definition next_record_id_of (run_id : option string) (initial_records : list ActivityRecord) : Z :=
  default 0 (m ← (_ ← run_id; max_record_id initial_records); Some (usat_add 64 m 1)).

Definition spawn_pipeline (feed : list DeriveCommand) (env : envelope_state (E := E)) (i : I)
    (bus : SnapshotBus) (poll focus_interner_max_strings : Z)
    (records : option (list ActivityRecord)) (transitions : option (list Transition)) : net :=
  let initial_records := hydrate_recent_records records in
  let initial_transitions := hydrate_recent_transitions transitions in
  {| n_feed := feed; n_derive := []; n_hints := []; n_compression := []; n_snapshot := [];
     n_storage := []; st_envelope := env;
     st_hints := (with_next_record_id Inactive
       (next_record_id_of (bus_run_id bus) initial_records) i, 0%nat);
     st_compression := ({| cp_engine := with_focus_cap focus_interner_max_strings;
       cp_rollup := rollup_new (secs 60) (mono_now 0); cp_running := true |}, 1%nat);
     st_snapshot := publish_snapshot snapshot_now metrics cfg
       (hydrate (stage_new bus poll initial_records) initial_transitions) 0;
     envelope_done := false; hints_done := false; compression_done := false;
     snapshot_done := false; storage_done := false; n_stored := [] |}.

(** ** What is sent while everything runs *)

(** The sends of the envelope stage over the commands, until it stops. *)
Fixpoint env_outputs (s : envelope_state (E := E)) (cmds : list DeriveCommand) : list output :=
  match cmds with
  | [] => []
  | cmd :: cmds =>
      let '(s, out) := envelope_step s all_open cmd in
      out ++ if es_running s then env_outputs s cmds else []
  end.

(** The sends of the hints stage over the hints, and at its end. *)
Definition hints_outputs (bn : RecordBuilder (I := I) * nat) (hints : list EventEnvelope)
    : list output :=
  let '(bn, out) := run_list (hints_step hints_now own_run_id all_open) bn hints in
  out ++ hints_end hints_now own_run_id all_open bn.

(** The commands that come from the envelope stage and from the hints stage. *)
Definition from_envelope (c : StorageCommand) : bool :=
  match c with StEnvelope e => is_signal e | _ => false end.
Definition from_hints (c : StorageCommand) : bool :=
  match c with StEnvelope e => negb (is_signal e) | StRecord _ => true | _ => false end.
Definition signal_commands (l : list StorageCommand) : list StorageCommand :=
  filter (fun c => from_envelope c = true) l.
Definition hint_commands (l : list StorageCommand) : list StorageCommand :=
  filter (fun c => from_hints c = true) l.

(** The commands before the first [Shutdown]. *)
Fixpoint committed (l : list StorageCommand) : list StorageCommand :=
  match l with
  | [] => []
  | StShutdown :: _ => []
  | c :: l => c :: committed l
  end.

Lemma committed_app l k :
  StShutdown ∉ l -> committed (l ++ k) = l ++ committed k.
Proof.
  induction l as [|c l IH]; intros Hn; [done|]. apply not_elem_of_cons in Hn as [Hc Hn].
  destruct c; try done; cbn; by rewrite IH.
Qed.

Lemma committed_stop l k : StShutdown ∈ l -> committed (l ++ k) = committed l.
Proof.
  induction l as [|c l IH]; intros Hn; [by apply elem_of_nil in Hn|].
  apply elem_of_cons in Hn as [<-|Hn]; [done|]. destruct c; try done; cbn; by rewrite IH.
Qed.

Lemma committed_nil l : StShutdown ∉ l -> committed l = l.
Proof. intros Hl. rewrite <- (app_nil_r l) at 1. by rewrite committed_app, app_nil_r. Qed.

(** Which stage sends what. *)
Definition signal_only (c : StorageCommand) : Prop := from_envelope c = true.
Definition neutral (c : StorageCommand) : Prop :=
  from_envelope c = false /\ from_hints c = false /\ c <> StShutdown.

Lemma neutral_commands l :
  Forall neutral l -> signal_commands l = [] /\ hint_commands l = [] /\ StShutdown ∉ l.
Proof.
  unfold signal_commands, hint_commands.
  induction 1 as [|c l (H1&H2&H3) Hl (IH1&IH2&IH3)]; [split; [done|split; [done|apply not_elem_of_nil]]|].
  rewrite !filter_cons, H1, H2, !decide_False by done.
  split; [done|]. split; [done|]. rewrite not_elem_of_cons. by split.
Qed.

(** The outputs of the envelope stage: signals to storage, hints to the hints stage,
    nothing that tells the snapshot stage that the hints are complete, and nothing that
    ends the compression stage unless it stops itself. *)
Record env_out (stops : bool) (out : list output) : Prop := {
  eo_storage : Forall signal_only (to_storage out);
  eo_hints : Forall (fun e => is_signal e = false) (to_hints out);
  eo_snapshot : SHintsComplete ∉ to_snapshot out;
  eo_compression : CShutdown ∈ to_compression out -> stops = true
}.

Lemma env_out_nil b : env_out b [].
Proof. split; try constructor; [apply not_elem_of_nil|by intros ?%elem_of_nil]. Qed.

Lemma env_out_app b l k : env_out b l -> env_out b k -> env_out b (l ++ k).
Proof.
  intros [A1 A2 A3 A4] [B1 B2 B3 B4]. split; routes.
  - by apply Forall_app.
  - by apply Forall_app.
  - rewrite elem_of_app. tauto.
  - rewrite elem_of_app. tauto.
Qed.

Lemma env_out_cons b o l : env_out b [o] -> env_out b l -> env_out b (o :: l).
Proof. apply (env_out_app b [o]). Qed.

Lemma env_out_update b u : env_out b [ToSnapshot (SUpdate u)].
Proof. split; cbn; [constructor..| |by intros ?%elem_of_nil]. by rewrite list_elem_of_singleton. Qed.
Lemma env_out_publish b : env_out b [ToSnapshot SPublish].
Proof. split; cbn; [constructor..| |by intros ?%elem_of_nil]. by rewrite list_elem_of_singleton. Qed.
Lemma env_out_process b batch envs : env_out b [ToCompression (CProcess batch envs)].
Proof.
  split; cbn; [constructor..|apply not_elem_of_nil|]. by rewrite list_elem_of_singleton.
Qed.

Lemma flush_out b u : env_out b (flush_if_transition all_open u).1.2.
Proof.
  unfold flush_if_transition, flush_snapshot_update. destruct (is_none _); [apply env_out_nil|].
  destruct (update_is_empty u); cbn; [apply env_out_nil|apply env_out_update].
Qed.

Lemma process_hint_out b u hint k :
  is_signal hint = false -> env_out b (process_hint all_open u hint k).1.2.
Proof.
  intros Hh. unfold process_hint.
  pose proof (flush_out b (apply_state_update_hint (apply_focus_update
    (set_hints_delta u (u64_add (u_hints_delta u) 1)) hint) hint k)) as Hf.
  destruct (flush_if_transition _ _) as [[u' out] ok]. cbn [fst snd] in *.
  apply env_out_cons; [|done].
  split; cbn; [constructor|by repeat constructor|apply not_elem_of_nil|by intros ?%elem_of_nil].
Qed.

Lemma state_hint_kind d env d' hint :
  StateDeriver.on_signal d env = (d', Some hint) -> is_signal hint = false.
Proof.
  unfold StateDeriver.on_signal. destruct (StateEngine.on_signal _ _ _) as [d1 [tr|]]; [|done].
  by intros [= _ <-].
Qed.

Lemma process_env_out x b env : env_out x (process_env all_open b env).2.
Proof.
  unfold process_env. destruct (bs_failed b); [apply env_out_nil|].
  destruct (env_kind env) as [k|h] eqn:Hk.
  - pose proof (flush_out x (apply_state_update_signal (apply_focus_update
      (set_signals_delta (bs_update b) (u64_add (u_signals_delta (bs_update b)) 1)) env) env k))
      as Hf.
    destruct (flush_if_transition _ _) as [[u out] ok]. cbn [fst snd] in *.
    assert (env_out x [ToStorage (StEnvelope env)]) as Hs.
    { split; cbn; [|constructor|apply not_elem_of_nil|by intros ?%elem_of_nil].
      repeat constructor. unfold signal_only; cbn. unfold is_signal. by rewrite Hk. }
    destruct ok; cbn [negb]; [|by apply env_out_app].
    destruct (StateDeriver.on_signal (bs_deriver b) env) as [d [hint|]] eqn:Hd;
      [|by apply env_out_app].
    pose proof (process_hint_out x u hint (Some k) (state_hint_kind _ _ _ _ Hd)) as Hp.
    destruct (process_hint _ _ _ _) as [[u' out'] ok']. cbn [fst snd] in *.
    by do 2 (apply env_out_app; [done|]).
  - pose proof (process_hint_out x (bs_update b) env None) as Hp.
    destruct (process_hint _ _ _ _) as [[u' out'] ok']. cbn [fst snd] in *.
    apply Hp. unfold is_signal. by rewrite Hk.
Qed.

Lemma process_envs_out x b envs : env_out x (run_list (process_env all_open) b envs).2.
Proof.
  revert b. induction envs as [|env envs IH]; intros b; [apply env_out_nil|].
  rewrite run_list_cons. cbn [snd]. apply env_out_app; [apply process_env_out|apply IH].
Qed.

Lemma publish_out x u : env_out x (send_update_and_publish all_open u).
Proof.
  unfold send_update_and_publish. apply env_out_app; [|apply env_out_publish].
  destruct (update_is_empty u); [apply env_out_nil|apply env_out_update].
Qed.

Lemma envelope_step_out s cmd :
  let r := envelope_step s all_open cmd in env_out (negb (es_running r.1)) r.2.
Proof.
  cbv zeta.
  assert (forall x, cmd <> DShutdown -> env_out x (envelope_step s all_open cmd).2) as Hgo.
  { intros x Hne. destruct cmd as [batch|now|]; cbn [envelope_step]; [| |done].
    - unfold handle_batch. destruct (batch_is_empty batch); [apply env_out_nil|].
      destruct (adapt_batch _ _) as [f raws]. destruct (derive _ raws) as [l envs].
      pose proof (process_envs_out x {| bs_update := update_default;
        bs_deriver := es_deriver s; bs_failed := false |} envs) as Hp.
      destruct (run_list _ _ envs) as [b out]. cbn [snd] in Hp.
      destruct (bs_failed b); [done|]. cbn [compression_open all_open negb snd].
      apply env_out_app; [done|]. apply env_out_cons; [apply env_out_process|apply publish_out].
    - unfold handle_tick, StateDeriver.on_tick.
      destruct (StateEngine.on_tick _ _) as [d [tr|]]; [|apply env_out_nil].
      pose proof (process_hint_out x update_default
        (StateDeriver.state_env (uw 64 (timestamp_millis now)) now tr) None eq_refl) as Hp.
      destruct (process_hint _ _ _ _) as [[u out] ok]. cbn [fst snd] in Hp.
      destruct ok; cbn [negb snd]; [|done]. apply env_out_app; [done|apply publish_out]. }
  destruct cmd as [batch|now|]; [by apply Hgo|by apply Hgo|]. cbn.
  split; cbn; [constructor..| |done]. by rewrite list_elem_of_singleton.
Qed.

(** The outputs of the hints stage come from the hints. *)
Lemma emit_records_out o :
  hint_commands (to_storage (emit_records own_run_id all_open o))
    = to_storage (emit_records own_run_id all_open o) /\
  StShutdown ∉ to_storage (emit_records own_run_id all_open o) /\
  signal_commands (to_storage (emit_records own_run_id all_open o)) = [] /\
  to_hints (emit_records own_run_id all_open o) = [] /\
  to_compression (emit_records own_run_id all_open o) = [] /\
  SHintsComplete ∉ to_snapshot (emit_records own_run_id all_open o).
Proof.
  destruct o as [r|]; cbn; rewrite ?list_elem_of_singleton, ?elem_of_nil; naive_solver.
Qed.

Lemma hints_step_out (bn : RecordBuilder (I := I) * nat) env :
  is_signal env = false ->
  let out := (hints_step hints_now own_run_id all_open bn env).2 in
  hint_commands (to_storage out) = to_storage out /\ StShutdown ∉ to_storage out /\
  signal_commands (to_storage out) = [] /\ to_hints out = [] /\ to_compression out = [] /\
  SHintsComplete ∉ to_snapshot out.
Proof.
  intros Hs. destruct (hints_step_build hints_now own_run_id bn env) as (o&->&_).
  cbn [snd]. cbv zeta. routes.
  destruct (emit_records_out o) as (F1&F2&F3&F4&F5&F6).
  rewrite F4, F5. cbn [app]. unfold hint_commands, signal_commands in *.
  rewrite !filter_cons, F1, F3. cbn [from_hints from_envelope]. rewrite Hs.
  rewrite decide_True, decide_False by done. rewrite not_elem_of_cons. done.
Qed.

Lemma hints_end_out (bn : RecordBuilder (I := I) * nat) :
  let out := hints_end hints_now own_run_id all_open bn in
  hint_commands (to_storage out) = to_storage out /\ StShutdown ∉ to_storage out /\
  signal_commands (to_storage out) = [] /\ to_hints out = [] /\ to_compression out = [].
Proof.
  unfold hints_end. destruct (finalize_all _ _ _) as [[b n] o]. cbv zeta.
  destruct (emit_records_out o) as (F1&F2&F3&F4&F5&_).
  unfold send; cbn [snapshot_open all_open]. routes.
  by rewrite !app_nil_r, F1, F3, F4, F5.
Qed.

(** The stages look only at the channels they send to. *)
Lemma hints_step_open open (bn : RecordBuilder (I := I) * nat) env :
  storage_open open = true -> snapshot_open open = true ->
  hints_step hints_now own_run_id open bn env = hints_step hints_now own_run_id all_open bn env.
Proof.
  intros Hst Hsn. unfold hints_step, emit_records, emit_record. by rewrite Hst, Hsn.
Qed.

Lemma hints_end_open open (bn : RecordBuilder (I := I) * nat) :
  storage_open open = true -> snapshot_open open = true ->
  hints_end hints_now own_run_id open bn = hints_end hints_now own_run_id all_open bn.
Proof.
  intros Hst Hsn. unfold hints_end, emit_records, emit_record. by rewrite Hst, Hsn.
Qed.

Lemma compression_step_out open s cmd t1 t2 :
  let out := (compression_step persist_raw_events open s cmd t1 t2).1.2 in
  Forall neutral (to_storage out) /\ to_hints out = [] /\ to_compression out = [] /\
  to_snapshot out = [].
Proof.
  assert (forall sup events ok, let out := send_raw ok sup events in
    Forall neutral (to_storage out) /\ to_hints out = [] /\ to_compression out = [] /\
    to_snapshot out = []) as Hraw.
  { intros sup events ok. cbv zeta. induction events as [|e events (I1&I2&I3&I4)];
      [by repeat constructor|]. cbn [send_raw]. destruct (should_store sup e); [|done].
    destruct ok; [|by repeat constructor]. routes. rewrite I2, I3, I4.
    repeat split; [|done..]. constructor; [done|]. exact I1. }
  unfold compression_step. destruct cmd as [batch envs|].
  - destruct (rb_events batch) as [|e0 raw0]; [by repeat constructor|].
    destruct (compress_events _ _) as [g [processed compact]].
    destruct (rollup_maybe_flush _ t1 t2) as [ro reports]. cbn [fst snd]. cbv zeta. routes.
    set (compact' := if persist_raw_events then compact else clear_raw_event_refs compact).
    set (raw_out := if persist_raw_events then _ else _).
    assert (Forall neutral (to_storage raw_out) /\ to_hints raw_out = [] /\
      to_compression raw_out = [] /\ to_snapshot raw_out = []) as (R1&R2&R3&R4).
    { subst raw_out. destruct persist_raw_events; [|by repeat constructor].
      unfold forward_raw_events. destruct processed; [by repeat constructor|apply Hraw]. }
    rewrite R2, R3, R4, Forall_app. unfold forward_compact_events, send.
    destruct compact', (storage_open open); repeat split; try done; by repeat constructor.
  - destruct (rollup_flush _) as [ro reports]. by repeat constructor.
Qed.

Lemma compression_step_closed open s cmd t1 t2 :
  storage_open open = false ->
  to_storage (compression_step persist_raw_events open s cmd t1 t2).1.2 = [].
Proof.
  intros Ho. unfold compression_step. destruct cmd as [batch envs|]; [|by destruct (rollup_flush _)].
  destruct (rb_events batch) as [|e0 raw0]; [done|].
  destruct (compress_events _ _) as [g [processed compact]].
  destruct (rollup_maybe_flush _ t1 t2) as [ro reports]. cbn [fst snd].
  assert (forall sup events, send_raw false sup events = []) as Hraw.
  { intros sup events. induction events as [|e events IH]; [done|]. cbn.
    by destruct (should_store sup e). }
  unfold forward_compact_events, forward_raw_events, send. rewrite Ho.
  set (compact' := if persist_raw_events then compact else _).
  destruct compact'; destruct persist_raw_events; try done;
    destruct processed; rewrite ?Hraw; done.
Qed.

(** The snapshot stage sends transitions, and [Shutdown] when it ends. *)
Lemma snapshot_step_out s n msg :
  ss_sent s = false ->
  let '(s', _, out, done) := snapshot_step snapshot_now metrics cfg s n msg in
  ss_sent s' = done /\ (done = true -> out = [StShutdown]) /\
  (done = false -> Forall neutral out) /\
  (ss_hints_complete s' = true -> ss_hints_complete s = true \/ msg = SHintsComplete) /\
  (done = true -> ss_hints_complete s' = true).
Proof.
  intros Hs. pose proof (snapshot_step_spec snapshot_now metrics cfg s n msg Hs) as Hst.
  destruct (snapshot_step _ _ _ s n msg) as [[[s' n'] out] done].
  destruct Hst as (Hd&Hsent&_&Hsd&Hhc&Hout&_). split; [done|].
  split; [|split; [|split]].
  - intros ->. rewrite Hout. destruct msg as [[]| | | |]; done.
  - intros ->. rewrite Hout, app_nil_r. apply Forall_map, Forall_map, Forall_true. done.
  - rewrite Hhc. destruct msg; auto.
  - intros ->. rewrite Hhc. destruct msg; try done; symmetry in Hd;
      apply andb_true_iff in Hd as [? ?]; done.
Qed.

(** ** The invariant of the pipeline *)
Lemma shutdown_in_dec (l : list StorageCommand) : StShutdown ∈ l \/ StShutdown ∉ l.
Proof.
  induction l as [|c l [IH|IH]]; [right; apply not_elem_of_nil|left; by right|].
  destruct c; try (right; rewrite not_elem_of_cons; by split). left. by left.
Qed.

Lemma committed_neutral l k :
  Forall neutral k ->
  signal_commands (committed (l ++ k)) = signal_commands (committed l) /\
  hint_commands (committed (l ++ k)) = hint_commands (committed l).
Proof.
  intros Hk. destruct (neutral_commands k Hk) as (K1&K2&K3).
  destruct (shutdown_in_dec l) as [Hl|Hl]; [by rewrite committed_stop|].
  rewrite committed_app, (committed_nil k), (committed_nil l) by done.
  unfold signal_commands, hint_commands in *. rewrite !filter_app, K1, K2, !app_nil_r. done.
Qed.

Lemma committed_shutdown l : committed (l ++ [StShutdown]) = committed l.
Proof.
  destruct (shutdown_in_dec l) as [Hl|Hl]; [by apply committed_stop|].
  rewrite committed_app, (committed_nil l) by done. apply app_nil_r.
Qed.

(** What storage has received or will, and what is still to come. *)
Definition log (p : net) : list StorageCommand := committed (n_stored p ++ n_storage p).

Definition env_rest (p : net) : list output :=
  if envelope_done p then [] else env_outputs (st_envelope p) (n_derive p ++ n_feed p).

Definition hints_work (p : net) : list StorageCommand :=
  if hints_done p then []
  else to_storage (hints_outputs (st_hints p) (n_hints p ++ to_hints (env_rest p))).

Record inv (S0 H0 : list StorageCommand) (p : net) : Prop := {
  i_signals : signal_commands (log p) ++ to_storage (env_rest p) = S0;
  i_hints : hint_commands (log p) ++ hints_work p = H0;
  i_queue : Forall (fun e => is_signal e = false) (n_hints p);
  i_hints_done : hints_done p = true -> envelope_done p = true;
  i_complete : SHintsComplete ∈ n_snapshot p \/ ss_hints_complete (st_snapshot p).1 = true ->
    hints_done p = true;
  i_snapshot : snapshot_done p = true -> hints_done p = true;
  i_sent : snapshot_done p = false -> ss_sent (st_snapshot p).1 = false;
  i_stop : StShutdown ∈ n_storage p -> snapshot_done p = true;
  i_storage : storage_done p = true -> snapshot_done p = true /\ n_storage p = [];
  i_stored : StShutdown ∉ n_stored p;
  i_compression : compression_done p = true -> envelope_done p = true;
  i_cstop : CShutdown ∈ n_compression p -> envelope_done p = true;
  i_crun : compression_done p = false -> cp_running (st_compression p).1 = true
}.

Section invariant.
Context (S0 H0 : list StorageCommand).

(** Before the hints are complete, nobody downstream has left. *)
Lemma inv_open_hints p :
  inv S0 H0 p -> hints_done p = false ->
  snapshot_done p = false /\ storage_done p = false /\
  StShutdown ∉ n_stored p ++ n_storage p.
Proof.
  intros Hp Hd. destruct (snapshot_done p) eqn:Hsn; [by rewrite (i_snapshot _ _ _ Hp) in Hd|].
  split; [done|]. split.
  - destruct (storage_done p) eqn:Hst; [|done].
    destruct (i_storage _ _ _ Hp Hst) as [Hx _]. congruence.
  - rewrite not_elem_of_app. split; [apply (i_stored _ _ _ Hp)|].
    intros Hin. rewrite (i_stop _ _ _ Hp Hin) in Hsn. done.
Qed.

Lemma inv_open_envelope p :
  inv S0 H0 p -> envelope_done p = false ->
  hints_done p = false /\ channels p = all_open.
Proof.
  intros Hp Hd. destruct (hints_done p) eqn:Hh; [by rewrite (i_hints_done _ _ _ Hp) in Hd|].
  split; [done|]. destruct (inv_open_hints p Hp Hh) as (Hsn&Hst&_).
  unfold channels. rewrite Hh, Hsn, Hst.
  destruct (compression_done p) eqn:Hc; [by rewrite (i_compression _ _ _ Hp) in Hd|done].
Qed.

Lemma log_deliver p out :
  StShutdown ∉ n_stored p ++ n_storage p -> StShutdown ∉ to_storage out ->
  log (deliver p out) = log p ++ to_storage out.
Proof.
  intros Hl Ho. unfold log. cbn [deliver n_stored n_storage].
  rewrite (assoc_L (++)), committed_app, (committed_nil (to_storage out)), (committed_nil (_ ++ _))
    by done. done.
Qed.

Lemma signal_only_commands l :
  Forall signal_only l -> signal_commands l = l /\ hint_commands l = [] /\ StShutdown ∉ l.
Proof.
  unfold signal_commands, hint_commands.
  induction 1 as [|c l Hc Hl (IH1&IH2&IH3)]; [split; [done|split; [done|apply not_elem_of_nil]]|].
  unfold signal_only in Hc. rewrite !filter_cons, Hc, decide_True by done.
  destruct c as [| |e| | |]; try done. cbn in Hc |- *. rewrite Hc. cbn [negb].
  rewrite decide_False, IH1, IH2 by done. split; [done|]. split; [done|].
  rewrite not_elem_of_cons. by split.
Qed.

Lemma signal_commands_app l k : signal_commands (l ++ k) = signal_commands l ++ signal_commands k.
Proof. apply filter_app. Qed.
Lemma hint_commands_app l k : hint_commands (l ++ k) = hint_commands l ++ hint_commands k.
Proof. apply filter_app. Qed.

Lemma inv_ingest p q : inv S0 H0 p -> ingest_net p = Some q -> inv S0 H0 q.
Proof.
  intros Hp. unfold ingest_net. destruct (n_feed p) as [|c feed] eqn:Hf; [done|].
  intros [= <-].
  set (q := {| n_feed := feed |}).
  assert (env_rest q = env_rest p) as Hrest.
  { unfold env_rest. subst q. cbn. rewrite Hf. destruct (envelope_done p); [done|].
    by rewrite <- (assoc_L (++)). }
  destruct Hp. split; try done.
  - change (log q) with (log p). by rewrite Hrest.
  - change (log q) with (log p). unfold hints_work in *. rewrite Hrest. done.
Qed.

Lemma inv_envelope p q : inv S0 H0 p -> envelope_net p = Some q -> inv S0 H0 q.
Proof.
  intros Hp. unfold envelope_net. destruct (envelope_done p) eqn:Hd; [done|].
  destruct (inv_open_envelope p Hp Hd) as [Hh Hopen].
  destruct (inv_open_hints p Hp Hh) as (Hsn&Hst&Hno). rewrite Hopen.
  destruct (n_derive p) as [|cmd q0] eqn:Hq.
  - destruct (n_feed p) eqn:Hf; [|done]. intros [= <-].
    set (q := set_envelope _ _ _ _).
    assert (env_rest p = []) as Hrest by (unfold env_rest; by rewrite Hd, Hq, Hf).
    destruct Hp as [P1 P2]. rewrite Hrest in P1. unfold hints_work in P2. rewrite Hh, Hrest in P2.
    split; try done.
    unfold hints_work. cbn. by rewrite Hh.
  - pose proof (envelope_step_out (st_envelope p) cmd) as Hout. cbv zeta in Hout.
    destruct (envelope_step (st_envelope p) all_open cmd) as [s out] eqn:Hstep.
    cbn [fst snd] in Hout. intros [= <-]. set (p1 := set_envelope p _ s _).
    destruct Hout as [O1 O2 O3 O4]. destruct (signal_only_commands _ O1) as (C1&C2&C3).
    assert (env_rest p = out ++ env_rest (deliver p1 out)) as Hrest.
    { unfold env_rest. rewrite Hd, Hq. cbn [app env_outputs]. rewrite Hstep.
      subst p1. cbn. by destruct (es_running s). }
    assert (log (deliver p1 out) = log p ++ to_storage out) as Hlog
      by (exact (log_deliver p1 out Hno C3)).
    destruct Hp as [P1 P2 P3 P4 P5 P6 P7 P8 P9 P10 P11 P12 P13].
    split; try done; cbn [deliver p1 set_envelope n_hints n_snapshot n_storage n_compression
      hints_done snapshot_done storage_done envelope_done compression_done st_snapshot].
    + rewrite Hlog, signal_commands_app, C1, <- (assoc_L (++)).
      rewrite <- to_storage_app, <- Hrest. exact P1.
    + rewrite Hlog, hint_commands_app, C2, app_nil_r. unfold hints_work in *.
      cbn [deliver p1 set_envelope hints_done n_hints st_hints]. rewrite Hh in *.
      rewrite <- (assoc_L (++)), <- to_hints_app, <- Hrest. exact P2.
    + by apply Forall_app.
    + congruence.
    + intros [Hin|Hc]; [|by apply P5; right].
      apply elem_of_app in Hin as [Hin|Hin]; [by apply P5; left|done].
    + intros Hin. apply elem_of_app in Hin as [Hin|Hin]; [by apply P8|done].
    + congruence.
    + intros Hc. rewrite (P11 Hc) in Hd. done.
    + intros Hin. apply elem_of_app in Hin as [Hin|Hin]; [by rewrite (P12 Hin) in Hd|by apply O4].
Qed.

Lemma hints_outputs_cons bn e l :
  hints_outputs bn (e :: l) =
    (hints_step hints_now own_run_id all_open bn e).2 ++
    hints_outputs (hints_step hints_now own_run_id all_open bn e).1 l.
Proof.
  unfold hints_outputs. rewrite run_list_cons.
  destruct (run_list _ _ l) as [bn' out]. cbn [fst snd]. by rewrite (assoc_L (++)).
Qed.

Lemma inv_hints p q : inv S0 H0 p -> hints_net p = Some q -> inv S0 H0 q.
Proof.
  intros Hp. unfold hints_net. destruct (hints_done p) eqn:Hh; [done|].
  destruct (inv_open_hints p Hp Hh) as (Hsn&Hst&Hno).
  assert (storage_open (channels p) = true /\ snapshot_open (channels p) = true) as [Hso Hsno]
    by (cbn; by rewrite Hst, Hsn).
  destruct Hp as [P1 P2 P3 P4 P5 P6 P7 P8 P9 P10 P11 P12 P13].
  destruct (n_hints p) as [|env q0] eqn:Hq.
  - destruct (envelope_done p) eqn:Hd; [|done]. intros [= <-].
    rewrite (hints_end_open _ _ Hso Hsno).
    destruct (hints_end_out (st_hints p)) as (O1&O2&O3&O4&O5). cbv zeta in *.
    set (out := hints_end _ _ _ _) in *. set (p1 := set_hints p [] _ true).
    pose proof (log_deliver p1 out Hno O2) as Hlog.
    assert (env_rest p = []) as Hr by (unfold env_rest; by rewrite Hd).
    unfold hints_work in P2. rewrite Hh, Hq, Hr in P2. cbn in P2.
    split; cbn [deliver p1 set_hints n_hints n_snapshot n_storage n_compression
      hints_done snapshot_done storage_done envelope_done compression_done st_snapshot
      n_stored st_compression]; try done.
    + rewrite Hlog, signal_commands_app, O3, app_nil_r. exact P1.
    + rewrite Hlog, hint_commands_app, O1. unfold hints_work. cbn. by rewrite app_nil_r.
    + by rewrite O4.
    + intros Hin. apply elem_of_app in Hin as [Hin|Hin]; [by apply P8|done].
    + congruence.
  - apply Forall_cons in P3 as [He P3].
    rewrite (hints_step_open _ _ _ Hso Hsno).
    destruct (hints_step_out (st_hints p) env He) as (O1&O2&O3&O4&O5&O6). cbv zeta in *.
    pose proof (hints_outputs_cons (st_hints p) env (q0 ++ to_hints (env_rest p))) as Hcons.
    destruct (hints_step _ _ _ (st_hints p) env) as [bn out]. cbn [fst snd] in *.
    intros [= <-]. set (p1 := set_hints p q0 bn false).
    pose proof (log_deliver p1 out Hno O2) as Hlog.
    unfold hints_work in P2. rewrite Hh, Hq in P2. cbn [app] in P2.
    rewrite Hcons, to_storage_app in P2.
    split; cbn [deliver p1 set_hints n_hints n_snapshot n_storage n_compression
      hints_done snapshot_done storage_done envelope_done compression_done st_snapshot
      n_stored st_compression]; try done.
    + rewrite Hlog, signal_commands_app, O3, app_nil_r. exact P1.
    + rewrite Hlog, hint_commands_app, O1, <- (assoc_L (++)). unfold hints_work.
      cbn [deliver p1 set_hints hints_done st_hints n_hints]. rewrite O4, app_nil_r. exact P2.
    + by rewrite O4, app_nil_r.
    + intros [Hin|Hc]; [|rewrite P5 in Hh; auto].
      apply elem_of_app in Hin as [Hin|Hin]; [rewrite P5 in Hh; auto|done].
    + congruence.
    + intros Hin. apply elem_of_app in Hin as [Hin|Hin]; [by apply P8|done].
    + congruence.
    + rewrite O5, app_nil_r. exact P12.
Qed.

(** Sends that concern neither the signals nor the hints. *)
Lemma log_neutral p out :
  Forall neutral (to_storage out) ->
  signal_commands (log (deliver p out)) = signal_commands (log p) /\
  hint_commands (log (deliver p out)) = hint_commands (log p).
Proof.
  intros Hn. unfold log. cbn [deliver n_stored n_storage]. rewrite (assoc_L (++)).
  by apply committed_neutral.
Qed.

Lemma inv_compression p q : inv S0 H0 p -> compression_net p = Some q -> inv S0 H0 q.
Proof.
  intros Hp. unfold compression_net. destruct (compression_done p) eqn:Hd; [done|].
  pose proof (i_crun _ _ _ Hp Hd) as Hrun.
  destruct (st_compression p) as [s n] eqn:Hs. cbn [fst] in Hrun.
  destruct (n_compression p) as [|cmd q0] eqn:Hq.
  - destruct (envelope_done p) eqn:He; [|done]. intros [= <-].
    destruct Hp. split; done.
  - pose proof (compression_step_out (channels p) s cmd (mono_now n) (mono_now (S n))) as Ho.
    assert (cmd <> CShutdown -> cp_running (compression_step persist_raw_events (channels p) s cmd
      (mono_now n) (mono_now (S n))).1.1 = true) as Hkeep.
    { destruct cmd as [batch envs|]; [|done]. intros _. unfold compression_step.
      destruct (rb_events batch) as [|e0 raw0]; [done|].
      destruct (compress_events _ _) as [g [processed compact]].
      by destruct (rollup_maybe_flush _ _ _) as [ro reports]. }
    assert (storage_done p = true ->
      to_storage (compression_step persist_raw_events (channels p) s cmd
        (mono_now n) (mono_now (S n))).1.2 = []) as Hclosed.
    { intros Hst. apply compression_step_closed. cbn. by rewrite Hst. }
    destruct (compression_step _ _ s cmd _ _) as [[s' out] reports].
    cbn [fst snd] in *. destruct Ho as (O1&O2&O3&O4). intros [= <-].
    set (p1 := set_compression p _ _ _).
    destruct (log_neutral p1 out O1) as [L1 L2].
    destruct (neutral_commands _ O1) as (_&_&O5).
    destruct Hp as [P1 P2 P3 P4 P5 P6 P7 P8 P9 P10 P11 P12 P13]. rewrite Hq in P12.
    assert (cp_running s' = false -> envelope_done p = true) as Hstop.
    { intros Hr. apply P12. destruct cmd; [by rewrite Hkeep in Hr|by left]. }
    split; cbn [deliver p1 set_compression n_hints n_snapshot n_storage n_compression
      hints_done snapshot_done storage_done envelope_done compression_done st_snapshot
      n_stored st_compression fst]; try done; rewrite ?O2, ?O3, ?O4, ?app_nil_r; try done.
    + rewrite L1. exact P1.
    + rewrite L2. unfold hints_work in *. cbn [deliver p1 set_compression hints_done n_hints].
      rewrite O2, app_nil_r. exact P2.
    + intros Hin. apply elem_of_app in Hin as [Hin|Hin]; [by apply P8|done].
    + intros Hst. destruct (P9 Hst) as [? Hnil]. split; [done|]. by rewrite Hnil, Hclosed.
    + intros Hr. apply Hstop. by destruct (cp_running s').
    + intros Hin. destruct (cp_running s') eqn:Hr; [|by apply Hstop].
      apply P12. by right.
    + intros Hr. by destruct (cp_running s').
Qed.

Lemma to_storage_map l : to_storage (map ToStorage l) = l.
Proof. induction l as [|c l IH]; [done|]. cbn [map]. by rewrite to_storage_cons, IH. Qed.

Lemma storage_only l :
  to_hints (map ToStorage l) = [] /\ to_compression (map ToStorage l) = [] /\
  to_snapshot (map ToStorage l) = [].
Proof.
  induction l as [|c l (IH1&IH2&IH3)]; [done|]. cbn [map]. routes. by rewrite IH1, IH2, IH3.
Qed.

(** A snapshot step: a neutral send, or the stop of storage once the hints are complete. *)
Lemma inv_snapshot_send p q s n out done :
  inv S0 H0 p -> snapshot_done p = false -> hints_done p = true \/ done = false ->
  ss_sent s = done -> (done = true -> out = [StShutdown]) -> (done = false -> Forall neutral out) ->
  (SHintsComplete ∈ q \/ ss_hints_complete s = true -> hints_done p = true) ->
  inv S0 H0 (deliver (set_snapshot p (if done then [] else q) (s, n) done) (storage_sends p out)).
Proof.
  intros Hp Hd Hready Hsent Hstop Hneut Hcomp.
  assert (storage_done p = false) as Hst.
  { destruct (storage_done p) eqn:Hst; [|done].
    destruct (i_storage _ _ _ Hp Hst) as [Hx _]. congruence. }
  unfold storage_sends. rewrite Hst. destruct (storage_only out) as (R1&R2&R3).
  set (p1 := set_snapshot p _ _ _).
  assert (signal_commands (log (deliver p1 (map ToStorage out))) = signal_commands (log p) /\
    hint_commands (log (deliver p1 (map ToStorage out))) = hint_commands (log p)) as [L1 L2].
  { destruct done.
    - rewrite (Hstop eq_refl). unfold log. cbn [deliver n_stored n_storage p1 set_snapshot].
      by rewrite to_storage_map, (assoc_L (++)), committed_shutdown.
    - apply (log_neutral p1). rewrite to_storage_map. by apply Hneut. }
  destruct Hp as [P1 P2 P3 P4 P5 P6 P7 P8 P9 P10 P11 P12 P13].
  split; cbn [deliver p1 set_snapshot n_hints n_snapshot n_storage n_compression
    hints_done snapshot_done storage_done envelope_done compression_done st_snapshot
    n_stored st_compression fst]; try done; rewrite ?R1, ?R2, ?R3, ?app_nil_r; try done.
  - rewrite L1. exact P1.
  - rewrite L2. unfold hints_work in *. cbn [deliver p1 set_snapshot hints_done n_hints].
    rewrite R1, app_nil_r. exact P2.
  - intros [Hin|Hc]; [|by apply Hcomp; right].
    destruct done; [by apply elem_of_nil in Hin|]. apply Hcomp. by left.
  - intros ->. by destruct Hready.
  - congruence.
  - rewrite to_storage_map. intros Hin. apply elem_of_app in Hin as [Hin|Hin].
    + by rewrite (P8 Hin) in Hd.
    + destruct done; [done|]. destruct (neutral_commands _ (Hneut eq_refl)) as (_&_&?). done.
  - congruence.
Qed.

Lemma inv_snapshot p q : inv S0 H0 p -> snapshot_net p = Some q -> inv S0 H0 q.
Proof.
  intros Hp. unfold snapshot_net. destruct (snapshot_done p) eqn:Hd; [done|].
  pose proof (i_sent _ _ _ Hp Hd) as Hs. pose proof (i_complete _ _ _ Hp) as Hc.
  destruct (st_snapshot p) as [s n] eqn:Hst. cbn [fst] in *.
  destruct (n_snapshot p) as [|msg q0] eqn:Hq.
  - destruct (envelope_done p) eqn:He, (hints_done p) eqn:Hh; try done. cbn [andb].
    pose proof (maybe_finalize_spec snapshot_now metrics cfg s n true true Hs) as Hf.
    destruct (maybe_finalize _ _ _ _ _ s n) as [[[s' n'] out] done].
    destruct Hf as (->&Hs'&_&_&_&->&_). cbn [andb] in *. intros [= <-].
    apply (inv_snapshot_send p [] s' n' [StShutdown] true); auto; done.
  - pose proof (snapshot_step_out s n msg Hs) as Hf.
    destruct (snapshot_step _ _ _ s n msg) as [[[s' n'] out] done].
    destruct Hf as (F1&F2&F3&F4&F5). intros [= <-].
    assert (ss_hints_complete s' = true -> hints_done p = true) as Hsc.
    { intros Hx. apply Hc. destruct (F4 Hx) as [?| ->]; [by right|left; by left]. }
    apply inv_snapshot_send; auto.
    + destruct done; [left; auto|by right].
    + intros [Hin|Hx]; [|by auto]. apply Hc. left. by right.
Qed.

Lemma inv_storage p q : inv S0 H0 p -> storage_net p = Some q -> inv S0 H0 q.
Proof.
  intros Hp. unfold storage_net. destruct (storage_done p) eqn:Hd; [done|].
  pose proof (i_stored _ _ _ Hp) as Hno.
  assert (forall stored done rest, n_stored p ++ n_storage p = stored ++ rest ->
    StShutdown ∉ stored -> (done = true -> snapshot_done p = true) ->
    (done = true -> committed (stored ++ rest) = stored) ->
    (StShutdown ∈ (if done then [] else rest) -> snapshot_done p = true) ->
    inv S0 H0 (set_storage p (if done : bool then [] else rest) stored done)) as Hgo.
  { intros stored done rest Heq Hns Hsn Hcom Hin.
    assert (log (set_storage p (if done then [] else rest) stored done) = log p) as Hlog.
    { unfold log. cbn [set_storage n_stored n_storage]. rewrite Heq.
      destruct done; [|done]. rewrite (Hcom eq_refl), app_nil_r. by apply committed_nil. }
    destruct Hp as [P1 P2 P3 P4 P5 P6 P7 P8 P9 P10 P11 P12 P13].
    split; cbn [set_storage n_hints n_snapshot n_storage n_compression
      hints_done snapshot_done storage_done envelope_done compression_done st_snapshot
      n_stored st_compression]; try done.
    - rewrite Hlog. exact P1.
    - rewrite Hlog. exact P2.
    - intros ->. auto. }
  destruct (n_storage p) as [|c q0] eqn:Hq.
  - destruct (envelope_done p && hints_done p && compression_done p && snapshot_done p) eqn:Hall;
      [|done]. intros [= <-].
    apply (Hgo (n_stored p) true []); auto.
    + intros _. by apply andb_true_iff in Hall as [_ ?].
    + intros _. rewrite app_nil_r. by apply committed_nil.
    + by intros ?%elem_of_nil.
  - assert (c = StShutdown \/ c <> StShutdown) as [->|Hc] by (destruct c; auto; by right).
    + intros [= <-]. apply (Hgo (n_stored p) true (StShutdown :: q0)); auto.
      * intros _. apply (i_stop _ _ _ Hp). rewrite Hq. by left.
      * intros _. rewrite committed_app by done. by rewrite app_nil_r.
      * by intros ?%elem_of_nil.
    + intros Hs. assert (q = set_storage p q0 (n_stored p ++ [c]) false) as ->
        by (destruct c; try done; by simplify_eq).
      apply (Hgo (n_stored p ++ [c]) false q0); try done.
      * by rewrite <- (assoc_L (++)).
      * rewrite not_elem_of_app, list_elem_of_singleton. naive_solver.
      * intros Hin. apply (i_stop _ _ _ Hp). rewrite Hq. by right.
Qed.

Lemma inv_run p q : inv S0 H0 p -> reachable p q -> inv S0 H0 q.
Proof.
  intros Hp [l Hl]. revert p Hp Hl. induction l as [|a l IH]; intros p Hp Hl.
  { by injection Hl as <-. }
  cbn in Hl. destruct (net_step p a) as [p'|] eqn:Ha; [|done].
  apply (IH p'); [|done]. destruct a; cbn in Ha;
    eauto using inv_ingest, inv_envelope, inv_hints, inv_compression, inv_snapshot, inv_storage.
Qed.
End invariant.

Lemma inv_spawn feed env i bus poll cap records transitions :
  let p := spawn_pipeline feed env i bus poll cap records transitions in
  let hints := to_hints (env_outputs env feed) in
  inv (to_storage (env_outputs env feed))
    (to_storage (hints_stage hints_now own_run_id all_open
      (next_record_id_of (bus_run_id bus) (hydrate_recent_records records)) i 0 hints)) p.
Proof.
  cbv zeta. set (p := spawn_pipeline _ _ _ _ _ _ _ _).
  pose proof (publish_spec snapshot_now metrics cfg
    (hydrate (stage_new bus poll (hydrate_recent_records records))
      (hydrate_recent_transitions transitions)) 0) as Hpub.
  destruct (hydrate_spec (stage_new bus poll (hydrate_recent_records records))
    (hydrate_recent_transitions transitions)) as (_&_&_&_&Hs&_&Hh). cbv zeta in *.
  assert (ss_sent (st_snapshot p).1 = false /\ ss_hints_complete (st_snapshot p).1 = false)
    as [Esent Ehc].
  { subst p. cbn [spawn_pipeline st_snapshot].
    destruct (publish_snapshot _ _ _ _ 0) as [s n]. destruct Hpub as (_&_&_&E1&E2).
    cbn [fst]. rewrite E1, E2, Hs, Hh. done. }
  split; try done.
  - intros [Hin|Hc]; [by apply elem_of_nil in Hin|congruence].
  - by intros ?%elem_of_nil.
  - apply not_elem_of_nil.
  - by intros ?%elem_of_nil.
Qed.

(** ** Every schedule ends *)

(** A thread that still runs counts for one message more. *)
Definition queue_size {A} (l : list A) (done : bool) : nat :=
  (length l + if done then 0 else 1)%nat.

(** The work left, the stages in the order of the data. *)
Definition work (p : net) : nat * (nat * (nat * (nat * (nat * nat)))) :=
  (length (n_feed p),
   (queue_size (n_derive p) (envelope_done p),
    (queue_size (n_hints p) (hints_done p),
     (queue_size (n_compression p) (compression_done p),
      (queue_size (n_snapshot p) (snapshot_done p),
       queue_size (n_storage p) (storage_done p)))))).

Definition lex {A B} (R : A -> A -> Prop) (S : B -> B -> Prop) (x y : A * B) : Prop :=
  R x.1 y.1 \/ x.1 = y.1 /\ S x.2 y.2.

Lemma lex_wf {A B} (R : A -> A -> Prop) (S : B -> B -> Prop) :
  well_founded R -> well_founded S -> well_founded (lex R S).
Proof.
  intros HR HS [a b]. revert b. induction (HR a) as [a _ IHa]. intros b.
  induction (HS b) as [b _ IHb]. constructor. intros [a' b'] [Hlt|[Heq Hlt]]; cbn in *.
  - by apply IHa.
  - subst. by apply IHb.
Qed.

Definition less_work : net -> net -> Prop := fun q p =>
  lex lt (lex lt (lex lt (lex lt (lex lt lt)))) (work q) (work p).

Lemma less_work_wf : well_founded less_work.
Proof.
  unfold less_work. apply (Inverse_Image.wf_inverse_image _ _ _ work).
  repeat apply lex_wf; apply lt_wf.
Qed.

Lemma snapshot_less_work p q : snapshot_net p = Some q -> less_work q p.
Proof.
  unfold snapshot_net. destruct (snapshot_done p) eqn:Hd; [done|].
  destruct (st_snapshot p) as [s n].
  assert (forall out, to_hints (storage_sends p out) = [] /\
    to_compression (storage_sends p out) = [] /\ to_snapshot (storage_sends p out) = []) as Hso.
  { intros out. unfold storage_sends. destruct (storage_done p); [done|apply storage_only]. }
  assert (forall l sn done out, (queue_size l done < queue_size (n_snapshot p) false)%nat ->
    less_work (deliver (set_snapshot p l sn done) (storage_sends p out)) p) as Hgo.
  { intros l sn done out Hl. destruct (Hso out) as (R1&R2&R3).
    unfold less_work, work, lex. do 2 (right; split; [done|]).
    cbn [deliver set_snapshot n_hints hints_done n_compression compression_done n_snapshot
      snapshot_done fst snd]. rewrite R1, R2, R3, !app_nil_r, Hd.
    do 2 (right; split; [done|]). left. exact Hl. }
  destruct (n_snapshot p) as [|msg l] eqn:Hq.
  - destruct (envelope_done p && hints_done p); [|done].
    destruct (maybe_finalize _ _ _ _ _ s n) as [[[s' n'] out] done']. intros [= <-].
    apply Hgo. unfold queue_size; cbn; lia.
  - destruct (snapshot_step _ _ _ s n msg) as [[[s' n'] out] done']. intros [= <-].
    apply Hgo. destruct done'; unfold queue_size; cbn; lia.
Qed.

(** The hints stage sends to storage and to the snapshot stage only. *)
Definition downstream (out : list output) : Prop := to_hints out = [] /\ to_compression out = [].

Lemma downstream_app l k : downstream l -> downstream k -> downstream (l ++ k).
Proof. intros [A1 A2] [B1 B2]. split; routes; by rewrite ?A1, ?A2, ?B1, ?B2. Qed.

Lemma send_downstream ok c : downstream (send ok (ToStorage c)).
Proof. by destruct ok. Qed.
Lemma send_snapshot_downstream ok m : downstream (send ok (ToSnapshot m)).
Proof. by destruct ok. Qed.
Lemma emit_downstream open o : downstream (emit_records own_run_id open o).
Proof.
  destruct o; [|done]. apply downstream_app; [apply send_downstream|apply send_snapshot_downstream].
Qed.

Lemma hints_net_sends p q :
  hints_net p = Some q -> n_compression q = n_compression p /\ n_derive q = n_derive p /\
  n_feed q = n_feed p /\ envelope_done q = envelope_done p /\
  (queue_size (n_hints q) (hints_done q) < queue_size (n_hints p) (hints_done p))%nat.
Proof.
  unfold hints_net. destruct (hints_done p) eqn:Hd; [done|].
  destruct (n_hints p) as [|env l] eqn:Hq.
  - destruct (envelope_done p) eqn:Hed; [|done]. intros [= <-].
    assert (downstream (hints_end hints_now own_run_id (channels p) (st_hints p))) as [E1 E2].
    { unfold hints_end. destruct (finalize_all _ _ _) as [[b n] o].
      apply downstream_app; [apply emit_downstream|apply send_snapshot_downstream]. }
    cbn [deliver set_hints n_hints n_compression n_derive n_feed envelope_done hints_done].
    rewrite E1, E2, !app_nil_r. repeat (split; [done|]). unfold queue_size; cbn; lia.
  - assert (downstream (hints_step hints_now own_run_id (channels p) (st_hints p) env).2)
      as [E1 E2].
    { unfold hints_step. destruct (on_hint _ _ _ _) as [[b n] o].
      apply downstream_app; [apply send_downstream|apply emit_downstream]. }
    destruct (hints_step _ _ _ _ _) as [bn out]. cbn [snd] in *. intros [= <-].
    cbn [deliver set_hints n_hints n_compression n_derive n_feed envelope_done hints_done].
    rewrite E1, E2, !app_nil_r. repeat (split; [done|]). unfold queue_size; cbn; lia.
Qed.

Lemma compression_net_sends p q :
  compression_net p = Some q -> n_hints q = n_hints p /\ n_derive q = n_derive p /\
  n_feed q = n_feed p /\ envelope_done q = envelope_done p /\ hints_done q = hints_done p /\
  (queue_size (n_compression q) (compression_done q)
    < queue_size (n_compression p) (compression_done p))%nat.
Proof.
  unfold compression_net. destruct (compression_done p) eqn:Hd; [done|].
  destruct (st_compression p) as [s n]. destruct (n_compression p) as [|cmd l] eqn:Hq.
  - destruct (envelope_done p) eqn:Hed; [|done]. intros [= <-].
    repeat (split; [done|]); unfold queue_size; cbn; lia.
  - pose proof (compression_step_out (channels p) s cmd (mono_now n) (mono_now (S n)))
      as (_&Oh&Oc&_).
    destruct (compression_step _ _ _ _ _ _) as [[s' out] reports]. cbn [fst snd] in *.
    intros [= <-]. cbn [deliver set_compression n_hints n_compression n_derive
      n_feed envelope_done hints_done compression_done]. rewrite Oh, Oc, !app_nil_r.
    repeat (split; [done|]). destruct (cp_running s'); unfold queue_size; cbn; lia.
Qed.

Lemma envelope_net_sends p q :
  envelope_net p = Some q -> n_feed q = n_feed p /\
  (queue_size (n_derive q) (envelope_done q) < queue_size (n_derive p) (envelope_done p))%nat.
Proof.
  unfold envelope_net. destruct (envelope_done p) eqn:Hd; [done|].
  destruct (n_derive p) as [|cmd l] eqn:Hq.
  - destruct (n_feed p) eqn:Hf; [|done]. intros [= <-].
    split; [done|]. unfold queue_size; cbn; lia.
  - destruct (envelope_step _ _ _) as [s out]. intros [= <-]. split; [done|]. cbn.
    destruct (es_running s); unfold queue_size; cbn; lia.
Qed.

Lemma step_less_work p a q : net_step p a = Some q -> less_work q p.
Proof.
  destruct a; cbn [net_step]; intros Hs.
  - unfold ingest_net in Hs. destruct (n_feed p) eqn:Hf; [done|]. injection Hs as <-.
    unfold less_work, work, lex. cbn. left. rewrite Hf. cbn. lia.
  - apply envelope_net_sends in Hs as (E1&Hlt). unfold less_work, work, lex. cbn.
    right. split; [by rewrite E1|]. by left.
  - apply hints_net_sends in Hs as (E1&E2&E3&E4&Hlt). unfold less_work, work, lex. cbn.
    right. split; [by rewrite E3|]. right. split; [by rewrite E2, E4|]. by left.
  - apply compression_net_sends in Hs as (E1&E2&E3&E4&E5&Hlt). unfold less_work, work, lex. cbn.
    right. split; [by rewrite E3|]. right. split; [by rewrite E2, E4|].
    right. split; [by rewrite E1, E5|]. by left.
  - exact (snapshot_less_work p q Hs).
  - unfold storage_net in Hs. destruct (storage_done p) eqn:Hd; [done|].
    destruct (n_storage p) as [|c l] eqn:Hq.
    + destruct (_ && _ && _ && _); [|done]. injection Hs as <-.
      unfold less_work, work, lex. rewrite Hd, Hq.
      do 5 (right; split; [done|]). cbn. lia.
    + assert (exists stored done, q = set_storage p (if done : bool then [] else l) stored done)
        as (stored&done'&->).
      { destruct c; injection Hs as <-; first [by exists (n_stored p), true|by eexists _, false]. }
      unfold less_work, work, lex. rewrite Hd, Hq. do 5 (right; split; [done|]).
      destruct done'; unfold queue_size; cbn; lia.
Qed.

(** ** Theorems *)

(** When the storage stage has ended, all that is to be stored has been handed over. *)
Lemma done_stored S0 H0 q : inv S0 H0 q -> storage_done q = true ->
  signal_commands (n_stored q) = S0 /\ hint_commands (n_stored q) = H0.
Proof.
  intros Hq Hdone. destruct (i_storage _ _ _ Hq Hdone) as [Hsn Hnil].
  pose proof (i_snapshot _ _ _ Hq Hsn) as Hh. pose proof (i_hints_done _ _ _ Hq Hh) as He.
  assert (log q = n_stored q) as Hlog.
  { unfold log. rewrite Hnil, app_nil_r. apply committed_nil, (i_stored _ _ _ Hq). }
  destruct Hq as [P1 P2]. rewrite Hlog in P1, P2. unfold env_rest, hints_work in P1, P2.
  rewrite He in P1. rewrite Hh in P2. cbn in P1. rewrite app_nil_r in P1, P2. by split.
Qed.

(** C1: a shutdown loses no history, whatever the interleaving of the stages: once the
    storage stage has ended, the backend has received every signal of the envelope
    stage, in order, and everything the hints stage makes of the hints, in order: each
    hint and every record, the final one included.  What the two stages send is a
    function of the commands of ingest alone. *)
Theorem pipeline_keeps_history feed env i bus poll cap records transitions q :
  reachable (spawn_pipeline feed env i bus poll cap records transitions) q ->
  storage_done q = true ->
  let sent := env_outputs env feed in
  let next := next_record_id_of (bus_run_id bus) (hydrate_recent_records records) in
  signal_commands (n_stored q) = to_storage sent /\
  hint_commands (n_stored q)
    = to_storage (hints_stage hints_now own_run_id all_open next i 0 (to_hints sent)).
Proof.
  intros Hreach Hdone. eapply done_stored, Hdone. eapply inv_run, Hreach. apply inv_spawn.
Qed.

(** C16: the pipeline always comes to its end: no schedule goes on for ever, and as long
    as a stage still runs some actor can move; so every schedule that cannot be continued
    ends with all stages, storage included, at their end. *)
Theorem pipeline_terminates :
  well_founded (fun q p => exists a, net_step p a = Some q) /\
  forall p, (exists a q, net_step p a = Some q) \/
    envelope_done p = true /\ hints_done p = true /\ compression_done p = true /\
    snapshot_done p = true /\ storage_done p = true.
Proof.
  split.
  - intros p. induction (less_work_wf p) as [p _ IH]. constructor. intros q [a Ha].
    by eapply IH, step_less_work.
  - intros p. assert (forall o : option net, is_Some o \/ o = None) as Hdec
      by (intros [o|]; [left; by eexists|by right]).
    assert (forall a, (exists q, net_step p a = Some q) \/ net_step p a = None) as Hstep
      by (intros a; destruct (Hdec (net_step p a)) as [[q Hq]|]; eauto).
    destruct (Hstep AIngest) as [|Hi]; [by left; exists AIngest|].
    destruct (Hstep AEnvelope) as [|He]; [by left; exists AEnvelope|].
    destruct (Hstep AHints) as [|Hh]; [by left; exists AHints|].
    destruct (Hstep ACompression) as [|Hc]; [by left; exists ACompression|].
    destruct (Hstep ASnapshot) as [|Hs]; [by left; exists ASnapshot|].
    destruct (Hstep AStorage) as [|Hst]; [by left; exists AStorage|]. right.
    cbn [net_step] in *. unfold ingest_net in Hi. destruct (n_feed p) eqn:Hf; [|done].
    assert (envelope_done p = true) as Hed.
    { unfold envelope_net in He. destruct (envelope_done p); [done|].
      rewrite Hf in He. destruct (n_derive p); [done|]. by destruct (envelope_step _ _ _). }
    assert (hints_done p = true) as Hhd.
    { unfold hints_net in Hh. destruct (hints_done p); [done|]. rewrite Hed in Hh.
      destruct (n_hints p); [done|]. by destruct (hints_step _ _ _ _ _). }
    assert (compression_done p = true) as Hcd.
    { unfold compression_net in Hc. destruct (compression_done p); [done|]. rewrite Hed in Hc.
      destruct (st_compression p), (n_compression p); [done|].
      by destruct (compression_step _ _ _ _ _ _) as [[] ?]. }
    assert (snapshot_done p = true) as Hsd.
    { unfold snapshot_net in Hs. destruct (snapshot_done p); [done|]. rewrite Hed, Hhd in Hs.
      destruct (st_snapshot p) as [s n], (n_snapshot p).
      - by destruct (maybe_finalize _ _ _ _ _ _ _) as [[[] ?] ?].
      - by destruct (snapshot_step _ _ _ _ _ _) as [[[] ?] ?]. }
    unfold storage_net in Hst. destruct (storage_done p); [done|].
    rewrite Hed, Hhd, Hcd, Hsd in Hst. destruct (n_storage p) as [|[] ]; done.
Qed.
End pipeline.

(** ** A session, and the shutdown race *)

(** A key press, then the end of ingest, on a fresh pipeline. *)
Definition demo_feed : list DeriveCommand := [DBatch Envelope.demo_batch; DShutdown].
Definition demo_metrics (n : nat) : StorageInfo := {| backlog_count := 0; last_flush_at := None |}.
Definition demo_clock (n : nat) : instant := secs (Z.of_nat n).
Definition demo_net :=
  @spawn_pipeline chrono_ref hash_order_id unicode_ascii DefaultStateEngine.state
    (StringInterner.StringInterner * StringInterner.arc_heap) demo_clock Z.of_nat demo_metrics
    demo_cfg demo_feed Envelope.demo_stage demo_interner (bus_new 0) 0 4096 None None.
Definition demo_run (l : list actor) :=
  @net_run chrono_ref hash_order_id unicode_ascii sizes_ref _
    (@DefaultStateEngine.engine_class chrono_ref) _ _ Z.of_nat demo_clock
    Z.of_nat demo_metrics demo_cfg false None demo_net l.

Definition is_compact (c : StorageCommand) : bool :=
  match c with StCompactEvents _ => true | _ => false end.
Definition compacts (l : list StorageCommand) : list StorageCommand :=
  filter (fun c => is_compact c = true) l.

(** The compression stage first, or last. *)
Definition upstream : list actor :=
  [AIngest; AIngest; AEnvelope; AEnvelope; AHints; AHints].
Definition compression_first : list actor :=
  upstream ++ [ACompression; ACompression] ++ replicate 5 ASnapshot ++ replicate 6 AStorage.
Definition compression_last : list actor :=
  upstream ++ replicate 5 ASnapshot ++ replicate 5 AStorage ++ [ACompression; ACompression].

Lemma demo_compression_first :
  option_map (fun q => (storage_done q, compression_done q, length (compacts (n_stored q))))
    (demo_run compression_first) = Some (true, true, 1%nat).
Proof. vm_compute. reflexivity. Qed.

Lemma demo_compression_last :
  option_map (fun q => (storage_done q, compression_done q, length (compacts (n_stored q))))
    (demo_run compression_last) = Some (true, true, 0%nat).
Proof. vm_compute. reflexivity. Qed.

(** The shutdown does not wait for the compression stage: the same session can end
    with the compact events of its last batch stored, or, when the compression stage is
    the slower one, without them; both schedules run all stages to their end, and no
    command is refused with an error the pipeline acts on. *)
Theorem shutdown_race_loses_compact :
  exists q1 q2, demo_run compression_first = Some q1 /\ demo_run compression_last = Some q2 /\
    storage_done q1 = true /\ compression_done q1 = true /\
    storage_done q2 = true /\ compression_done q2 = true /\
    length (compacts (n_stored q1)) = 1%nat /\ compacts (n_stored q2) = [].
Proof.
  pose proof demo_compression_first as E1. pose proof demo_compression_last as E2.
  destruct (demo_run compression_first) as [q1|]; [|discriminate E1].
  destruct (demo_run compression_last) as [q2|]; [|discriminate E2].
  exists q1, q2. split; [done|]. split; [done|].
  cbn [option_map] in E1, E2. injection E1 as -> -> ->.
  injection E2 as -> -> Hc. repeat (split; [done|]). by apply nil_length_inv.
Qed.

Lemma demo_run_reachable l q :
  demo_run l = Some q ->
  @reachable chrono_ref hash_order_id unicode_ascii sizes_ref _
    (@DefaultStateEngine.engine_class chrono_ref) _ _ Z.of_nat demo_clock
    Z.of_nat demo_metrics demo_cfg false None demo_net q.
Proof. intros Hq. exists l. exact Hq. Qed.

Lemma demo_reachable :
  exists q, @reachable chrono_ref hash_order_id unicode_ascii sizes_ref _
    (@DefaultStateEngine.engine_class chrono_ref) _ _ Z.of_nat demo_clock
    Z.of_nat demo_metrics demo_cfg false None demo_net q /\ storage_done q = true.
Proof.
  pose proof demo_compression_last as E. pose proof (demo_run_reachable compression_last) as Hr.
  destruct (demo_run compression_last) as [q|]; [|discriminate E].
  cbn [option_map] in E. injection E as Hdone _ _. exists q. split; [by apply Hr|done].
Qed.

Lemma demo_sends :
  let sent := @env_outputs chrono_ref _ (@DefaultStateEngine.engine_class chrono_ref)
    Envelope.demo_stage demo_feed in
  length (to_storage sent) = 1%nat /\
  length (to_storage (hints_stage Z.of_nat None all_open 0 demo_interner 0 (to_hints sent))) = 2%nat.
Proof. split; vm_compute; reflexivity. Qed.

Lemma pipeline_keeps_history_witness :
  exists q : net (E := DefaultStateEngine.state)
      (I := StringInterner.StringInterner * StringInterner.arc_heap),
    storage_done q = true /\
    length (signal_commands (n_stored q)) = 1%nat /\ length (hint_commands (n_stored q)) = 2%nat.
Proof.
  destruct demo_reachable as (q&Hq&Hdone). exists q. split; [exact Hdone|].
  destruct (@pipeline_keeps_history chrono_ref hash_order_id unicode_ascii sizes_ref _
    (@DefaultStateEngine.engine_class chrono_ref) _ _ Z.of_nat demo_clock
    Z.of_nat demo_metrics demo_cfg false None demo_feed Envelope.demo_stage demo_interner
    (bus_new 0) 0 4096 None None q Hq Hdone) as [Hs Hh].
  rewrite Hs, Hh. exact demo_sends.
Defined.
