(* ===== verification/InputToStore.v ===== *)
(** From the events of the hooks to the database: the ingest stage, the envelope stage
    with adapter and lock deriver, and the pipeline together.

    How the ingest stage cuts its events into batches and where it puts ticks depends on
    time; what is stored of the events does not. *)
From S2P Require Import Prelude Decimal Events StateEngine StateDeriver LockDeriver Adapter Interner.
From S2P Require Import Records Aggregation SnapshotBus CompactEvents Compressor Trajectory.
From S2P Require Import Engine PipelineTypes Ingest Envelope HintsStage CompressionStage AppTree.
From S2P Require Import SnapshotStage Pipeline.

(** The envelopes that a list of raw events becomes, as one batch. *)
Definition envelopes_of (focus : option WindowFocusInfo) (locked : bool) (raw : list RawEvent)
    : list EventEnvelope := (derive locked (adapt_batch focus raw).2).2.

(** Hints that are not changes of the activity state. *)
Definition is_state_hint (e : EventEnvelope) : bool := bool_decide (env_kind e = Hint StateChanged).
Definition focus_hints (l : list EventEnvelope) : list EventEnvelope :=
  filter (fun e => is_signal e = false /\ is_state_hint e = false) l.

Lemma focus_hints_app l k : focus_hints (l ++ k) = focus_hints l ++ focus_hints k.
Proof. apply filter_app. Qed.
Lemma signals_app l k : signals (l ++ k) = signals l ++ signals k.
Proof. apply filter_app. Qed.

Lemma envelopes_of_app f b raw raw' :
  envelopes_of f b (raw ++ raw') = envelopes_of f b raw ++
    envelopes_of (adapt_batch f raw).1 (derive b (adapt_batch f raw).2).1 raw'.
Proof.
  unfold envelopes_of, adapt_batch, derive. rewrite run_list_app.
  destruct (run_list adapt_step f raw) as [f1 o1]. cbn [fst snd].
  destruct (run_list adapt_step f1 raw') as [f2 o2]. cbn [fst snd]. rewrite run_list_app.
  destruct (run_list derive_step b o1) as [b1 o1']. cbn [fst snd].
  by destruct (run_list derive_step b1 o2).
Qed.

Section stored.
Context `{HC : Chrono} {E : Type} `{HE : StateEngine E}.

(** No envelope of the batch is a change of state; those are what the state deriver adds. *)
Lemma envelopes_plain f b raw : Forall (fun e => is_state_hint e = false) (envelopes_of f b raw).
Proof.
  assert (forall f raw, Forall (fun e => is_state_hint e = false) (adapt_batch f raw).2) as Ha.
  { intros f0 raw0. unfold adapt_batch. revert f0. induction raw0 as [|e raw0 IH]; intros f0; [constructor|].
    rewrite run_list_cons. cbn [snd]. apply Forall_app. split; [|apply IH].
    destruct e as [ts id d|ts id d|ts id cur]; cbn; [by repeat constructor..|].
    unfold adapt_focus, focus_burst. split_matches; cbn; by repeat constructor. }
  unfold envelopes_of, derive. generalize (Ha f raw). generalize (adapt_batch f raw).2. intros l Hl. revert b.
  induction Hl as [|e l He Hl IH]; intros b; [constructor|]. rewrite run_list_cons. cbn [snd].
  apply Forall_app. split; [|apply IH].
  unfold derive_step. destruct (env_kind e) as [[]|[]]; destruct (is_login e), b; cbn;
    repeat case_bool_decide; cbn; by repeat constructor.
Qed.

Lemma hints_of_focus d envs : Forall (fun e => is_state_hint e = false) envs ->
  focus_hints (hints_of d envs).2 = focus_hints envs.
Proof.
  intros Hall. revert d. unfold hints_of. induction Hall as [|e envs He Hall IH]; intros d; [done|].
  rewrite run_list_cons. cbn [snd]. rewrite focus_hints_app, IH.
  change (e :: envs) with ([e] ++ envs). rewrite focus_hints_app. f_equal.
  unfold hints_of_step. destruct (env_kind e) as [k|h] eqn:Hk; [|done].
  assert (focus_hints [e] = []) as ->.
  { unfold focus_hints. rewrite filter_cons_False; [done|]. unfold is_signal. rewrite Hk. by intros []. }
  unfold StateDeriver.on_signal. by destruct (StateEngine.on_signal _ _ _) as [d' [tr|]].
Qed.

(** What a command adds, and how it leaves the adapter and the lock deriver. *)
Definition batch_of (cmd : DeriveCommand) : list RawEvent := delivered [cmd].

Lemma step_stores s cmd : es_running s = true -> cmd <> DShutdown ->
  let '(s', out) := envelope_step s all_open cmd in
  let raw := batch_of cmd in
  es_running s' = true /\
  es_last_focus s' = (adapt_batch (es_last_focus s) raw).1 /\
  es_locked s' = (derive (es_locked s) (adapt_batch (es_last_focus s) raw).2).1 /\
  to_storage out = map StEnvelope (signals (envelopes_of (es_last_focus s) (es_locked s) raw)) /\
  focus_hints (to_hints out) = focus_hints (envelopes_of (es_last_focus s) (es_locked s) raw).
Proof.
  intros Hrun Hne. destruct cmd as [batch|now|]; [| |done]; cbn [envelope_step]; unfold batch_of.
  - replace (delivered [DBatch batch]) with (rb_events batch) by (unfold delivered; cbn; by rewrite app_nil_r).
    destruct (batch_is_empty batch) eqn:He.
    { unfold handle_batch. rewrite He. unfold batch_is_empty in He. by destruct (rb_events batch). }
    pose proof (batch_sends s batch He) as Hb. cbv zeta in Hb.
    assert (es_last_focus (handle_batch s all_open batch).1 = (adapt_batch (es_last_focus s) (rb_events batch)).1 /\
      es_locked (handle_batch s all_open batch).1
        = (derive (es_locked s) (adapt_batch (es_last_focus s) (rb_events batch)).2).1) as [Hf Hl].
    { unfold handle_batch. rewrite He. destruct (adapt_batch _ _) as [f raws]. cbn [fst snd].
      destruct (derive _ raws) as [l envs]. destruct (run_list _ _ envs) as [b out].
      by destruct (bs_failed b). }
    destruct (handle_batch s all_open batch) as [s' out]. cbn [fst] in *.
    destruct Hb as (Hr&_&Hst&Hh&_). split_and!; [done|done|done|exact Hst|].
    rewrite Hh. apply hints_of_focus, envelopes_plain.
  - replace (delivered [DTick now]) with (@nil RawEvent) by done. unfold handle_tick.
    destruct (StateDeriver.on_tick (es_deriver s) now) as [d [hint|]] eqn:Ht; [|done].
    pose proof (process_hint_carries update_default hint None update_default_fit eq_refl) as Hp.
    destruct (process_hint all_open update_default hint None) as [[u out] ok].
    destruct Hp as (->&us&->&Hca). cbn [negb].
    destruct (publish_carries update_default us u _ _ _ eq_refl Hca) as (E1&E2&_).
    assert (forall us, to_hints (map (fun u => ToSnapshot (SUpdate u)) us) = [] /\
      to_storage (map (fun u => ToSnapshot (SUpdate u)) us) = []) as Hus.
    { clear. unfold to_hints, to_storage. induction us as [|u us [I1 I2]]; [done|]. cbn. by rewrite I1, I2. }
    destruct (Hus us) as [F1 F2]. split_and!; [done..| |]; routes; rewrite ?E1, ?E2, ?F1, ?F2; [done|].
    unfold StateDeriver.on_tick in Ht. destruct (StateEngine.on_tick _ _) as [d' [tr|]]; [|done].
    by injection Ht as _ <-.
Qed.

(** Whatever the batches and ticks, what the stage sends is that of all events as one. *)
Lemma outputs_store s cmds : es_running s = true -> DShutdown ∉ cmds ->
  let sent := env_outputs s (cmds ++ [DShutdown]) in
  let envs := envelopes_of (es_last_focus s) (es_locked s) (delivered cmds) in
  to_storage sent = map StEnvelope (signals envs) /\ focus_hints (to_hints sent) = focus_hints envs.
Proof.
  revert s. induction cmds as [|cmd cmds IH]; intros s Hrun Hn; [done|].
  apply not_elem_of_cons in Hn as [Hne Hn]. cbn [app env_outputs]. cbv zeta.
  pose proof (step_stores s cmd Hrun (not_eq_sym Hne)) as Hs.
  destruct (envelope_step s all_open cmd) as [s' out]. destruct Hs as (Hr&Hf&Hl&Hst&Hh). rewrite Hr.
  destruct (IH s' Hr Hn) as [I1 I2].
  change (delivered (cmd :: cmds)) with (delivered ([cmd] ++ cmds)). rewrite delivered_app.
  fold (batch_of cmd). rewrite envelopes_of_app, <- Hf, <- Hl.
  rewrite signals_app, focus_hints_app, List.map_app, to_storage_app, to_hints_app, focus_hints_app.
  by rewrite Hst, Hh, I1, I2.
Qed.

Context `{HO : HashOrder} `{HU : UnicodeText} `{HM : MemSizes} {I : Type} `{HI : TitleInterner I}.
Context (ingest_now hints_now snapshot_now : nat -> instant) (mono_now : nat -> Z)
  (metrics : nat -> StorageInfo) (cfg : stage_config).
Context (persist_raw_events : bool) (own_run_id : option string).

(** The envelope stage as it starts, with a state engine. *)
Definition fresh_stage (d : E) : envelope_state (E := E) := {|
  es_last_focus := adapter_new; es_locked := lock_new; es_deriver := d; es_running := true |}.

(** C4: what is stored of the input does not depend on time.  For any events of the hooks,
    however the ticks of the ingest stage fall between them and whatever the interleaving of
    the stages: once storage has ended, the signals that it was given, and the hints of focus
    and title, are in order those that the adapter and the lock deriver make of all the events
    at once, each event with the id and time that it got when it was read; and every event
    before the shutdown is among them. *)
Theorem input_is_stored fuel mono0 inputs mono d i bus poll cap records transitions q :
  let l := map (fun im : ingest_input * instant => (im.1, im.2, true)) inputs in
  let start := ingest_new mono0 in
  let raw := all_converted ingest_now fuel start l in
  let feed := (ingest_run ingest_now fuel start (l ++ [(IEvent KShutdown, mono, true)])).2 in
  running (ingest_run ingest_now fuel start l).1 = true ->
  reachable hints_now snapshot_now mono_now metrics cfg persist_raw_events own_run_id
    (spawn_pipeline snapshot_now mono_now metrics cfg feed (fresh_stage d) i bus poll cap records
      transitions) q ->
  storage_done q = true ->
  let envs := envelopes_of adapter_new lock_new raw in
  signal_commands (n_stored q) = map StEnvelope (signals envs) /\
  focus_hints (stored_envelopes (hint_commands (n_stored q))) = focus_hints envs /\
  length raw = length (filter (fun im : ingest_input * instant => accepted im.1 = true) inputs).
Proof.
  intros l start raw feed Hrun Hreach Hdone envs.
  destruct (ingest_run_delivers ingest_now fuel mono l start) as (out&Hfeed&Hn&_&_&_&Hdel&Hlen);
    [by apply Forall_map, Forall_true|done|done|].
  cbn [pending ingest_new start app] in Hdel. fold raw in Hdel, Hlen. fold feed in Hfeed.
  destruct (done_stored hints_now own_run_id (to_storage (env_outputs (fresh_stage d) feed))
    (to_storage (hints_stage hints_now own_run_id all_open
      (next_record_id_of (bus_run_id bus) (hydrate_recent_records records)) i 0
      (to_hints (env_outputs (fresh_stage d) feed)))) q) as [-> ->]; [|done|].
  { eapply inv_run, Hreach. apply inv_spawn. }
  rewrite (proj1 (hints_stage_stores _ _ _ _ _ _)), Hfeed.
  destruct (outputs_store (fresh_stage d) out eq_refl Hn) as [-> ->]. rewrite Hdel.
  split_and!; [done..|]. rewrite Hlen. unfold l. clear.
  induction inputs as [|[j m] inputs IH]; [done|]. cbn [map].
  rewrite !filter_cons. cbn [fst]. destruct (decide _); cbn; by rewrite IH.
Qed.
End stored.

(** ** A session *)
(** A focus change, a key press and a tick, with the clock of file Ingest. *)
Definition demo_inputs : list (ingest_input * instant) :=
  [(IEvent (KWindowFocusChange (demo_focus "editor")), 5); (IEvent KKeyboardInput, 20); (ITicker, 50);
   (IEvent KKeyboardInput, 60)].
Definition demo_schedule : list actor :=
  replicate 7 AIngest ++ replicate 7 AEnvelope ++ replicate 3 AHints ++ replicate 3 ACompression
  ++ replicate 10 ASnapshot ++ replicate 12 AStorage.
Definition demo_session_run (l : list actor) := @net_run chrono_ref hash_order_id unicode_ascii sizes_ref _
  (@DefaultStateEngine.engine_class chrono_ref) _ _ Z.of_nat Pipeline.demo_clock
  Z.of_nat demo_metrics demo_cfg false None
  (@spawn_pipeline chrono_ref hash_order_id unicode_ascii DefaultStateEngine.state
    (StringInterner.StringInterner * StringInterner.arc_heap) Pipeline.demo_clock Z.of_nat demo_metrics demo_cfg
    (@ingest_run chrono_ref Ingest.demo_clock 3 (ingest_new 0)
    (map (fun im => (im.1, im.2, true)) demo_inputs ++ [(IEvent KShutdown, 70, true)])).2
    (fresh_stage demo_engine) demo_interner (bus_new 0) 0 4096 None None) l.

Lemma demo_session_done :
  option_map (fun q => (storage_done q, length (n_stored q))) (demo_session_run demo_schedule) = Some (true, 11%nat).
Proof. by vm_compute. Qed.

Lemma demo_session_reached l q : demo_session_run l = Some q ->
  @reachable chrono_ref hash_order_id unicode_ascii sizes_ref _
  (@DefaultStateEngine.engine_class chrono_ref) _ _ Z.of_nat Pipeline.demo_clock
  Z.of_nat demo_metrics demo_cfg false None
  (@spawn_pipeline chrono_ref hash_order_id unicode_ascii DefaultStateEngine.state
    (StringInterner.StringInterner * StringInterner.arc_heap) Pipeline.demo_clock Z.of_nat demo_metrics demo_cfg
    (@ingest_run chrono_ref Ingest.demo_clock 3 (ingest_new 0)
    (map (fun im => (im.1, im.2, true)) demo_inputs ++ [(IEvent KShutdown, 70, true)])).2
    (fresh_stage demo_engine) demo_interner (bus_new 0) 0 4096 None None) q.
Proof. intros Hq. exists l. exact Hq. Qed.

Lemma input_is_stored_witness :
  exists q, (demo_session_run demo_schedule) = Some q /\
    length (signal_commands (n_stored q)) = 4%nat /\
    length (focus_hints (stored_envelopes (hint_commands (n_stored q)))) = 1%nat.
Proof.
  pose proof demo_session_done as Hd. pose proof (demo_session_reached demo_schedule) as Hr.
  destruct (demo_session_run demo_schedule) as [q|]; [|discriminate Hd]. cbn [option_map] in Hd. injection Hd as Hd _.
  destruct (@input_is_stored chrono_ref _ (@DefaultStateEngine.engine_class chrono_ref) hash_order_id unicode_ascii
    sizes_ref _ _ Ingest.demo_clock Z.of_nat Pipeline.demo_clock Z.of_nat demo_metrics demo_cfg false None
    3 0 demo_inputs 70 demo_engine demo_interner (bus_new 0) 0 4096 None None q eq_refl (Hr q eq_refl) Hd)
    as (Hs&Hh&_).
  exists q. split; [reflexivity|]. rewrite Hs, Hh. split; vm_compute; reflexivity.
Defined.
