(* ===== verification/Metrics.v ===== *)
(** The storage metrics of [crates/storage/src/lib.rs]: two atomics and the watch
    channel on which they are published.

    The counter is updated and published by two threads, the caller of the backend and
    its writer, so each function is the list of its atomic steps; the two loads of
    [storage_metrics_snapshot] go to registers of the thread.  The watch channel keeps
    the last value sent; the module holds a receiver, so a send always takes effect. *)
From S2P Require Import Prelude Events.

(** [Utc.timestamp_opt(secs, 0).single()]: the instant of a number of seconds, if chrono
    can represent it. *)
Class EpochTime := { timestamp_opt : Z -> option instant }.

Record StorageMetrics := { sm_backlog_count : Z; sm_last_flush_at : option instant }.

#[export] Instance StorageMetrics_eq_dec : EqDecision StorageMetrics.
Proof. solve_decision. Defined.

Section metrics.
Context `{Chrono} `{EpochTime}.

(** [STORAGE_BACKLOG], [LAST_FLUSH_AT_EPOCH] and the value of [METRICS_CH]. *)
Record atomics := {
  storage_backlog : Z;
  last_flush_at_epoch : Z;
  metrics_ch : StorageMetrics
}.

(** What [storage_metrics_snapshot] makes of the values it loaded. *)
Definition snapshot_of (secs backlog : Z) : StorageMetrics := {|
  sm_backlog_count := backlog;
  sm_last_flush_at := if 0 <? secs then timestamp_opt secs else None |}.

Definition atomics_new : atomics := {|
  storage_backlog := 0; last_flush_at_epoch := 0; metrics_ch := snapshot_of 0 0 |}.

(** An atomic step of a thread, and its registers. *)
Inductive mop :=
  | MAdd
  | MSub
  | MStoreFlush (t : instant)
  | MLoadFlush
  | MLoadBacklog
  | MPublish.

Record registers := { reg_secs : Z; reg_backlog : Z }.
Definition registers_new : registers := {| reg_secs := 0; reg_backlog := 0 |}.

Definition publish_metrics : list mop := [MLoadFlush; MLoadBacklog; MPublish].
Definition inc_backlog : list mop := MAdd :: publish_metrics.
Definition dec_backlog : list mop := MSub :: publish_metrics.
Definition set_last_flush (t : instant) : list mop := MStoreFlush t :: publish_metrics.

Definition mop_step (r : registers) (a : atomics) (o : mop) : registers * atomics :=
  match o with
  | MAdd => (r, {| storage_backlog := u64_add (storage_backlog a) 1;
      last_flush_at_epoch := last_flush_at_epoch a; metrics_ch := metrics_ch a |})
  | MSub => (r, {| storage_backlog := uw 64 (storage_backlog a - 1);
      last_flush_at_epoch := last_flush_at_epoch a; metrics_ch := metrics_ch a |})
  | MStoreFlush t => (r, {| storage_backlog := storage_backlog a;
      last_flush_at_epoch := timestamp_secs t; metrics_ch := metrics_ch a |})
  | MLoadFlush => ({| reg_secs := last_flush_at_epoch a; reg_backlog := reg_backlog r |}, a)
  | MLoadBacklog => ({| reg_secs := reg_secs r; reg_backlog := storage_backlog a |}, a)
  | MPublish => (r, {| storage_backlog := storage_backlog a;
      last_flush_at_epoch := last_flush_at_epoch a;
      metrics_ch := snapshot_of (reg_secs r) (reg_backlog r) |})
  end.

(** The net change an atomic step makes to the counter. *)
Definition mop_net (o : mop) : Z := match o with MAdd => 1 | MSub => -1 | _ => 0 end.
Definition mops_net (l : list mop) : Z := zsum (map mop_net l).


Lemma mop_step_counts r a o n :
  storage_backlog a = uw 64 n -> storage_backlog (mop_step r a o).2 = uw 64 (n + mop_net o).
Proof.
  intros Ha. destruct o; cbn; rewrite Ha, ?Z.add_0_r; try done.
  - unfold u64_add. by rewrite uw_add_l.
  - replace (uw 64 n - 1) with (uw 64 n + -1) by lia. by rewrite uw_add_l.
Qed.

Lemma inc_net : mops_net inc_backlog = 1.
Proof. done. Qed.
Lemma dec_net : mops_net dec_backlog = -1.
Proof. done. Qed.
Lemma flush_net t : mops_net (set_last_flush t) = 0.
Proof. done. Qed.
Lemma mops_net_app l k : mops_net (l ++ k) = mops_net l + mops_net k.
Proof. unfold mops_net. by rewrite map_app, zsum_app. Qed.
End metrics.
