(* ===== verification/Codec.v ===== *)
(** The rows of the storage backends: how [sqlite3.rs] and [duckdb.rs] of
    [crates/storage/src] encode events, envelopes, records and transitions as columns,
    and read them back.

    serde_json, the text of a timestamp and the timestamps of DuckDB are third party:
    their functions are interfaces, and a theorem that needs them to read back what they
    wrote says so for the values at hand.  The backends differ in the types of two
    columns and in what a missing record id means, which is the class [Columns]. *)
From Stdlib Require Import Ascii.
From S2P Require Import Prelude Events Records SnapshotBus CompactEvents.

(** [serde_json::to_string] and [serde_json::from_str] at the types stored. *)
Class Json := {
  json_of_raw_event : RawEvent -> string;
  json_of_keyboard : KeyboardEventData -> string;
  keyboard_of_json : string -> option KeyboardEventData;
  json_of_mouse : MouseEventData -> string;
  mouse_of_json : string -> option MouseEventData;
  json_of_focus : WindowFocusInfo -> string;
  focus_of_json : string -> option WindowFocusInfo;
  json_of_text : string -> string;
  json_of_title : Z * string -> string;
  title_of_json : string -> option (Z * string);
  json_of_states : string * string -> string;
  states_of_json : string -> option (string * string);
  json_of_scroll : CompactScrollSequence -> string;
  json_of_trajectory : CompactMouseTrajectory -> string;
  json_of_activity : CompactKeyboardActivity -> string;
  json_of_focus_event : CompactFocusEvent -> string;
  json_of_pointer : RawEventPointer -> string
}.

(** [DateTime::to_rfc3339] and [DateTime::parse_from_rfc3339]. *)
Class Rfc3339 := {
  to_rfc3339 : instant -> string;
  parse_from_rfc3339 : string -> option instant
}.

(** A [TIMESTAMPTZ] of DuckDB as the driver binds, reads and orders it. *)
Class TimestampTz (T : Type) := {
  bind_timestamp : instant -> T;
  read_timestamp : T -> option instant;
  timestamp_le : T -> T -> bool
}.

(** What the backends do not share: the column types of times and flags, the order of
    the time column, and the record id of a row that has none ([None]: an error). *)
Class Columns (T B : Type) := {
  column_of_time : instant -> T;
  time_of_column : T -> option instant;
  column_le : T -> T -> bool;
  column_of_flag : bool -> B;
  flag_of_column : B -> bool;
  null_record_id : option Z
}.

(** SQLite: times are text in byte order, flags the integers 0 and 1. *)
Definition sqlite_columns `{Rfc3339} : Columns string Z := {|
  column_of_time := to_rfc3339;
  time_of_column := parse_from_rfc3339;
  column_le := String.leb;
  column_of_flag b := if b then 1 else 0;
  flag_of_column z := negb (z =? 0);
  null_record_id := None |}.

(** DuckDB: timestamps and booleans; [id.unwrap_or_default()]. *)
Definition duckdb_columns {T} `{TimestampTz T} : Columns T bool := {|
  column_of_time := bind_timestamp;
  time_of_column := read_timestamp;
  column_le := timestamp_le;
  column_of_flag b := b;
  flag_of_column b := b;
  null_record_id := Some 0 |}.
#[export] Existing Instances sqlite_columns duckdb_columns.

(** ** Labels *)

(** [format!("{:?}", state)]. *)
Definition state_label (a : ActivityState) : string :=
  match a with
  | Active => "Active"
  | Passive => "Passive"
  | Inactive => "Inactive"
  | Locked => "Locked"
  end.

Definition parse_state_label (label : string) : ActivityState :=
  if bool_decide (label = "Active") then Active
  else if bool_decide (label = "Passive") then Passive
  else if bool_decide (label = "Inactive") then Inactive
  else if bool_decide (label = "Locked") then Locked
  else Inactive.

Definition source_label (s : EventSource) : string :=
  match s with Hook => "hook" | Derived => "derived" | Polling => "polling" end.

Definition parse_source (s : string) : EventSource :=
  if bool_decide (s = "hook") then Hook
  else if bool_decide (s = "derived") then Derived
  else if bool_decide (s = "polling") then Polling
  else Hook.

Definition kind_label (k : EventKind) : string :=
  match k with
  | Signal KeyboardInput => "signal:keyboard"
  | Signal MouseInput => "signal:mouse"
  | Signal AppChanged => "signal:app_changed"
  | Signal WindowChanged => "signal:window_changed"
  | Signal ActivityPulse => "signal:activity_pulse"
  | Signal LockStart => "signal:lock_start"
  | Signal LockEnd => "signal:lock_end"
  | Hint FocusChanged => "hint:focus_changed"
  | Hint StateChanged => "hint:state_changed"
  | Hint TitleChanged => "hint:title_changed"
  | Hint PositionChanged => "hint:position"
  | Hint SizeChanged => "hint:size"
  end.

Definition parse_signal (k : string) : SignalKind :=
  if bool_decide (k = "keyboard") then KeyboardInput
  else if bool_decide (k = "mouse") then MouseInput
  else if bool_decide (k = "app_changed") then AppChanged
  else if bool_decide (k = "window_changed") then WindowChanged
  else if bool_decide (k = "activity_pulse") then ActivityPulse
  else if bool_decide (k = "lock_start") then LockStart
  else if bool_decide (k = "lock_end") then LockEnd
  else AppChanged.

Definition parse_hint (k : string) : HintKind :=
  if bool_decide (k = "focus_changed") then FocusChanged
  else if bool_decide (k = "state_changed") then StateChanged
  else if bool_decide (k = "title_changed") then TitleChanged
  else if bool_decide (k = "position") then PositionChanged
  else if bool_decide (k = "size") then SizeChanged
  else TitleChanged.

Definition parse_kind (kind_s : string) : EventKind :=
  match strip_prefix "signal:" kind_s with
  | Some k => Signal (parse_signal k)
  | None =>
      match strip_prefix "hint:" kind_s with
      | Some k => Hint (parse_hint k)
      | None => Signal AppChanged
      end
  end.

Section codec.
Context `{Json} {T B : Type} `{Columns T B}.

(** ** Envelopes *)
Record envelope_row := {
  er_event_id : option Z;
  er_timestamp : T;
  er_source : string;
  er_kind : string;
  er_payload : option string;
  er_derived : B;
  er_polling : B;
  er_sensitive : B
}.

Definition payload_json (p : EventPayload) : option string :=
  match p with
  | PKeyboard k => Some (json_of_keyboard k)
  | PMouse m => Some (json_of_mouse m)
  | PFocus f => Some (json_of_focus f)
  | PLock reason => Some (json_of_text reason)
  | PTitle window_id title => Some (json_of_title (window_id, title))
  | PState from to => Some (json_of_states (state_label from, state_label to))
  | PNone => None
  end.

Definition encode_envelope (env : EventEnvelope) : envelope_row := {|
  er_event_id := Some (sw 64 (env_id env));
  er_timestamp := column_of_time (env_timestamp env);
  er_source := source_label (env_source env);
  er_kind := kind_label (env_kind env);
  er_payload := payload_json (env_payload env);
  er_derived := column_of_flag (env_derived env);
  er_polling := column_of_flag (env_polling env);
  er_sensitive := column_of_flag (env_sensitive env) |}.

Definition decode_payload (kind : EventKind) (kind_s : string) (payload : option string)
    : EventPayload :=
  match kind, payload with
  | Signal KeyboardInput, Some js =>
      match keyboard_of_json js with Some k => PKeyboard k | None => PNone end
  | Signal MouseInput, Some js =>
      match mouse_of_json js with Some m => PMouse m | None => PNone end
  | _, Some js =>
      if contains kind_s "lock" then PLock js
      else if contains kind_s "title" then
        match title_of_json js with Some (wid, title) => PTitle wid title | None => PNone end
      else if contains kind_s "state_changed" then
        match states_of_json js with
        | Some (from_s, to_s) => PState (parse_state_label from_s) (parse_state_label to_s)
        | None => PNone
        end
      else match focus_of_json js with Some f => PFocus f | None => PNone end
  | _, None => PNone
  end.

(** A row of the query; an unreadable timestamp ends the query with an error. *)
Definition decode_envelope (row : envelope_row) : option EventEnvelope :=
  timestamp ← time_of_column (er_timestamp row);
  let source := parse_source (er_source row) in
  let kind := parse_kind (er_kind row) in
  let payload := decode_payload kind (er_kind row) (er_payload row) in
  Some {|
    env_id := uw 64 (default 0 (er_event_id row)); env_timestamp := timestamp;
    env_source := source; env_kind := kind; env_payload := payload;
    env_derived := flag_of_column (er_derived row); env_polling := flag_of_column (er_polling row);
    env_sensitive := flag_of_column (er_sensitive row) |}.

(** ** Records *)
Record record_row := {
  rw_record_id : option Z;
  rw_start_time : T;
  rw_end_time : option T;
  rw_state : string;
  rw_focus_info : option string;
  rw_run_id : option string
}.

Definition encode_record (r : ActivityRecord) : record_row := {|
  rw_record_id := Some (sw 64 (record_id r));
  rw_start_time := column_of_time (start_time r);
  rw_end_time := column_of_time <$> end_time r;
  rw_state := state_label (state r);
  rw_focus_info := json_of_focus <$> focus_info r;
  rw_run_id := run_id r |}.

Definition coalesce {A} (a b : option A) : option A :=
  match a with Some x => Some x | None => b end.

(** [id] is the column of that name, which the query falls back on
    ([COALESCE(record_id, id)]). *)
Definition decode_record (id : option Z) (row : record_row) : option ActivityRecord :=
  rid ← coalesce (coalesce (rw_record_id row) id) null_record_id;
  start ← time_of_column (rw_start_time row);
  end_time ← (match rw_end_time row with
              | Some s => e ← time_of_column s; Some (Some e)
              | None => Some None
              end);
  let state := parse_state_label (rw_state row) in
  let focus_info := js ← rw_focus_info row; focus_of_json js in
  Some {|
    record_id := uw 64 rid; run_id := rw_run_id row; start_time := start;
    end_time := end_time; state := state; focus_info := focus_info;
    event_count := 0; triggering_events := [] |}.

(** ** Transitions *)
Record transition_row := {
  tw_at : T;
  tw_from : string;
  tw_to : string;
  tw_by_signal : option string;
  tw_run_id : option string
}.

Definition encode_transition (t : Transition) : transition_row := {|
  tw_at := column_of_time (t_at t); tw_from := state_label (t_from t);
  tw_to := state_label (t_to t); tw_by_signal := t_by_signal t; tw_run_id := t_run_id t |}.

Definition decode_transition (row : transition_row) : option Transition :=
  at_ ← time_of_column (tw_at row);
  Some {|
    t_from := parse_state_label (tw_from row); t_to := parse_state_label (tw_to row);
    t_at := at_; t_by_signal := tw_by_signal row; t_run_id := tw_run_id row |}.

(** ** Raw and compact events, which are only written *)
Record raw_row := { rr_timestamp : T; rr_event_type : string; rr_data : string }.

Definition encode_raw_event (e : RawEvent) : raw_row := {|
  rr_timestamp := column_of_time (raw_timestamp e);
  rr_event_type := raw_event_type e;
  rr_data := json_of_raw_event e |}.

Record compact_row := {
  cr_start_time : T;
  cr_end_time : T;
  cr_kind : string;
  cr_payload : option string;
  cr_raw_event_ref : option string
}.

Definition encode_compact (ce : CompactEvent) : compact_row :=
  match ce with
  | Scroll s => {|
      cr_start_time := column_of_time (sc_start_time s);
      cr_end_time := column_of_time (sc_end_time s); cr_kind := "compact:scroll";
      cr_payload := Some (json_of_scroll s);
      cr_raw_event_ref := json_of_pointer <$> sc_raw_event_ids s |}
  | MouseTrajectory t => {|
      cr_start_time := column_of_time (mt_start_time t);
      cr_end_time := column_of_time (mt_end_time t); cr_kind := "compact:mouse_traj";
      cr_payload := Some (json_of_trajectory t);
      cr_raw_event_ref := json_of_pointer <$> mt_raw_event_ids t |}
  | Keyboard k => {|
      cr_start_time := column_of_time (kb_start_time k);
      cr_end_time := column_of_time (kb_end_time k); cr_kind := "compact:keyboard";
      cr_payload := Some (json_of_activity k);
      cr_raw_event_ref := json_of_pointer <$> kb_raw_event_ids k |}
  | Focus f => {|
      cr_start_time := column_of_time (fe_timestamp f);
      cr_end_time := column_of_time (fe_timestamp f); cr_kind := "compact:focus";
      cr_payload := Some (json_of_focus_event f);
      cr_raw_event_ref := json_of_pointer <$> fe_raw_event_ids f |}
  end.
End codec.
Arguments envelope_row : clear implicits.
Arguments record_row : clear implicits.
Arguments transition_row : clear implicits.
Arguments raw_row : clear implicits.
Arguments compact_row : clear implicits.

(** ** Reading back *)
Lemma parse_state_label_label a : parse_state_label (state_label a) = a.
Proof. by destruct a. Qed.
Lemma parse_source_label s : parse_source (source_label s) = s.
Proof. by destruct s. Qed.
Lemma parse_kind_label k : parse_kind (kind_label k) = k.
Proof. by destruct k as [[]|[]]. Qed.

Lemma u64_of_i64 z : in_u 64 z -> uw 64 (sw 64 z) = z.
Proof.
  intros Hz. unfold uw, sw. rewrite Zminus_mod_idemp_l.
  replace (z + 2 ^ (64 - 1) - 2 ^ (64 - 1)) with z by lia. by apply Z.mod_small.
Qed.

(** Columns whose flags come back. *)
Class ColumnLaws (T B : Type) `{Columns T B} : Prop :=
  flag_reads b : flag_of_column (column_of_flag b) = b.

#[export] Instance sqlite_laws `{Rfc3339} : ColumnLaws string Z.
Proof. by intros []. Qed.
#[export] Instance duckdb_laws {T} `{TimestampTz T} : ColumnLaws T bool.
Proof. done. Qed.

Section reading_back.
Context `{Json} {T B : Type} `{ColumnLaws T B}.

Definition time_reads (t : instant) : Prop := time_of_column (column_of_time t) = Some t.

(** What serde writes for the payload, it reads. *)
Definition payload_reads (p : EventPayload) : Prop :=
  match p with
  | PKeyboard k => keyboard_of_json (json_of_keyboard k) = Some k
  | PMouse m => mouse_of_json (json_of_mouse m) = Some m
  | PFocus f => focus_of_json (json_of_focus f) = Some f
  | PTitle wid title => title_of_json (json_of_title (wid, title)) = Some (wid, title)
  | PState a b => states_of_json (json_of_states (state_label a, state_label b))
      = Some (state_label a, state_label b)
  | PLock _ | PNone => True
  end.

(** The payload as it comes back: the reason of a lock signal comes back as its JSON
    text, which is not parsed. *)
Definition stored_payload (p : EventPayload) : EventPayload :=
  match p with PLock reason => PLock (json_of_text reason) | _ => p end.

Definition set_payload (env : EventEnvelope) (p : EventPayload) : EventEnvelope := {|
  env_id := env_id env; env_timestamp := env_timestamp env; env_source := env_source env;
  env_kind := env_kind env; env_payload := p; env_derived := env_derived env;
  env_polling := env_polling env; env_sensitive := env_sensitive env |}.

Lemma decode_payload_json k p :
  payload_fits k p -> payload_reads p ->
  decode_payload k (kind_label k) (payload_json p) = stored_payload p.
Proof.
  intros Hf Hr. destruct k as [[]|[]], p as [kb|ms|f|r|wid title|a b|];
    try (exfalso; exact Hf); cbn in Hr |- *; rewrite ?Hr; try done.
  by rewrite !parse_state_label_label.
Qed.

Lemma envelope_row_reads env :
  env_fits env -> in_u 64 (env_id env) -> time_reads (env_timestamp env) ->
  payload_reads (env_payload env) ->
  decode_envelope (encode_envelope env) = Some (set_payload env (stored_payload (env_payload env))).
Proof.
  intros Hf Hid Ht Hp. unfold decode_envelope, encode_envelope; cbn [er_timestamp]. rewrite Ht.
  cbn. rewrite u64_of_i64, parse_source_label, parse_kind_label, !flag_reads by done.
  by rewrite decode_payload_json.
Qed.

(** An envelope of the pipeline written to the database comes back as it was, whatever
    its kind, except that the reason of a lock signal comes back as its JSON text. *)
Theorem envelope_roundtrip env :
  env_fits env -> in_u 64 (env_id env) -> time_reads (env_timestamp env) ->
  payload_reads (env_payload env) ->
  decode_envelope (encode_envelope env) = Some (set_payload env (stored_payload (env_payload env))).
Proof. apply envelope_row_reads. Qed.

(** A record without its event counts, which have no columns. *)
Definition stored_record (r : ActivityRecord) : ActivityRecord := {|
  record_id := record_id r; run_id := run_id r; start_time := start_time r;
  end_time := end_time r; state := state r; focus_info := focus_info r;
  event_count := 0; triggering_events := [] |}.

Definition record_reads (r : ActivityRecord) : Prop :=
  in_u 64 (record_id r) /\ time_reads (start_time r) /\
  (forall t, end_time r = Some t -> time_reads t) /\
  (forall f, focus_info r = Some f -> focus_of_json (json_of_focus f) = Some f).

Lemma record_roundtrip id r :
  record_reads r -> decode_record id (encode_record r) = Some (stored_record r).
Proof.
  intros (Hid&Hs&He&Hf). unfold decode_record, encode_record, stored_record; cbn.
  rewrite Hs. cbn. rewrite u64_of_i64, parse_state_label_label by done.
  destruct (focus_info r) as [f|]; cbn; [rewrite (Hf f eq_refl)|];
    destruct (end_time r) as [e|]; cbn; rewrite ?(He e eq_refl); done.
Qed.

Lemma transition_roundtrip t :
  time_reads (t_at t) -> decode_transition (encode_transition t) = Some t.
Proof.
  intros Ht. unfold decode_transition, encode_transition; cbn. rewrite Ht. cbn.
  rewrite !parse_state_label_label. by destruct t.
Qed.
End reading_back.
Arguments time_reads {_ _ _} _.

(** ** Concrete instances

    For evaluating the definitions: times from zero on are written in unary, and the
    JSON functions read back the few values the examples use. *)
Fixpoint unary (n : nat) : string :=
  match n with O => "" | S n => String "0" (unary n) end.
Definition rfc3339_ref : Rfc3339 := {|
  to_rfc3339 t := unary (Z.to_nat t);
  parse_from_rfc3339 s := Some (Z.of_nat (String.length s)) |}.

Definition tz_ref : TimestampTz Z := {|
  bind_timestamp t := t; read_timestamp t := Some t; timestamp_le := Z.leb |}.

Definition focus_ref (app : string) : WindowFocusInfo := {|
  pid := 1; process_start_time := 0; app_name := app; window_title := "";
  window_id := 1; window_instance_start := 0; window_position := None; window_size := None |}.

Definition json_ref : Json := {|
  json_of_raw_event e := raw_event_type e;
  json_of_keyboard k := "keyboard"; keyboard_of_json s := None;
  json_of_mouse m := "mouse"; mouse_of_json s := None;
  json_of_focus := app_name; focus_of_json s := Some (focus_ref s);
  json_of_text s := "'" +:+ s +:+ "'";
  json_of_title := snd; title_of_json s := Some (1, s);
  json_of_states p := p.2; states_of_json s := Some ("Inactive", s);
  json_of_scroll s := "scroll"; json_of_trajectory t := "trajectory";
  json_of_activity k := "activity"; json_of_focus_event f := "focus";
  json_of_pointer p := "pointer" |}.

Lemma envelope_roundtrip_witness :
  let env k p := {| env_id := 2 ^ 63; env_timestamp := 3; env_source := Derived;
    env_kind := k; env_payload := p; env_derived := true; env_polling := false;
    env_sensitive := true |} in
  let back e := @decode_envelope json_ref string Z (@sqlite_columns rfc3339_ref)
    (@encode_envelope json_ref string Z (@sqlite_columns rfc3339_ref) e) in
  back (env (Hint StateChanged) (PState Inactive Active))
    = Some (env (Hint StateChanged) (PState Inactive Active)) /\
  back (env (Signal LockStart) (PLock "screen")) = Some (env (Signal LockStart) (PLock "'screen'")).
Proof.
  intros env back. split;
    (etrans; [apply (@envelope_roundtrip json_ref string Z (@sqlite_columns rfc3339_ref)
       (@sqlite_laws rfc3339_ref)); [done|by vm_compute|done..]|done]).
Defined.
