(* ===== verification/Writers.v ===== *)
(** The background writers of the storage backends: [background_writer] of
    [crates/storage/src/sqlite3.rs] and [background_writer_with_conn] of [duckdb.rs].

    A writer is a step function over the commands it receives.  The databases are third
    party: each is an interface with what the code calls and the documented behaviour of
    transactions as laws.  [Utc::now()] comes with the command.  An [expect] that fails
    ends the writer thread. *)
From S2P Require Import Prelude Events Records SnapshotBus CompactEvents PipelineTypes.
From S2P Require Import Metrics Codec.

(** ** Rows and tables *)
Inductive table_row (T B : Type) :=
  | RawEvents (r : raw_row T)
  | ActivityRecords (r : record_row T)
  | RawEnvelopes (r : envelope_row T B)
  | CompactEvents (r : compact_row T)
  | RecentTransitions (r : transition_row T).
Arguments RawEvents {T B} r.
Arguments ActivityRecords {T B} r.
Arguments RawEnvelopes {T B} r.
Arguments CompactEvents {T B} r.
Arguments RecentTransitions {T B} r.

(** The rows a command inserts. *)
Definition command_rows `{Json} `{Columns T B} (c : StorageCommand) : list (table_row T B) :=
  match c with
  | StRawEvent e => [RawEvents (encode_raw_event e)]
  | StRecord r => [ActivityRecords (encode_record r)]
  | StEnvelope e => [RawEnvelopes (encode_envelope e)]
  | StCompactEvents l => map (fun ce => CompactEvents (encode_compact ce)) l
  | StTransition t => [RecentTransitions (encode_transition t)]
  | StShutdown => []
  end.

Definition rows_of `{Json} `{Columns T B} (cs : list StorageCommand) : list (table_row T B) :=
  cs ≫= command_rows.

Lemma rows_of_app `{Json} `{Columns T B} cs cs' : rows_of (cs ++ cs') = rows_of cs ++ rows_of cs'.
Proof. apply bind_app. Qed.

Lemma rows_of_one `{Json} `{Columns T B} c : rows_of [c] = command_rows c.
Proof. apply app_nil_r. Qed.

(** What a writer does to the rest of the program while it handles a command. *)
Inductive wout :=
  | WHealth (msg : string)
  | WMetric (o : mop).

Definition wout_health (l : list wout) : list string :=
  omap (fun o => match o with WHealth m => Some m | _ => None end) l.
Definition wout_metrics (l : list wout) : list mop :=
  omap (fun o => match o with WMetric m => Some m | _ => None end) l.

Lemma wout_health_app l k : wout_health (l ++ k) = wout_health l ++ wout_health k.
Proof. apply omap_app. Qed.
Lemma wout_health_metrics l : wout_health (map WMetric l) = [].
Proof. by induction l. Qed.

Inductive wstatus := Running | Ended | Panicked.
#[export] Instance wstatus_eq_dec : EqDecision wstatus.
Proof. solve_decision. Defined.

(** A storage backend's writer, for the code that talks to it. *)
Class Writer (W : Type) := {
  writer_step : W -> instant * StorageCommand -> W * list wout;
  writer_status : W -> wstatus
}.

(** A running writer handles a command with one decrement of the backlog, unless it
    panics, and ends on [Shutdown], without one, and on nothing else. *)
Class WriterLaws (W : Type) `{Writer W} : Prop := {
  step_handles w now cmd : writer_status w = Running -> cmd <> StShutdown ->
    let r := writer_step w (now, cmd) in
    writer_status r.1 <> Ended /\
    mops_net (wout_metrics r.2)
      = (if decide (writer_status r.1 = Panicked) then 0 else -1) /\
    (length (wout_metrics r.2) <= 8)%nat;
  step_shutdown w now : writer_status w = Running ->
    let r := writer_step w (now, StShutdown) in
    writer_status r.1 = Ended /\ mops_net (wout_metrics r.2) = 0 /\
    (length (wout_metrics r.2) <= 8)%nat
}.

Lemma wout_metrics_app l k : wout_metrics (l ++ k) = wout_metrics l ++ wout_metrics k.
Proof. apply omap_app. Qed.
Lemma wout_metrics_map l : wout_metrics (map WMetric l) = l.
Proof. induction l as [|o l IH]; [done|]. cbn. f_equal. exact IH. Qed.

Lemma next_mod z : (z + 1) mod 100 <> 0 -> (z + 1) mod 100 = z mod 100 + 1.
Proof.
  pose proof (Z.mod_pos_bound z 100). pose proof (Z.add_mod z 1 100).
  rewrite (Z.mod_small 1 100) in * by lia. intros Hm.
  destruct (decide (z mod 100 = 99)) as [He|He].
  - rewrite He in *. change ((99 + 1) mod 100) with 0 in *. lia.
  - rewrite (Z.mod_small (z mod 100 + 1)) in * by lia. lia.
Qed.

(** ** SQLite *)
Module Sqlite.

(** What the writer uses of rusqlite, on connections [C] and rows [R]: [tx.execute] of
    an INSERT and [tx.commit], with the text of the error if they fail, and
    [conn.transaction]; and views of the state: the rows other connections read, the
    rows of the transaction, and whether one is open. *)
Class Database (C R : Type) := {
  tx_execute : C -> R -> C * option string;
  tx_commit : C -> C * option string;
  conn_transaction : C -> option C;
  committed : C -> list R;
  tx_rows : C -> list R;
  in_tx : C -> bool
}.

(** A statement that succeeds adds its row to the transaction and a commit that
    succeeds adds the transaction to the database; whatever fails may lose rows of the
    transaction, never rows of the database, and neither invents any. *)
Class DatabaseLaws (C R : Type) `{Database C R} : Prop := {
  execute_ok c r c' : tx_execute c r = (c', None) ->
    committed c' ++ tx_rows c' = (committed c ++ tx_rows c) ++ [r] /\
    committed c `prefix_of` committed c';
  execute_tx c r c' : tx_execute c r = (c', None) -> in_tx c = true ->
    in_tx c' = true /\ committed c' = committed c;
  execute_err c r c' e : tx_execute c r = (c', Some e) ->
    committed c' ++ tx_rows c' `sublist_of` committed c ++ tx_rows c /\
    committed c `prefix_of` committed c';
  commit_ok c c' : tx_commit c = (c', None) ->
    committed c' = committed c ++ tx_rows c /\ tx_rows c' = [];
  commit_err c c' e : tx_commit c = (c', Some e) ->
    committed c' ++ tx_rows c' `sublist_of` committed c ++ tx_rows c /\
    committed c `prefix_of` committed c';
  begin_ok c c' : conn_transaction c = Some c' ->
    committed c' = committed c /\ tx_rows c' = [] /\ in_tx c' = true
}.

Section writer.
Context `{Json} `{Rfc3339} {C : Type} `{Database C (table_row string Z)}.

Record writer := { w_conn : C; w_count : Z; w_status : wstatus }.

(** [None] for [Ok]; a batch of compact events stops at the first error. *)
Fixpoint execute_until_error (c : C) (rows : list (table_row string Z)) : C * option string :=
  match rows with
  | [] => (c, None)
  | r :: rows =>
      match tx_execute c r with
      | (c, Some e) => (c, Some e)
      | (c, None) => execute_until_error c rows
      end
  end.

Definition execute_command (c : C) (cmd : StorageCommand) : C * option string :=
  match cmd with
  | StRawEvent e => tx_execute c (RawEvents (encode_raw_event e))
  | StRecord r => tx_execute c (ActivityRecords (encode_record r))
  | StEnvelope env => tx_execute c (RawEnvelopes (encode_envelope env))
  | StCompactEvents events =>
      execute_until_error c (map (fun ce => CompactEvents (encode_compact ce)) events)
  | StTransition t => tx_execute c (RecentTransitions (encode_transition t))
  | StShutdown => (c, None)
  end.

Definition report (prefix : string) (e : option string) : list wout :=
  match e with Some e => [WHealth (prefix +:+ e)] | None => [] end.

(** An iteration of the loop for a command other than [Shutdown]. *)
Definition handle_command (w : writer) (now : instant) (cmd : StorageCommand)
    : writer * list wout :=
  let '(conn, result) := execute_command (w_conn w) cmd in
  let out := report "db write error: " result in
  let count := i32_add (w_count w) 1 in
  if Z.rem count 100 =? 0 then
    let '(conn, committed) := tx_commit conn in
    let out := out ++ report "db commit error: " committed
      ++ map WMetric (set_last_flush now) in
    match conn_transaction conn with
    | Some conn =>
        ({| w_conn := conn; w_count := count; w_status := Running |},
         out ++ map WMetric dec_backlog)
    | None => ({| w_conn := conn; w_count := count; w_status := Panicked |}, out)
    end
  else ({| w_conn := conn; w_count := count; w_status := Running |},
        out ++ map WMetric dec_backlog).

(** After the loop. *)
Definition finish (w : writer) (now : instant) : writer * list wout :=
  let '(conn, committed) := tx_commit (w_conn w) in
  ({| w_conn := conn; w_count := w_count w; w_status := Ended |},
   report "db final commit error: " committed ++ map WMetric (set_last_flush now)).

Definition background_writer_step (w : writer) (x : instant * StorageCommand)
    : writer * list wout :=
  match w_status w with
  | Running =>
      match x.2 with
      | StShutdown => finish w x.1
      | cmd => handle_command w x.1 cmd
      end
  | _ => (w, [])
  end.

(** The writer before its loop, on the connection it opened. *)
Definition writer_start (c : C) : writer :=
  match conn_transaction c with
  | Some conn => {| w_conn := conn; w_count := 0; w_status := Running |}
  | None => {| w_conn := c; w_count := 0; w_status := Panicked |}
  end.

#[global] Instance sqlite_writer : Writer writer := {|
  writer_step := background_writer_step;
  writer_status := w_status |}.

Lemma report_metrics prefix e : wout_metrics (report prefix e) = [].
Proof. by destruct e. Qed.

#[global] Instance sqlite_writer_laws : WriterLaws writer.
Proof.
  split; cbn; intros w now.
  - intros cmd Hr Hne. assert (background_writer_step w (now, cmd) = handle_command w now cmd) as ->.
    { unfold background_writer_step; cbn. rewrite Hr. by destruct cmd. }
    unfold handle_command. destruct (execute_command (w_conn w) cmd) as [c e].
    case_match; [destruct (tx_commit c); case_match|]; cbn [fst snd w_status];
      rewrite ?wout_metrics_app, ?report_metrics, ?wout_metrics_map;
      repeat case_decide; try done; (split_and!; [done..|cbn; lia]).
  - intros Hr. unfold background_writer_step; cbn. rewrite Hr. unfold finish.
    destruct (tx_commit (w_conn w)). cbn [fst snd w_status].
    rewrite wout_metrics_app, report_metrics, wout_metrics_map. split_and!; [done..|cbn; lia].
Qed.
End writer.

(** ** What the writer keeps *)
Section keeps.
Context `{Json} `{Rfc3339} {C : Type} `{DatabaseLaws C (table_row string Z)}.

Definition all_rows (c : C) : list (table_row string Z) := committed c ++ tx_rows c.

Lemma execute_until_error_rows c rows c' e :
  execute_until_error c rows = (c', e) ->
  all_rows c' `sublist_of` all_rows c ++ rows /\ committed c `prefix_of` committed c' /\
  (e = None -> all_rows c' = all_rows c ++ rows /\
    (in_tx c = true -> in_tx c' = true /\ committed c' = committed c)).
Proof.
  revert c. induction rows as [|r rows IH]; intros c Hc; cbn in Hc.
  - simplify_eq. rewrite app_nil_r. split_and!; done.
  - destruct (tx_execute c r) as [c1 [e1|]] eqn:He.
    + simplify_eq. destruct (execute_err _ _ _ _ He) as [Hs Hp]. split_and!; [|done..].
      by apply sublist_inserts_r.
    + destruct (execute_ok _ _ _ He) as [Ha Hp], (IH _ Hc) as (Hs&Hp'&Hok).
      assert (all_rows c ++ r :: rows = all_rows c1 ++ rows) as ->.
      { unfold all_rows at 2. rewrite Ha. by rewrite <- (assoc_L (++)). }
      split_and!; [done|by etrans|]. intros ->. destruct (Hok eq_refl) as [Hr Ht].
      split; [done|]. intros Hin. destruct (execute_tx _ _ _ He Hin) as [Hin1 Hc1].
      destruct (Ht Hin1) as [??]. split; [done|by etrans].
Qed.

(** Every command is executed as its rows one by one. *)
Lemma execute_command_rows c cmd :
  execute_command c cmd = execute_until_error c (command_rows cmd).
Proof. destruct cmd; cbn; try done; by destruct (tx_execute _ _) as [? []]. Qed.

(** A writer that has handled the commands [cs] and reported the errors [hs]: nothing is
    in the database that was not there or is not a row of a command, in order; and
    without an error the rows of all but the last few commands are committed, and of all
    of them once it has ended. *)
Definition keeps (base : list (table_row string Z)) (w : writer) (cs : list StorageCommand)
    (hs : list string) : Prop :=
  in_s 32 (w_count w) /\ all_rows (w_conn w) `sublist_of` base ++ rows_of cs /\
  (hs = [] -> exists cs1 cs2, cs = cs1 ++ cs2 /\
    Z.of_nat (length cs2) <= w_count w mod 100 /\
    committed (w_conn w) = base ++ rows_of cs1 /\ tx_rows (w_conn w) = rows_of cs2 /\
    (w_status w = Running -> in_tx (w_conn w) = true) /\ (w_status w = Ended -> cs2 = [])).

Lemma count_step z :
  in_s 32 z -> Z.rem (i32_add z 1) 100 <> 0 -> z mod 100 + 1 <= i32_add z 1 mod 100.
Proof.
  intros Hz Hr. unfold i32_add, in_s in *.
  destruct (decide (z = 2 ^ 31 - 1)) as [->|Hne]; [done|].
  rewrite sw_small in * by (unfold in_s; lia).
  assert ((z + 1) mod 100 <> 0) as Hm.
  { contradict Hr. apply Z.rem_divide; [done|]. by apply Z.mod_divide. }
  rewrite next_mod by done. lia.
Qed.

Lemma wout_health_report prefix e : wout_health (report prefix e) = [] -> e = None.
Proof. by destruct e. Qed.

(** Executing a command, and closing the transaction. *)
Lemma execute_keeps base w cs hs cmd conn e :
  keeps base w cs hs -> w_status w = Running -> execute_command (w_conn w) cmd = (conn, e) ->
  all_rows conn `sublist_of` base ++ rows_of (cs ++ [cmd]) /\
  (hs = [] -> e = None -> exists cs1 cs2, cs = cs1 ++ cs2 /\
    Z.of_nat (length cs2) <= w_count w mod 100 /\ committed conn = base ++ rows_of cs1 /\
    tx_rows conn = rows_of (cs2 ++ [cmd]) /\ in_tx conn = true).
Proof.
  intros (_&Hs&Hk) Hr He. rewrite execute_command_rows in He.
  destruct (execute_until_error_rows _ _ _ _ He) as (Hs'&_&Hok). rewrite rows_of_app, rows_of_one.
  split.
  - rewrite (assoc_L (++)). etrans; [done|]. by apply sublist_app.
  - intros -> ->. destruct (Hk eq_refl) as (cs1&cs2&->&Hl&Hc&Ht&Hin&_), (Hok eq_refl) as [Ha Hi].
    destruct (Hi (Hin Hr)) as [Hi' Hc']. exists cs1, cs2. split_and!; try done; [by rewrite Hc'|].
    unfold all_rows in Ha. rewrite Hc', <- (assoc_L (++)) in Ha. apply app_inv_head in Ha.
    by rewrite rows_of_app, rows_of_one, Ha, Ht.
Qed.

Lemma commit_rows c c' e :
  tx_commit c = (c', e) -> committed c' ++ tx_rows c' `sublist_of` all_rows c /\
  (e = None -> committed c' = all_rows c /\ tx_rows c' = []).
Proof.
  destruct e as [e|]; intros Hc; [by destruct (commit_err _ _ _ Hc)|].
  destruct (commit_ok _ _ Hc) as [Hc' Ht']. rewrite Hc', Ht', app_nil_r. done.
Qed.

(** A commit whose connection goes on as [c2]: in a new transaction, or in none. *)
Lemma commit_keeps base cs conn c1 e c2 count st (good : Prop) hs :
  all_rows conn `sublist_of` base ++ rows_of cs ->
  (good -> all_rows conn = base ++ rows_of cs) ->
  tx_commit conn = (c1, e) -> committed c2 = committed c1 ->
  (tx_rows c2 = tx_rows c1 \/ tx_rows c2 = []) -> (st = Running -> in_tx c2 = true) ->
  in_s 32 count -> (hs = [] -> good /\ e = None) ->
  keeps base {| w_conn := c2; w_count := count; w_status := st |} cs hs.
Proof.
  intros Hs Hg Hc Hc2 Ht2 Hin Hcount Hhs. destruct (commit_rows _ _ _ Hc) as [Hs1 Hok].
  split_and!; [done| |].
  - etrans; [|exact Hs]. etrans; [|exact Hs1]. unfold all_rows; cbn. rewrite Hc2.
    apply sublist_app; [done|]. destruct Ht2 as [->| ->]; [done|apply sublist_nil_l].
  - intros Hnil. destruct (Hhs Hnil) as [Hgood He]. destruct (Hok He) as [Hc1 Ht1].
    exists cs, []. rewrite app_nil_r. cbn. split_and!; try done.
    + pose proof (Z.mod_pos_bound count 100). lia.
    + rewrite Hc2, Hc1. by apply Hg.
    + destruct Ht2 as [->| ->]; [by rewrite Ht1|done].
Qed.

Lemma handle_keeps base w cs hs cmd now :
  keeps base w cs hs -> w_status w = Running ->
  let r := handle_command w now cmd in
  keeps base r.1 (cs ++ [cmd]) (hs ++ wout_health r.2).
Proof.
  intros Hk Hr. pose proof Hk as (Hcount&_). unfold handle_command.
  destruct (execute_command (w_conn w) cmd) as [conn e] eqn:He.
  destruct (execute_keeps _ _ _ _ _ _ _ Hk Hr He) as [Hs Hok].
  assert (in_s 32 (i32_add (w_count w) 1)) as Hcount' by by apply sw_bound.
  assert (hs = [] /\ e = None -> all_rows conn = base ++ rows_of (cs ++ [cmd])) as Hgood.
  { intros [Hh He0]. destruct (Hok Hh He0) as (cs1&cs2&->&_&Hc&Ht&_). unfold all_rows.
    rewrite Hc, Ht, <- (assoc_L (++)), <- rows_of_app. by rewrite (assoc_L (++) cs1). }
  destruct (Z.eqb_spec (Z.rem (i32_add (w_count w) 1) 100) 0) as [Hz|Hz].
  - destruct (tx_commit conn) as [c1 e1] eqn:Hc.
    assert (forall k, hs ++ wout_health (report "db write error: " e ++
      report "db commit error: " e1 ++ map WMetric k) = [] -> (hs = [] /\ e = None) /\ e1 = None).
    { intros k. rewrite !wout_health_app. intros [? [? [? _]%app_nil]%app_nil]%app_nil.
      eauto using wout_health_report. }
    destruct (conn_transaction c1) as [c2|] eqn:Hb; cbn [fst snd];
      rewrite ?(wout_health_app (_ ++ _)), ?wout_health_metrics, ?app_nil_r.
    + destruct (begin_ok _ _ Hb) as (?&?&?). eapply commit_keeps; eauto.
    + eapply commit_keeps; eauto. done.
  - cbn [fst snd]. rewrite wout_health_app, wout_health_metrics, app_nil_r.
    split_and!; [done..|]. intros [Hh He0]%app_nil.
    destruct (Hok Hh (wout_health_report _ _ He0)) as (cs1&cs2&->&Hl&Hcm&Htx&Hin).
    exists cs1, (cs2 ++ [cmd]). rewrite <- (assoc_L (++)). split_and!; try done.
    rewrite length_app. pose proof (count_step _ Hcount Hz). cbn. lia.
Qed.

Lemma finish_keeps base w cs hs now :
  keeps base w cs hs ->
  let r := finish w now in keeps base r.1 cs (hs ++ wout_health r.2).
Proof.
  intros (Hcount&Hs&Hk). unfold finish. destruct (tx_commit (w_conn w)) as [c e] eqn:Hc.
  cbn [fst snd]. rewrite wout_health_app, wout_health_metrics, app_nil_r.
  eapply commit_keeps with (good := hs = []); try done; eauto.
  - intros Hh. destruct (Hk Hh) as (cs1&cs2&->&_&Hcm&Htx&_). unfold all_rows.
    by rewrite Hcm, Htx, <- (assoc_L (++)), <- rows_of_app.
  - intros [? ?]%app_nil. eauto using wout_health_report.
Qed.

(** The commands a writer receives, with what the clock reads at each. *)
Definition writer_run (w : writer) (xs : list (instant * StorageCommand)) : writer * list wout :=
  run_list background_writer_step w xs.

Definition no_shutdown (xs : list (instant * StorageCommand)) : Prop :=
  Forall (fun x => x.2 <> StShutdown) xs.

Lemma step_running w x :
  w_status w = Running -> x.2 <> StShutdown ->
  background_writer_step w x = handle_command w x.1 x.2.
Proof. destruct x as [now []]; cbn; unfold background_writer_step; cbn; intros ->; done. Qed.

Lemma step_stopped w x : w_status w <> Running -> background_writer_step w x = (w, []).
Proof. unfold background_writer_step. by destruct (w_status w). Qed.

Lemma handle_status w now cmd : w_status (handle_command w now cmd).1 <> Ended.
Proof.
  unfold handle_command. destruct (execute_command _ _). case_match; [|done].
  destruct (tx_commit _). by case_match.
Qed.

(** A writer handles every command unless it panics. *)
Lemma writer_run_keeps base w xs :
  keeps base w [] [] -> w_status w <> Ended -> no_shutdown xs ->
  let r := writer_run w xs in
  w_status r.1 <> Ended /\ exists taken, taken `prefix_of` map snd xs /\
    keeps base r.1 taken (wout_health r.2) /\ (w_status r.1 = Running -> taken = map snd xs).
Proof.
  intros Hk He. induction xs as [|x xs IH] using rev_ind; intros Hx; cbn zeta.
  { split; [done|]. by exists []. }
  apply Forall_app in Hx as [Hxs [Hx _]%Forall_cons].
  destruct (IH Hxs) as (He1&taken&Hp&Hk1&Hr1). unfold writer_run in *.
  rewrite run_list_app, map_app. destruct (run_list background_writer_step w xs) as [w1 out].
  cbn [fst snd] in *. rewrite run_list_cons. cbn [run_list fst snd]. rewrite app_nil_r.
  destruct (decide (w_status w1 = Running)) as [Hr|Hr].
  - rewrite step_running by done. specialize (Hr1 Hr) as ->.
    pose proof (handle_keeps _ _ _ _ x.2 x.1 Hk1 Hr). split; [apply handle_status|].
    exists (map snd xs ++ [x.2]). rewrite wout_health_app. by split_and!.
  - rewrite step_stopped by done. cbn [fst snd]. rewrite app_nil_r. split; [done|].
    exists taken. split_and!; [by apply prefix_app_r|done..].
Qed.

Lemma start_keeps c : tx_rows c = [] -> keeps (committed c) (writer_start c) [] [].
Proof.
  intros Ht. unfold keeps, writer_start, all_rows. rewrite app_nil_r.
  destruct (conn_transaction c) as [c'|] eqn:Hb; cbn.
  - destruct (begin_ok _ _ Hb) as (->&->&?). rewrite app_nil_r. split_and!; [done..|].
    intros _. exists [], []. cbn. by rewrite app_nil_r.
  - rewrite Ht, app_nil_r. split_and!; [done..|]. intros _. exists [], []. cbn. by rewrite app_nil_r.
Qed.

Lemma start_not_ended c : w_status (writer_start c) <> Ended.
Proof. unfold writer_start. by destruct (conn_transaction c). Qed.

(** A writer that has ended on [Shutdown] without an error has stored everything. *)
Lemma writer_stores_all c0 xs now :
  tx_rows c0 = [] -> no_shutdown xs ->
  let f := writer_run (writer_start c0) (xs ++ [(now, StShutdown)]) in
  w_status f.1 = Ended -> wout_health f.2 = [] ->
  committed (w_conn f.1) = committed c0 ++ rows_of (map snd xs).
Proof.
  intros Ht Hx. unfold writer_run. rewrite run_list_app.
  destruct (writer_run_keeps _ _ xs (start_keeps _ Ht) (start_not_ended c0) Hx)
    as (Hne&taken&_&Hk&Hr). unfold writer_run in *.
  destruct (run_list background_writer_step (writer_start c0) xs) as [w out]; cbn [fst snd] in *.
  rewrite run_list_cons. cbn [run_list fst snd]. rewrite app_nil_r. cbv zeta.
  destruct (decide (w_status w = Running)) as [Hw|Hw]; [|by rewrite step_stopped].
  unfold background_writer_step; cbn [fst snd]. rewrite Hw. rewrite (Hr Hw) in Hk.
  pose proof (finish_keeps _ _ _ _ now Hk) as (_&_&Hf). cbn zeta in Hf.
  intros He Hh. rewrite wout_health_app in Hh.
  destruct (Hf Hh) as (cs1&cs2&Hcs&_&Hc&_&_&Hnil). by rewrite Hc, Hcs, (Hnil He), app_nil_r.
Qed.

(** C20: whatever the database reports, the writer stores rows of the commands, in their
    order, each at most once, and touches nothing stored before; as long as it has
    reported no error to the health list, all but the last 99 commands are in the
    database; and when it has ended on [Shutdown] without one, all of them are. *)
Theorem sqlite_writer_stores c0 xs :
  tx_rows c0 = [] -> no_shutdown xs ->
  let cs := map snd xs in
  let r := writer_run (writer_start c0) xs in
  committed (w_conn r.1) `sublist_of` committed c0 ++ rows_of cs /\
  (w_status r.1 = Running -> wout_health r.2 = [] -> exists cs1 cs2,
    cs = cs1 ++ cs2 /\ (length cs2 <= 99)%nat /\
    committed (w_conn r.1) = committed c0 ++ rows_of cs1) /\
  forall now, let f := writer_run (writer_start c0) (xs ++ [(now, StShutdown)]) in
    w_status f.1 = Ended -> wout_health f.2 = [] ->
    committed (w_conn f.1) = committed c0 ++ rows_of cs.
Proof.
  intros Ht Hx cs r.
  destruct (writer_run_keeps _ _ xs (start_keeps _ Ht) (start_not_ended c0) Hx)
    as (Hne&taken&Hp&Hk&Hr). fold r in Hne, Hk, Hr. pose proof Hk as (_&Hs&Hgood).
  split_and!; [| |intros now; by apply writer_stores_all].
  - etrans; [apply sublist_inserts_r; reflexivity|]. etrans; [exact Hs|].
    apply sublist_app; [done|]. destruct Hp as [k Hk']. subst cs. rewrite Hk', rows_of_app.
    by apply sublist_inserts_r.
  - intros Hrun Hh. destruct (Hgood Hh) as (cs1&cs2&Htk&Hl&Hc&_). exists cs1, cs2.
    split_and!; [by rewrite <- Htk; symmetry; apply Hr| |done].
    pose proof (Z.mod_pos_bound (w_count r.1) 100). lia.
Qed.
End keeps.
Arguments writer C : clear implicits.
End Sqlite.

(** ** DuckDB *)
Module Duckdb.

Inductive control := Begin | Commit | Rollback.

(** What the writer uses of the duckdb crate: [prepare] of an INSERT, which may fail,
    [execute] of one, and [execute_batch] of transaction statements; and views of the
    state: the rows other connections read, those of the transaction, and whether one is
    open in which no statement has failed. *)
Class Database (C R : Type) := {
  prepare_ok : C -> bool;
  execute : C -> R -> C * option string;
  execute_batch : C -> list control -> C * option string;
  committed : C -> list R;
  tx_rows : C -> list R;
  in_tx : C -> bool
}.

(** Inside a transaction a statement adds its row to it or fails without effect on the
    database; [COMMIT] adds the transaction to the database; [ROLLBACK] drops it. *)
Class DatabaseLaws (C R : Type) `{Database C R} : Prop := {
  execute_ok c r c' : in_tx c = true -> execute c r = (c', None) ->
    committed c' = committed c /\ tx_rows c' = tx_rows c ++ [r] /\ in_tx c' = true;
  execute_err c r c' e : execute c r = (c', Some e) -> committed c' = committed c;
  commit_ok c c' : in_tx c = true -> execute_batch c [Commit] = (c', None) ->
    committed c' = committed c ++ tx_rows c;
  commit_begin_ok c c' : in_tx c = true -> execute_batch c [Commit; Begin] = (c', None) ->
    committed c' = committed c ++ tx_rows c /\ tx_rows c' = [] /\ in_tx c' = true;
  rollback_ok c c' : execute_batch c [Rollback; Begin] = (c', None) ->
    committed c' = committed c /\ tx_rows c' = [] /\ in_tx c' = true;
  begin_ok c c' : execute_batch c [Begin] = (c', None) ->
    committed c' = committed c /\ tx_rows c' = [] /\ in_tx c' = true
}.

Section writer.
Context `{Json} {T : Type} `{TimestampTz T} {C : Type} `{Database C (table_row T bool)}.

Record writer := { w_conn : C; w_count : Z; w_status : wstatus }.

(** [None]: the [expect] of [prepare] fails. *)
Definition prepare_execute (c : C) (r : table_row T bool) : option (C * option string) :=
  if prepare_ok c then Some (execute c r) else None.

(** The errors of compact events are dropped. *)
Definition execute_command (c : C) (cmd : StorageCommand) : option (C * option string) :=
  match cmd with
  | StRawEvent e => prepare_execute c (RawEvents (encode_raw_event e))
  | StRecord r => prepare_execute c (ActivityRecords (encode_record r))
  | StEnvelope env => prepare_execute c (RawEnvelopes (encode_envelope env))
  | StCompactEvents events =>
      Some (foldl (fun c ce => (execute c (CompactEvents (encode_compact ce))).1) c events, None)
  | StTransition t => Some (execute c (RecentTransitions (encode_transition t)))
  | StShutdown => Some (c, None)
  end.

(** An iteration of the loop for a command other than [Shutdown]. *)
Definition handle_command (w : writer) (now : instant) (cmd : StorageCommand)
    : writer * list wout :=
  match execute_command (w_conn w) cmd with
  | None => ({| w_conn := w_conn w; w_count := w_count w; w_status := Panicked |}, [])
  | Some (conn, result) =>
      let '(conn, out) := match result with
        | Some e => ((execute_batch conn [Rollback; Begin]).1,
                     [WHealth ("duckdb write error: " +:+ e)])
        | None => (conn, [])
        end in
      let count := u64_add (w_count w) 1 in
      let '(conn, out) := if count mod 100 =? 0 then
          let '(conn, e) := execute_batch conn [Commit; Begin] in
          (conn, out ++ match e with
                        | Some e => [WHealth ("duckdb commit error: " +:+ e)]
                        | None => []
                        end ++ map WMetric (set_last_flush now))
        else (conn, out) in
      ({| w_conn := conn; w_count := count; w_status := Running |},
       out ++ map WMetric dec_backlog)
  end.

Definition finish (w : writer) (now : instant) : writer * list wout :=
  let '(conn, e) := execute_batch (w_conn w) [Commit] in
  ({| w_conn := conn; w_count := w_count w; w_status := Ended |},
   match e with
   | Some e => [WHealth ("duckdb final commit error: " +:+ e)]
   | None => []
   end ++ map WMetric (set_last_flush now)).

Definition background_writer_step (w : writer) (x : instant * StorageCommand)
    : writer * list wout :=
  match w_status w with
  | Running =>
      match x.2 with
      | StShutdown => finish w x.1
      | cmd => handle_command w x.1 cmd
      end
  | _ => (w, [])
  end.

Definition writer_start (c : C) : writer :=
  match execute_batch c [Begin] with
  | (conn, None) => {| w_conn := conn; w_count := 0; w_status := Running |}
  | (conn, Some _) => {| w_conn := conn; w_count := 0; w_status := Panicked |}
  end.

#[global] Instance duckdb_writer : Writer writer := {|
  writer_step := background_writer_step;
  writer_status := w_status |}.

Lemma duck_report_metrics prefix (e : option string) :
  wout_metrics (match e with Some e => [WHealth (prefix +:+ e)] | None => [] end) = [].
Proof. by destruct e. Qed.

#[global] Instance duckdb_writer_laws : WriterLaws writer.
Proof.
  split; cbn; intros w now.
  - intros cmd Hr Hne. assert (background_writer_step w (now, cmd) = handle_command w now cmd) as ->.
    { unfold background_writer_step; cbn. rewrite Hr. by destruct cmd. }
    unfold handle_command. destruct (execute_command (w_conn w) cmd) as [[c e]|].
    2: { case_decide; [|done]. cbn. split_and!; [done..|lia]. }
    destruct e as [e|]; destruct (_ =? 0);
      try destruct (execute_batch _ [Commit; Begin]) as [? []];
      cbn [fst snd w_status]; rewrite ?wout_metrics_app, ?wout_metrics_map;
      case_decide; try done; (split_and!; [done..|cbn; lia]).
  - intros Hr. unfold background_writer_step; cbn. rewrite Hr. unfold finish.
    destruct (execute_batch (w_conn w) [Commit]). cbn [fst snd w_status].
    rewrite wout_metrics_app, duck_report_metrics, wout_metrics_map. split_and!; [done..|cbn; lia].
Qed.
End writer.

Section keeps.
Context `{Json} {T : Type} `{TimestampTz T} {C : Type} `{DatabaseLaws C (table_row T bool)}.

(** A database that accepts every statement. *)
Record accepts_all : Prop := {
  accepts_prepare c : in_tx c = true -> prepare_ok c = true;
  accepts_execute c r : in_tx c = true -> (execute c r).2 = None;
  accepts_commit c : in_tx c = true -> (execute_batch c [Commit]).2 = None;
  accepts_commit_begin c : in_tx c = true -> (execute_batch c [Commit; Begin]).2 = None
}.

(** One row per command, or a batch of compact events. *)
Lemma duck_execute_rows c cmd :
  accepts_all -> in_tx c = true ->
  exists c', execute_command c cmd = Some (c', None) /\ committed c' = committed c /\
    tx_rows c' = tx_rows c ++ command_rows cmd /\ in_tx c' = true.
Proof.
  intros Ha Hin.
  assert (forall r, exists c', execute c r = (c', None) /\ committed c' = committed c /\
    tx_rows c' = tx_rows c ++ [r] /\ in_tx c' = true) as Hone.
  { intros r. pose proof (accepts_execute Ha c r Hin) as Hr.
    destruct (execute c r) as [c' e] eqn:He; cbn in Hr; subst. exists c'.
    split; [done|]. by apply execute_ok. }
  destruct cmd as [e|r|env|l|t|]; cbn [execute_command command_rows]; unfold prepare_execute;
    rewrite ?(accepts_prepare Ha c Hin);
    try by (edestruct Hone as (c'&->&?); exists c').
  2: { exists c. by rewrite app_nil_r. }
  clear Hone. eexists. split; [done|]. revert c Hin. induction l as [|ce l IH]; intros c Hin; cbn.
  - by rewrite app_nil_r.
  - pose proof (accepts_execute Ha c (CompactEvents (encode_compact ce)) Hin) as Hr.
    destruct (execute c (CompactEvents (encode_compact ce))) as [c' e] eqn:He; cbn in Hr |- *; subst.
    destruct (execute_ok _ _ _ Hin He) as (Hc&Ht&Hi), (IH _ Hi) as (->&->&->).
    by rewrite Hc, Ht, <- (assoc_L (++)).
Qed.

Definition keeps (base : list (table_row T bool)) (w : writer (C:=C)) (cs : list StorageCommand) : Prop :=
  in_u 64 (w_count w) /\ w_status w = Running /\ in_tx (w_conn w) = true /\
  exists cs1 cs2, cs = cs1 ++ cs2 /\ Z.of_nat (length cs2) <= w_count w mod 100 /\
    committed (w_conn w) = base ++ rows_of cs1 /\ tx_rows (w_conn w) = rows_of cs2.

Lemma duck_count_step z :
  in_u 64 z -> u64_add z 1 mod 100 <> 0 -> z mod 100 + 1 <= u64_add z 1 mod 100.
Proof.
  intros Hz Hr. unfold u64_add, in_u in *.
  destruct (decide (z = 2 ^ 64 - 1)) as [->|Hne]; [done|].
  rewrite uw_small in * by (unfold in_u; lia). rewrite next_mod by done. lia.
Qed.


Lemma duck_handle_keeps base w cs cmd now :
  accepts_all -> keeps base w cs ->
  let r := handle_command w now cmd in
  keeps base r.1 (cs ++ [cmd]) /\ wout_health r.2 = [].
Proof.
  intros Ha (Hcount&_&Hin&cs1&cs2&->&Hl&Hc&Ht). unfold handle_command.
  destruct (duck_execute_rows (w_conn w) cmd Ha Hin) as (c'&->&Hc'&Ht'&Hin').
  assert (in_u 64 (u64_add (w_count w) 1)) as Hcount' by by apply uw_bound.
  destruct (Z.eqb_spec (u64_add (w_count w) 1 mod 100) 0) as [Hz|Hz].
  - pose proof (accepts_commit_begin Ha c' Hin') as Hok.
    destruct (execute_batch c' [Commit; Begin]) as [c2 e] eqn:Hb; cbn in Hok; subst e.
    destruct (commit_begin_ok _ _ Hin' Hb) as (Hc2&Ht2&Hin2). cbn [fst snd app].
    rewrite wout_health_app, !wout_health_metrics. split; [|done]. split_and!; [done..|].
    exists ((cs1 ++ cs2) ++ [cmd]), []. rewrite app_nil_r. cbn. split_and!; [done|lia| |done].
    by rewrite Hc2, Hc', Ht', Hc, Ht, !rows_of_app, rows_of_one, <- !(assoc_L (++)).
  - cbn [fst snd app]. rewrite wout_health_metrics. split; [|done]. split_and!; [done..|].
    exists cs1, (cs2 ++ [cmd]). cbn. split_and!; [by rewrite (assoc_L (++))| | |].
    + rewrite length_app. pose proof (duck_count_step _ Hcount Hz). cbn. lia.
    + by rewrite Hc'.
    + by rewrite Ht', Ht, rows_of_app, rows_of_one.
Qed.

Definition writer_run (w : writer) (xs : list (instant * StorageCommand)) : writer * list wout :=
  run_list background_writer_step w xs.

Lemma duck_writer_run_keeps base w xs :
  accepts_all -> keeps base w [] -> Forall (fun x => x.2 <> StShutdown) xs ->
  keeps base (writer_run w xs).1 (map snd xs) /\ wout_health (writer_run w xs).2 = [].
Proof.
  intros Ha Hk. induction xs as [|x xs IH] using rev_ind; intros Hx; [done|].
  apply Forall_app in Hx as [Hxs [Hx _]%Forall_cons].
  destruct (IH Hxs) as [Hk1 Hh1]. unfold writer_run in *.
  rewrite run_list_app, map_app. destruct (run_list background_writer_step w xs) as [w1 out].
  cbn [fst snd] in *. rewrite run_list_cons. cbn [run_list fst snd]. rewrite app_nil_r.
  pose proof Hk1 as (_&Hr&_). destruct (duck_handle_keeps _ _ _ x.2 x.1 Ha Hk1) as [Hk2 Hh2].
  assert (background_writer_step w1 x = handle_command w1 x.1 x.2) as ->.
  { unfold background_writer_step. rewrite Hr. by destruct (x.2). }
  by rewrite wout_health_app, Hh1, Hh2.
Qed.

Lemma duck_start_keeps c :
  (execute_batch c [Begin]).2 = None -> keeps (committed c) (writer_start c) [].
Proof.
  intros Hok. unfold keeps, writer_start.
  destruct (execute_batch c [Begin]) as [c' e] eqn:Hb; cbn in Hok; subst e.
  destruct (begin_ok _ _ Hb) as (Hc&Ht&Hin). cbn. split_and!; [done..|].
  exists [], []. cbn. by rewrite app_nil_r.
Qed.

(** On a database that accepts every statement the writer commits all but the last 99
    commands at once, and all of them when it receives [Shutdown], without a message. *)
Theorem duckdb_writer_stores c0 xs now :
  accepts_all -> (execute_batch c0 [Begin]).2 = None ->
  Forall (fun x => x.2 <> StShutdown) xs ->
  let cs := map snd xs in
  let r := writer_run (writer_start c0) xs in
  let f := writer_run (writer_start c0) (xs ++ [(now, StShutdown)]) in
  (exists cs1 cs2, cs = cs1 ++ cs2 /\ (length cs2 <= 99)%nat /\
    committed (w_conn r.1) = committed c0 ++ rows_of cs1) /\
  w_status f.1 = Ended /\ wout_health f.2 = [] /\
  committed (w_conn f.1) = committed c0 ++ rows_of cs.
Proof.
  intros Ha Hb Hx cs r f.
  destruct (duck_writer_run_keeps _ _ xs Ha (duck_start_keeps c0 Hb) Hx) as [Hk Hh]. fold r in Hk, Hh.
  pose proof Hk as (_&Hr&Hin&cs1&cs2&Hcs&Hl&Hc&Ht). split.
  - exists cs1, cs2. split_and!; [done| |done].
    pose proof (Z.mod_pos_bound (w_count r.1) 100). lia.
  - subst f cs. unfold writer_run. rewrite run_list_app. fold (writer_run (writer_start c0) xs).
    fold r. destruct r as [w out]; cbn [fst snd] in *.
    rewrite run_list_cons. cbn [run_list fst snd]. rewrite app_nil_r.
    unfold background_writer_step; cbn [fst snd]. rewrite Hr. unfold finish.
    pose proof (accepts_commit Ha (w_conn w) Hin) as Hok.
    destruct (execute_batch (w_conn w) [Commit]) as [c e] eqn:Hcb; cbn in Hok |- *; subst e.
    rewrite wout_health_app, Hh. split_and!; [done..|].
    by rewrite (commit_ok _ _ Hin Hcb), Hc, Ht, Hcs, <- (assoc_L (++)), rows_of_app.
Qed.

(** A statement that fails takes the rows of its transaction with it: up to 99 commands
    whose writes had succeeded are dropped, and one message is all that says so.  Compact
    events that fail are not reported at all. *)
Theorem duckdb_error_drops_batch w now cmd c e :
  execute_command (w_conn w) cmd = Some (c, Some e) ->
  (execute_batch c [Rollback; Begin]).2 = None -> (w_count w + 1) mod 100 <> 0 ->
  in_u 64 (w_count w + 1) ->
  let h := handle_command w now cmd in
  committed (w_conn h.1) = committed (w_conn w) /\ tx_rows (w_conn h.1) = [] /\
  wout_health h.2 = ["duckdb write error: " +:+ e] /\
  forall w' l, (w_count w' + 1) mod 100 <> 0 -> in_u 64 (w_count w' + 1) ->
    wout_health (handle_command w' now (StCompactEvents l)).2 = [].
Proof.
  intros He Hroll Hz Hu. unfold handle_command at 1. rewrite He. unfold u64_add.
  rewrite uw_small, (proj2 (Z.eqb_neq _ _) Hz) by done.
  destruct (execute_batch c [Rollback; Begin]) as [c' e'] eqn:Hb; cbn in Hroll; subst e'.
  destruct (rollback_ok _ _ Hb) as (Hc&Ht&_). cbn [fst snd w_conn].
  rewrite wout_health_app, wout_health_metrics, Hc. split_and!; try done.
  - assert (exists r, execute (w_conn w) r = (c, Some e)) as [r Hr].
    { destruct cmd; cbn in He; unfold prepare_execute in He; try case_match; simplify_eq; eauto. }
    by eapply execute_err.
  - intros w' l Hz' Hu'. unfold handle_command, u64_add; cbn [execute_command].
    rewrite uw_small, (proj2 (Z.eqb_neq _ _) Hz') by done. apply wout_health_metrics.
Qed.
End keeps.
Arguments writer C : clear implicits.
End Duckdb.

(** ** Concrete databases *)
Section memory.
Context {R : Type} (bad : R -> bool).

(** A database in memory that refuses the rows [bad]; [mem_tx] is the open transaction,
    [mem_failed] that a statement has failed in it. *)
Record memory := { mem_rows : list R; mem_tx : option (list R); mem_failed : bool }.
Definition memory_new : memory := {| mem_rows := []; mem_tx := None; mem_failed := false |}.

Definition mem_execute (m : memory) (r : R) : memory * option string :=
  match mem_tx m with
  | None => if bad r then (m, Some "refused") else
      ({| mem_rows := mem_rows m ++ [r]; mem_tx := None; mem_failed := mem_failed m |}, None)
  | Some l => if bad r then (m, Some "refused") else
      ({| mem_rows := mem_rows m; mem_tx := Some (l ++ [r]); mem_failed := mem_failed m |}, None)
  end.

Definition mem_commit (m : memory) : memory * option string :=
  match mem_tx m with
  | None => (m, Some "no transaction")
  | Some l => ({| mem_rows := mem_rows m ++ l; mem_tx := None; mem_failed := false |}, None)
  end.

Definition mem_begin (m : memory) : option memory :=
  match mem_tx m with
  | Some _ => None
  | None => Some {| mem_rows := mem_rows m; mem_tx := Some []; mem_failed := false |}
  end.

#[export] Instance mem_sqlite : Sqlite.Database memory R := {|
  Sqlite.tx_execute := mem_execute;
  Sqlite.tx_commit := mem_commit;
  Sqlite.conn_transaction := mem_begin;
  Sqlite.committed := mem_rows;
  Sqlite.tx_rows m := default [] (mem_tx m);
  Sqlite.in_tx m := bool_decide (is_Some (mem_tx m)) |}.

#[export] Instance mem_sqlite_laws : Sqlite.DatabaseLaws memory R.
Proof.
  split; intros [rows [l|] f]; cbn; unfold mem_execute, mem_commit, mem_begin; cbn; intros;
    repeat case_match; simplify_eq/=; rewrite ?app_nil_r, <- ?(assoc_L (++));
    split_and?; try done; by apply prefix_app_r.
Qed.

(** DuckDB: a failure spoils the transaction. *)
Definition duck_execute (m : memory) (r : R) : memory * option string :=
  if mem_failed m then (m, Some "aborted") else
  match mem_execute m r with
  | (m, Some e) => ({| mem_rows := mem_rows m; mem_tx := mem_tx m;
      mem_failed := bool_decide (is_Some (mem_tx m)) |}, Some e)
  | ok => ok
  end.

Definition duck_control (m : memory) (c : Duckdb.control) : memory * option string :=
  match c, mem_tx m with
  | Duckdb.Begin, None =>
      ({| mem_rows := mem_rows m; mem_tx := Some []; mem_failed := false |}, None)
  | Duckdb.Begin, Some _ => (m, Some "nested")
  | Duckdb.Commit, Some l =>
      if mem_failed m
      then ({| mem_rows := mem_rows m; mem_tx := None; mem_failed := false |}, Some "aborted")
      else ({| mem_rows := mem_rows m ++ l; mem_tx := None; mem_failed := false |}, None)
  | Duckdb.Rollback, Some _ =>
      ({| mem_rows := mem_rows m; mem_tx := None; mem_failed := false |}, None)
  | _, None => (m, Some "no transaction")
  end.

Fixpoint duck_batch (m : memory) (l : list Duckdb.control) : memory * option string :=
  match l with
  | [] => (m, None)
  | c :: l =>
      match duck_control m c with
      | (m, Some e) => (m, Some e)
      | (m, None) => duck_batch m l
      end
  end.

#[export] Instance mem_duckdb : Duckdb.Database memory R := {|
  Duckdb.prepare_ok m := negb (mem_failed m);
  Duckdb.execute := duck_execute;
  Duckdb.execute_batch := duck_batch;
  Duckdb.committed := mem_rows;
  Duckdb.tx_rows m := default [] (mem_tx m);
  Duckdb.in_tx m := bool_decide (is_Some (mem_tx m)) && negb (mem_failed m) |}.

#[export] Instance mem_duckdb_laws : Duckdb.DatabaseLaws memory R.
Proof.
  split; intros [rows [l|] []]; cbn; unfold duck_execute, mem_execute; cbn; intros;
    repeat (case_match; simplify_eq/=); simplify_eq/=; rewrite ?app_nil_r; split_and?; done.
Qed.
End memory.
Arguments memory R : clear implicits.

(** A transition, as a command. *)
Definition transition_ref (t : instant) (from to : ActivityState) : StorageCommand :=
  StTransition {| t_from := from; t_to := to; t_at := t; t_by_signal := None; t_run_id := None |}.

Section examples.
#[local] Existing Instances json_ref rfc3339_ref tz_ref.

Lemma sqlite_writer_stores_witness :
  let bad r := match r with RawEvents _ => true | _ => false end in
  let db := mem_sqlite (R := table_row string Z) bad in
  let row t := RecentTransitions {| tw_at := t; tw_from := "Inactive"; tw_to := "Active";
    tw_by_signal := None; tw_run_id := None |} in
  let xs := [(5, transition_ref 1 Inactive Active); (6, transition_ref 2 Inactive Active)] in
  let r := Sqlite.writer_run (Sqlite.writer_start memory_new) (xs ++ [(9, StShutdown)]) in
  mem_rows (Sqlite.w_conn r.1) = [row "0"; row "00"].
Proof.
  intros bad db row xs r.
  destruct (@Sqlite.sqlite_writer_stores json_ref rfc3339_ref _ db (mem_sqlite_laws bad)
    memory_new xs eq_refl) as (_&_&Hend).
  - by repeat constructor.
  - etrans; [apply (Hend 9); by vm_compute|by vm_compute].
Defined.

Lemma duckdb_writer_stores_witness :
  let db := mem_duckdb (R := table_row Z bool) (fun _ => false) in
  let row t := RecentTransitions {| tw_at := t; tw_from := "Inactive"; tw_to := "Active";
    tw_by_signal := None; tw_run_id := None |} in
  let xs := [(5, transition_ref 1 Inactive Active); (6, transition_ref 2 Inactive Active)] in
  let r := Duckdb.writer_run (Duckdb.writer_start memory_new) (xs ++ [(9, StShutdown)]) in
  mem_rows (Duckdb.w_conn r.1) = [row 1; row 2].
Proof.
  intros db row xs r.
  destruct (@Duckdb.duckdb_writer_stores json_ref Z tz_ref _ db (mem_duckdb_laws _)
    memory_new xs 9) as (_&_&_&Hend).
  - split; intros [rows [l|] []]; try done; intros; by case_match.
  - done.
  - by repeat constructor.
  - etrans; [apply Hend|by vm_compute].
Defined.

(** Three transitions are written; the fourth row is refused. *)
Lemma duckdb_error_drops_batch_witness :
  let bad r := match r with ActivityRecords _ => true | _ => false end in
  let db := mem_duckdb (R := table_row Z bool) bad in
  let xs := [(5, transition_ref 1 Inactive Active); (6, transition_ref 2 Active Passive);
             (7, transition_ref 3 Passive Active)] in
  let w := (Duckdb.writer_run (Duckdb.writer_start memory_new) xs).1 in
  let record := StRecord {| record_id := 1; run_id := None; start_time := 1; end_time := None;
    state := Active; focus_info := None; event_count := 0; triggering_events := [] |} in
  let h := Duckdb.handle_command w 8 record in
  length (Duckdb.tx_rows (Duckdb.w_conn w)) = 3%nat /\
  Duckdb.tx_rows (Duckdb.w_conn h.1) = [] /\
  Duckdb.committed (Duckdb.w_conn h.1) = [] /\
  wout_health h.2 = ["duckdb write error: refused"].
Proof.
  intros bad db xs w record h. split; [by vm_compute|].
  destruct (@Duckdb.duckdb_error_drops_batch json_ref Z tz_ref _ db (mem_duckdb_laws bad)
    w 8 record {| mem_rows := []; mem_tx := mem_tx (Duckdb.w_conn w); mem_failed := true |}
    "refused") as (Hc&Ht&Hh&_); [by vm_compute..|].
  split_and!; [exact Ht| |exact Hh]. etrans; [exact Hc|by vm_compute].
Defined.
End examples.
