(* ===== verification/Queries.v ===== *)
(** The queries of the storage backends: [fetch_records_since], [fetch_envelopes_between]
    and [fetch_recent_transitions] of [crates/storage/src/sqlite3.rs] and [duckdb.rs].

    A query selects rows of what is committed, lets the database order and limit them,
    and decodes each row, an undecodable one ending the query with an error ([None]).
    ORDER BY leaves the order of rows with equal keys open, so it is an operation of the
    database of which only sortedness is known. *)
From S2P Require Import Prelude Events Records SnapshotBus CompactEvents PipelineTypes.
From S2P Require Import Codec Writers.

(** What SELECT does with the selected rows: sort them by a time column, cut them off,
    and show the [id] column. *)
Class Sql (T : Type) := {
  order_asc : forall {A : Type}, (A -> T) -> list A -> list A;
  order_desc : forall {A : Type}, (A -> T) -> list A -> list A;
  limit_rows : forall {A : Type}, Z -> list A -> option (list A);
  with_id : forall {A : Type}, list A -> list (option Z * A)
}.

Class SqlLaws (T B : Type) `{Columns T B} `{Sql T} : Prop := {
  order_asc_perm {A} (key : A -> T) l : order_asc key l ≡ₚ l;
  order_asc_sorted {A} (key : A -> T) l :
    StronglySorted (fun a b => column_le (key a) (key b) = true) (order_asc key l);
  order_desc_perm {A} (key : A -> T) l : order_desc key l ≡ₚ l;
  order_desc_sorted {A} (key : A -> T) l :
    StronglySorted (fun a b => column_le (key b) (key a) = true) (order_desc key l);
  limit_rows_take {A} n (l : list A) : 0 <= n -> limit_rows n l = Some (take (Z.to_nat n) l);
  with_id_rows {A} (l : list A) : map snd (with_id l) = l
}.

Section queries.
Context `{Json} {T B : Type} `{Columns T B} `{!Sql T}.

(** ** The tables *)
Definition activity_records (db : list (table_row T B)) : list (record_row T) :=
  omap (fun r => match r with ActivityRecords r => Some r | _ => None end) db.
Definition raw_envelopes (db : list (table_row T B)) : list (envelope_row T B) :=
  omap (fun r => match r with RawEnvelopes r => Some r | _ => None end) db.
Definition recent_transitions_table (db : list (table_row T B)) : list (transition_row T) :=
  omap (fun r => match r with RecentTransitions r => Some r | _ => None end) db.

(** [AND run_id = ?], when a run is asked for; NULL equals nothing. *)
Definition of_run (run : option string) (column : option string) : bool :=
  match run with None => true | Some _ => bool_decide (column = run) end.

Definition record_selected (since : T) (run : option string) (row : record_row T) : bool :=
  match rw_end_time row with None => true | Some e => column_le since e end
  && of_run run (rw_run_id row).

Definition fetch_records_since (db : list (table_row T B)) (since : instant)
    (run : option string) : option (list ActivityRecord) :=
  let rows := filter (fun x => record_selected (column_of_time since) run x.2 = true)
    (with_id (activity_records db)) in
  mapM (fun x => decode_record x.1 x.2) (order_asc (fun x => rw_start_time x.2) rows).

Definition fetch_envelopes_between (db : list (table_row T B)) (since until : instant)
    : option (list EventEnvelope) :=
  let rows := filter (fun row => column_le (column_of_time since) (er_timestamp row)
      && column_le (er_timestamp row) (column_of_time until) = true) (raw_envelopes db) in
  mapM decode_envelope (order_asc er_timestamp rows).

Definition fetch_recent_transitions (db : list (table_row T B)) (since : instant)
    (run : option string) (limit : Z) : option (list Transition) :=
  let rows := filter (fun row => column_le (column_of_time since) (tw_at row)
      && of_run run (tw_run_id row) = true) (recent_transitions_table db) in
  rows ← limit_rows (sw 64 limit) (order_desc tw_at rows);
  mapM decode_transition rows.
End queries.

(** ** What the queries answer *)
Section answers.
Context `{Json} {T B : Type} `{ColumnLaws T B} `{!Sql T} `{!SqlLaws T B}.

(** The times [ok] come back as they were and are ordered by their column as they are. *)
Record times_kept (ok : instant -> Prop) : Prop := {
  kept_reads t : ok t -> time_reads t;
  kept_order a b : ok a -> ok b -> column_le (column_of_time a) (column_of_time b) = (a <=? b)
}.

Lemma mapM_rows {I X Y Z} (enc : X -> Y) (dec : I -> Y -> option Z) (st : X -> Z) l xs :
  map snd xs = map enc l -> Forall (fun x => forall i, dec i (enc x) = Some (st x)) l ->
  mapM (fun x => dec x.1 x.2) xs = Some (map st l).
Proof.
  intros Hxs Hl. revert xs Hxs. induction Hl as [|x l Hx Hl IH]; intros [|[i y] xs] Hxs;
    cbn in Hxs; simplify_eq; [done|]. cbn. rewrite Hx. cbn. by rewrite IH.
Qed.

Lemma mapM_rows_plain {X Y Z} (enc : X -> Y) (dec : Y -> option Z) (st : X -> Z) l :
  Forall (fun x => dec (enc x) = Some (st x)) l -> mapM dec (map enc l) = Some (map st l).
Proof. induction 1 as [|x l Hx Hl IH]; cbn; [done|]. rewrite Hx. cbn. by rewrite IH. Qed.

(** Rows that encode [l], permuted, encode a permutation of [l]. *)
Lemma rows_perm {X Y} (enc : X -> Y) l rows :
  rows ≡ₚ map enc l -> exists l', rows = map enc l' /\ l' ≡ₚ l.
Proof.
  intros Hp. apply Permutation_map_inv in Hp as (l'&->&Hp). exists l'.
  split; [done|]. by symmetry.
Qed.

Lemma StronglySorted_map {X Y} (R : Y -> Y -> Prop) (f : X -> Y) l :
  StronglySorted R (map f l) <-> StronglySorted (fun a b => R (f a) (f b)) l.
Proof.
  induction l as [|x l IH]; cbn; split; intros Hs; try constructor; inversion Hs; subst;
    try tauto; by apply Forall_map.
Qed.

Lemma StronglySorted_ok {X} (R S : X -> X -> Prop) (P : X -> Prop) l :
  Forall P l -> (forall a b, P a -> P b -> R a b -> S a b) ->
  StronglySorted R l -> StronglySorted S l.
Proof.
  intros Hl HRS Hs. induction Hs as [|x l Hs IH Hx]; constructor;
    apply Forall_cons in Hl as [Hpx Hl]; [by apply IH|].
  apply Forall_forall. intros y Hy. rewrite Forall_forall in Hx, Hl. eauto.
Qed.

(** What the commands store in each table. *)
Definition command_records (cs : list StorageCommand) : list ActivityRecord :=
  omap (fun c => match c with StRecord r => Some r | _ => None end) cs.
Definition command_envelopes (cs : list StorageCommand) : list EventEnvelope :=
  omap (fun c => match c with StEnvelope e => Some e | _ => None end) cs.
Definition command_transitions (cs : list StorageCommand) : list Transition :=
  omap (fun c => match c with StTransition t => Some t | _ => None end) cs.

Lemma table_records cs :
  activity_records (rows_of (B := B) cs) = map encode_record (command_records cs).
Proof.
  unfold activity_records, rows_of. induction cs as [|c cs IH]; [done|]. cbn [mbind list_bind].
  rewrite omap_app, IH. destruct c as [e|r|e|l|t|]; cbn; try done. by induction l.
Qed.

Lemma table_envelopes cs :
  raw_envelopes (rows_of (B := B) cs) = map encode_envelope (command_envelopes cs).
Proof.
  unfold raw_envelopes, rows_of. induction cs as [|c cs IH]; [done|]. cbn [mbind list_bind].
  rewrite omap_app, IH. destruct c as [e|r|e|l|t|]; cbn; try done. by induction l.
Qed.

Lemma table_transitions cs :
  recent_transitions_table (rows_of (B := B) cs) = map encode_transition (command_transitions cs).
Proof.
  unfold recent_transitions_table, rows_of. induction cs as [|c cs IH]; [done|].
  cbn [mbind list_bind].
  rewrite omap_app, IH. destruct c as [e|r|e|l|t|]; cbn; try done. by induction l.
Qed.

Lemma filter_map_rows {X Y} (f : X -> Y) (p : Y -> bool) l :
  filter (fun y => p y = true) (map f l) = map f (filter (fun x => p (f x) = true) l).
Proof.
  induction l as [|x l IH]; cbn [map]; [done|]. rewrite !filter_cons, IH.
  by repeat case_decide.
Qed.

Lemma filter_snd {X Y} (p : Y -> bool) (l : list (X * Y)) :
  map snd (filter (fun x => p x.2 = true) l) = filter (fun y => p y = true) (map snd l).
Proof.
  induction l as [|x l IH]; [done|]. cbn [map]. rewrite !filter_cons.
  case_decide; cbn [map]; by rewrite IH.
Qed.

Lemma filter_bool_ext {X} (p q : X -> bool) l :
  Forall (fun x => p x = q x) l -> filter (fun x => p x = true) l = filter (fun x => q x = true) l.
Proof. induction 1 as [|x l Hx Hl IH]; [done|]. rewrite !filter_cons, Hx, IH. done. Qed.

Lemma Forall_filter_bool {X} (P : X -> Prop) (p : X -> bool) l :
  Forall P l -> Forall P (filter (fun x => p x = true) l).
Proof. induction 1; [constructor|]. rewrite filter_cons. case_decide; by try constructor. Qed.

(** What belongs to the run that a caller asks for, if it asks for one: what was stored with
    that very id, and nothing that was stored without one. *)
Definition belongs (run own : option string) : bool :=
  match run, own with
  | None, _ => true
  | Some id, Some id' => String.eqb id id'
  | Some _, None => false
  end.

Lemma of_run_belongs run own : of_run run own = belongs run own.
Proof.
  destruct run as [id|], own as [id'|]; try done. cbn. destruct (String.eqb_spec id id') as [->|Hne].
  - by apply bool_decide_eq_true.
  - apply bool_decide_eq_false. congruence.
Qed.

(** The records a caller asks for: of its run, and not ended before [since]. *)
Definition wanted_record (since : instant) (run : option string) (r : ActivityRecord) : bool :=
  match end_time r with None => true | Some e => since <=? e end && belongs run (run_id r).

Definition record_kept (ok : instant -> Prop) (r : ActivityRecord) : Prop :=
  in_u 64 (record_id r) /\ ok (start_time r) /\ (forall e, end_time r = Some e -> ok e) /\
  (forall f, focus_info r = Some f -> focus_of_json (json_of_focus f) = Some f).

Lemma record_kept_reads ok r : times_kept ok -> record_kept ok r -> record_reads r.
Proof.
  intros Hok (?&?&He&?). split_and!; [done|by apply Hok| |done]. intros e Hr. by apply Hok, He.
Qed.

(** A query for records answers with the stored records of the run that have not ended
    before [since], oldest first. *)
Theorem fetch_records_answer ok cs since run :
  times_kept ok -> ok since -> Forall (record_kept ok) (command_records cs) ->
  exists out, fetch_records_since (rows_of (B := B) cs) since run = Some out /\
    out ≡ₚ map stored_record
      (filter (fun r => wanted_record since run r = true) (command_records cs)) /\
    StronglySorted (fun a b => start_time a <= start_time b) out.
Proof.
  intros Hok Hs Hcs. unfold fetch_records_since. rewrite table_records. cbv zeta.
  set (l := command_records cs) in *.
  set (rows := order_asc _ _).
  assert (map snd rows ≡ₚ map encode_record (filter (fun r => wanted_record since run r = true) l))
    as Hp.
  { unfold rows. rewrite order_asc_perm, filter_snd, with_id_rows, filter_map_rows.
    erewrite filter_bool_ext; [reflexivity|]. eapply Forall_impl; [exact Hcs|].
    intros r (_&_&He&_). unfold record_selected, wanted_record. rewrite of_run_belongs. cbn.
    destruct (end_time r) as [e|]; cbn; [|done]. rewrite (kept_order _ Hok) by auto. done. }
  apply rows_perm in Hp as (l'&Hrows&Hl').
  assert (Forall (record_kept ok) l') as Hkept.
  { rewrite Hl'. by apply Forall_filter_bool. }
  exists (map stored_record l'). split_and!.
  - apply (mapM_rows encode_record decode_record stored_record _ _ Hrows).
    eapply Forall_impl; [exact Hkept|]. intros r Hr i. by eapply record_roundtrip, record_kept_reads.
  - by rewrite Hl'.
  - apply StronglySorted_map. cbn.
    assert (StronglySorted (fun a b => column_le (rw_start_time a) (rw_start_time b) = true)
      (map encode_record l')) as Hsort.
    { rewrite <- Hrows. apply StronglySorted_map. apply order_asc_sorted. }
    apply StronglySorted_map in Hsort. eapply StronglySorted_ok; [exact Hkept| |exact Hsort].
    intros a b (_&Ha&_) (_&Hb&_). cbn. rewrite (kept_order _ Hok) by done. apply Z.leb_le.
Qed.

Definition envelope_kept (ok : instant -> Prop) (e : EventEnvelope) : Prop :=
  env_fits e /\ in_u 64 (env_id e) /\ ok (env_timestamp e) /\ payload_reads (env_payload e).

Definition stored_envelope (e : EventEnvelope) : EventEnvelope :=
  set_payload e (stored_payload (env_payload e)).

Definition wanted_envelope (since until : instant) (e : EventEnvelope) : bool :=
  (since <=? env_timestamp e) && (env_timestamp e <=? until).

(** A query for envelopes answers with those of the time range, oldest first, as the
    codec gives them back. *)
Theorem fetch_envelopes_answer ok cs since until :
  times_kept ok -> ok since -> ok until -> Forall (envelope_kept ok) (command_envelopes cs) ->
  exists out, fetch_envelopes_between (rows_of (B := B) cs) since until = Some out /\
    out ≡ₚ map stored_envelope (filter (fun e => wanted_envelope since until e = true) (command_envelopes cs)) /\
    StronglySorted (fun a b => env_timestamp a <= env_timestamp b) out.
Proof.
  intros Hok Hs Hu Hcs. unfold fetch_envelopes_between. rewrite table_envelopes. cbv zeta.
  set (l := command_envelopes cs) in *. set (rows := order_asc _ _).
  assert (rows ≡ₚ map encode_envelope (filter (fun e => wanted_envelope since until e = true) l)) as Hp.
  { unfold rows. rewrite order_asc_perm, filter_map_rows.
    erewrite filter_bool_ext; [reflexivity|]. eapply Forall_impl; [exact Hcs|].
    intros e (_&_&He&_). unfold wanted_envelope. cbn. by rewrite !(kept_order _ Hok). }
  apply rows_perm in Hp as (l'&Hrows&Hl').
  assert (Forall (envelope_kept ok) l') as Hkept by (rewrite Hl'; by apply Forall_filter_bool).
  exists (map stored_envelope l'). split_and!; [|by rewrite Hl'|].
  - rewrite Hrows. apply mapM_rows_plain. eapply Forall_impl; [exact Hkept|].
    intros e (?&?&?&?). apply envelope_row_reads; try done. by apply Hok.
  - apply StronglySorted_map. cbn.
    assert (StronglySorted (fun a b => column_le (er_timestamp a) (er_timestamp b) = true)
      (map encode_envelope l')) as Hsort by (rewrite <- Hrows; apply order_asc_sorted).
    apply StronglySorted_map in Hsort. eapply StronglySorted_ok; [exact Hkept| |exact Hsort].
    intros a b (_&_&Ha&_) (_&_&Hb&_). cbn. rewrite (kept_order _ Hok) by done. apply Z.leb_le.
Qed.

Definition wanted_transition (since : instant) (run : option string) (t : Transition) : bool :=
  (since <=? t_at t) && belongs run (t_run_id t).

(** A query for transitions answers with the newest [limit] of the stored transitions of
    the run since [since], newest first. *)
Theorem fetch_transitions_answer ok cs since run limit :
  times_kept ok -> ok since -> Forall (fun t => ok (t_at t)) (command_transitions cs) ->
  0 <= limit < 2 ^ 63 ->
  exists all out, fetch_recent_transitions (rows_of (B := B) cs) since run limit = Some out /\
    all ≡ₚ filter (fun t => wanted_transition since run t = true) (command_transitions cs) /\
    StronglySorted (fun a b => t_at b <= t_at a) all /\ out = take (Z.to_nat limit) all.
Proof.
  intros Hok Hs Hcs Hlim. unfold fetch_recent_transitions. rewrite table_transitions. cbv zeta.
  set (l := command_transitions cs) in *. set (rows := order_desc _ _).
  assert (rows ≡ₚ map encode_transition
    (filter (fun t => wanted_transition since run t = true) l)) as Hp.
  { unfold rows. rewrite order_desc_perm, filter_map_rows.
    erewrite filter_bool_ext; [reflexivity|]. eapply Forall_impl; [exact Hcs|].
    intros t Ht. unfold wanted_transition. rewrite of_run_belongs. cbn. by rewrite (kept_order _ Hok). }
  apply rows_perm in Hp as (l'&Hrows&Hl').
  assert (Forall (fun t => ok (t_at t)) l') as Hkept by (rewrite Hl'; by apply Forall_filter_bool).
  exists l', (take (Z.to_nat limit) l'). split_and!; [|done| |done].
  - rewrite sw_small by (unfold in_s; lia). rewrite limit_rows_take, Hrows by lia. cbn.
    rewrite firstn_map, (mapM_rows_plain encode_transition decode_transition id);
      [by rewrite map_id|].
    apply Forall_take. eapply Forall_impl; [exact Hkept|]. intros t Ht.
    apply transition_roundtrip. by apply Hok.
  - assert (StronglySorted (fun a b => column_le (tw_at b) (tw_at a) = true)
      (map encode_transition l')) as Hsort by (rewrite <- Hrows; apply order_desc_sorted).
    apply StronglySorted_map in Hsort. eapply StronglySorted_ok; [exact Hkept| |exact Hsort].
    intros a b Ha Hb. cbn. rewrite (kept_order _ Hok) by done. apply Z.leb_le.
Qed.
End answers.

(** ** Concrete instances *)
Lemma string_leb_trans a b c :
  String.leb a b = true -> String.leb b c = true -> String.leb a c = true.
Proof.
  unfold String.leb. revert b c. induction a as [|x a IH]; intros [|y b] [|z c]; cbn; try done.
  unfold Ascii.compare.
  destruct (N.compare_spec (Ascii.N_of_ascii x) (Ascii.N_of_ascii y)) as [Hxy|Hxy|Hxy];
    destruct (N.compare_spec (Ascii.N_of_ascii y) (Ascii.N_of_ascii z)) as [Hyz|Hyz|Hyz];
    destruct (N.compare_spec (Ascii.N_of_ascii x) (Ascii.N_of_ascii z)) as [Hxz|Hxz|Hxz];
    try done; try lia. apply IH.
Qed.

(** SELECT over text in memory; rows are numbered from one. *)
Definition sqlite_sql : Sql string := {|
  order_asc A key := sort_by (fun a b => String.leb (key a) (key b));
  order_desc A key := sort_by (fun a b => String.leb (key b) (key a));
  limit_rows A n l := Some (if n <? 0 then l else take (Z.to_nat n) l);
  with_id A l := zip (map Some (seqZ 1 (Z.of_nat (length l)))) l |}.

Lemma sqlite_sql_laws {R : Rfc3339} : @SqlLaws string Z (@sqlite_columns R) sqlite_sql.
Proof.
  split; cbn; intros.
  - apply sort_by_perm.
  - apply sort_by_sorted; [|intros *; apply string_leb_trans]. intros x y Hxy.
    by destruct (String.leb_total (key x) (key y)) as [Ht|Ht]; [rewrite Ht in Hxy|].
  - apply sort_by_perm.
  - apply sort_by_sorted; [|intros * Ha Hb; exact (string_leb_trans _ _ _ Hb Ha)]. intros x y Hxy.
    by destruct (String.leb_total (key y) (key x)) as [Ht|Ht]; [rewrite Ht in Hxy|].
  - by rewrite (proj2 (Z.ltb_ge _ _)).
  - change (map snd ?l) with (snd <$> l). apply snd_zip. rewrite length_map, length_seqZ. lia.
Qed.

Lemma unary_leb n m : String.leb (unary n) (unary m) = (n <=? m)%nat.
Proof. revert m. induction n as [|n IH]; intros [|m]; try done. apply (IH m). Qed.

Lemma unary_length n : String.length (unary n) = n.
Proof. induction n; cbn; congruence. Qed.

Lemma unary_kept : @times_kept string Z (@sqlite_columns rfc3339_ref) (fun t => 0 <= t).
Proof.
  split.
  - intros t Ht. unfold time_reads; cbn. rewrite unary_length. f_equal. lia.
  - intros a b Ha Hb. cbn. rewrite unary_leb.
    destruct (Z.leb_spec a b); [apply Nat.leb_le|apply Nat.leb_gt]; lia.
Qed.

Section examples.
#[local] Existing Instances json_ref rfc3339_ref sqlite_sql sqlite_sql_laws.

Definition record_ref (id start end_ : Z) (run : option string) : StorageCommand :=
  StRecord {| record_id := id; run_id := run; start_time := start; end_time := Some end_;
    state := Active; focus_info := Some (focus_ref "editor"); event_count := 7;
    triggering_events := [1] |}.

Lemma fetch_records_answer_witness :
  exists out, fetch_records_since (rows_of (B := Z) [record_ref 2 5 6 (Some "r");
      record_ref 1 2 5 (Some "r"); record_ref 3 6 9 None]) 6 (Some "r") = Some out /\
    map record_id out = [2].
Proof.
  destruct (fetch_records_answer (fun t => 0 <= t) [record_ref 2 5 6 (Some "r");
    record_ref 1 2 5 (Some "r"); record_ref 3 6 9 None] 6 (Some "r")) as (out&Hout&Hp&_).
  - apply unary_kept.
  - done.
  - repeat constructor; try done; cbn; intros; by simplify_eq.
  - exists out. split; [exact Hout|]. apply Permutation_singleton_r.
    apply (Permutation_map record_id) in Hp. etrans; [exact Hp|by vm_compute].
Defined.

Lemma fetch_envelopes_answer_witness :
  let env i t := {| env_id := i; env_timestamp := t; env_source := Derived;
    env_kind := Hint StateChanged; env_payload := PState Inactive Active; env_derived := true;
    env_polling := false; env_sensitive := false |} in
  exists out, fetch_envelopes_between (rows_of (B := Z) [StEnvelope (env 1 2);
      StEnvelope (env 2 4); StEnvelope (env 3 9)]) 3 8 = Some out /\ out = [env 2 4].
Proof.
  intros env.
  destruct (fetch_envelopes_answer (fun t => 0 <= t) [StEnvelope (env 1 2);
    StEnvelope (env 2 4); StEnvelope (env 3 9)] 3 8) as (out&Hout&Hp&_).
  - apply unary_kept.
  - done.
  - done.
  - by repeat constructor.
  - exists out. split; [exact Hout|]. apply Permutation_singleton_r. etrans; [exact Hp|by vm_compute].
Defined.

Lemma fetch_transitions_answer_witness :
  exists all out, fetch_recent_transitions (rows_of (B := Z) [transition_ref 1 Inactive Active;
      transition_ref 3 Active Passive; transition_ref 2 Passive Active]) 2 None 1 = Some out /\
    out = take 1 all /\ StronglySorted (fun a b => t_at b <= t_at a) all /\ length all = 2%nat.
Proof.
  destruct (fetch_transitions_answer (fun t => 0 <= t) [transition_ref 1 Inactive Active;
    transition_ref 3 Active Passive; transition_ref 2 Passive Active] 2 None 1)
    as (all&out&Hout&Hp&Hs&Ht).
  - apply unary_kept.
  - done.
  - by repeat constructor.
  - done.
  - exists all, out. split_and!; [exact Hout|exact Ht|exact Hs|]. by rewrite Hp.
Defined.
End examples.
