(* ===== verification/Storage.v ===== *)
(** A storage backend in use: the [add_*] operations and the [Drop] of [SqliteStorage]
    and [DuckDbStorage] on the caller's thread, the writer thread, the channel between
    them and the metrics both update.

    The development is generic in the writer ([Writer], [WriterLaws]).  A schedule is a
    list of actors, the writer's with what its clock reads, so the theorems quantify
    over every interleaving of the two threads. *)
From S2P Require Import Prelude Events Records SnapshotBus CompactEvents PipelineTypes.
From S2P Require Import Metrics Codec Writers.

(** ** The operations of the caller

    An operation sends its commands one by one and counts each after it was sent; a
    failed send ends the operation with an error. *)
Definition add_events (events : list RawEvent) : list StorageCommand := map StRawEvent events.
Definition add_records (new_records : list ActivityRecord) : list StorageCommand :=
  map StRecord new_records.
Definition add_compact_events (events : list CompactEvent) : list StorageCommand :=
  match events with [] => [] | _ => [StCompactEvents events] end.
Definition add_envelopes (events : list EventEnvelope) : list StorageCommand :=
  map StEnvelope events.
Definition add_transitions (transitions : list Transition) : list StorageCommand :=
  map StTransition transitions.

Lemma add_no_shutdown l :
  (exists x, l = add_events x) \/ (exists x, l = add_records x) \/
  (exists x, l = add_compact_events x) \/ (exists x, l = add_envelopes x) \/
  (exists x, l = add_transitions x) -> Forall (fun c => c <> StShutdown) l.
Proof.
  intros [[x ->]|[[x ->]|[[x ->]|[[x ->]|[x ->]]]]]; try (apply Forall_map; by apply Forall_true).
  destruct x; by repeat constructor.
Qed.

(** The caller works through its calls, then drops the backend: it sends [Shutdown] and
    waits for the writer thread. *)
Inductive phase := Calling | Joining | Joined.
#[export] Instance phase_eq_dec : EqDecision phase.
Proof. solve_decision. Defined.

Inductive actor := Caller | WriterThread (now : instant).

Section system.
Context `{Chrono} `{EpochTime} {W : Type} `{Writer W}.

Record system := {
  caller_ops : list mop;
  caller_regs : registers;
  call : list StorageCommand;
  calls : list (list StorageCommand);
  caller_phase : phase;
  queue : list StorageCommand;
  the_writer : W;
  writer_ops : list mop;
  writer_regs : registers;
  atoms : atomics;
  health_pushed : list string
}.

Definition set_caller (s : system) ops rs c cs ph a : system := {|
  caller_ops := ops; caller_regs := rs; call := c; calls := cs; caller_phase := ph;
  queue := queue s; the_writer := the_writer s; writer_ops := writer_ops s;
  writer_regs := writer_regs s; atoms := a; health_pushed := health_pushed s |}.

Definition enqueue (s : system) (cmd : StorageCommand) : system := {|
  caller_ops := caller_ops s; caller_regs := caller_regs s; call := call s; calls := calls s;
  caller_phase := caller_phase s; queue := queue s ++ [cmd]; the_writer := the_writer s;
  writer_ops := writer_ops s; writer_regs := writer_regs s; atoms := atoms s;
  health_pushed := health_pushed s |}.

(** The writer thread has ended; its receiver is gone. *)
Definition writer_gone (s : system) : bool :=
  bool_decide (writer_status (the_writer s) <> Running) && bool_decide (writer_ops s = []).

Definition caller_step (s : system) : option system :=
  match caller_ops s with
  | o :: ops =>
      let '(rs, a) := mop_step (caller_regs s) (atoms s) o in
      Some (set_caller s ops rs (call s) (calls s) (caller_phase s) a)
  | [] =>
      match call s, calls s, caller_phase s with
      | cmd :: rest, cs, ph =>
          if writer_gone s then Some (set_caller s [] (caller_regs s) [] cs ph (atoms s))
          else Some (set_caller (enqueue s cmd) inc_backlog (caller_regs s) rest cs ph (atoms s))
      | [], c :: cs, ph => Some (set_caller s [] (caller_regs s) c cs ph (atoms s))
      | [], [], Calling =>
          let s := if writer_gone s then s else enqueue s StShutdown in
          Some (set_caller s [] (caller_regs s) [] [] Joining (atoms s))
      | [], [], Joining =>
          if writer_gone s then Some (set_caller s [] (caller_regs s) [] [] Joined (atoms s))
          else None
      | [], [], Joined => None
      end
  end.

Definition set_writer (s : system) q w ops rs a health : system := {|
  caller_ops := caller_ops s; caller_regs := caller_regs s; call := call s; calls := calls s;
  caller_phase := caller_phase s; queue := q; the_writer := w; writer_ops := ops;
  writer_regs := rs; atoms := a; health_pushed := health |}.

Definition writer_thread_step (s : system) (now : instant) : option system :=
  match writer_ops s with
  | o :: ops =>
      let '(rs, a) := mop_step (writer_regs s) (atoms s) o in
      Some (set_writer s (queue s) (the_writer s) ops rs a (health_pushed s))
  | [] =>
      match writer_status (the_writer s), queue s with
      | Running, cmd :: q =>
          let '(w, out) := writer_step (the_writer s) (now, cmd) in
          Some (set_writer s q w (wout_metrics out) (writer_regs s) (atoms s)
            (health_pushed s ++ wout_health out))
      | _, _ => None
      end
  end.

Definition system_step (s : system) (a : actor) : option system :=
  match a with Caller => caller_step s | WriterThread now => writer_thread_step s now end.

Definition system_new (w : W) (cs : list (list StorageCommand)) : system := {|
  caller_ops := []; caller_regs := registers_new; call := []; calls := cs;
  caller_phase := Calling; queue := []; the_writer := w; writer_ops := [];
  writer_regs := registers_new; atoms := atomics_new; health_pushed := [] |}.

Definition reach (s t : system) : Prop := rtc (fun s t => exists a, system_step s a = Some t) s t.

(** A schedule; an actor that cannot move is passed over. *)
Definition run_schedule (s : system) (l : list actor) : system :=
  foldl (fun s a => default s (system_step s a)) s l.

Lemma run_schedule_reach s l : reach s (run_schedule s l).
Proof.
  revert s. induction l as [|a l IH]; intros s; cbn; [apply rtc_refl|].
  destruct (system_step s a) as [t|] eqn:Ht; cbn; [|apply IH].
  eapply rtc_l; [by exists a|apply IH].
Qed.
End system.
Arguments system W : clear implicits.

(** ** The invariant *)
Section invariant.
Context `{Chrono} `{EpochTime} {W : Type} `{WriterLaws W}.
Context (w0 : W) (cs0 : list (list StorageCommand)).

Definition command_counts (c : StorageCommand) : Z :=
  match c with StShutdown => 0 | _ => 1 end.

(** The commands that wait in the channel. *)
Definition waiting (q : list StorageCommand) : Z := zsum (map command_counts q).

#[local] Arguments waiting : simpl never.
#[local] Arguments mops_net : simpl never.
#[local] Arguments inc_backlog : simpl never.

(** What the counter should show: the commands waiting and the decrement the writer owes,
    less the increment the caller owes, and the command a panic took down. *)
Definition backlog_due (s : system W) : Z :=
  waiting (queue s) - mops_net (writer_ops s) - mops_net (caller_ops s)
  + (if decide (writer_status (the_writer s) = Panicked) then 1 else 0).

(** What the caller has still to send. *)
Definition to_send (s : system W) : list StorageCommand :=
  call s ++ concat (calls s) ++ if decide (caller_phase s = Calling) then [StShutdown] else [].

Definition handled (s : system W) (xs : list (instant * StorageCommand)) : Prop :=
  let r := run_list writer_step w0 xs in
  the_writer s = r.1 /\ health_pushed s = wout_health r.2 /\
  match writer_status r.1 with
  | Panicked => True
  | st => map snd xs ++ queue s ++ to_send s = concat cs0 ++ [StShutdown] /\
      (st = Ended <-> StShutdown ∈ map snd xs)
  end.

Record invariant (s : system W) : Prop := {
  i_backlog : storage_backlog (atoms s) = uw 64 (backlog_due s);
  i_handled : exists xs, handled s xs;
  i_phase : caller_phase s <> Calling -> caller_ops s = [] /\ call s = [] /\ calls s = [];
  i_joined : caller_phase s = Joined -> writer_gone s = true;
  i_calls : StShutdown ∉ call s ++ concat (calls s)
}.

Lemma shutdown_or c : c = StShutdown \/ c <> StShutdown.
Proof. by destruct c; auto. Qed.

Lemma waiting_app q q' : waiting (q ++ q') = waiting q + waiting q'.
Proof. unfold waiting. by rewrite map_app, zsum_app. Qed.

Lemma waiting_one c : waiting [c] = command_counts c.
Proof. unfold waiting. cbn. lia. Qed.

Lemma mops_net_nil : mops_net [] = 0.
Proof. done. Qed.

Lemma mops_net_cons o l : mops_net (o :: l) = mop_net o + mops_net l.
Proof. done. Qed.

Lemma invariant_new :
  writer_status w0 = Running -> StShutdown ∉ concat cs0 -> invariant (system_new w0 cs0).
Proof.
  intros Hw Hcs. split; cbn; try done.
  - unfold backlog_due. cbn. by rewrite Hw.
  - exists []. unfold handled; cbn. rewrite Hw. split_and!; [done..|]. split; [done|].
    by intros ?%not_elem_of_nil.
Qed.

Lemma last_only {A} (x : A) l l1 l2 :
  x ∉ l -> l1 ++ l2 = l ++ [x] -> x ∈ l1 -> l2 = [].
Proof.
  intros Hl Heq Hx. destruct l2 as [|y l2] using rev_ind; [done|]. exfalso.
  rewrite (assoc_L (++)) in Heq. apply app_inj_2 in Heq as [Heq _]; [|done].
  apply Hl. rewrite <- Heq. apply elem_of_app. by left.
Qed.

Context (Hcs0 : StShutdown ∉ concat cs0).

(** After [Shutdown] nothing is left. *)
Lemma handled_ended s xs :
  handled s xs -> writer_status (the_writer s) = Ended -> queue s ++ to_send s = [].
Proof.
  unfold handled. intros (Hw&_&Hx) He. rewrite <- Hw, He in Hx. destruct Hx as [Hx Hend].
  by eapply last_only; [exact Hcs0|exact Hx|apply Hend].
Qed.

Lemma handled_same s t :
  (exists xs, handled s xs) -> the_writer t = the_writer s -> health_pushed t = health_pushed s ->
  (writer_status (the_writer s) <> Panicked -> queue t ++ to_send t = queue s ++ to_send s) ->
  exists xs, handled t xs.
Proof.
  intros [xs (Hw&Hh&Hx)] Hwt Hht Hq. exists xs. unfold handled in *. rewrite Hwt, Hht.
  split_and!; [done..|]. rewrite <- Hw in *. destruct (writer_status (the_writer s)); [|..|done];
    (split; [|apply Hx]; rewrite Hq by done; apply Hx).
Qed.

Lemma gone_stopped s : writer_gone s = true ->
  writer_status (the_writer s) <> Running /\ writer_ops s = [].
Proof. intros [?%bool_decide_eq_true ?%bool_decide_eq_true]%andb_prop. done. Qed.

(** A writer that has ended has nothing to receive, so a send can only fail after a
    panic. *)
Lemma gone_rest s : invariant s -> writer_gone s = true ->
  writer_status (the_writer s) <> Panicked -> queue s ++ to_send s = [].
Proof.
  intros Hs [Hg _]%gone_stopped Hp. destruct (i_handled _ Hs) as [xs Hx].
  eapply handled_ended; [exact Hx|]. by destruct (writer_status (the_writer s)).
Qed.

Lemma caller_mop s o ops :
  invariant s -> caller_ops s = o :: ops ->
  let r := mop_step (caller_regs s) (atoms s) o in
  invariant (set_caller s ops r.1 (call s) (calls s) (caller_phase s) r.2).
Proof.
  intros [Hb Hh Hp Hj Hc] Ho r. subst r. split; cbn; [| | |done..].
  - unfold backlog_due in *; cbn. rewrite Ho, mops_net_cons in Hb.
    rewrite (mop_step_counts _ _ _ _ Hb). f_equal. lia.
  - by eapply handled_same.
  - intros Hph. destruct (Hp Hph) as [? _]. congruence.
Qed.

Lemma caller_sends s cmd rest :
  invariant s -> caller_ops s = [] -> call s = cmd :: rest -> writer_gone s = false ->
  invariant (set_caller (enqueue s cmd) inc_backlog (caller_regs s) rest (calls s)
    (caller_phase s) (atoms s)).
Proof.
  intros [Hb Hh Hp Hj Hn] Ho Hc Hg. rewrite Hc in Hn. cbn in Hn. apply not_elem_of_cons in Hn as [Hne Hn].
  assert (command_counts cmd = 1) as Hcmd by by destruct cmd.
  split; cbn; [| | | |done].
  - unfold backlog_due in *; cbn. rewrite Hb. f_equal.
    rewrite waiting_app, waiting_one, Hcmd, Ho, inc_net, mops_net_nil. lia.
  - eapply handled_same; [exact Hh|done..|]. intros _. cbn. unfold to_send; cbn. rewrite Hc.
    by rewrite <- (assoc_L (++)).
  - intros Hph. destruct (Hp Hph) as (_&?&_). congruence.
  - intros Hph. pose proof (Hj Hph). congruence.
Qed.

(** Moving on in the caller's program without sending. *)
Lemma caller_moves s c cs ph :
  invariant s -> caller_ops s = [] ->
  (writer_status (the_writer s) <> Panicked ->
    queue s ++ c ++ concat cs ++ (if decide (ph = Calling) then [StShutdown] else [])
      = queue s ++ to_send s) ->
  (ph <> Calling -> c = [] /\ cs = []) -> (ph = Joined -> writer_gone s = true) ->
  StShutdown ∉ c ++ concat cs ->
  invariant (set_caller s [] (caller_regs s) c cs ph (atoms s)).
Proof.
  intros [Hb Hh Hp Hj Hn] Ho Hq Hph Hjoin Hsh. split; cbn; [| |by split; auto|done..].
  - unfold backlog_due in *; cbn. by rewrite Ho in Hb.
  - by eapply handled_same.
Qed.

Lemma enqueue_shutdown s :
  invariant s -> caller_ops s = [] -> call s = [] -> calls s = [] -> caller_phase s = Calling ->
  invariant (set_caller (enqueue s StShutdown) [] (caller_regs s) [] [] Joining (atoms s)).
Proof.
  intros [Hb Hh Hp Hj Hn] Ho Hc Hcs Hph. split; cbn; try done.
  - unfold backlog_due in *; cbn. rewrite Hb, Ho. f_equal. rewrite waiting_app, waiting_one. cbn. lia.
  - eapply handled_same; [exact Hh|done..|]. intros _. cbn. unfold to_send; cbn.
    rewrite Hc, Hcs, Hph. cbn. by rewrite app_nil_r.
  - apply not_elem_of_nil.
Qed.

Lemma caller_step_invariant s t : invariant s -> caller_step s = Some t -> invariant t.
Proof.
  intros Hs. unfold caller_step. destruct (caller_ops s) as [|o ops] eqn:Ho.
  2: { pose proof (caller_mop _ _ _ Hs Ho) as Hm. cbn in Hm.
       destruct (mop_step (caller_regs s) (atoms s) o). intros [= <-]. exact Hm. }
  pose proof (i_calls _ Hs) as Hn. pose proof (i_phase _ Hs) as Hp.
  destruct (call s) as [|cmd rest] eqn:Hc.
  - destruct (calls s) as [|c cs] eqn:Hcs.
    + destruct (caller_phase s) eqn:Hph; [| |done].
      * intros [= <-]. destruct (writer_gone s) eqn:Hg;
          [|exact (enqueue_shutdown _ Hs Ho Hc Hcs Hph)].
        apply caller_moves; try done. intros Hpn. cbn. rewrite app_nil_r.
        pose proof (gone_rest _ Hs Hg Hpn) as [Hq _]%app_nil. by rewrite gone_rest, Hq.
      * destruct (writer_gone s) eqn:Hg; [|done]. intros [= <-].
        apply caller_moves; try done. intros _. unfold to_send. by rewrite Hc, Hcs, Hph.
    + intros [= <-]. apply caller_moves; try done.
      * intros _. unfold to_send. rewrite Hc, Hcs. cbn. by rewrite <- !(assoc_L (++)).
      * intros Hph. by destruct (Hp Hph) as (_&_&?).
      * apply (i_joined _ Hs).
  - destruct (writer_gone s) eqn:Hg; intros [= <-]; [|by apply caller_sends].
    apply caller_moves; try done.
    + intros Hpn. pose proof (gone_rest _ Hs Hg Hpn) as Hnil. rewrite Hnil.
      apply app_nil in Hnil as [Hq Hts]. unfold to_send in Hts. by rewrite Hc in Hts.
    + intros Hph. by destruct (Hp Hph) as (_&?&_).
    + apply not_elem_of_app in Hn as [_ Hn]. exact Hn.
Qed.

Lemma writer_mop s o ops :
  invariant s -> writer_ops s = o :: ops ->
  let r := mop_step (writer_regs s) (atoms s) o in
  invariant (set_writer s (queue s) (the_writer s) ops r.1 r.2 (health_pushed s)).
Proof.
  intros [Hb Hh Hp Hj Hc] Ho r. subst r. split; cbn; [| |done| |done].
  - unfold backlog_due in *; cbn. rewrite Ho, mops_net_cons in Hb.
    rewrite (mop_step_counts _ _ _ _ Hb). f_equal. lia.
  - by eapply handled_same.
  - intros Hph. destruct (gone_stopped _ (Hj Hph)) as [_ ?]. congruence.
Qed.

(** Handling a command keeps the account of the commands. *)
Lemma handled_take s xs now cmd q :
  handled s xs -> queue s = cmd :: q -> writer_status (the_writer s) = Running ->
  let r := writer_step (the_writer s) (now, cmd) in
  forall rs a, handled (set_writer s q r.1 (wout_metrics r.2) rs a
    (health_pushed s ++ wout_health r.2)) (xs ++ [(now, cmd)]).
Proof.
  intros (Hw&Hh&Hx) Hq Hrun r rs a. rewrite <- Hw, Hrun in Hx. destruct Hx as [Hx Hend].
  assert (StShutdown ∉ map snd xs) as Hno.
  { intros Hin. by apply Hend in Hin. }
  unfold handled. rewrite run_list_app. destruct (run_list writer_step w0 xs) as [w out] eqn:Hr.
  cbn [fst snd] in Hw, Hh. cbn [run_list].
  rewrite <- Hw. subst r. destruct (writer_step (the_writer s) (now, cmd)) as [w' out'] eqn:Hs.
  cbn [fst snd the_writer health_pushed set_writer queue]. rewrite Hh, app_nil_r, wout_health_app.
  split_and!; [done..|].
  assert (map snd (xs ++ [(now, cmd)]) ++ q ++ to_send s = concat cs0 ++ [StShutdown]) as Hall.
  { rewrite <- Hx, Hq, map_app, <- !(assoc_L (++)). done. }
  destruct (shutdown_or cmd) as [->|Hne].
  - pose proof (step_shutdown (the_writer s) now Hrun) as Hst. rewrite Hs in Hst.
    cbn in Hst. destruct Hst as [-> _]. split; [exact Hall|]. split; [|done]. intros _.
    rewrite map_app. apply elem_of_app. right. cbn. apply list_elem_of_singleton. done.
  - pose proof (step_handles (the_writer s) now cmd Hrun Hne) as Hst. rewrite Hs in Hst.
    destruct Hst as [Hst _]. cbn [fst] in Hst. destruct (writer_status w'); [|done..].
    split; [exact Hall|]. split; [done|]. rewrite map_app, elem_of_app. cbn.
    rewrite list_elem_of_singleton. intros [?|?]; [done|by destruct Hne].
Qed.

Lemma waiting_cons c q : waiting (c :: q) = command_counts c + waiting q.
Proof. done. Qed.

Lemma writer_takes s now cmd q :
  invariant s -> writer_ops s = [] -> queue s = cmd :: q ->
  writer_status (the_writer s) = Running ->
  let r := writer_step (the_writer s) (now, cmd) in
  invariant (set_writer s q r.1 (wout_metrics r.2) (writer_regs s) (atoms s)
    (health_pushed s ++ wout_health r.2)).
Proof.
  intros [Hb [xs Hh] Hp Hj Hc] Ho Hq Hrun r. split; cbn; [| |done| |done].
  - rewrite Hb. f_equal. unfold backlog_due; cbn. rewrite Hq, Ho, waiting_cons, mops_net_nil, Hrun.
    subst r. destruct (shutdown_or cmd) as [->|Hne].
    + destruct (step_shutdown (the_writer s) now Hrun) as (->&->&_).
      repeat case_decide; try done; cbn; lia.
    + destruct (step_handles (the_writer s) now cmd Hrun Hne) as (_&->&_).
      assert (command_counts cmd = 1) as -> by by destruct cmd.
      repeat case_decide; try done; lia.
  - eexists. by eapply handled_take.
  - intros Hph. destruct (gone_stopped _ (Hj Hph)) as [? _]. congruence.
Qed.

Lemma system_step_invariant s a t : invariant s -> system_step s a = Some t -> invariant t.
Proof.
  intros Hs. destruct a as [|now]; cbn; [by apply caller_step_invariant|].
  unfold writer_thread_step. destruct (writer_ops s) as [|o ops] eqn:Ho.
  - destruct (writer_status (the_writer s)) eqn:Hw; [|done..].
    destruct (queue s) as [|cmd q] eqn:Hq; [done|].
    pose proof (writer_takes _ now _ _ Hs Ho Hq Hw) as Ht. cbn in Ht.
    destruct (writer_step (the_writer s) (now, cmd)). intros [= <-]. exact Ht.
  - pose proof (writer_mop _ _ _ Hs Ho) as Ht. cbn in Ht.
    destruct (mop_step (writer_regs s) (atoms s) o). intros [= <-]. exact Ht.
Qed.

Lemma reach_invariant s : writer_status w0 = Running -> reach (system_new w0 cs0) s -> invariant s.
Proof.
  intros Hw Hr. pose proof (invariant_new Hw Hcs0) as Hi.
  induction Hr as [s|s u t [a Ha] Hr IH]; [done|]. eauto using system_step_invariant.
Qed.
End invariant.

(** ** What a backend in use does *)
Section backend.
Context `{Chrono} `{EpochTime} {W : Type} `{WriterLaws W}.

(** C22: at every moment of every interleaving the backlog counter is, in 64 bits, the number
    of commands in the channel, corrected by the increment and the decrement the threads
    have yet to make and by the command a panic took down; so it is exactly the number
    of waiting commands whenever neither thread is in the middle of an update. *)
Theorem backlog_accounts w0 cs0 s :
  writer_status w0 = Running -> StShutdown ∉ concat cs0 -> reach (system_new w0 cs0) s ->
  storage_backlog (atoms s) = uw 64 (backlog_due s) /\
  (caller_ops s = [] -> writer_ops s = [] -> writer_status (the_writer s) = Running ->
    storage_backlog (atoms s) = uw 64 (waiting (queue s))).
Proof.
  intros Hw Hcs Hr. destruct (reach_invariant _ _ Hcs s Hw Hr) as [Hb _ _ _ _].
  split; [done|]. intros Hco Hwo Hrun. rewrite Hb. f_equal. unfold backlog_due.
  rewrite Hco, Hwo, Hrun. case_decide; [done|]. cbn. lia.
Qed.

(** When the drop of the backend returns and the writer has not panicked, the writer has
    received every command of every call, in order, and then [Shutdown]. *)
Lemma joined_handled w0 cs0 s :
  writer_status w0 = Running -> StShutdown ∉ concat cs0 -> reach (system_new w0 cs0) s ->
  caller_phase s = Joined -> writer_status (the_writer s) <> Panicked ->
  exists xs now, map snd xs = concat cs0 /\
    let r := run_list writer_step w0 (xs ++ [(now, StShutdown)]) in
    the_writer s = r.1 /\ health_pushed s = wout_health r.2.
Proof.
  intros Hw Hcs Hr Hj Hp. destruct (reach_invariant _ _ Hcs s Hw Hr) as [_ [xs Hx] _ Hjoin _].
  destruct (gone_stopped _ (Hjoin Hj)) as [Hne _].
  assert (writer_status (the_writer s) = Ended) as He
    by (destruct (writer_status (the_writer s)); [by destruct Hne|done|by destruct Hp]).
  pose proof (handled_ended _ _ Hcs _ _ Hx He) as Hnil. destruct Hx as (Hws&Hh&Hx).
  rewrite <- Hws, He in Hx. destruct Hx as [Hx _]. rewrite Hnil, app_nil_r in Hx.
  destruct xs as [|[now c] xs _] using rev_ind.
  { cbn in Hx. by destruct (concat cs0). }
  rewrite map_app in Hx. cbn in Hx. apply app_inj_2 in Hx as [Hx [= ->]]; [|done].
  by exists xs, now.
Qed.
End backend.

(** Of a SQLite backend that has been dropped, with neither a panic of its writer nor an
    error in the health list, the database holds the commands that it was given. *)
Lemma sqlite_joined `{Chrono} `{EpochTime} `{Json} `{Rfc3339} {C}
    `{Sqlite.DatabaseLaws C (table_row string Z)} (c0 : C) cs0 (s : system (Sqlite.writer C)) :
  Sqlite.tx_rows c0 = [] -> StShutdown ∉ concat cs0 ->
  writer_status (Sqlite.writer_start c0) = Running ->
  reach (system_new (Sqlite.writer_start c0) cs0) s ->
  caller_phase s = Joined -> writer_status (the_writer s) <> Panicked -> health_pushed s = [] ->
  exists cs, cs = concat cs0 /\
    Sqlite.committed (Sqlite.w_conn (the_writer s)) = Sqlite.committed c0 ++ rows_of cs.
Proof.
  intros Ht Hcs Hw Hr Hj Hp Hh.
  destruct (joined_handled _ _ _ Hw Hcs Hr Hj Hp) as (xs&now&Hxs&Hws&Hhs).
  exists (map snd xs). split; [done|]. rewrite Hws. apply Sqlite.writer_stores_all; [done| | |].
  - apply Forall_forall. intros [t c] Hc Heq. cbn in Heq. subst c. apply Hcs. rewrite <- Hxs.
    apply list_elem_of_fmap. by exists (t, StShutdown).
  - pose proof (reach_invariant _ _ Hcs s Hw Hr) as [_ _ _ Hjoin _].
    destruct (gone_stopped _ (Hjoin Hj)) as [Hne _].
    change (writer_status (run_list writer_step (Sqlite.writer_start c0)
      (xs ++ [(now, StShutdown)])).1 = Ended).
    rewrite <- Hws. destruct (writer_status (the_writer s)); [by destruct Hne|done|by destruct Hp].
  - change (wout_health (run_list writer_step (Sqlite.writer_start c0)
      (xs ++ [(now, StShutdown)])).2 = []). by rewrite <- Hhs.
Qed.

(** C9: the calls made on a SQLite backend, whatever their interleaving with the writer, are
    all in the database when it has been dropped, unless its writer panicked or an error
    is in the health list. *)
Theorem sqlite_drop_stores `{Chrono} `{EpochTime} `{Json} `{Rfc3339} {C}
    `{Sqlite.DatabaseLaws C (table_row string Z)} (c0 : C) cs0 (s : system (Sqlite.writer C)) :
  Sqlite.tx_rows c0 = [] -> StShutdown ∉ concat cs0 ->
  writer_status (Sqlite.writer_start c0) = Running ->
  reach (system_new (Sqlite.writer_start c0) cs0) s ->
  caller_phase s = Joined -> writer_status (the_writer s) <> Panicked -> health_pushed s = [] ->
  Sqlite.committed (Sqlite.w_conn (the_writer s)) = Sqlite.committed c0 ++ rows_of (concat cs0).
Proof.
  intros Ht Hcs Hw Hr Hj Hp Hh. destruct (sqlite_joined c0 cs0 s) as (cs&->&?); done.
Qed.

(** ** Termination *)
Section termination.
Context `{Chrono} `{EpochTime} {W : Type} `{WriterLaws W}.

Definition work (s : system W) : nat :=
  length (caller_ops s) + 16 * length (call s)
  + sum_list (map (fun c => S (16 * length c)) (calls s))
  + match caller_phase s with Calling => 16 | Joining => 1 | Joined => 0 end
  + 10 * length (queue s) + length (writer_ops s).

Lemma step_work s a t : system_step s a = Some t -> (work t < work s)%nat.
Proof.
  destruct a as [|now]; cbn.
  - unfold caller_step. destruct (caller_ops s) as [|o ops] eqn:Ho.
    + destruct (call s) as [|cmd rest] eqn:Hc; [destruct (calls s) as [|c cs] eqn:Hcs;
        [destruct (caller_phase s) eqn:Hp; [| |done]|]|];
        try (destruct (writer_gone s); [|try done]);
        intros [= <-]; unfold work; cbn; rewrite ?Ho, ?Hc, ?Hcs, ?Hp, ?length_app; cbn; lia.
    + destruct (mop_step _ _ _). intros [= <-]. unfold work. cbn. rewrite Ho. cbn. lia.
  - unfold writer_thread_step. destruct (writer_ops s) as [|o ops] eqn:Ho.
    + destruct (writer_status (the_writer s)) eqn:Hw; [|done..].
      destruct (queue s) as [|cmd q] eqn:Hq; [done|].
      assert (length (wout_metrics (writer_step (the_writer s) (now, cmd)).2) <= 8)%nat as Hl.
      { destruct (shutdown_or cmd) as [->|Hne].
        - by destruct (step_shutdown (the_writer s) now Hw) as (_&_&?).
        - by destruct (step_handles (the_writer s) now cmd Hw Hne) as (_&_&?). }
      destruct (writer_step (the_writer s) (now, cmd)) as [w out]. cbn [snd] in Hl.
      intros [= <-]. unfold work. cbn -[Nat.mul wout_metrics]. rewrite Ho, Hq.
      cbn -[Nat.mul wout_metrics]. lia.
    + destruct (mop_step _ _ _). intros [= <-]. unfold work. cbn. rewrite Ho. cbn. lia.
Qed.

Lemma calling_moves (s : system W) : caller_phase s = Calling -> is_Some (caller_step s).
Proof.
  intros Hp. unfold caller_step. destruct (caller_ops s); [|by destruct (mop_step _ _ _)].
  rewrite Hp. destruct (call s), (calls s); try destruct (writer_gone s); by eexists.
Qed.

Lemma writer_moves (s : system W) now :
  writer_ops s <> [] \/ writer_status (the_writer s) = Running /\ queue s <> [] ->
  is_Some (writer_thread_step s now).
Proof.
  unfold writer_thread_step. destruct (writer_ops s); [|by destruct (mop_step _ _ _)].
  intros [|[-> Hq]]; [done|]. destruct (queue s); [done|]. by destruct (writer_step _ _).
Qed.

(** A backend in use always comes to its end: no schedule goes on for ever, and until the
    drop has returned one of the threads can move; in particular the drop does not wait
    for ever, for the [Shutdown] it sent is still to come. *)
Theorem storage_terminates w0 cs0 :
  writer_status w0 = Running -> StShutdown ∉ concat cs0 ->
  well_founded (fun t s : system W => exists a, system_step s a = Some t) /\
  forall s, reach (system_new w0 cs0) s ->
    caller_phase s = Joined \/ exists a t, system_step s a = Some t.
Proof.
  intros Hw Hcs. split.
  - apply (wf_projected lt work); [|apply lt_wf]. intros t s [a Ha]. by eapply step_work.
  - intros s Hr. destruct (reach_invariant _ _ Hcs s Hw Hr) as [_ [xs Hx] Hph _ _].
    destruct (caller_phase s) eqn:Hp; [| |by left]; right.
    { destruct (calling_moves s Hp) as [t Ht]. by exists Caller, t. }
    destruct (Hph ltac:(done)) as (Hco&Hc&Hcs').
    destruct (decide (writer_ops s = [])) as [Ho|Ho].
    2: { destruct (writer_moves s 0 (or_introl Ho)) as [t Ht]. by exists (WriterThread 0), t. }
    destruct (decide (writer_status (the_writer s) = Running)) as [Hr'|Hr'].
    + destruct (writer_moves s 0) as [t Ht]; [|by exists (WriterThread 0), t].
      right. split; [done|]. intros Hq. destruct Hx as (Hws&_&Hx). rewrite <- Hws, Hr' in Hx.
      destruct Hx as [Hx Hend]. unfold to_send in Hx. rewrite Hq, Hc, Hcs', Hp in Hx.
      cbn in Hx. rewrite app_nil_r in Hx. assert (StShutdown ∈ map snd xs) as Hin.
      { rewrite Hx. apply elem_of_app. right. by apply list_elem_of_singleton. }
      by apply Hend in Hin.
    + exists Caller. cbn. unfold caller_step. rewrite Hco, Hc, Hcs', Hp.
      assert (writer_gone s = true) as ->; [|by eexists].
      unfold writer_gone. by rewrite !bool_decide_eq_true_2.
Qed.
End termination.

(** ** Concrete sessions *)
Section examples.
#[local] Existing Instances json_ref rfc3339_ref chrono_ref.
#[local] Instance epoch_ref : EpochTime := {| timestamp_opt s := Some (secs s) |}.
#[local] Instance memory_ref : Sqlite.Database (memory (table_row string Z)) (table_row string Z) :=
  mem_sqlite (fun _ => false).
#[local] Instance memory_ref_laws : Sqlite.DatabaseLaws (memory (table_row string Z)) (table_row string Z) :=
  mem_sqlite_laws (fun _ => false).

Definition start_ref := Sqlite.writer_start (C := memory (table_row string Z)) memory_new.
Definition calls_ref : list (list StorageCommand) :=
  [add_transitions [{| t_from := Inactive; t_to := Active; t_at := 3;
    t_by_signal := None; t_run_id := None |}]].
Definition session_ref : system (Sqlite.writer (memory (table_row string Z))) :=
  system_new start_ref calls_ref.

(** The caller counts a command after it has sent it, and both threads publish what they
    loaded some steps before.  So the published backlog can be 2^64 - 1 while the writer
    is ahead of the caller's increment, and it can stay at 1 when nothing is waiting and
    the counter itself is back at 0. *)
Theorem backlog_metric_races :
  (exists l, sm_backlog_count (metrics_ch (atoms (run_schedule session_ref l))) = u64_max) /\
  exists l, let s := run_schedule session_ref l in
    queue s = [] /\ caller_ops s = [] /\ writer_ops s = [] /\
    storage_backlog (atoms s) = 0 /\ sm_backlog_count (metrics_ch (atoms s)) = 1.
Proof.
  split.
  - exists (replicate 2 Caller ++ replicate 5 (WriterThread 0)). by vm_compute.
  - exists (replicate 5 Caller ++ replicate 5 (WriterThread 0) ++ [Caller]). by vm_compute.
Qed.

(** A whole session: all of the caller, then all of the writer, then the join. *)
Definition schedule_ref : list actor :=
  replicate 7 Caller ++ replicate 10 (WriterThread 5) ++ [Caller].

Lemma memory_new_closed :
  Sqlite.tx_rows (C := memory (table_row string Z)) (R := table_row string Z) memory_new = [].
Proof. done. Qed.

Lemma start_ref_runs : writer_status start_ref = Running.
Proof. done. Qed.

Lemma no_shutdown_ref : StShutdown ∉ concat calls_ref.
Proof. cbn. by intros ?%list_elem_of_singleton. Qed.

Lemma backlog_accounts_witness :
  let s := run_schedule session_ref (replicate 2 Caller) in
  storage_backlog (atoms s) = 0 /\ waiting (queue s) = 1 /\ backlog_due s = 0.
Proof.
  intros s. pose proof (backlog_accounts start_ref _ s start_ref_runs no_shutdown_ref
    (run_schedule_reach _ _)) as [Hb _].
  split_and!; [etrans; [exact Hb|by vm_compute]|by vm_compute..].
Defined.

Lemma sqlite_drop_stores_witness :
  let s := run_schedule session_ref schedule_ref in
  mem_rows (Sqlite.w_conn (the_writer s)) = [RecentTransitions {| tw_at := "000";
    tw_from := "Inactive"; tw_to := "Active"; tw_by_signal := None; tw_run_id := None |}].
Proof.
  intros s. etrans; [apply (sqlite_drop_stores (C := memory (table_row string Z)) memory_new _ s
    memory_new_closed no_shutdown_ref start_ref_runs (run_schedule_reach _ _)); by vm_compute|].
  by vm_compute.
Defined.

Lemma storage_terminates_witness :
  exists a t, system_step (run_schedule session_ref (replicate 7 Caller)) a = Some t.
Proof.
  destruct (storage_terminates start_ref calls_ref start_ref_runs no_shutdown_ref) as [_ Hm].
  destruct (Hm _ (run_schedule_reach session_ref (replicate 7 Caller))) as [Hj|Ht]; [|exact Ht].
  exfalso. revert Hj. by vm_compute.
Defined.
End examples.
