(* ===== verification/PidFile.v ===== *)
(** The files that make a daemon the only one: the pid file, its lock and the run id
    file, as src/bin/kronid.rs writes, checks and removes them and src/bin/kronictl.rs
    reads them.

    A program is a tree of operations on the files and the process table, so that it
    can be run alone, or step by step among others. *)
From S2P Require Import Prelude Decimal.

(** ** Operations *)
Inductive file := PidFile | LockFile | TmpFile | RunIdFile.
#[export] Instance file_eq_dec : EqDecision file.
Proof. solve_decision. Defined.
#[export] Instance file_countable : Countable file.
Proof.
  refine (inj_countable' (fun f => match f with PidFile => 0 | LockFile => 1 | TmpFile => 2
    | RunIdFile => 3 end)%nat (fun n => match n with O => PidFile | 1%nat => LockFile
    | 2%nat => TmpFile | _ => RunIdFile end) _). by intros [].
Defined.

(** An operation with the type of its answer.  [EnsureWorkspace] creates the directory of
    the files unless it is there and [SetUpLogging] the log directory with the appender of
    the log; [Serve] is the life of the daemon between its start and its clean-up; [Spawn]
    starts a daemon with an optional run id. *)
Inductive op : Type -> Type :=
  | Exists (f : file) : op bool
  | Read (f : file) : op (option string)
  | Remove (f : file) : op bool
  | CreateNew (f : file) : op bool
  | OpenTruncate (f : file) : op bool
  | Write (f : file) (s : string) : op bool
  | SyncAll (f : file) : op bool
  | Rename (f g : file) : op bool
  | IsRunning (pid : Z) : op (option bool)
  | EnsureWorkspace : op bool
  | SetUpLogging : op bool
  | Serve : op (unit + string)
  | Terminate (pid : Z) : op unit
  | Sleep (ms : Z) : op unit
  | Spawn (run_id : option string) : op bool.

Inductive prog (A : Type) : Type :=
  | Ret (a : A)
  | Do {R : Type} (o : op R) (k : R -> prog A).
Arguments Ret {A} a.
Arguments Do {A R} o k.

#[export] Instance prog_ret : MRet prog := fun A a => Ret a.
Fixpoint prog_bind_ {A B} (f : A -> prog B) (p : prog A) : prog B :=
  match p with Ret a => f a | Do o k => Do o (fun r => prog_bind_ f (k r)) end.
#[export] Instance prog_bind : MBind prog := fun A B f p => prog_bind_ f p.

Definition perform {R} (o : op R) : prog R := Do o Ret.

(** A [Result] and the [?] operator. *)
Notation Outcome A := (A + string)%type.
Definition try_ {A B} (p : prog (Outcome A)) (k : A -> prog (Outcome B)) : prog (Outcome B) :=
  r ← p; match r with inl a => k a | inr e => mret (inr e) end.
Definition check (o : op bool) (e : string) : prog (Outcome unit) :=
  b ← perform o; mret (if b : bool then inl () else inr e).
Notation "'let?' x := p 'in' k" := (try_ p (fun x => k))
  (at level 200, x name, p at level 100, k at level 200) : stdpp_scope.

Section programs.
Context `{UnicodeText}.

(** [content.trim().parse::<u32>()]. *)
Definition parse_pid (content : string) : option Z := parse_unsigned 32 (str_trim content).

(** ** kronid *)
Definition is_process_running (pid : Z) : prog (Outcome bool) :=
  r ← perform (IsRunning pid);
  mret (match r with Some b => inl b | None => inr "invoking ps" end).

Definition remove_pid_and_lock : prog unit :=
  _ ← perform (Remove PidFile); _ ← perform (Remove LockFile); mret ().

(** What is there when the daemon starts: a live owner stops it. *)
Definition clear_stale : prog (Outcome unit) :=
  there ← perform (Exists PidFile);
  if there : bool then
    content ← perform (Read PidFile);
    match content ≫= parse_pid with
    | Some existing_pid =>
        let? running := is_process_running existing_pid in
        if running : bool then
          mret (inr ("Kronical daemon is already running (PID: " +:+ show existing_pid +:+ ")"))
        else remove_pid_and_lock ≫= fun _ => mret (inl ())
    | None => remove_pid_and_lock ≫= fun _ => mret (inl ())
    end
  else
    locked ← perform (Exists LockFile);
    if locked : bool then _ ← perform (Remove LockFile); mret (inl ())
    else mret (inl ()).

Definition write_tmp (me : Z) : prog (Outcome unit) :=
  let? _ := check (OpenTruncate TmpFile) "opening temp pid file" in
  let? _ := check (Write TmpFile (show me)) "writing pid" in
  let? _ := check (SyncAll TmpFile) "syncing temp pid file" in
  check (Rename TmpFile PidFile) "renaming".

Definition write_pid_file (me : Z) : prog (Outcome unit) :=
  let? _ := clear_stale in
  let? _ := check (CreateNew LockFile) "creating lock" in
  write_result ← write_tmp me;
  match write_result with
  | inl _ => mret (inl ())
  | inr e =>
      _ ← perform (Remove LockFile);
      _ ← perform (Remove TmpFile);
      mret (inr e)
  end.

Definition verify_pid_file (me : Z) : prog (Outcome unit) :=
  content ← perform (Read PidFile);
  mret match content with
  | None => inr "reading pid file"
  | Some content =>
      match parse_pid content with
      | None => inr "parsing pid"
      | Some file_pid =>
          if file_pid =? me then inl () else inr "PID file verification failed"
      end
  end.

Definition cleanup_pid_file (me : Z) : prog (Outcome unit) :=
  there ← perform (Exists PidFile);
  if there : bool then
    content ← perform (Read PidFile);
    match content with
    | None => mret (inr "reading pid file")
    | Some content =>
        match parse_pid content with
        | None => mret (inr "PID file contains invalid PID")
        | Some file_pid =>
            if file_pid =? me then check (Remove PidFile) "removing pid file"
            else mret (inr "PID file belongs to a different process")
        end
    end
  else mret (inl ()).

Definition write_run_id_file (run_id : string) : prog (Outcome unit) :=
  let? _ := check (OpenTruncate RunIdFile) "opening run id file" in
  let? _ := check (Write RunIdFile run_id) "writing run id" in
  check (SyncAll RunIdFile) "syncing run id file".

(** [PidFileGuard::drop]. *)
Definition guard_drop (me : Z) (active : bool) : prog unit :=
  (if active then
     content ← perform (Read PidFile);
     match content ≫= parse_pid with
     | Some file_pid => if file_pid =? me then _ ← perform (Remove PidFile); mret () else mret ()
     | None => mret ()
     end
   else mret ());;
  _ ← perform (Remove LockFile);
  mret ().

(** [run]: the guard exists from the verification on, and is dropped on every way out
    after that.  [Serve] stands for the store and the coordinator's main thread. *)
Definition run (me : Z) (run_id : string) : prog (Outcome unit) :=
  let? _ := check EnsureWorkspace "creating workspace dir" in
  let? _ := write_run_id_file run_id in
  let? _ := check SetUpLogging "creating log directory" in
  let? _ := write_pid_file me in
  let? _ := verify_pid_file me in
  served ← perform Serve;
  match served with
  | inr e => guard_drop me true;; mret (inr e)
  | inl _ =>
      cleaned ← cleanup_pid_file me;
      match cleaned with
      | inr e => guard_drop me true;; mret (inr e)
      | inl _ => guard_drop me false;; mret (inl ())
      end
  end.

(** ** kronictl *)
Definition read_pid_file : prog (Outcome (option Z)) :=
  there ← perform (Exists PidFile);
  if there : bool then
    content ← perform (Read PidFile);
    mret match content with
    | None => inr "Failed to read PID file"
    | Some content =>
        match parse_pid content with Some p => inl (Some p) | None => inr "Invalid PID in file" end
    end
  else mret (inl None).

(** [sysinfo] answers with the table it read; a process it does not find is not running. *)
Definition ctl_is_running (pid : Z) : prog bool :=
  r ← perform (IsRunning pid); mret (default false r).

Definition load_previous_run_id (parse_run_id : string -> Outcome string)
    : prog (Outcome (option string)) :=
  there ← perform (Exists RunIdFile);
  if there : bool then
    raw ← perform (Read RunIdFile);
    mret match raw with
    | None => inr "reading run id file"
    | Some raw =>
        if bool_decide (str_trim raw = "") then inl None
        else match parse_run_id (str_trim raw) with
             | inl id => inl (Some id)
             | inr _ => inr "invalid run id"
             end
    end
  else mret (inl None).

(** The previous run id is only printed. *)
Definition stop_daemon (parse_run_id : string -> Outcome string) : prog (Outcome unit) :=
  _ ← load_previous_run_id parse_run_id;
  let? pid := read_pid_file in
  match pid with
  | None => mret (inl ())
  | Some pid =>
      running ← ctl_is_running pid;
      if running : bool then
        perform (Terminate (sw 32 pid));;
        perform (Sleep 500);;
        still ← ctl_is_running pid;
        (if still : bool then mret () else _ ← perform (Remove PidFile); mret ());;
        mret (inl ())
      else
        _ ← perform (Remove PidFile);
        mret (inl ())
  end.

Definition start_daemon (run_id : option string) : prog (Outcome unit) :=
  let? pid := read_pid_file in
  let? _ :=
    match pid with
    | None => mret (inl ())
    | Some existing_pid =>
        running ← ctl_is_running existing_pid;
        if running : bool then
          mret (inr ("Kronical daemon is already running (PID: " +:+ show existing_pid +:+ ")"))
        else _ ← perform (Remove PidFile); mret (inl ())
    end in
  check (Spawn run_id) "Failed to spawn kronid".

Definition restart_daemon (parse_run_id : string -> Outcome string) (run_id : option string)
    : prog (Outcome unit) :=
  _ ← stop_daemon parse_run_id;
  let? run_id :=
    match run_id with
    | Some id => mret (inl (Some id))
    | None => load_previous_run_id parse_run_id
    end in
  start_daemon run_id.
End programs.

(** ** The files and the process table

    [faults n] makes the [n]-th operation fail, [answer] is how a service ends, and
    [term pid] is what becomes of the files and the table when [pid] is told to
    terminate. *)
Record World := {
  fs : gmap file string;
  table : gset Z;
  spawned : list (option string);
  killed : list Z;
  ops : nat
}.

Section world.
Context (faults : nat -> bool) (answer : unit + string).
Context (term : Z -> gmap file string * gset Z -> gmap file string * gset Z).

Definition with_fs (w : World) (m : gmap file string) : World :=
  {| fs := m; table := table w; spawned := spawned w; killed := killed w; ops := S (ops w) |}.

Definition exec {R} (o : op R) (w : World) : R * World :=
  let ok := negb (faults (ops w)) in
  let same := with_fs w (fs w) in
  match o in op R return R * World with
  | Exists f => (ok && bool_decide (is_Some (fs w !! f)), same)
  | Read f => (if ok then fs w !! f else None, same)
  | Remove f =>
      if ok && bool_decide (is_Some (fs w !! f)) then (true, with_fs w (delete f (fs w)))
      else (false, same)
  | CreateNew f =>
      if ok && negb (bool_decide (is_Some (fs w !! f))) then (true, with_fs w (<[f := ""]> (fs w)))
      else (false, same)
  | OpenTruncate f => if ok then (true, with_fs w (<[f := ""]> (fs w))) else (false, same)
  | Write f s => if ok then (true, with_fs w (alter (fun t => t +:+ s) f (fs w))) else (false, same)
  | SyncAll f => (ok, same)
  | Rename f g =>
      match fs w !! f with
      | Some t => if ok then (true, with_fs w (<[g := t]> (delete f (fs w)))) else (false, same)
      | None => (false, same)
      end
  | IsRunning pid => (if ok then Some (bool_decide (pid ∈ table w)) else None, same)
  | EnsureWorkspace | SetUpLogging => (ok, same)
  | Serve => (answer, same)
  | Terminate pid =>
      let '(m, t) := term pid (fs w, table w) in
      ((), {| fs := m; table := t; spawned := spawned w; killed := killed w ++ [pid];
              ops := S (ops w) |})
  | Sleep _ => ((), same)
  | Spawn id =>
      if ok then (true, {| fs := fs w; table := table w; spawned := spawned w ++ [id];
                           killed := killed w; ops := S (ops w) |})
      else (false, same)
  end.

(** A program run alone. *)
Fixpoint run_alone {A} (p : prog A) (w : World) : A * World :=
  match p with
  | Ret a => (a, w)
  | Do o k => let '(r, w') := exec o w in run_alone (k r) w'
  end.

Lemma run_alone_bind {A B} (p : prog A) (f : A -> prog B) w :
  run_alone (p ≫= f) w = let '(a, w') := run_alone p w in run_alone (f a) w'.
Proof.
  revert w. induction p as [a|R o k IH]; intros w; [done|]. cbn.
  destruct (exec o w) as [r w']. apply IH.
Qed.

(** Programs side by side: a schedule names whose operation is next. *)
Definition step_prog {A} (p : prog A) (w : World) : prog A * World :=
  match p with
  | Ret a => (Ret a, w)
  | Do o k => let '(r, w') := exec o w in (k r, w')
  end.
Definition step_at {A} (y : list (prog A) * World) (i : nat) : list (prog A) * World :=
  match y.1 !! i with
  | Some p => let '(p', w') := step_prog p y.2 in (<[i := p']> y.1, w')
  | None => y
  end.
Definition interleave {A} (y : list (prog A) * World) (sched : list nat)
    : list (prog A) * World := foldl step_at y sched.

Definition serving {A} (p : prog A) : bool :=
  match p with
  | @Do _ R o _ => match o with Serve => true | _ => false end
  | Ret _ => false
  end.
End world.

(** ** A start and its end *)
Section correct.
Context `{TrimGraphic} (answer : unit + string).
Context (term : Z -> gmap file string * gset Z -> gmap file string * gset Z).

Notation no_faults := (fun _ : nat => false).
Notation run_alone := (run_alone no_faults answer term).

Lemma parse_own p : in_u 32 p -> parse_pid (show p) = Some p.
Proof.
  intros Hp. unfold parse_pid. rewrite trim_show. by apply unsigned_roundtrip.
Qed.

(** Only the files change. *)
Definition becomes (w : World) (m : gmap file string) (w' : World) : Prop :=
  fs w' = m /\ table w' = table w /\ spawned w' = spawned w /\ killed w' = killed w.

Lemma becomes_trans w m w' m' w'' : becomes w m w' -> becomes w' m' w'' -> becomes w m' w''.
Proof. unfold becomes. intuition congruence. Qed.

(** The process the pid file names. *)
Definition owner (m : gmap file string) : option Z := m !! PidFile ≫= parse_pid.

Definition unowned (w : World) : Prop := forall p, owner (fs w) = Some p -> p ∉ table w.

Ltac files_eq := apply map_eq; intros []; by simplify_map_eq.

Lemma write_run_id_file_ok id w :
  exists w', run_alone (write_run_id_file id) w = (inl (), w') /\
    becomes w (<[RunIdFile := id]> (fs w)) w'.
Proof.
  eexists. split; [reflexivity|]. split; [|done]. cbn. by rewrite alter_insert_eq.
Qed.

(** The workspace and the log are there. *)
Lemma check_ok (o : op bool) e w :
  exec no_faults answer term o w = (true, with_fs w (fs w)) ->
  exists w', run_alone (check o e) w = (inl (), w') /\ becomes w (fs w) w'.
Proof. intros Ho. unfold check. cbn. rewrite Ho. eexists. by split. Qed.

(** A removal leaves the file absent, whether it was there or not. *)
Lemma run_alone_remove {A} f (k : bool -> prog A) w :
  exists b, run_alone (Do (Remove f) k) w = run_alone (k b) (with_fs w (delete f (fs w))).
Proof.
  cbn. case_bool_decide as Hf; cbn; [by exists true|]. exists false.
  by rewrite delete_id by by apply eq_None_not_Some.
Qed.

Lemma run_alone_exists {A} f (k : bool -> prog A) w :
  run_alone (Do (Exists f) k) w =
  run_alone (k (bool_decide (is_Some (fs w !! f)))) (with_fs w (fs w)).
Proof. done. Qed.

Lemma run_alone_read {A} f (k : option string -> prog A) w :
  run_alone (Do (Read f) k) w = run_alone (k (fs w !! f)) (with_fs w (fs w)).
Proof. done. Qed.

Lemma run_alone_running {A} p (k : option bool -> prog A) w :
  run_alone (Do (IsRunning p) k) w =
  run_alone (k (Some (bool_decide (p ∈ table w)))) (with_fs w (fs w)).
Proof. done. Qed.

Lemma remove_pid_and_lock_ok {A} (k : unit -> prog A) w :
  exists w', run_alone (remove_pid_and_lock ≫= k) w = run_alone (k ()) w' /\
    becomes w (delete LockFile (delete PidFile (fs w))) w'.
Proof.
  unfold remove_pid_and_lock. cbn [mbind prog_bind prog_bind_ perform mret prog_ret].
  destruct (run_alone_remove PidFile (fun _ => Do (Remove LockFile) (fun _ => k ())) w) as [b1 H1'].
  destruct (run_alone_remove LockFile (fun _ => k ()) (with_fs w (delete PidFile (fs w)))) as [b2 H2'].
  eexists. split; [exact (eq_trans H1' H2')|]. by split.
Qed.

Lemma clear_stale_ok w :
  unowned w ->
  exists w', run_alone clear_stale w = (inl (), w') /\
    becomes w (delete LockFile (delete PidFile (fs w))) w'.
Proof.
  intros Hw. unfold clear_stale. cbn [mbind prog_bind prog_bind_ perform].
  rewrite run_alone_exists. case_bool_decide as Hp.
  - cbn [mbind prog_bind prog_bind_ perform]. rewrite run_alone_read.
    assert (forall w1 : World, becomes w (fs w) w1 -> exists w',
      run_alone (remove_pid_and_lock ≫= fun _ => mret (inl ())) w1 = (inl () : Outcome unit, w') /\
      becomes w (delete LockFile (delete PidFile (fs w))) w') as Hremove.
    { intros w1 (Hf1&Ht1&Hs1&Hk1).
      destruct (remove_pid_and_lock_ok (fun _ => mret (inl () : Outcome unit)) w1) as (w'&He&Hw').
      exists w'. split; [exact He|]. rewrite Hf1 in Hw'. destruct Hw' as (?&?&?&?).
      split_and!; congruence. }
    cbn [with_fs fs]. destruct (fs w !! PidFile ≫= parse_pid) as [p|] eqn:Ho.
    + cbn [try_ is_process_running mbind prog_bind prog_bind_ perform].
      rewrite run_alone_running. cbn [with_fs table prog_bind_ mret prog_ret].
      rewrite bool_decide_false by (by apply Hw). by apply Hremove.
    + by apply Hremove.
  - cbn [mbind prog_bind prog_bind_ perform]. rewrite run_alone_exists.
    assert (delete PidFile (fs w) = fs w) as Hd by by apply delete_id, eq_None_not_Some.
    cbn [with_fs fs]. rewrite Hd. case_bool_decide as Hl.
    + destruct (run_alone_remove LockFile (fun _ => Ret (inl () : Outcome unit))
        (with_fs (with_fs w (fs w)) (fs w))) as [b Hb].
      eexists. split; [exact Hb|]. by split.
    + eexists. split; [done|]. rewrite delete_id by by apply eq_None_not_Some. by split.
Qed.

(** The lock is taken and the pid written. *)
Lemma claim_ok me w :
  fs w !! LockFile = None -> exists w',
  run_alone (let? _ := check (CreateNew LockFile) "creating lock" in
    write_result ← write_tmp me;
    match write_result with
    | inl _ => mret (inl ())
    | inr e => _ ← perform (Remove LockFile); _ ← perform (Remove TmpFile); mret (inr e)
    end) w = (inl (), w') /\
  becomes w (<[PidFile := show me]> (delete TmpFile (<[LockFile := ""]> (fs w)))) w'.
Proof.
  intros Hl. unfold check, write_tmp. cbn.
  rewrite bool_decide_false by (by rewrite Hl; intros [? ?]). cbn.
  rewrite alter_insert_eq, lookup_insert_eq. cbn. eexists. split; [reflexivity|].
  split; [cbn|done]. by rewrite delete_insert_eq.
Qed.

Lemma write_pid_file_ok me w :
  unowned w -> exists w', run_alone (write_pid_file me) w = (inl (), w') /\
  becomes w (<[PidFile := show me]> (delete TmpFile (<[LockFile := ""]> (fs w)))) w'.
Proof.
  intros Hw. unfold write_pid_file, try_ at 1. rewrite run_alone_bind.
  destruct (clear_stale_ok w Hw) as (w1&->&Hw1).
  destruct (claim_ok me w1) as (w2&->&Hw2).
  { destruct Hw1 as [-> _]. apply lookup_delete_eq. }
  exists w2. split; [done|]. eapply becomes_trans; [exact Hw1|]. destruct Hw1 as [Hf1 _].
  rewrite Hf1 in Hw2. destruct Hw2 as (Hf2&?&?&?). split_and!; try done; [|congruence..].
  rewrite Hf2. files_eq.
Qed.

(** Symbolic execution of the operation at the head. *)
Ltac prog_simpl := cbn [mbind prog_bind prog_bind_ perform check mret prog_ret option_bind].
Ltac remove_step :=
  match goal with |- context [PidFile.run_alone _ _ _ (Do (Remove ?f) ?k) ?w] =>
    let b := fresh "b" in destruct (run_alone_remove f k w) as [b ->] end; prog_simpl.

(** The end of the service: clean-up, or the guard. *)
Lemma guard_drop_ok {A} me active (k : unit -> prog A) w :
  fs w !! PidFile = Some (show me) -> in_u 32 me -> exists w',
  run_alone (guard_drop me active ≫= k) w = run_alone (k ()) w' /\
  becomes w (delete LockFile (if active then delete PidFile (fs w) else fs w)) w'.
Proof.
  intros Hf Hme. unfold guard_drop. destruct active; prog_simpl.
  - rewrite run_alone_read, Hf. prog_simpl. rewrite parse_own, Z.eqb_refl by done. prog_simpl.
    remove_step. remove_step. eexists. split; [reflexivity|]. by split.
  - remove_step. eexists. split; [reflexivity|]. by split.
Qed.

Lemma guard_drop_inactive_ok {A} me (k : unit -> prog A) w : exists w',
  run_alone (guard_drop me false ≫= k) w = run_alone (k ()) w' /\
  becomes w (delete LockFile (fs w)) w'.
Proof.
  unfold guard_drop. prog_simpl. remove_step. eexists. split; [reflexivity|]. by split.
Qed.

Lemma cleanup_pid_file_ok {A} me (k : Outcome unit -> prog A) w :
  fs w !! PidFile = Some (show me) -> in_u 32 me -> exists w',
  run_alone (cleanup_pid_file me ≫= k) w = run_alone (k (inl ())) w' /\
  becomes w (delete PidFile (fs w)) w'.
Proof.
  intros Hf Hme. unfold cleanup_pid_file. prog_simpl.
  rewrite run_alone_exists, Hf, bool_decide_true by done. prog_simpl.
  rewrite run_alone_read. cbn [with_fs fs]. rewrite Hf, parse_own, Z.eqb_refl by done.
  unfold check. prog_simpl. cbn. rewrite bool_decide_true by by rewrite Hf.
  eexists. split; [reflexivity|]. by split.
Qed.

Lemma verify_ok {A} me (k : Outcome unit -> prog A) w :
  fs w !! PidFile = Some (show me) -> in_u 32 me -> exists w',
  run_alone (verify_pid_file me ≫= k) w = run_alone (k (inl ())) w' /\ becomes w (fs w) w'.
Proof.
  intros Hf Hme. unfold verify_pid_file. prog_simpl. rewrite run_alone_read, Hf. prog_simpl.
  rewrite parse_own, Z.eqb_refl by done. eexists. split; [reflexivity|]. by split.
Qed.

(** What follows the start, whatever the answer of the service. *)
Lemma served_ok me w :
  fs w !! PidFile = Some (show me) -> in_u 32 me -> exists w',
  run_alone (served ← perform Serve;
    match served with
    | inr e => guard_drop me true;; mret (inr e)
    | inl _ =>
        cleaned ← cleanup_pid_file me;
        match cleaned with
        | inr e => guard_drop me true;; mret (inr e)
        | inl _ => guard_drop me false;; mret (inl ())
        end
    end) w = (answer, w') /\
  becomes w (delete LockFile (delete PidFile (fs w))) w'.
Proof.
  intros Hf Hme. prog_simpl. cbn [PidFile.run_alone exec]. destruct answer as [[]|e] in |- * at 2 3.
  - destruct (cleanup_pid_file_ok me (fun cleaned => match cleaned with
      | inr e => guard_drop me true;; mret (inr e)
      | inl _ => guard_drop me false;; mret (inl ())
      end) (with_fs w (fs w))) as (w1&E1&Hw1); [done..|].
    destruct (guard_drop_inactive_ok me (fun _ => mret (inl () : Outcome unit)) w1) as (w2&E2&Hw2).
    exists w2. split; [exact (eq_trans E1 E2)|]. cbn [with_fs fs] in Hw1.
    destruct Hw1 as (Hf1&?&?&?), Hw2 as (Hf2&?&?&?). rewrite Hf1 in Hf2.
    split_and!; [done|etrans; done..].
  - destruct (guard_drop_ok me true (fun _ => mret (inr e : Outcome unit)) (with_fs w (fs w)))
      as (w1&E1&Hw1); [done..|]. by exists w1.
Qed.

(** From the start to the end, nothing failing. *)
Lemma run_ok me id w :
  in_u 32 me -> unowned w -> exists w',
  run_alone (run me id) w = (answer, w') /\
  becomes w (<[RunIdFile := id]> (delete TmpFile (delete LockFile (delete PidFile (fs w))))) w'.
Proof.
  intros Hme Hw. unfold run, try_ at 1. rewrite run_alone_bind.
  destruct (check_ok EnsureWorkspace "creating workspace dir" w eq_refl) as (wa&->&Hwa).
  unfold try_ at 1. rewrite run_alone_bind.
  destruct (write_run_id_file_ok id wa) as (wb&->&Hwb).
  unfold try_ at 1. rewrite run_alone_bind.
  destruct (check_ok SetUpLogging "creating log directory" wb eq_refl) as (w1&->&Hwl).
  assert (becomes w (<[RunIdFile := id]> (fs w)) w1) as Hw1.
  { unfold becomes in *. intuition congruence. }
  clear Hwa Hwb Hwl. unfold try_ at 1. rewrite run_alone_bind.
  destruct (write_pid_file_ok me w1) as (w2&->&Hw2).
  { destruct Hw1 as (Hf1&Ht1&_). intros p. rewrite Hf1, Ht1. unfold owner.
    rewrite lookup_insert_ne by done. apply Hw. }
  pose proof (becomes_trans _ _ _ _ _ Hw1 Hw2) as Hw12. clear Hw2. destruct Hw1 as [Hf1 _].
  rewrite Hf1 in Hw12. assert (fs w2 !! PidFile = Some (show me)) as Hpid.
  { destruct Hw12 as [-> _]. apply lookup_insert_eq. }
  unfold try_ at 1.
  match goal with |- context [verify_pid_file me ≫= ?k] =>
    destruct (verify_ok me k w2) as (w3&->&Hw3); [done..|] end.
  destruct (served_ok me w3) as (w4&->&Hw4); [|done|].
  { by destruct Hw3 as [-> _]. }
  exists w4. split; [done|]. pose proof (becomes_trans _ _ _ _ _ Hw12 Hw3) as Hw13.
  pose proof (becomes_trans _ _ _ _ _ Hw13 Hw4) as Hw14.
  assert (fs w3 = fs w2) as Hf32 by by destruct Hw3.
  rewrite Hf32 in Hw14. destruct Hw12 as [Hf2 _]. rewrite Hf2 in Hw14.
  destruct Hw14 as (Hf4&?). split; [|done]. rewrite Hf4. files_eq.
Qed.

(** C30: the life of a daemon alone: where no live process owns the pid file (there is
    none, or a stale or unreadable one, with or without a lock), the daemon starts,
    serves and, however the service ends, leaves neither pid file nor lock nor
    temporary file; its answer is that of the service, and the run id file holds its
    run id. *)
Theorem run_life_cycle me id w :
  in_u 32 me -> unowned w -> exists w',
  run_alone (run me id) w = (answer, w') /\
  becomes w (<[RunIdFile := id]> (delete TmpFile (delete LockFile (delete PidFile (fs w))))) w'.
Proof. apply run_ok. Qed.

End correct.

(** The answers of the files are looked up. *)
Ltac look_up :=
  rewrite ?lookup_alter_ne, ?lookup_alter_eq, ?lookup_insert_ne, ?lookup_insert_eq,
    ?lookup_delete_ne, ?lookup_delete_eq, ?lookup_empty by done;
  cbn [fmap option_fmap option_map];
  repeat first [rewrite (bool_decide_true (is_Some (Some _))) by eauto
    | rewrite (bool_decide_false (is_Some None)) by by intros [? ?]].

(** ** Starts refused, and races *)
Section races.
Context `{TrimGraphic} (answer : unit + string).
Context (term : Z -> gmap file string * gset Z -> gmap file string * gset Z).

Notation no_faults := (fun _ : nat => false).
Notation interleave := (interleave no_faults answer term).
Notation step_prog := (step_prog no_faults answer term).

(** What a start may still do while [content] names the running process [pid]: look at
    the pid file and at the process, write the run id file, and fail. *)
Inductive Refused {A} (content : string) (pid : Z) : prog (Outcome A) -> Prop :=
  | refused_ret e : Refused content pid (Ret (inr e))
  | refused_open k : (forall b, Refused content pid (k b)) ->
      Refused content pid (Do (OpenTruncate RunIdFile) k)
  | refused_write s k : (forall b, Refused content pid (k b)) ->
      Refused content pid (Do (Write RunIdFile s) k)
  | refused_sync k : (forall b, Refused content pid (k b)) ->
      Refused content pid (Do (SyncAll RunIdFile) k)
  | refused_workspace k : (forall b, Refused content pid (k b)) ->
      Refused content pid (Do EnsureWorkspace k)
  | refused_logging k : (forall b, Refused content pid (k b)) ->
      Refused content pid (Do SetUpLogging k)
  | refused_exists k : Refused content pid (k true) ->
      Refused content pid (Do (Exists PidFile) k)
  | refused_read k : Refused content pid (k (Some content)) ->
      Refused content pid (Do (Read PidFile) k)
  | refused_running k : Refused content pid (k (Some true)) ->
      Refused content pid (Do (IsRunning pid) k).
#[local] Hint Constructors Refused : core.

Lemma run_refused me id content pid :
  parse_pid content = Some pid -> Refused content pid (run me id).
Proof.
  intros Hp. unfold run, try_ at 1, write_run_id_file, try_ at 1. cbn.
  do 5 (constructor; intros []; cbn; [|by auto]). constructor; cbn. constructor; cbn. rewrite Hp. cbn.
  constructor; cbn. constructor.
Qed.

Lemma start_refused id content pid :
  parse_pid content = Some pid -> Refused content pid (start_daemon id).
Proof. intros Hp. cbn. constructor; cbn. constructor; cbn. rewrite Hp. cbn. constructor; cbn. constructor. Qed.

(** What refused starts leave alone. *)
Definition held (content : string) (pid : Z) (w0 w : World) : Prop :=
  fs w !! PidFile = Some content /\ pid ∈ table w /\ fs w !! LockFile = fs w0 !! LockFile /\
  table w = table w0 /\ spawned w = spawned w0 /\ killed w = killed w0.

Lemma refused_step {A} content pid w0 w (p : prog (Outcome A)) :
  Refused content pid p -> held content pid w0 w ->
  Refused content pid (step_prog p w).1 /\ held content pid w0 (step_prog p w).2.
Proof.
  intros Hp (Hf&Hr&Hl&Ht&Hs&Hk). destruct Hp as [e|k Hk'|s k Hk'|k Hk'|k Hk'|k Hk'|k Hk'|k Hk'|k Hk']; cbn.
  - by split.
  - split; [apply Hk'|]. split_and!; cbn; by simplify_map_eq.
  - split; [apply Hk'|]. split_and!; cbn; try done; by rewrite lookup_alter_ne.
  - by split; [apply Hk'|].
  - by split; [apply Hk'|].
  - by split; [apply Hk'|].
  - rewrite bool_decide_true by by rewrite Hf. by split.
  - rewrite Hf. by split.
  - rewrite bool_decide_true by done. by split.
Qed.

Lemma refused_interleave {A} content pid w0 sched (y : list (prog (Outcome A)) * World) :
  Forall (Refused content pid) y.1 -> held content pid w0 y.2 ->
  Forall (Refused content pid) (interleave y sched).1 /\ held content pid w0 (interleave y sched).2.
Proof.
  revert y. induction sched as [|i sched IH]; intros y Hy Hw; [done|].
  cbn [PidFile.interleave foldl]. apply IH; unfold step_at; destruct (y.1 !! i) as [p|] eqn:E; try done.
  all: destruct (step_prog p y.2) as [p' w'] eqn:Es; cbn.
  all: destruct (refused_step content pid w0 y.2 p) as [Hp' Hw'];
    [by eapply Forall_lookup_1|done|]; rewrite Es in Hp', Hw'; try done.
  by apply Forall_insert.
Qed.

(** What a start has come to: it has not gone into service, and if it has ended it
    has failed. *)
Definition kept_out {A} (p : prog (Outcome A)) : Prop :=
  serving p = false /\ forall a, p = Ret a -> exists e, a = inr e.

(** C19: while the pid file names a running process, any number of daemons and of
    [kronictl start] commands, started together and interleaved in any way, are all
    kept out: none goes into service and each that ends, ends with an error; the pid
    file and the lock are as they were, and no process is started or signalled. *)
Theorem live_owner_excludes content pid daemons commands w sched :
  fs w !! PidFile = Some content -> parse_pid content = Some pid -> pid ∈ table w ->
  let y := interleave (((fun '(me, id) => run me id) <$> daemons) ++ (start_daemon <$> commands), w)
             sched in
  Forall kept_out y.1 /\ held content pid w y.2.
Proof.
  intros Hf Hp Hr y. destruct (refused_interleave content pid w sched
    (((fun '(me, id) => run me id) <$> daemons) ++ (start_daemon <$> commands), w)) as [Hy Hw].
  - apply Forall_app. split; apply Forall_fmap, Forall_forall; [intros [me id] _|intros id _].
    + by apply run_refused.
    + by apply start_refused.
  - done.
  - split; [|done]. eapply Forall_impl; [exact Hy|]. intros p [].
    all: split; [done|intros a Ha; try done]. injection Ha as <-. eauto.
Qed.

(** A start that is refused has by then replaced the run id of the daemon that is
    running by its own. *)
Theorem refused_start_overwrites_run_id me id content pid w :
  fs w !! PidFile = Some content -> parse_pid content = Some pid -> pid ∈ table w ->
  exists w', run_alone no_faults answer term (run me id) w =
    (inr ("Kronical daemon is already running (PID: " +:+ show pid +:+ ")"), w') /\
  becomes w (<[RunIdFile := id]> (fs w)) w'.
Proof.
  intros Hf Hp Hr. unfold run, try_ at 1. rewrite run_alone_bind.
  destruct (check_ok answer term EnsureWorkspace "creating workspace dir" w eq_refl) as (wa&->&Hfa&Hta&?&?).
  unfold try_ at 1. rewrite run_alone_bind.
  destruct (write_run_id_file_ok answer term id wa) as (w1&->&Hw1). destruct Hw1 as (Hf1&Ht1&?&?).
  rewrite Hfa in Hf1. rewrite Hta in Ht1. unfold try_ at 1. rewrite run_alone_bind.
  destruct (check_ok answer term SetUpLogging "creating log directory" w1 eq_refl) as (wl&->&Hfl&Htl&?&?).
  rewrite <- Hfl in Hf1. rewrite <- Htl in Ht1.
  unfold write_pid_file, clear_stale. cbn.
  rewrite bool_decide_true by (rewrite Hf1; by simplify_map_eq). cbn.
  rewrite Hf1, lookup_insert_ne, Hf by done. cbn. rewrite Hp. cbn.
  rewrite bool_decide_true by by rewrite Ht1. cbn. eexists. split; [reflexivity|].
  split_and!; cbn; congruence.
Qed.

(** An empty workspace. *)
Definition fresh (t : gset Z) : World :=
  {| fs := ∅; table := t; spawned := []; killed := []; ops := 0 |}.

(** The first daemon has the lock and is about to write its pid; the second finds a
    lock and no pid file, takes the lock for a stale one, and starts; then the first
    writes its pid over the second's and starts too. *)
Definition lock_race : list nat := replicate 8 0%nat ++ replicate 14 1%nat ++ replicate 5 0%nat.

Lemma interleave_cons {A} (y : list (prog A) * World) i s :
  interleave y (i :: s) = interleave (step_at no_faults answer term y i) s.
Proof. done. Qed.

(** One step of a concrete schedule. *)
Ltac race_step :=
  rewrite interleave_cons; unfold step_at; cbn -[parse_pid PidFile.interleave];
  repeat (progress look_up; cbn -[parse_pid PidFile.interleave]).

(** The lock does not exclude: two daemons started together in an empty workspace
    can both go into service. *)
Theorem two_daemons me1 me2 id1 id2 t :
  in_u 32 me1 -> in_u 32 me2 ->
  let y := interleave ([run me1 id1; run me2 id2], fresh t) lock_race in
  map serving y.1 = [true; true].
Proof.
  intros H1' H2'. unfold lock_race, fresh. cbn [replicate app].
  do 21 race_step. race_step. rewrite (parse_own me2), Z.eqb_refl by done.
  do 4 race_step. race_step. rewrite (parse_own me1), Z.eqb_refl by done. reflexivity.
Qed.
End races.

(** ** Failures on the way up *)
Section failures.
Context `{TrimGraphic} (answer : unit + string).
Context (term : Z -> gmap file string * gset Z -> gmap file string * gset Z).

Definition start_in (m : gmap file string) (t : gset Z) : World :=
  {| fs := m; table := t; spawned := []; killed := []; ops := 0 |}.

(** Only the [k]-th operation fails. *)
Definition fault_at (k n : nat) : bool := (n =? k)%nat.

(** A failure while the pid file is being written is undone: with one operation of
    the five that take the lock and write the pid failing, the start fails, there is
    neither lock nor pid file, and the temporary file is gone. *)
Theorem write_fault_rolls_back me m t k :
  m !! PidFile = None -> m !! LockFile = None -> (2 <= k <= 6)%nat ->
  exists e w', run_alone (fault_at k) answer term (write_pid_file me) (start_in m t) = (inr e, w') /\
  fs w' = if (k =? 2)%nat then m else delete TmpFile m.
Proof.
  intros Hp Hl Hk. assert (k = 2 \/ k = 3 \/ k = 4 \/ k = 5 \/ k = 6)%nat as Hk' by lia.
  destruct Hk' as [->|[->|[->|[->| ->]]]].
  all: cbn; repeat (progress (rewrite ?Hp, ?Hl; look_up); cbn); eauto.
  all: try (case_bool_decide as Ht; [|apply eq_None_not_Some in Ht]).
  all: eexists _, _; split; [reflexivity|].
  all: apply map_eq; intros []; by simplify_map_eq.
Qed.

(** The guard that removes the files exists only once the pid file has been
    verified: a start whose verification cannot read the file fails and leaves both
    the lock and its pid behind. *)
Theorem unverified_start_leaves_files me id t :
  exists w', run_alone (fault_at 12) answer term (run me id) (start_in ∅ t) =
    (inr "reading pid file", w') /\
  fs w' = <[PidFile := show me]> (<[LockFile := ""]> {[RunIdFile := id]}).
Proof.
  cbn. repeat (progress look_up; cbn). eexists. split; [reflexivity|].
  apply map_eq. intros []; by simplify_map_eq.
Qed.
End failures.

(** ** Stopping and starting *)
Section control.
Context `{TrimGraphic} (answer : unit + string).
Context (term : Z -> gmap file string * gset Z -> gmap file string * gset Z).
Context (parse_run_id : string -> Outcome string).

Notation no_faults := (fun _ : nat => false).
Notation run_alone := (run_alone no_faults answer term).

Lemma load_ok w : exists r w',
  run_alone (load_previous_run_id parse_run_id) w = (r, w') /\ becomes w (fs w) w'.
Proof.
  unfold load_previous_run_id. cbn. case_bool_decide; eexists _, _; (split; [reflexivity|done]).
Qed.

(** What a command leaves: files, processes, starts and signals. *)
Definition leaves (w : World) (m : gmap file string) (t : gset Z) (started : list (option string))
    (signalled : list Z) : Prop :=
  fs w = m /\ table w = t /\ spawned w = started /\ killed w = signalled.

(** [kronictl stop] signals the process the pid file names, once, if it is running,
    and no other; it removes the pid file unless the process outlives the half second. *)
Theorem stop_daemon_spec content pid w :
  fs w !! PidFile = Some content -> parse_pid content = Some pid -> exists w',
  run_alone (stop_daemon parse_run_id) w = (inl (), w') /\
  let '(m, t) := term (sw 32 pid) (fs w, table w) in
  if bool_decide (pid ∈ table w)
  then leaves w' (if bool_decide (pid ∈ t) then m else delete PidFile m) t (spawned w)
         (killed w ++ [sw 32 pid])
  else leaves w' (delete PidFile (fs w)) (table w) (spawned w) (killed w).
Proof.
  intros Hf Hp. unfold stop_daemon. rewrite run_alone_bind.
  destruct (load_ok w) as (r&w1&->&Hf1&Ht1&Hs1&Hk1). cbn.
  repeat (progress (rewrite ?Hf1, ?Hf, ?Hp, ?Ht1; look_up); cbn).
  destruct (term (sw 32 pid) (fs w, table w)) as [m t] eqn:Et.
  case_bool_decide; cbn.
  - rewrite ?Hf1, ?Ht1, ?Et. cbn. case_bool_decide as Hr; cbn.
    + eexists. split; [reflexivity|]. split_and!; cbn; congruence.
    + case_bool_decide as Hm; cbn; (eexists; split; [reflexivity|]).
      all: split_and!; cbn; try congruence.
      symmetry. by apply delete_id, eq_None_not_Some.
  - rewrite ?Hf1, ?Hf. look_up. cbn. eexists. split; [reflexivity|]. split_and!; cbn; congruence.
Qed.

(** [kronictl start] starts a daemon only where the pid file is absent or names no
    running process; a pid file it cannot read stops it. *)
Theorem start_daemon_spec id w : exists r w',
  run_alone (start_daemon id) w = (r, w') /\ table w' = table w /\ killed w' = killed w /\
  match parse_pid <$> fs w !! PidFile with
  | None => r = inl () /\ spawned w' = spawned w ++ [id] /\ fs w' = fs w
  | Some None => r = inr "Invalid PID in file" /\ spawned w' = spawned w /\ fs w' = fs w
  | Some (Some pid) =>
      if bool_decide (pid ∈ table w)
      then r = inr ("Kronical daemon is already running (PID: " +:+ show pid +:+ ")") /\
           spawned w' = spawned w /\ fs w' = fs w
      else r = inl () /\ spawned w' = spawned w ++ [id] /\ fs w' = delete PidFile (fs w)
  end.
Proof.
  unfold start_daemon. cbn. destruct (fs w !! PidFile) as [content|] eqn:Hf; look_up; cbn.
  2: by eexists _, _.
  rewrite Hf. cbn. destruct (parse_pid content) as [pid|]; cbn; [|by eexists _, _].
  case_bool_decide; cbn; [by eexists _, _|]. rewrite Hf. look_up. cbn. by eexists _, _.
Qed.

(** [kronictl restart] of a running daemon signals it once; if it ends, one new
    daemon is started, with the run id asked for, and the old pid file is gone; if it
    outlives the half second with its pid file in place, the restart fails and starts
    none. *)
Theorem restart_daemon_spec content pid id w m t :
  fs w !! PidFile = Some content -> parse_pid content = Some pid -> pid ∈ table w ->
  term (sw 32 pid) (fs w, table w) = (m, t) ->
  (pid ∈ t -> m !! PidFile = Some content) -> exists w',
  run_alone (restart_daemon parse_run_id (Some id)) w =
    (if bool_decide (pid ∈ t)
     then inr ("Kronical daemon is already running (PID: " +:+ show pid +:+ ")") else inl (), w') /\
  leaves w' (if bool_decide (pid ∈ t) then m else delete PidFile m) t
    (if bool_decide (pid ∈ t) then spawned w else spawned w ++ [Some id])
    (killed w ++ [sw 32 pid]).
Proof.
  intros Hf Hp Hr Ht Hm. unfold restart_daemon. rewrite run_alone_bind.
  destruct (stop_daemon_spec content pid w) as (w1&->&Hw1); [done..|].
  rewrite Ht, bool_decide_true in Hw1 by done. destruct Hw1 as (Hf1&Ht1&Hs1&Hk1).
  unfold try_. rewrite run_alone_bind. cbn [run_alone mret prog_ret].
  destruct (start_daemon_spec (Some id) w1) as (r&w2&->&Ht2&Hk2&Hw2).
  rewrite Hf1, Ht1, Hs1 in Hw2. case_bool_decide as Hd.
  - rewrite Hm in Hw2 by done. cbn [fmap option_fmap option_map] in Hw2.
    rewrite Hp, bool_decide_true in Hw2 by done. destruct Hw2 as (->&Hs2&Hf2).
    eexists. split; [reflexivity|]. split_and!; congruence.
  - rewrite lookup_delete_eq in Hw2. destruct Hw2 as (->&Hs2&Hf2).
    eexists. split; [reflexivity|]. split_and!; congruence.
Qed.
End control.

(** ** Witnesses *)
#[local] Instance plain_text : UnicodeText := {| str_trim := id; str_to_lowercase := id |}.
#[local] Instance plain_trim : TrimGraphic.
Proof. by intros s. Qed.

Definition stopped_service : unit + string := inl ().
Definition terminated (pid : Z) (y : gmap file string * gset Z) : gmap file string * gset Z :=
  (delete LockFile (delete PidFile y.1), y.2 ∖ {[pid]}).
Definition owned_world : World := start_in {[PidFile := "41"; LockFile := ""; RunIdFile := "old"]} {[41]}.
Definition stale_world : World := start_in {[PidFile := "41"; LockFile := ""]} {[7]}.

Lemma run_life_cycle_witness :
  exists w', run_alone (fun _ => false) stopped_service terminated (run 42 "id") stale_world
    = (stopped_service, w') /\ fs w' = {[RunIdFile := "id"]}.
Proof.
  edestruct (run_life_cycle stopped_service terminated 42 "id" stale_world) as (w'&E&Hf&_).
  - by vm_compute.
  - intros p Hp. vm_compute in Hp. injection Hp as <-. set_solver.
  - exists w'. split; [exact E|]. rewrite Hf. by vm_compute.
Defined.

Lemma live_owner_excludes_witness :
  let y := interleave (fun _ => false) stopped_service terminated
    ([run 42 "id"; run 43 "id2"; start_daemon None], owned_world) [0;0;1;2;1;0;0;1;2;0;0;2;1]%nat in
  Forall kept_out y.1 /\ held "41" 41 owned_world y.2.
Proof.
  apply (live_owner_excludes stopped_service terminated "41" 41 [(42, "id"); (43, "id2")] [None]
    owned_world); [by vm_compute..|set_solver].
Defined.

Lemma refused_start_overwrites_run_id_witness :
  exists w', run_alone (fun _ => false) stopped_service terminated (run 42 "new") owned_world =
    (inr "Kronical daemon is already running (PID: 41)", w') /\
  fs w' !! RunIdFile = Some "new".
Proof.
  destruct (refused_start_overwrites_run_id stopped_service terminated 42 "new" "41" 41 owned_world)
    as (w'&E&Hf&_); [by vm_compute..|set_solver|].
  exists w'. split; [exact E|]. rewrite Hf. by vm_compute.
Defined.

Lemma two_daemons_witness :
  map serving (interleave (fun _ => false) stopped_service terminated
    ([run 42 "a"; run 43 "b"], fresh ∅) lock_race).1 = [true; true].
Proof. apply (two_daemons stopped_service terminated 42 43 "a" "b" ∅); by vm_compute. Defined.

Lemma write_fault_rolls_back_witness :
  exists e w', run_alone (fault_at 4) stopped_service terminated (write_pid_file 42)
    (start_in ∅ ∅) = (inr e, w') /\ fs w' = ∅.
Proof.
  destruct (write_fault_rolls_back stopped_service terminated 42 ∅ ∅ 4) as (e&w'&E&Hf);
    [by vm_compute..|lia|].
  exists e, w'. split; [exact E|]. rewrite Hf. by vm_compute.
Defined.

Lemma restart_daemon_spec_witness :
  exists w', run_alone (fun _ => false) stopped_service terminated
    (restart_daemon (fun s => inl s) (Some "new")) owned_world = (inl (), w') /\
  spawned w' = [Some "new"] /\ killed w' = [41].
Proof.
  destruct (restart_daemon_spec stopped_service terminated (fun s => inl s) "41" 41 "new" owned_world
    {[RunIdFile := "old"]} ∅) as (w'&E&_&_&Hs&Hk); [by vm_compute..| set_solver | by vm_compute | set_solver |].
  exists w'. split; [exact E|]. rewrite Hs, Hk. by vm_compute.
Defined.
