(* ===== verification/LogCli.v ===== *)
(** [kronictl log] (src/bin/kronictl/log_cli.rs): the list of log files, the language of
    selections of them, and the search with its fallbacks. *)
From Stdlib Require Import Ascii.
From S2P Require Import Prelude Decimal.

Notation Outcome A := (A + string)%type.
Notation "'let?' x := p 'in' k" := (match p with inl x => k | inr e => inr e end)
  (at level 200, x pattern, p at level 100, k at level 200) : stdpp_scope.

(** ** The list

    What [read_dir] gives for an entry: the entry itself may fail, and so may its
    metadata, its canonical path and its time. *)
Record DirEntry := {
  d_path : string;
  d_canonical : option string;
  d_metadata : option (bool * option instant * Z)
}.

Record LogEntry := { index : nat; path : string; modified : instant; size : Z }.

Definition UNIX_EPOCH : instant := 0.

Fixpoint read_entries (es : list (Outcome DirEntry)) : Outcome (list LogEntry) :=
  match es with
  | [] => inl []
  | inr e :: _ => inr e
  | inl e :: es =>
      match d_metadata e with
      | Some (true, modified, size) =>
          let? rest := read_entries es in
          inl ({| index := 0; path := default (d_path e) (d_canonical e);
                  modified := default UNIX_EPOCH modified; size := size |} :: rest)
      | _ => read_entries es
      end
  end.

(** The order of the list: by time, then by path ([Path]'s order is a parameter). *)
Section listing.
Context (path_le : string -> string -> bool).

Definition entry_le (a b : LogEntry) : bool :=
  if modified a =? modified b then path_le (path a) (path b) else modified a <? modified b.

Definition set_index (i : nat) (e : LogEntry) : LogEntry :=
  {| index := i; path := path e; modified := modified e; size := size e |}.

(** A directory that does not exist has no entries. *)
Definition collect_log_entries (dir : option (Outcome (list (Outcome DirEntry))))
    : Outcome (list LogEntry) :=
  match dir with
  | None => inl []
  | Some (inr e) => inr e
  | Some (inl es) =>
      let? entries := read_entries es in
      inl (imap set_index (sort_by entry_le entries))
  end.
End listing.

(** [list_logs]: the index each row is labelled with. *)
Definition list_rows (reverse_ : bool) (entries : list LogEntry) : list (Z * LogEntry) :=
  imap (fun position e =>
    (if reverse_ then - (Z.of_nat position + 1) else Z.of_nat (index e), e))
    (if reverse_ then reverse entries else entries).

(** ** Selections *)
Section selection.
Context `{UnicodeText}.

(** [str::split] at a character. *)
Fixpoint split_on (d : ascii) (s : string) : list string :=
  match s with
  | EmptyString => [""]
  | String c s' =>
      if Ascii.eqb c d then "" :: split_on d s'
      else match split_on d s' with
           | w :: ws => String c w :: ws
           | [] => [String c ""]
           end
  end.

(** The first dash outside parentheses that is not the first character: the texts
    before and after it.  [depth] is an [i32]. *)
Fixpoint find_dash (first : bool) (depth : Z) (s : string) : option (string * string) :=
  match s with
  | EmptyString => None
  | String c s' =>
      if Ascii.eqb c "(" then prod_map (String c) id <$> find_dash false (i32_add depth 1) s'
      else if Ascii.eqb c ")" then
        prod_map (String c) id <$> find_dash false (Z.max (depth - 1) (- 2 ^ 31)) s'
      else if Ascii.eqb c "-" && (depth =? 0) && negb first then Some ("", s')
      else prod_map (String c) id <$> find_dash false depth s'
  end.
Definition split_range (token : string) : option (string * string) :=
  (fun '(l, r) => (str_trim l, str_trim r)) <$> find_dash true 0 (str_trim token).

(** The text between the first and the last character. *)
Fixpoint drop_last (s : string) : string :=
  match s with
  | EmptyString => EmptyString
  | String _ EmptyString => EmptyString
  | String c s' => String c (drop_last s')
  end.
Fixpoint last_char (s : string) : option ascii :=
  match s with
  | EmptyString => None
  | String c EmptyString => Some c
  | String _ s' => last_char s'
  end.
Definition inner (s : string) : option string :=
  match s with
  | String "(" s' =>
      if bool_decide (last_char s' = Some ")"%char) && (1 <? String.length s')%nat
      then Some (drop_last s') else None
  | _ => None
  end.

Fixpoint trim_parens (fuel : nat) (value : string) : string :=
  let trimmed := str_trim value in
  match fuel, inner trimmed with
  | S fuel, Some value => trim_parens fuel value
  | _, _ => trimmed
  end.
Definition trim_wrapping_parens (value : string) : string :=
  trim_parens (String.length value) value.

Definition normalize_index (value : Z) (len : nat) : Outcome nat :=
  if 0 <=? value then
    let idx := Z.to_nat value in
    if (len <=? idx)%nat
    then inr ("index " +:+ show (Z.of_nat idx) +:+ " out of range (0.." +:+ show (Z.of_nat len - 1) +:+ ")")
    else inl idx
  else
    let idx := sw 64 (sw 64 (Z.of_nat len) + value) in
    if idx <? 0
    then inr ("index " +:+ show value +:+ " out of range (available " +:+ show (Z.of_nat len) +:+ ")")
    else inl (Z.to_nat idx).

Definition resolve_index (token : string) (len : nat) : Outcome nat :=
  if (len =? 0)%nat then inr "no log files available"
  else
    let trimmed := trim_wrapping_parens (str_trim token) in
    match parse_signed 64 trimmed with
    | None => inr ("invalid index '" +:+ trimmed +:+ "'")
    | Some value => normalize_index value len
    end.

Definition push_unique (vec : list nat) (value : nat) : list nat :=
  if bool_decide (value ∈ vec) then vec else vec ++ [value].

(** [start..=end], or from the start down to the end. *)
Definition range_indexes (start end_ : nat) : list nat :=
  if (start <=? end_)%nat then seq start (end_ - start + 1)
  else reverse (seq end_ (start - end_ + 1)).

Definition select_token (result : list nat) (token : string) (len : nat) : Outcome (list nat) :=
  match split_range token with
  | Some (lhs, rhs) =>
      let? start := resolve_index lhs len in
      let? end_ := resolve_index rhs len in
      inl (foldl push_unique result (range_indexes start end_))
  | None =>
      let? idx := resolve_index token len in
      inl (push_unique result idx)
  end.

Fixpoint select_tokens (result : list nat) (tokens : list string) (len : nat)
    : Outcome (list nat) :=
  match tokens with
  | [] => inl result
  | token :: tokens =>
      let? result := select_token result token len in
      select_tokens result tokens len
  end.

Definition parse_selection (selection : string) (len : nat) : Outcome (list nat) :=
  if (len =? 0)%nat then inl []
  else
    select_tokens [] (filter (fun s => s <> "") (map str_trim (split_on "," selection))) len.

(** ** [log show]

    The files that are printed, in order; [None] is an index out of the list, which
    panics. *)
Definition show_logs (selection : string) (entries : list LogEntry)
    : option (Outcome (list LogEntry)) :=
  match entries with
  | [] => Some (inl [])
  | _ =>
      match parse_selection selection (length entries) with
      | inr e => Some (inr e)
      | inl selected => inl <$> mapM (fun idx => entries !! idx) selected
      end
  end.

Definition neg_index (idx len : nat) : Z := sw 64 (sw 64 (Z.of_nat idx) - sw 64 (Z.of_nat len)).
End selection.

(** [run_less], the pager: any end of it that is not a failure to start is fine. *)
Inductive Launch :=
  | Exited (code : option Z)
  | NotFound
  | LaunchError (e : string).

(** What the command writes: to stderr and to stdout, and how it ends. *)
Record Shown := { stderr : list string; stdout : string; ended : Outcome unit }.

Definition NL : string := String "010" "".

Section printing.
Context `{UnicodeText} (less : list string -> Launch) (read_file : string -> Outcome string).

Definition header_line (entry : LogEntry) (total : nat) : string :=
  "===== [" +:+ show (Z.of_nat (index entry)) +:+ "|" +:+ show (neg_index (index entry) total)
    +:+ "] " +:+ path entry +:+ " =====" +:+ NL.

(** A file's text, with a newline added when the text does not end in one. *)
Definition file_text (content : string) : string :=
  match last_char content with
  | None => ""
  | Some c => if Ascii.eqb c "010" then content else content +:+ NL
  end.

Fixpoint print_files (first : bool) (total : nat) (entries : list LogEntry) : string * Outcome unit :=
  match entries with
  | [] => ("", inl ())
  | entry :: entries =>
      let out := (if first then "" else NL) +:+ header_line entry total in
      match read_file (path entry) with
      | inr _ => (out, inr ("opening " +:+ path entry))
      | inl content =>
          let '(rest, r) := print_files false total entries in
          (out +:+ file_text content +:+ rest, r)
      end
  end.

Definition print_direct (errs : list string) (total : nat) (files : list LogEntry) : Shown :=
  let '(out, r) := print_files true total files in {| stderr := errs; stdout := out; ended := r |}.

Definition show_command (log_dir selection : string) (use_pager : bool) (entries : list LogEntry)
    : option Shown :=
  match entries with
  | [] => Some {| stderr := []; stdout := "No log files under " +:+ log_dir +:+ NL; ended := inl () |}
  | _ =>
      match show_logs selection entries with
      | None => None
      | Some (inr e) => Some {| stderr := []; stdout := ""; ended := inr e |}
      | Some (inl []) => Some {| stderr := []; stdout := "No matching log indexes" +:+ NL; ended := inl () |}
      | Some (inl files) =>
          Some (if use_pager then
            match less (map path files) with
            | Exited _ => {| stderr := []; stdout := ""; ended := inl () |}
            | NotFound =>
                print_direct ["less not found; printing to stdout instead"] (length entries) files
            | LaunchError e =>
                {| stderr := []; stdout := ""; ended := inr ("failed to launch pager: " +:+ e) |}
            end
          else print_direct [] (length entries) files)
      end
  end.
End printing.

(** ** [log filter] *)
(** rg, grep, the regex crate and the files are parameters: a file opens to its lines,
    each of which may fail to be read. *)
Record Tools := {
  rg : string -> list string -> Launch;
  grep : string -> list string -> Launch;
  regex_new : string -> Outcome (string -> bool);
  open_file : string -> Outcome (list (Outcome string))
}.

(** What is printed, and how the command ends. *)
Definition Printed : Type := list string * Outcome unit.

Definition try_tool (run : string -> list string -> Launch) (failed : option Z -> string)
    (pattern : string) (entries : list LogEntry) : Outcome bool :=
  match entries with
  | [] => inl true
  | _ =>
      match run pattern (map path entries) with
      | Exited code =>
          if bool_decide (code = Some 0 \/ code = Some 1) then inl true else inr (failed code)
      | NotFound => inl false
      | LaunchError e => inr e
      end
  end.

Definition show_code (code : option Z) : string :=
  match code with Some c => "Some(" +:+ show c +:+ ")" | None => "None" end.
Definition try_rg (t : Tools) : string -> list LogEntry -> Outcome bool :=
  try_tool (rg t) (fun code => "rg exited with status " +:+ show_code code).
Definition try_grep (t : Tools) : string -> list LogEntry -> Outcome bool :=
  try_tool (grep t) (fun code => "grep exited with status " +:+ show_code code).

Fixpoint scan_lines (is_match : string -> bool) (path_ : string) (lines : list (Outcome string))
    : Printed :=
  match lines with
  | [] => ([], inl ())
  | inr e :: _ => ([], inr e)
  | inl line :: lines =>
      let '(out, r) := scan_lines is_match path_ lines in
      (if is_match line then (path_ +:+ ":" +:+ line) :: out else out, r)
  end.

Fixpoint scan_files (t : Tools) (is_match : string -> bool) (entries : list LogEntry) : Printed :=
  match entries with
  | [] => ([], inl ())
  | entry :: entries =>
      match open_file t (path entry) with
      | inr _ => ([], inr ("opening " +:+ path entry))
      | inl lines =>
          match scan_lines is_match (path entry) lines with
          | (out, inr e) => (out, inr e)
          | (out, inl _) =>
              let '(out', r) := scan_files t is_match entries in (out ++ out', r)
          end
      end
  end.

Definition filter_with_regex (t : Tools) (pattern : string) (entries : list LogEntry) : Printed :=
  match regex_new t pattern with
  | inr e => ([], inr e)
  | inl is_match =>
      match scan_files t is_match entries with
      | (out, inr e) => (out, inr e)
      | ([], inl _) => (["No matches found"], inl ())
      | (out, inl _) => (out, inl ())
      end
  end.

(** [SystemTime::checked_sub] with seconds: the seconds of a time are an [i64]. *)
Definition checked_sub_secs (t : instant) (s : Z) : option instant :=
  let r := t - s * 1000000000 in
  if - 2 ^ 63 <=? r `div` 1000000000 then Some r else None.

Definition cutoff (now : instant) (hours : Z) : instant :=
  default UNIX_EPOCH (checked_sub_secs now (Z.min (hours * 3600) u64_max)).

Definition filter_logs (t : Tools) (now : instant) (log_dir pattern : string) (hours : Z)
    (collected : Outcome (list LogEntry)) : Printed :=
  match collected with
  | inr e => ([], inr e)
  | inl [] => (["No log files under " +:+ log_dir], inl ())
  | inl entries =>
      match filter (fun e => cutoff now hours <= modified e) entries with
      | [] => (["No log files from the last " +:+ show hours +:+ " hours"], inl ())
      | entries =>
          match try_rg t pattern entries with
          | inr e => ([], inr e)
          | inl true => ([], inl ())
          | inl false =>
              match try_grep t pattern entries with
              | inr e => ([], inr e)
              | inl true => ([], inl ())
              | inl false => filter_with_regex t pattern entries
              end
          end
      end
  end.

(** ** Indexes *)
Lemma parse_signed_bound w s n : 1 <= w -> parse_signed w s = Some n -> in_s w n.
Proof.
  intros Hw Hp. unfold parse_signed in Hp. unfold in_s.
  assert (forall t, (k ← parse_nonempty t; if Z.of_N k <? 2 ^ (w - 1) then Some (Z.of_N k) else None)
    = Some n -> - 2 ^ (w - 1) <= n < 2 ^ (w - 1)) as Hpos.
  { intros t. destruct (parse_nonempty t) as [k|]; cbn; [|done].
    destruct (Z.ltb_spec (Z.of_N k) (2 ^ (w - 1))); intros [= <-]. pose proof (N2Z.is_nonneg k). lia. }
  assert (forall t, (k ← parse_nonempty t; if Z.of_N k <=? 2 ^ (w - 1) then Some (- Z.of_N k) else None)
    = Some n -> - 2 ^ (w - 1) <= n < 2 ^ (w - 1)) as Hneg.
  { intros t. destruct (parse_nonempty t) as [k|]; cbn; [|done].
    assert (0 < 2 ^ (w - 1)) by (apply Z.pow_pos_nonneg; lia).
    destruct (Z.leb_spec (Z.of_N k) (2 ^ (w - 1))); intros [= <-]. pose proof (N2Z.is_nonneg k). lia. }
  destruct s as [|c s]; [exact (Hpos _ Hp)|].
  destruct c as [[] [] [] [] [] [] [] []]; first [exact (Hpos _ Hp) | exact (Hneg _ Hp)].
Qed.

(** What an index in range means. *)
Definition position (len : nat) (z : Z) : nat :=
  Z.to_nat (if 0 <=? z then z else Z.of_nat len + z).

Definition addressable (len : nat) : Prop := Z.of_nat len < 2 ^ 63.

Lemma normalize_index_ok z len :
  addressable len -> - Z.of_nat len <= z < Z.of_nat len ->
  normalize_index z len = inl (position len z).
Proof.
  unfold addressable. intros Hl Hz. unfold normalize_index, position.
  destruct (Z.leb_spec 0 z).
  - by rewrite (proj2 (Nat.leb_gt _ _)) by lia.
  - rewrite !(sw_small 64) by (try done; unfold in_s; rewrite ?(sw_small 64) by (try done; unfold in_s; lia); lia).
    by rewrite (proj2 (Z.ltb_ge _ _)) by lia.
Qed.

Lemma normalize_index_bound z len i :
  addressable len -> in_s 64 z -> normalize_index z len = inl i -> (i < len)%nat.
Proof.
  unfold addressable, in_s. intros Hl Hz. unfold normalize_index. destruct (Z.leb_spec 0 z).
  - destruct (Nat.leb_spec len (Z.to_nat z)); [done|]. by intros [= <-].
  - rewrite !(sw_small 64) by (try done; unfold in_s; rewrite ?(sw_small 64) by (try done; unfold in_s; lia); lia).
    destruct (Z.ltb_spec (Z.of_nat len + z) 0); [done|]. intros [= <-]. lia.
Qed.

(** ** Unique indexes, in the order of their first mention *)
Fixpoint nub (l : list nat) : list nat :=
  match l with [] => [] | x :: l => x :: filter (fun y => y <> x) (nub l) end.

Lemma foldl_push acc l :
  foldl push_unique acc l = acc ++ filter (fun x => x ∉ acc) (nub l).
Proof.
  revert acc. induction l as [|x l IH]; intros acc; cbn [foldl nub]; [by rewrite app_nil_r|].
  rewrite IH. unfold push_unique. case_bool_decide as Hx.
  - rewrite filter_cons_False by by intros []. f_equal. rewrite list_filter_filter.
    apply list_filter_iff. intros y. split; [intros Hy; split; [done|by intros ->]|by intros []].
  - rewrite filter_cons_True, <- app_assoc by done. cbn. do 2 f_equal. rewrite list_filter_filter.
    apply list_filter_iff. intros y. rewrite elem_of_app, list_elem_of_singleton. naive_solver.
Qed.

Lemma foldl_push_app acc l k :
  foldl push_unique acc (l ++ k) = foldl push_unique (foldl push_unique acc l) k.
Proof. apply foldl_app. Qed.

Lemma filter_everything {A} (P : A -> Prop) `{!forall x, Decision (P x)} (l : list A) :
  (forall x, P x) -> filter P l = l.
Proof. intros HP. induction l as [|x l IH]; [done|]. by rewrite filter_cons_True, IH. Qed.

Lemma push_all_inv (P : nat -> Prop) acc l :
  NoDup acc -> Forall P acc -> Forall P l ->
  NoDup (foldl push_unique acc l) /\ Forall P (foldl push_unique acc l).
Proof.
  revert acc. induction l as [|x l IH]; intros acc Hn Ha Hl; [done|].
  apply Forall_cons in Hl as [Hx Hl]. cbn [foldl]. unfold push_unique at 2 4.
  case_bool_decide as Hm; [by apply IH|]. apply IH;
    [|by apply Forall_app_2, Forall_singleton|done].
  apply NoDup_app. split_and!; [done| |apply NoDup_singleton].
  intros y Hy ->%list_elem_of_singleton. done.
Qed.

Lemma range_indexes_bound start end_ len :
  (start < len)%nat -> (end_ < len)%nat -> Forall (fun i => (i < len)%nat) (range_indexes start end_).
Proof.
  intros Hs He. unfold range_indexes. destruct (Nat.leb_spec start end_).
  2: apply Forall_reverse.
  all: apply Forall_forall; intros i Hi%elem_of_seq; lia.
Qed.

Section selection_facts.
Context `{UnicodeText}.

Lemma resolve_index_bound t len i :
  addressable len -> resolve_index t len = inl i -> (i < len)%nat.
Proof.
  intros Hl. unfold resolve_index. destruct (len =? 0)%nat; [done|].
  destruct (parse_signed 64 _) as [z|] eqn:Hz; [|done].
  apply normalize_index_bound; [done|]. by eapply parse_signed_bound.
Qed.

Lemma select_tokens_inv acc ts len r :
  addressable len -> NoDup acc -> Forall (fun i => (i < len)%nat) acc ->
  select_tokens acc ts len = inl r -> NoDup r /\ Forall (fun i => (i < len)%nat) r.
Proof.
  intros Hl. revert acc. induction ts as [|t ts IH]; intros acc Hn Ha; cbn; [by intros [= <-]|].
  assert (forall acc', NoDup acc' /\ Forall (fun i => (i < len)%nat) acc' ->
    select_tokens acc' ts len = inl r -> NoDup r /\ Forall (fun i => (i < len)%nat) r) as IH'.
  { intros acc' []. by apply IH. }
  unfold select_token. destruct (split_range t) as [[lhs rhs]|].
  - destruct (resolve_index lhs len) as [s|] eqn:Hs; [|done].
    destruct (resolve_index rhs len) as [e|] eqn:He; [|done].
    apply IH', push_all_inv; [done..|]. apply range_indexes_bound; by eapply resolve_index_bound.
  - destruct (resolve_index t len) as [s|] eqn:Hs; [|done].
    apply IH', (push_all_inv _ acc [s]); [done..|]. repeat constructor. by eapply resolve_index_bound.
Qed.

Lemma parse_selection_inv selection len r :
  addressable len -> parse_selection selection len = inl r ->
  NoDup r /\ Forall (fun i => (i < len)%nat) r.
Proof.
  intros Hl. unfold parse_selection. destruct (len =? 0)%nat.
  - intros [= <-]. split; constructor.
  - apply select_tokens_inv; [done|constructor..].
Qed.

(** [log show] never indexes out of its list, whatever the selection: it answers
    with an error or with files of the list, none of them twice. *)
Theorem show_logs_in_list selection entries :
  addressable (length entries) -> exists o, show_logs selection entries = Some o /\
  forall files, o = inl files -> exists idxs, NoDup idxs /\
    Forall2 (fun i f => entries !! i = Some f) idxs files.
Proof.
  intros Hl. unfold show_logs. destruct entries as [|e0 es] eqn:Ee.
  { eexists. split; [done|]. intros files [= <-]. exists []. split; constructor. }
  rewrite <- Ee in *. clear Ee.
  destruct (parse_selection selection (length entries)) as [r|err] eqn:Hp; [|by eexists].
  apply parse_selection_inv in Hp as [Hn Hb]; [|done].
  assert (exists files, mapM (fun idx => entries !! idx) r = Some files) as [files Hf].
  { apply mapM_is_Some_2. eapply Forall_impl; [exact Hb|]. intros i Hi. by apply lookup_lt_is_Some. }
  rewrite Hf. eexists. split; [done|]. intros ? [= <-]. exists r. split; [done|].
  by apply mapM_Some.
Qed.
End selection_facts.

(** ** The language of selections

    An index may stand in parentheses; a range joins two of them by a dash. *)
Record Bound := { in_parens : bool; at_ : Z }.
Inductive Item :=
  | One (x : Bound)
  | Span (x y : Bound).

Definition bound_text (x : Bound) : string :=
  if in_parens x then "(" +:+ show (at_ x) +:+ ")" else show (at_ x).
Definition item_text (i : Item) : string :=
  match i with One x => bound_text x | Span x y => bound_text x +:+ "-" +:+ bound_text y end.
Definition selection_text (items : list Item) : string := String.concat "," (map item_text items).

Definition bound_ok (len : nat) (x : Bound) : Prop := - Z.of_nat len <= at_ x < Z.of_nat len.
Definition item_ok (len : nat) (i : Item) : Prop :=
  match i with One x => bound_ok len x | Span x y => bound_ok len x /\ bound_ok len y end.

(** The indexes an item names, in its direction. *)
Definition expand (len : nat) (i : Item) : list nat :=
  match i with
  | One x => [position len (at_ x)]
  | Span x y => range_indexes (position len (at_ x)) (position len (at_ y))
  end.

Lemma string_cons_app c s t : String c s +:+ t = String c (s +:+ t).
Proof. done. Qed.
Lemma string_nil_app t : "" +:+ t = t.
Proof. done. Qed.

Lemma string_length_app s t : String.length (s +:+ t) = (String.length s + String.length t)%nat.
Proof. induction s as [|c s IH]; [done|]. rewrite string_cons_app. cbn. by rewrite IH. Qed.

Lemma string_app_assoc s t u : (s +:+ t) +:+ u = s +:+ (t +:+ u).
Proof. induction s as [|c s IH]; [done|]. rewrite !string_cons_app. by rewrite IH. Qed.

Lemma string_app_nil s : s +:+ "" = s.
Proof. induction s as [|c s IH]; [done|]. rewrite string_cons_app. by rewrite IH. Qed.

Lemma last_char_app s c : last_char (s +:+ String c "") = Some c.
Proof.
  induction s as [|d s IH]; [done|]. rewrite string_cons_app. cbn [last_char].
  by destruct s; [|rewrite string_cons_app in *].
Qed.
Lemma drop_last_app s c : drop_last (s +:+ String c "") = s.
Proof.
  induction s as [|d s IH]; [done|]. rewrite string_cons_app. cbn [drop_last].
  destruct s; [done|rewrite string_cons_app in *]. by rewrite IH.
Qed.

Lemma inner_parens s : s <> "" -> inner ("(" +:+ s +:+ ")") = Some s.
Proof.
  intros Hs. rewrite string_cons_app, string_nil_app. cbn [inner].
  rewrite last_char_app, drop_last_app, bool_decide_true by done.
  rewrite (proj2 (Nat.ltb_lt _ _)); [done|]. rewrite string_length_app. destruct s; [done|]. cbn. lia.
Qed.

Lemma show_head z : exists c s, show z = String c s /\ (is_digit c = true \/ c = "-"%char).
Proof.
  destruct (decide (0 <= z)).
  - destruct (show_nonneg_head z) as (c&s&?&?); [done|]. eauto.
  - rewrite show_neg by lia. eauto.
Qed.

Lemma inner_show z : inner (show z) = None.
Proof.
  destruct (show_head z) as (c&s&->&Hc). unfold inner.
  destruct c as [[] [] [] [] [] [] [] []]; try done. by destruct Hc.
Qed.

(** A test on characters that the characters of selections pass. *)
Lemma bound_text_all p x :
  (forall c, is_digit c = true -> p c = true) -> p "-"%char = true -> p "("%char = true ->
  p ")"%char = true -> string_all p (bound_text x) = true.
Proof.
  intros Hd Hm Hl Hr.
  assert (string_all p (show (at_ x)) = true) as Hs.
  { destruct (decide (0 <= at_ x)).
    - by apply (string_all_impl is_digit); [|apply show_digits].
    - rewrite show_neg by lia. cbn [string_all]. rewrite Hm.
      apply (string_all_impl is_digit); [done|]. apply show_digits. lia. }
  unfold bound_text. destruct (in_parens x); [|done].
  rewrite !string_all_app, Hs. cbn. by rewrite Hl, Hr.
Qed.

Lemma item_text_all p i :
  (forall c, is_digit c = true -> p c = true) -> p "-"%char = true -> p "("%char = true ->
  p ")"%char = true -> string_all p (item_text i) = true.
Proof.
  intros Hd Hm Hl Hr. destruct i as [x|x y]; cbn [item_text]; [by apply bound_text_all|].
  rewrite !string_all_app, !bound_text_all by done. cbn. by rewrite Hm.
Qed.

Lemma bound_graphic x : string_all is_graphic (bound_text x) = true.
Proof. by apply bound_text_all; [apply digit_graphic|..]. Qed.
Lemma item_graphic i : string_all is_graphic (item_text i) = true.
Proof. by apply item_text_all; [apply digit_graphic|..]. Qed.

(** The loop that takes parentheses off ends within its fuel: it stops at a text that
    stands in none. *)
Lemma drop_last_length s : String.length (drop_last s) = (String.length s - 1)%nat.
Proof.
  induction s as [|c s IH]; [done|]. destruct s as [|d s]; [done|].
  change (drop_last (String c (String d s))) with (String c (drop_last (String d s))).
  cbn [String.length] in *. rewrite IH. lia.
Qed.

Lemma inner_shorter s v : inner s = Some v -> (String.length v < String.length s)%nat.
Proof.
  destruct s as [|c s]; [done|]. unfold inner. destruct c as [[] [] [] [] [] [] [] []]; try done.
  destruct (_ && _); [|done]. intros [= <-]. rewrite drop_last_length. cbn. lia.
Qed.

Lemma trim_wrapping_parens_settles `{UnicodeText} v :
  (forall s, String.length (str_trim s) <= String.length s)%nat ->
  inner (trim_wrapping_parens v) = None.
Proof.
  intros Htrim. unfold trim_wrapping_parens.
  assert (forall fuel v, (String.length v <= fuel)%nat -> inner (trim_parens fuel v) = None) as Hf;
    [|by apply Hf].
  clear v. induction fuel as [|fuel IH]; intros v Hv; cbn [trim_parens]; pose proof (Htrim v) as Ht.
  - by destruct (str_trim v); [|cbn in *; lia].
  - destruct (inner (str_trim v)) as [v'|] eqn:Ei; [|done]. apply IH.
    apply inner_shorter in Ei. lia.
Qed.

(** *** Splitting *)
Definition not_comma (c : ascii) : bool := negb (Ascii.eqb c ",").

Lemma split_on_app w s :
  string_all not_comma w = true -> split_on "," (w +:+ String "," s) = w :: split_on "," s.
Proof.
  induction w as [|c w IH]; [done|]. cbn [string_all]. intros [Hc Hw]%andb_true_iff.
  rewrite string_cons_app. cbn [split_on]. unfold not_comma in Hc.
  destruct (Ascii.eqb c ","); [done|]. by rewrite IH.
Qed.
Lemma split_on_word w : string_all not_comma w = true -> split_on "," w = [w].
Proof.
  induction w as [|c w IH]; [done|]. cbn [string_all]. intros [Hc Hw]%andb_true_iff.
  cbn [split_on]. unfold not_comma in Hc. destruct (Ascii.eqb c ","); [done|]. by rewrite IH.
Qed.

Lemma split_on_concat ws :
  ws <> [] -> Forall (fun w => string_all not_comma w = true) ws ->
  split_on "," (String.concat "," ws) = ws.
Proof.
  intros Hn Hw. induction Hw as [|w ws Hc Hw IH]; [done|]. destruct ws as [|w' ws].
  - by apply split_on_word.
  - change (String.concat "," (w :: w' :: ws)) with (w +:+ String "," (String.concat "," (w' :: ws))).
    by rewrite split_on_app, IH.
Qed.

(** *** Ranges *)
Lemma find_dash_digits s t first depth :
  string_all is_digit s = true -> find_dash first depth (s +:+ t) =
  prod_map (fun l => s +:+ l) id <$> find_dash (first && bool_decide (s = "")) depth t.
Proof.
  revert first. induction s as [|c s IH]; intros first.
  - intros _. rewrite string_nil_app, bool_decide_true, andb_true_r by done.
    by destruct (find_dash first depth t) as [[]|].
  - cbn [string_all]. intros [Hc Hs]%andb_true_iff. rewrite string_cons_app. cbn [find_dash].
    assert (c <> "("%char /\ c <> ")"%char /\ c <> "-"%char) as (H1'&H2'&H3')
      by (split_and!; intros ->; done).
    rewrite !(proj2 (Ascii.eqb_neq _ _)) by done. cbn [andb]. rewrite IH by done.
    rewrite andb_false_l, andb_false_r. by destruct (find_dash false depth t) as [[]|].
Qed.

Lemma find_dash_bound x t :
  find_dash true 0 (bound_text x +:+ t) =
  prod_map (fun l => bound_text x +:+ l) id <$> find_dash false 0 t.
Proof.
  assert (forall z t first depth, first = true \/ depth <> 0 ->
    find_dash first depth (show z +:+ t) =
    prod_map (fun l => show z +:+ l) id <$> find_dash false depth t) as Hshow.
  { clear x t. intros z t first depth Hfd. destruct (decide (0 <= z)) as [Hz|Hz].
    - rewrite find_dash_digits by by apply show_digits.
      destruct (show_nonneg_head z Hz) as (c&s&->&_). by rewrite bool_decide_false, andb_false_r.
    - rewrite show_neg by lia. rewrite string_cons_app. cbn [find_dash Ascii.eqb Bool.eqb].
      assert ((depth =? 0) && negb first = false) as Hn.
      { destruct Hfd as [->|Hd]; [by rewrite andb_false_r|]. by rewrite (proj2 (Z.eqb_neq _ _)). }
      cbn [andb]. rewrite Hn, find_dash_digits by (apply show_digits; lia). cbn [andb].
      by destruct (find_dash false depth t) as [[]|]. }
  unfold bound_text. destruct (in_parens x); [|by apply Hshow; left].
  rewrite !string_cons_app, !string_nil_app. cbn [find_dash Ascii.eqb Bool.eqb].
  rewrite string_app_assoc, Hshow by by right.
  rewrite string_cons_app, string_nil_app. cbn [find_dash Ascii.eqb Bool.eqb].
  change (Z.max (i32_add 0 1 - 1) (- 2 ^ 31)) with 0.
  destruct (find_dash false 0 t) as [[l r]|]; [|done]. cbn.
  by rewrite string_cons_app, string_app_assoc.
Qed.

Section selection_text.
Context `{TrimGraphic}.

Lemma split_range_text i :
  split_range (item_text i) =
  match i with One _ => None | Span x y => Some (bound_text x, bound_text y) end.
Proof.
  unfold split_range. rewrite trim_graphic by apply item_graphic. destruct i as [x|x y]; cbn [item_text].
  - pose proof (find_dash_bound x "") as Hd. rewrite string_app_nil in Hd. by rewrite Hd.
  - rewrite find_dash_bound.
    change (find_dash false 0 ("-" +:+ bound_text y)) with (Some ("", bound_text y)).
    cbn [fmap option_fmap option_map prod_map id]. rewrite string_app_nil.
    by rewrite !trim_graphic by apply bound_graphic.
Qed.

Lemma trim_parens_show fuel z : trim_parens fuel (show z) = show z.
Proof. destruct fuel; cbn; rewrite trim_show; [done|]. by rewrite inner_show. Qed.

Lemma trim_wrapping_bound x : trim_wrapping_parens (bound_text x) = show (at_ x).
Proof.
  unfold trim_wrapping_parens, bound_text. destruct (in_parens x); [|apply trim_parens_show].
  rewrite string_cons_app at 1. cbn [String.length trim_parens].
  pose proof (bound_graphic {| in_parens := true; at_ := at_ x |}) as Hg.
  unfold bound_text in Hg. cbn [in_parens at_] in Hg. rewrite trim_graphic by done.
  rewrite inner_parens; [apply trim_parens_show|]. by destruct (show_head (at_ x)) as (c&s&->&_).
Qed.

Lemma resolve_bound len x :
  addressable len -> bound_ok len x -> resolve_index (bound_text x) len = inl (position len (at_ x)).
Proof.
  unfold addressable, bound_ok. intros Hl Hx. unfold resolve_index.
  destruct (Nat.eqb_spec len 0); [lia|].
  rewrite trim_graphic by apply bound_graphic. rewrite trim_wrapping_bound, signed_roundtrip by
    (try done; unfold in_s; lia). by apply normalize_index_ok.
Qed.

Lemma select_item acc i len :
  addressable len -> item_ok len i ->
  select_token acc (item_text i) len = inl (foldl push_unique acc (expand len i)).
Proof.
  intros Hl Hi. unfold select_token. rewrite split_range_text.
  destruct i as [x|x y]; cbn [item_text expand].
  - by rewrite resolve_bound.
  - destruct Hi. by rewrite !resolve_bound.
Qed.

Lemma select_items acc items len :
  addressable len -> Forall (item_ok len) items ->
  select_tokens acc (map item_text items) len =
    inl (foldl push_unique acc (concat (map (expand len) items))).
Proof.
  intros Hl Hi. revert acc. induction Hi as [|i items Hi _ IH]; intros acc; [done|].
  cbn [map select_tokens concat]. rewrite select_item by done. by rewrite IH, foldl_push_app.
Qed.

Lemma item_text_cons i : exists c s, item_text i = String c s.
Proof.
  assert (forall x, exists c s, bound_text x = String c s) as Hb.
  { intros x. unfold bound_text. destruct (in_parens x); [by eexists _, _|].
    destruct (show_head (at_ x)) as (c&s&->&_). eauto. }
  destruct i as [x|x y]; cbn; [apply Hb|]. destruct (Hb x) as (c&s&->). by eexists _, _.
Qed.

Lemma collected_index path_le dir entries j e :
  collect_log_entries path_le dir = inl entries -> entries !! j = Some e -> index e = j.
Proof.
  unfold collect_log_entries. destruct dir as [[es|err]|]; [|done|by intros [= <-]].
  destruct (read_entries es) as [l|]; [|done]. intros [= <-].
  rewrite list_lookup_imap. by intros (e'&_&->)%fmap_Some.
Qed.

Lemma tokens_text items :
  filter (fun s => s <> "") (map str_trim (split_on "," (selection_text items))) = map item_text items.
Proof.
  destruct items as [|i items]; [cbn; by rewrite trim_graphic|]. unfold selection_text.
  rewrite split_on_concat; [|done|].
  - induction (i :: items) as [|j js IH]; [done|]. cbn [map].
    rewrite trim_graphic by apply item_graphic.
    rewrite filter_cons_True by by destruct (item_text_cons j) as (c&s&->). by rewrite IH.
  - apply Forall_fmap, Forall_forall. intros j _. apply item_text_all; [|done..].
    intros c Hc. unfold not_comma. destruct (Ascii.eqb_spec c ","); by subst.
Qed.

Lemma parse_selection_items items len :
  addressable len -> Forall (item_ok len) items ->
  parse_selection (selection_text items) len = inl (nub (concat (map (expand len) items))).
Proof.
  intros Hl Hi. unfold parse_selection. destruct (Nat.eqb_spec len 0) as [->|Hn].
  { destruct Hi as [|[x|x y] items Hx _]; [done|..]; unfold item_ok, bound_ok in Hx; lia. }
  rewrite tokens_text, select_items, foldl_push by done. f_equal. cbn [app].
  apply filter_everything. intros x. apply not_elem_of_nil.
Qed.

(** What an item names, said without the code's ranges: an index counts from the first
    file, or when negative back from the end, and a range is the walk from one index to
    the other, both included, one file at a time. *)
Definition stands_for (len : nat) (z : Z) (i : nat) : Prop :=
  (0 <= z /\ Z.of_nat i = z) \/ (z < 0 /\ Z.of_nat i = Z.of_nat len + z).

Inductive walk : nat -> nat -> list nat -> Prop :=
  | walk_end i : walk i i [i]
  | walk_up i j l : (i < j)%nat -> walk (S i) j l -> walk i j (i :: l)
  | walk_down i j l : (j < S i)%nat -> walk i j l -> walk (S i) j (S i :: l).

Inductive names (len : nat) : Item -> list nat -> Prop :=
  | names_one x i : stands_for len (at_ x) i -> names len (One x) [i]
  | names_span x y i j l :
      stands_for len (at_ x) i -> stands_for len (at_ y) j -> walk i j l -> names len (Span x y) l.

Lemma walk_indexes i j : walk i j (range_indexes i j).
Proof.
  unfold range_indexes. destruct (Nat.leb_spec i j) as [Hle|Hgt].
  - remember (j - i)%nat as n eqn:Hn. revert i Hle Hn. induction n as [|n IH]; intros i Hle Hn.
    + assert (i = j) as -> by lia. constructor.
    + change (seq i (S n + 1)) with (i :: seq (S i) (n + 1)). apply walk_up; [lia|]. apply IH; lia.
  - remember (i - j)%nat as n eqn:Hn. revert i Hgt Hn. induction n as [|n IH]; intros i Hgt Hn; [lia|].
    destruct i as [|i]; [lia|].
    assert (reverse (seq j (S n + 1)) = S i :: reverse (seq j (n + 1))) as ->.
    { replace (S n + 1)%nat with (S (n + 1)) by lia. rewrite seq_S, reverse_app. cbn. f_equal. lia. }
    apply walk_down; [lia|]. destruct n as [|n].
    + assert (i = j) as -> by lia. constructor.
    + apply IH; lia.
Qed.

Lemma stands_for_position len x : bound_ok len x -> stands_for len (at_ x) (position len (at_ x)).
Proof. unfold bound_ok, stands_for, position. destruct (Z.leb_spec 0 (at_ x)); lia. Qed.

Lemma expand_names len i : item_ok len i -> names len i (expand len i).
Proof.
  destruct i as [x|x y]; [intros Hx|intros [Hx Hy]].
  - by constructor; apply stands_for_position.
  - by econstructor; [apply stands_for_position..|apply walk_indexes].
Qed.

(** C35: a selection reads as what it says: written as a list of indexes and ranges, with
    or without parentheses, counted from the first file or, when negative, from the
    last, it selects the files named, ranges from their first index to their last in the
    direction they are written, each file once and in the order of its first mention. *)
Theorem parse_selection_reads items len :
  addressable len -> Forall (item_ok len) items ->
  exists named, Forall2 (names len) items named /\
    parse_selection (selection_text items) len = inl (nub (concat named)).
Proof.
  intros Hl Hi. exists (map (expand len) items). split; [|by apply parse_selection_items].
  apply Forall2_fmap_r, Forall_Forall2_diag. eapply Forall_impl; [exact Hi|]. apply expand_names.
Qed.

(** The label of each row of [log list], in either order, selects the file of that
    row in [log show]. *)
Theorem labels_select path_le dir entries reverse_ label e :
  collect_log_entries path_le dir = inl entries -> addressable (length entries) ->
  (label, e) ∈ list_rows reverse_ entries ->
  show_logs (show label) entries = Some (inl [e]).
Proof.
  intros Hc Hl Hr.
  assert (exists i : nat, entries !! i = Some e /\ position (length entries) label = i /\
    bound_ok (length entries) {| in_parens := false; at_ := label |}) as (i&Hi&Hp&Hb).
  { assert (forall (j : nat) e', entries !! j = Some e' -> index e' = j) as Hidx.
    { intros j e'. by apply (collected_index path_le dir). }
    unfold list_rows in Hr. unfold bound_ok, position. cbn [at_].
    apply elem_of_lookup_imap in Hr as (j&e'&[= -> ->]&Hj). destruct reverse_.
    - pose proof (lookup_lt_Some _ _ _ Hj) as Hlt. rewrite length_reverse in Hlt.
      rewrite reverse_lookup in Hj by done. eexists. split; [exact Hj|].
      destruct (Z.leb_spec 0 (- (Z.of_nat j + 1))); lia.
    - pose proof (lookup_lt_Some _ _ _ Hj) as Hlt. exists j. split; [done|].
      rewrite (Hidx j) by done. destruct (Z.leb_spec 0 (Z.of_nat j)); lia. }
  pose proof (parse_selection_items [One {| in_parens := false; at_ := label |}]
    (length entries) Hl (proj2 (Forall_singleton (item_ok _) (One _)) Hb)) as Hs.
  unfold selection_text in Hs.
  cbn [map String.concat item_text bound_text in_parens at_ expand concat app nub] in Hs.
  rewrite Hp, filter_nil in Hs. unfold show_logs. destruct entries as [|e0 es]; [done|].
  rewrite Hs. cbn [mapM]. by rewrite Hi.
Qed.
End selection_text.

(** Both numbers in the header of a shown file select it. *)
Theorem header_labels_select i len :
  addressable len -> (i < len)%nat ->
  normalize_index (Z.of_nat i) len = inl i /\ normalize_index (neg_index i len) len = inl i.
Proof.
  intros Hl Hi. unfold neg_index. unfold addressable in Hl.
  rewrite !(sw_small 64) by
    (try done; unfold in_s; rewrite ?(sw_small 64) by (try done; unfold in_s; lia); lia).
  split; (rewrite normalize_index_ok by (try done; lia)); f_equal; unfold position.
  - destruct (Z.leb_spec 0 (Z.of_nat i)); lia.
  - destruct (Z.leb_spec 0 (Z.of_nat i - Z.of_nat len)); lia.
Qed.

(** ** The list and the search *)
Section searching.
Context (path_le : string -> string -> bool).
Context (path_total : forall a b, path_le a b = false -> path_le b a = true).
Context (path_trans : forall a b c, path_le a b = true -> path_le b c = true -> path_le a c = true).

Lemma entry_le_total x y : entry_le path_le x y = false -> entry_le path_le y x = true.
Proof.
  unfold entry_le. rewrite (Z.eqb_sym (modified y)). destruct (Z.eqb_spec (modified x) (modified y)).
  - apply path_total.
  - rewrite Z.ltb_ge, Z.ltb_lt. lia.
Qed.

Lemma entry_le_trans x y z :
  entry_le path_le x y = true -> entry_le path_le y z = true -> entry_le path_le x z = true.
Proof.
  unfold entry_le.
  destruct (Z.eqb_spec (modified x) (modified y)), (Z.eqb_spec (modified y) (modified z)),
    (Z.eqb_spec (modified x) (modified z)); rewrite ?Z.ltb_lt; try lia. apply path_trans.
Qed.

(** An entry that [read_dir] gave and that is a file. *)
Definition is_log_file (e : DirEntry) : bool :=
  match d_metadata e with Some (f, _, _) => f | None => false end.
Definition log_entry (e : DirEntry) : LogEntry :=
  let '(_, t, s) := default (false, None, 0) (d_metadata e) in
  {| index := 0; path := default (d_path e) (d_canonical e);
     modified := default UNIX_EPOCH t; size := s |}.

Lemma read_entries_ok es :
  read_entries (map inl es) = inl (map log_entry (filter (fun e => is_log_file e = true) es)).
Proof.
  induction es as [|e es IH]; [done|]. cbn [map read_entries]. rewrite filter_cons, IH.
  assert (is_log_file e = match d_metadata e with Some (f, _, _) => f | None => false end) as Hf by done.
  destruct (d_metadata e) as [[[[] t] s]|] eqn:E; rewrite Hf; cbn [decide]; try done.
  case_decide; [|done]. cbn [map]. unfold log_entry at 2. by rewrite E.
Qed.

(** The list of log files: when the directory can be read it holds its files and
    nothing else, by time and then by path, each numbered by its place. *)
Theorem collect_log_entries_spec es : exists entries,
  collect_log_entries path_le (Some (inl (map inl es))) = inl entries /\
  map (set_index 0) entries ≡ₚ map log_entry (filter (fun e => is_log_file e = true) es) /\
  StronglySorted (fun a b => entry_le path_le a b = true) entries /\
  forall i e, entries !! i = Some e -> index e = i.
Proof.
  unfold collect_log_entries. rewrite read_entries_ok. eexists. split; [done|].
  set (l := map log_entry _).
  assert (forall i, map (set_index 0) (imap (fun j => set_index (i + j)) (sort_by (entry_le path_le) l))
    = map (set_index 0) (sort_by (entry_le path_le) l)) as Himap.
  { generalize (sort_by (entry_le path_le) l) as k. induction k as [|e k IH]; intros i; [done|].
    cbn. f_equal. rewrite <- (IH (S i)). f_equal. apply imap_ext. intros j x _. cbn. by rewrite Nat.add_succ_r. }
  split_and!.
  - etrans; [apply reflexive_eq, (Himap 0%nat)|]. rewrite sort_by_perm. unfold l. rewrite map_map.
    erewrite map_ext; [reflexivity|]. intros e. unfold log_entry.
    by destruct (default _ (d_metadata e)) as [[? ?] ?].
  - assert (forall i k, StronglySorted (fun a b => entry_le path_le a b = true) k ->
      StronglySorted (fun a b => entry_le path_le a b = true) (imap (fun j => set_index (i + j)) k)) as Hs.
    { clear. intros i k Hk. revert i. induction Hk as [|x k Hk IH Hx]; intros i; cbn; [constructor|].
      constructor.
      - rewrite (imap_ext _ (fun j => set_index (S i + j))); [apply IH|].
        intros j y _. cbn. by rewrite Nat.add_succ_r.
      - apply Forall_lookup_2. intros j y. rewrite list_lookup_imap. intros (y'&Hy&->)%fmap_Some.
        by apply (Forall_lookup_1 _ _ _ _ Hx Hy). }
    apply (Hs 0%nat). apply sort_by_sorted; [exact entry_le_total|exact entry_le_trans].
  - intros i e. rewrite list_lookup_imap. by intros (e'&_&->)%fmap_Some.
Qed.

(** [log filter] without rg and grep: it prints the lines that match, of the files
    modified in the given hours, file by file and line by line, and says so when there
    are none. *)
Theorem filter_logs_fallback t now log_dir pattern hours entries is_match (content : string -> list string) :
  (forall p fs, rg t p fs = NotFound) -> (forall p fs, grep t p fs = NotFound) ->
  regex_new t pattern = inl is_match -> (forall e, e ∈ entries -> open_file t (path e) = inl (map inl (content (path e)))) ->
  let recent := filter (fun e => cutoff now hours <= modified e) entries in
  let found := concat (map (fun e => map (fun l => path e +:+ ":" +:+ l)
    (filter (fun l => is_match l = true) (content (path e)))) recent) in
  recent <> [] ->
  filter_logs t now log_dir pattern hours (inl entries) =
    (match found with [] => ["No matches found"] | _ => found end, inl ()).
Proof.
  intros Hrg Hgrep Hregex Hopen recent found Hrecent. unfold filter_logs. fold recent.
  assert (scan_files t is_match recent = (found, inl ())) as Hscan.
  { assert (forall e, e ∈ recent -> open_file t (path e) = inl (map inl (content (path e)))) as Ho.
    { intros e He. apply Hopen. by apply list_elem_of_filter in He as [_ He]. }
    unfold found. clear -Ho. induction recent as [|e es IH]; [done|].
    cbn [scan_files]. rewrite Ho by left.
    assert (forall ls, scan_lines is_match (path e) (map inl ls) =
      (map (fun l => path e +:+ ":" +:+ l) (filter (fun l => is_match l = true) ls), inl ())) as ->.
    { induction ls as [|l ls IHl]; [done|]. cbn [map scan_lines]. rewrite IHl, filter_cons.
      by destruct (is_match l); case_decide. }
    rewrite IH; [done|]. intros e' He'. apply Ho. by right. }
  destruct entries as [|e0 es]; [by destruct Hrecent|]. destruct recent as [|r rs] eqn:Er; [done|].
  unfold try_rg, try_grep, try_tool. rewrite Hrg, Hgrep. unfold filter_with_regex.
  rewrite Hregex, Hscan. by destruct found.
Qed.
End searching.

(** ** Witnesses *)
#[local] Existing Instance unicode_ascii.
#[local] Instance ascii_trim : TrimGraphic.
Proof. by intros s _. Qed.

Definition demo_dir : list (Outcome DirEntry) :=
  map inl
    [{| d_path := "b"; d_canonical := None; d_metadata := Some (true, Some 20, 5) |};
     {| d_path := "sub"; d_canonical := None; d_metadata := Some (false, Some 30, 0) |};
     {| d_path := "a"; d_canonical := Some "/logs/a"; d_metadata := Some (true, Some 10, 7) |};
     {| d_path := "c"; d_canonical := None; d_metadata := Some (true, None, 1) |}].
Definition string_le (a b : string) : bool := bool_decide (String.le a b).
Definition demo_entries : list LogEntry :=
  [{| index := 0; path := "c"; modified := 0; size := 1 |};
   {| index := 1; path := "/logs/a"; modified := 10; size := 7 |};
   {| index := 2; path := "b"; modified := 20; size := 5 |}].

Lemma show_logs_in_list_witness :
  exists o, show_logs "2-0,(-1)" demo_entries = Some o /\ o = inl (reverse demo_entries).
Proof.
  destruct (show_logs_in_list "2-0,(-1)" demo_entries) as (o&Ho&_); [done|].
  exists o. split; [exact Ho|]. vm_compute in Ho. by injection Ho as <-.
Defined.

Lemma parse_selection_reads_witness :
  let items := [Span {| in_parens := false; at_ := 1 |} {| in_parens := true; at_ := -1 |};
     Span {| in_parens := false; at_ := 3 |} {| in_parens := false; at_ := 2 |};
     One {| in_parens := false; at_ := -5 |}] in
  selection_text items = "1-(-1),3-2,-5" /\
  parse_selection "1-(-1),3-2,-5" 5 = inl [1; 2; 3; 4; 0]%nat /\
  exists named, Forall2 (names 5) items named /\
    parse_selection (selection_text items) 5 = inl (nub (concat named)).
Proof.
  intros items. split; [vm_compute; reflexivity|]. split; [vm_compute; reflexivity|].
  apply (parse_selection_reads items 5); [done|].
  repeat constructor; unfold bound_ok; cbn; lia.
Defined.

Lemma labels_select_witness :
  show_logs "-3" demo_entries = Some (inl (take 1 demo_entries)).
Proof.
  apply (labels_select string_le (Some (inl demo_dir)) demo_entries true (-3)); [by vm_compute|done|].
  vm_compute. by right; right; left.
Defined.

Lemma collect_log_entries_spec_witness :
  collect_log_entries string_le (Some (inl demo_dir)) = inl demo_entries /\
  StronglySorted (fun a b => entry_le string_le a b = true) demo_entries.
Proof.
  destruct (collect_log_entries_spec string_le) with
    (es := omap (fun e => match e with inl e => Some e | inr _ => None end) demo_dir)
    as (l&Hl&_&Hs&_).
  - unfold string_le. intros a b Hab%bool_decide_eq_false. apply bool_decide_eq_true.
    by destruct (total String.le a b).
  - unfold string_le. intros a b c Ha%bool_decide_eq_true Hb%bool_decide_eq_true.
    apply bool_decide_eq_true. by etrans.
  - assert (demo_entries = l) as ->; [vm_compute in Hl; by injection Hl as <-|]. by split.
Defined.

Definition demo_tools : Tools := {|
  rg _ _ := NotFound; grep _ _ := NotFound;
  regex_new p := inl (fun l => contains l p);
  open_file p := inl (map inl (if bool_decide (p = "b") then ["an error"; "fine"; "error 2"] else ["fine"]))
|}.

Lemma filter_logs_fallback_witness :
  filter_logs demo_tools 20 "logs" "error" 24 (inl demo_entries) = (["b:an error"; "b:error 2"], inl ()).
Proof.
  etrans.
  - apply (filter_logs_fallback demo_tools 20 "logs" "error" 24 demo_entries (fun l => contains l "error")
      (fun p => if bool_decide (p = "b") then ["an error"; "fine"; "error 2"] else ["fine"])); done.
  - by vm_compute.
Defined.
