(* ===== verification/LogList.v ===== *)
(** [kronictl log list] and the dispatch of [kronictl log] (src/bin/kronictl/log_cli.rs):
    the rows with their padding, the sizes with a unit, and what a command answers.

    A size is divided by a power of two in binary64 and printed with one digit.  The
    conversion of an integer to binary64 rounds to 53 bits, half to even; the division is
    exact; and the printed tenth is that of the exact quotient, half to even.  So all of it
    is arithmetic on integers. *)
From S2P Require Import Prelude Decimal LogCli.

(** ** Numbers *)

(** The integer nearest to [n / d], the even one of two. *)
Definition round_half_even (n d : Z) : Z :=
  let q := n `div` d in
  let r := 2 * (n `mod` d) in
  if r <? d then q else if d <? r then q + 1 else if Z.even q then q else q + 1.

(** [size as f64]: the value. *)
Definition f64_of_u64 (n : Z) : Z :=
  let ulp := 2 ^ (Z.log2 n - 52) in
  if n <? 2 ^ 53 then n else round_half_even n ulp * ulp.

(** [format!("{:.1}", f / d)] for a power of two [d]. *)
Definition show_tenths (t : Z) : string := show (t `div` 10) +:+ "." +:+ show (t `mod` 10).
Definition format_quotient (f d : Z) : string := show_tenths (round_half_even (10 * f) d).

Definition KB : Z := 1024.
Definition MB : Z := KB * 1024.
Definition GB : Z := MB * 1024.

Definition human_size (size : Z) : string :=
  if size <? 1024 then show size +:+ "B"
  else
    let size_f := f64_of_u64 size in
    if size_f <? MB then format_quotient size_f KB +:+ "K"
    else if size_f <? GB then format_quotient size_f MB +:+ "M"
    else format_quotient size_f GB +:+ "G".

(** ** The listing *)

(** [{:>w}] *)
Definition pad_left (w : nat) (s : string) : string :=
  String.concat "" (replicate (w - String.length s) " ") +:+ s.

Section list_logs.
(** The local time as "%Y-%m-%d %H:%M:%S". *)
Context (local_time : instant -> string).

Definition row_text (label : Z) (entry : LogEntry) : string :=
  pad_left 4 (show label) +:+ "  " +:+ local_time (modified entry) +:+ "  "
    +:+ pad_left 7 (human_size (size entry)) +:+ "  " +:+ path entry.

Definition list_logs (log_dir : string) (reverse_ : bool) (collected : Outcome (list LogEntry)) : Printed :=
  match collected with
  | inr e => ([], inr e)
  | inl [] => (["No log files under " +:+ log_dir], inl ())
  | inl entries =>
      let rows := map (fun '(label, e) => row_text label e) (list_rows reverse_ entries) in
      let newest_positive := Z.of_nat (length entries - 1) in
      (rows ++ (if reverse_ then ["(latest log: index " +:+ show newest_positive +:+ " or -1)"] else []),
       inl ())
  end.

(** ** The commands *)
Inductive LogCommand :=
  | ListLogs (reverse_ : bool)
  | ShowLogs (selection : string) (no_pager : bool)
  | FilterLogs (pattern : string) (hours : Z).

(** What a command writes and how it ends; [None] is a panic. *)
Definition lines_shown (p : Printed) : Shown :=
  {| stderr := []; stdout := String.concat "" (map (fun l => l +:+ NL) p.1); ended := p.2 |}.

Definition execute `{UnicodeText} (less : list string -> Launch) (read_file : string -> Outcome string)
    (t : Tools) (now : instant) (is_terminal : bool) (workspace_dir : string)
    (path_le : string -> string -> bool) (dir : option (Outcome (list (Outcome DirEntry))))
    (action : LogCommand) : option Shown :=
  let log_dir := workspace_dir +:+ "/logs" in
  let collected := collect_log_entries path_le dir in
  match action with
  | ListLogs reverse_ => Some (lines_shown (list_logs log_dir reverse_ collected))
  | ShowLogs selection no_pager =>
      match collected with
      | inr e => Some {| stderr := []; stdout := ""; ended := inr e |}
      | inl entries =>
          show_command less read_file log_dir selection (negb no_pager && is_terminal) entries
      end
  | FilterLogs pattern hours => Some (lines_shown (filter_logs t now log_dir pattern hours collected))
  end.
End list_logs.

(** ** The size that is shown *)
Lemma round_half_even_close n d : 0 < d -> 2 * Z.abs (n - round_half_even n d * d) <= d.
Proof.
  intros Hd. unfold round_half_even. pose proof (Z.div_mod n d ltac:(lia)) as Hn.
  pose proof (Z.mod_pos_bound n d Hd).
  destruct (Z.ltb_spec (2 * (n `mod` d)) d); [lia|].
  destruct (Z.ltb_spec d (2 * (n `mod` d))); [lia|]. destruct (Z.even _); lia.
Qed.

Lemma round_half_even_mono n d k : 0 < d -> k * d <= n -> k <= round_half_even n d.
Proof.
  intros Hd Hk. pose proof (Z.div_le_lower_bound n d k Hd ltac:(lia)).
  unfold round_half_even. repeat case_match; lia.
Qed.

(** The unit of a size: none below 1024 bytes, then the largest of K, M and G that is not
    above it. *)
Definition unit_of (size : Z) : Z * string :=
  if size <? MB then (KB, "K") else if size <? GB then (MB, "M") else (GB, "G").

(** The size of a file below 2^53 bytes is shown in the largest unit that is not above it,
    as the nearest number of tenths: at least one unit, and off by at most half a tenth. *)
Theorem human_size_close size :
  1024 <= size < 2 ^ 53 ->
  let '(u, name) := unit_of size in
  exists t, human_size size = show (t `div` 10) +:+ "." +:+ show (t `mod` 10) +:+ name /\
    10 <= t /\ 2 * Z.abs (10 * size - t * u) <= u.
Proof.
  intros [Hlo Hhi].
  assert (forall u, 0 < u -> u <= size ->
    10 <= round_half_even (10 * size) u /\ 2 * Z.abs (10 * size - round_half_even (10 * size) u * u) <= u) as Hu.
  { intros u Hpos Hle. split; [by apply round_half_even_mono; [|lia]|by apply round_half_even_close]. }
  unfold human_size, unit_of, f64_of_u64. rewrite (proj2 (Z.ltb_ge size 1024)), (proj2 (Z.ltb_lt size (2 ^ 53))) by lia.
  unfold format_quotient, show_tenths, GB, MB, KB.
  destruct (Z.ltb_spec size (1024 * 1024)); [|destruct (Z.ltb_spec size (1024 * 1024 * 1024))].
  all: eexists; split; [by rewrite !string_app_assoc|apply Hu; lia].
Qed.

(** A file one byte short of a megabyte shows as 1024.0K. *)
Example below_megabyte : human_size 1048575 = "1024.0K".
Proof. by vm_compute. Qed.
Example half_to_even : map human_size [1023; 1024; 1075; 1126; 9007199254740993; u64_max]
  = ["1023B"; "1.0K"; "1.0K"; "1.1K"; "8388608.0G"; "17179869184.0G"].
Proof. by vm_compute. Qed.

(** ** What the listing says *)
Section listed.
Context `{TrimGraphic} (local_time : instant -> string).

Lemma show_newest path_le dir entries e :
  collect_log_entries path_le dir = inl entries -> addressable (length entries) ->
  last entries = Some e ->
  show_logs (show (Z.of_nat (length entries - 1))) entries = Some (inl [e]) /\
  show_logs "-1" entries = Some (inl [e]).
Proof.
  intros Hc Ha Hl. rewrite last_lookup in Hl. pose proof (lookup_lt_Some _ _ _ Hl).
  assert (index e = pred (length entries)) as Hi by by apply (collected_index path_le dir entries).
  split.
  - apply (labels_select path_le dir entries false _ e Hc Ha). unfold list_rows.
    apply elem_of_lookup_imap. exists (pred (length entries)), e. split; [|done]. rewrite Hi. do 2 f_equal. lia.
  - apply (labels_select path_le dir entries true (-1) e Hc Ha). unfold list_rows.
    apply elem_of_lookup_imap. exists 0%nat, e. split; [done|].
    rewrite reverse_lookup by lia. by replace (length entries - 1)%nat with (pred (length entries)) by lia.
Qed.

(** A listing has a row for every file, oldest first or newest first; the label of a row is
    a selection of that file, and after a reversed listing the line below the rows gives two
    selections of the newest file. *)
Theorem list_logs_labels path_le dir entries log_dir reverse_ e :
  collect_log_entries path_le dir = inl entries -> addressable (length entries) ->
  last entries = Some e ->
  exists rows, list_rows reverse_ entries = rows /\
    map snd rows = (if reverse_ then reverse entries else entries) /\
    (forall label f, (label, f) ∈ rows -> show_logs (show label) entries = Some (inl [f])) /\
    list_logs local_time log_dir reverse_ (inl entries)
      = (map (fun '(label, f) => row_text local_time label f) rows ++
           (if reverse_ then ["(latest log: index " +:+ show (Z.of_nat (length entries - 1)) +:+ " or -1)"] else []),
         inl ()) /\
    show_logs (show (Z.of_nat (length entries - 1))) entries = Some (inl [e]) /\
    show_logs "-1" entries = Some (inl [e]).
Proof.
  intros Hc Ha Hl. eexists. split; [reflexivity|].
  destruct (show_newest path_le dir entries e Hc Ha Hl) as [H1' H2']. split_and!; [|..|done|done].
  - unfold list_rows. apply list_eq. intros i. rewrite list_lookup_fmap, list_lookup_imap.
    by destruct (_ !! i).
  - intros label f Hf. by eapply labels_select.
  - unfold list_logs. by destruct entries.
Qed.
End listed.

(** ** A listing *)
#[local] Existing Instance unicode_ascii.
#[local] Instance ascii_trim : TrimGraphic.
Proof. by intros s _. Qed.

Example list_reversed :
  (list_logs (fun t => "t" +:+ show t) "logs" true (collect_log_entries string_le (Some (inl demo_dir)))).1
  = ["  -1  t20       5B  b"; "  -2  t10       7B  /logs/a"; "  -3  t0       1B  c";
     "(latest log: index 2 or -1)"].
Proof. by vm_compute. Qed.

Lemma list_logs_labels_witness :
  show_logs "2" demo_entries = Some (inl [{| index := 2; path := "b"; modified := 20; size := 5 |}]) /\
  map snd (list_rows true demo_entries) = reverse demo_entries.
Proof.
  destruct (list_logs_labels (fun t => show t) string_le (Some (inl demo_dir)) demo_entries "logs" true
    {| index := 2; path := "b"; modified := 20; size := 5 |}) as (rows&<-&Hs&_&_&Hn&_);
    [by vm_compute|done|done|].
  split; [exact Hn|exact Hs].
Defined.

Lemma human_size_close_witness : exists t, human_size 5242881 = show (t `div` 10) +:+ "." +:+ show (t `mod` 10) +:+ "M" /\
  2 * Z.abs (10 * 5242881 - t * MB) <= MB.
Proof.
  destruct (human_size_close 5242881 ltac:(lia)) as (t&Ht&_&Hc). exists t. by split.
Defined.
