(* ===== verification/SystemMetrics.v ===== *)
(** The stores of system metrics (crates/storage/src/system_metrics.rs): the trait
    [SystemMetricsStore] with its contract, and its two backends.

    A database is third party: a connection with what the code calls on it, the
    documented behaviour of transactions as laws, and views of its table and of its
    transaction.  Percentages are the bits of an [f64]. *)
From S2P Require Import Prelude Events Records SnapshotBus CompactEvents PipelineTypes.
From S2P Require Import Codec Queries.

Notation Outcome A := (A + string)%type.

Record SystemMetrics := {
  m_timestamp : instant;
  cpu_percent : Z;
  memory_bytes : Z;
  disk_io_bytes : Z
}.

(** ** The interface *)
Class SystemMetricsStore (S : Type) := {
  insert_metrics_batch : S -> list SystemMetrics -> Z -> S * option string;
  get_metrics_for_pid : S -> Z -> option Z -> Outcome (list SystemMetrics);
  get_metrics_in_time_range : S -> Z -> instant -> instant -> Outcome (list SystemMetrics)
}.

(** What a store holds: the samples by time and process. *)
Notation Samples := (gmap (Z * Z) (Z * Z * Z)).
Definition values (m : SystemMetrics) : Z * Z * Z := (cpu_percent m, memory_bytes m, disk_io_bytes m).
Definition add_sample (pid : Z) (s : Samples) (m : SystemMetrics) : Samples :=
  <[(m_timestamp m, pid) := values m]> s.
Definition add_samples (s : Samples) (ms : list SystemMetrics) (pid : Z) : Samples :=
  foldl (add_sample pid) s ms.

Definition sample (k : Z * Z) (v : Z * Z * Z) : SystemMetrics :=
  {| m_timestamp := k.1; cpu_percent := v.1.1; memory_bytes := v.1.2; disk_io_bytes := v.2 |}.
Definition samples_of (s : Samples) (pid : Z) (wanted : instant -> bool) : list SystemMetrics :=
  map (fun x => sample x.1 x.2)
    (filter (fun x => (x.1.2 =? pid) && wanted x.1.1 = true) (map_to_list s)).

Definition newest_first (s : Samples) (pid : Z) (l : list SystemMetrics) : Prop :=
  l ≡ₚ samples_of s pid (fun _ => true) /\
  StronglySorted (fun a b => m_timestamp b <= m_timestamp a) l.
Definition oldest_first_between (s : Samples) (pid : Z) (start end_ : instant)
    (l : list SystemMetrics) : Prop :=
  l ≡ₚ samples_of s pid (fun t => (start <=? t) && (t <=? end_)) /\
  StronglySorted (fun a b => m_timestamp a <= m_timestamp b) l.

(** The numbers a sample holds. *)
Definition sample_ok (ok : instant -> Prop) (m : SystemMetrics) : Prop :=
  ok (m_timestamp m) /\ in_u 64 (memory_bytes m) /\ in_u 64 (disk_io_bytes m).

(** The contract, with [holds s m]: the store [s] holds the samples [m].  An insertion
    that succeeds adds the batch, one that fails adds nothing; the queries answer with
    the samples of the process, by their time. *)
Class StoreLaws (S : Type) `{SystemMetricsStore S} (ok : instant -> Prop)
    (holds : S -> Samples -> Prop) : Prop := {
  insert_ok s m b pid s' : holds s m -> Forall (sample_ok ok) b ->
    insert_metrics_batch s b pid = (s', None) -> holds s' (add_samples m b pid);
  insert_err s m b pid s' e : holds s m ->
    insert_metrics_batch s b pid = (s', Some e) -> holds s' m;
  for_pid_ok s m pid n out : holds s m -> 0 <= n ->
    get_metrics_for_pid s pid (Some n) = inl out ->
    exists all, newest_first m pid all /\ out = take (Z.to_nat n) all;
  range_ok s m pid start end_ out : holds s m -> ok start -> ok end_ ->
    get_metrics_in_time_range s pid start end_ = inl out ->
    oldest_first_between m pid start end_ out
}.

(** ** A database *)
Inductive Tx (M : Type) :=
  | NoTx
  | Open (m : M)
  | Aborted.
Arguments NoTx {M}.
Arguments Open {M} m.
Arguments Aborted {M}.

Notation Table T := (gmap (T * Z) (Z * Z * Z)).

(** [None] for success.  [tx c] is the table as the transaction would leave it. *)
Class MetricsDb (C T : Type) `{Countable T} := {
  begin_tx : C -> C * option string;
  prepare_insert : C -> option string;
  execute_insert : C -> T * Z -> Z * Z * Z -> C * option string;
  commit_tx : C -> C * option string;
  rollback_tx : C -> C;
  select_error : C -> option string;
  table : C -> Table T;
  tx : C -> Tx (Table T)
}.

(** A transaction begins only where none is, statements add rows to it, or replace those
    of the same key, and a commit makes it the table; whatever fails leaves the table as
    it is and does not end the transaction, unless it is the commit. *)
Class MetricsDbLaws (C T : Type) `{MetricsDb C T} : Prop := {
  begin_ok c c' : begin_tx c = (c', None) ->
    tx c = NoTx /\ tx c' = Open (table c) /\ table c' = table c;
  begin_err c c' e : begin_tx c = (c', Some e) -> tx c' = tx c /\ table c' = table c;
  execute_ok c c' m k v : tx c = Open m -> execute_insert c k v = (c', None) ->
    tx c' = Open (<[k := v]> m) /\ table c' = table c;
  execute_err c c' k v e : execute_insert c k v = (c', Some e) -> tx c <> NoTx ->
    tx c' <> NoTx /\ table c' = table c;
  commit_ok c c' m : tx c = Open m -> commit_tx c = (c', None) -> tx c' = NoTx /\ table c' = m;
  commit_err c c' e : commit_tx c = (c', Some e) -> table c' = table c;
  rollback_ok c : tx (rollback_tx c) = NoTx /\ table (rollback_tx c) = table c
}.

(** A database in which the pair of time and process is a key of which no second row is
    inserted. *)
Class UniqueKeys (C T : Type) `{MetricsDb C T} : Prop :=
  insert_duplicate c m k v : tx c = Open m -> is_Some (m !! k) -> (execute_insert c k v).2 <> None.

Section stores.
Context {C T B : Type} `{MetricsDb C T} `{!Columns T B} `{!Sql T}.

(** The statements of a batch, up to the first that fails; [enc] makes the columns of
    the numbers of a sample. *)
Fixpoint insert_all (enc : Z * Z * Z -> Z * Z * Z) (c : C) (b : list SystemMetrics) (pid : Z)
    : C * option string :=
  match b with
  | [] => (c, None)
  | m :: b =>
      match execute_insert c (column_of_time (m_timestamp m), pid) (enc (values m)) with
      | (c, Some e) => (c, Some e)
      | (c, None) => insert_all enc c b pid
      end
  end.

Definition select_rows (c : C) (pid : Z) (p : T -> bool) : list ((T * Z) * (Z * Z * Z)) :=
  filter (fun x => (x.1.2 =? pid) && p x.1.1 = true) (map_to_list (table c)).

Fixpoint decode_rows (dec : Z * Z * Z -> Z * Z * Z) (rows : list ((T * Z) * (Z * Z * Z)))
    : Outcome (list SystemMetrics) :=
  match rows with
  | [] => inl []
  | x :: rows =>
      match time_of_column x.1.1, decode_rows dec rows with
      | None, _ => inr "reading a timestamp"
      | Some t, inl out => inl (sample (t, x.1.2) (dec x.2) :: out)
      | Some _, inr e => inr e
      end
  end.

Definition metrics_for_pid (dec : Z * Z * Z -> Z * Z * Z) (c : C) (pid : Z) (limit : option Z)
    : Outcome (list SystemMetrics) :=
  match select_error c with
  | Some e => inr e
  | None =>
      let rows := order_desc (fun x => x.1.1) (select_rows c pid (fun _ => true)) in
      match from_option (fun n => limit_rows n rows) (Some rows) limit with
      | None => inr "LIMIT"
      | Some rows => decode_rows dec rows
      end
  end.

Definition metrics_in_time_range (dec : Z * Z * Z -> Z * Z * Z) (c : C) (pid : Z)
    (start end_ : instant) : Outcome (list SystemMetrics) :=
  match select_error c with
  | Some e => inr e
  | None =>
      decode_rows dec (order_asc (fun x => x.1.1)
        (select_rows c pid (fun t => column_le (column_of_time start) t
                                     && column_le t (column_of_time end_))))
  end.
End stores.

(** ** SQLite

    A transaction that is not committed is rolled back when it is dropped. *)
Module SqliteSystemMetricsStore.
Section store.
Context {C T B : Type} `{MetricsDb C T} `{!Columns T B} `{!Sql T}.

(** [as i64] and [as u64]. *)
Definition as_i64 (v : Z * Z * Z) : Z * Z * Z := (v.1.1, sw 64 v.1.2, sw 64 v.2).
Definition as_u64 (v : Z * Z * Z) : Z * Z * Z := (v.1.1, uw 64 v.1.2, uw 64 v.2).

Definition insert_metrics_batch (c : C) (b : list SystemMetrics) (pid : Z) : C * option string :=
  match b with
  | [] => (c, None)
  | _ =>
      match begin_tx c with
      | (c, Some e) => (c, Some e)
      | (c, None) =>
          match prepare_insert c with
          | Some e => (rollback_tx c, Some e)
          | None =>
              match insert_all as_i64 c b pid with
              | (c, Some e) => (rollback_tx c, Some e)
              | (c, None) =>
                  match commit_tx c with
                  | (c, Some e) => (rollback_tx c, Some e)
                  | (c, None) => (c, None)
                  end
              end
          end
      end
  end.

Definition get_metrics_for_pid : C -> Z -> option Z -> Outcome (list SystemMetrics) :=
  metrics_for_pid as_u64.
Definition get_metrics_in_time_range : C -> Z -> instant -> instant -> Outcome (list SystemMetrics) :=
  metrics_in_time_range as_u64.

Definition store : SystemMetricsStore C :=
  {| SystemMetrics.insert_metrics_batch := insert_metrics_batch;
     SystemMetrics.get_metrics_for_pid := get_metrics_for_pid;
     SystemMetrics.get_metrics_in_time_range := get_metrics_in_time_range |}.
End store.
End SqliteSystemMetricsStore.

(** ** DuckDB

    Nothing rolls a failed transaction back. *)
Module DuckDbSystemMetricsStore.
Section store.
Context {C T B : Type} `{MetricsDb C T} `{!Columns T B} `{!Sql T}.

Definition insert_metrics_batch (c : C) (b : list SystemMetrics) (pid : Z) : C * option string :=
  match b with
  | [] => (c, None)
  | _ =>
      match begin_tx c with
      | (c, Some e) => (c, Some e)
      | (c, None) =>
          match prepare_insert c with
          | Some e => (c, Some e)
          | None =>
              match insert_all id c b pid with
              | (c, Some e) => (c, Some e)
              | (c, None) => commit_tx c
              end
          end
      end
  end.

Definition get_metrics_for_pid : C -> Z -> option Z -> Outcome (list SystemMetrics) :=
  metrics_for_pid id.
Definition get_metrics_in_time_range : C -> Z -> instant -> instant -> Outcome (list SystemMetrics) :=
  metrics_in_time_range id.

Definition store : SystemMetricsStore C :=
  {| SystemMetrics.insert_metrics_batch := insert_metrics_batch;
     SystemMetrics.get_metrics_for_pid := get_metrics_for_pid;
     SystemMetrics.get_metrics_in_time_range := get_metrics_in_time_range |}.
End store.
End DuckDbSystemMetricsStore.

(** ** What the table represents *)
Section facts.
Context {C T B : Type} `{MetricsDbLaws C T} `{!Columns T B} `{!ColumnLaws T B} `{!Sql T} `{!SqlLaws T B}.
Context (ok : instant -> Prop) (Hok : times_kept (T := T) ok).
Context (enc dec : Z * Z * Z -> Z * Z * Z).
Context (dec_enc : forall v, in_u 64 v.1.2 -> in_u 64 v.2 -> dec (enc v) = v).

Definition row_of (x : (Z * Z) * (Z * Z * Z)) : (T * Z) * (Z * Z * Z) :=
  ((column_of_time x.1.1, x.1.2), enc x.2).

(** Every sample is a row of its time column and its process, and the reverse. *)
Record represents (t : Table T) (s : Samples) : Prop := {
  rep_rows k v : t !! k = Some v <-> exists x, s !! x.1 = Some x.2 /\ row_of x = (k, v);
  rep_ok k v : s !! k = Some v -> ok k.1 /\ in_u 64 v.1.2 /\ in_u 64 v.2
}.

Lemma column_inj a b : ok a -> ok b -> column_of_time a = column_of_time b -> a = b.
Proof.
  intros Ha Hb Hab. pose proof (kept_reads _ Hok a Ha) as Ra. pose proof (kept_reads _ Hok b Hb) as Rb.
  unfold time_reads in *. rewrite Hab in Ra. congruence.
Qed.

Lemma represents_insert t s m pid :
  represents t s -> sample_ok ok m ->
  represents (<[(column_of_time (m_timestamp m), pid) := enc (values m)]> t) (add_sample pid s m).
Proof.
  intros [Hr Ho] (Hm&Hmem&Hio). unfold add_sample. split.
  - intros k v. destruct (decide (k = (column_of_time (m_timestamp m), pid))) as [->|Hk].
    + rewrite lookup_insert_eq. split.
      * intros [= <-]. exists ((m_timestamp m, pid), values m). cbn. by rewrite lookup_insert_eq.
      * intros ([[i p] x]&Hs&[= Hc -> <-]). cbn in *. f_equal. f_equal.
        destruct (decide (i = m_timestamp m)) as [->|Hi]; [by rewrite lookup_insert_eq in Hs; injection Hs|].
        rewrite lookup_insert_ne in Hs by congruence. apply Ho in Hs as [Hs _]. by apply column_inj in Hc.
    + rewrite lookup_insert_ne, Hr by done. split; intros ([[i p] x]&Hs&Hrow); exists ((i, p), x); cbn in *.
      * split; [|done]. rewrite lookup_insert_ne; [done|]. intros [= <- <-]. apply Hk. by injection Hrow.
      * split; [|done]. rewrite lookup_insert_ne in Hs; [done|]. intros [= <- <-]. apply Hk. by injection Hrow.
  - intros k v. destruct (decide (k = (m_timestamp m, pid))) as [->|Hk].
    + rewrite lookup_insert_eq. by intros [= <-].
    + rewrite lookup_insert_ne by done. apply Ho.
Qed.

Lemma insert_all_ok c b pid s m c' :
  tx c = Open m -> represents m s -> Forall (sample_ok ok) b ->
  insert_all enc c b pid = (c', None) ->
  exists m', tx c' = Open m' /\ represents m' (add_samples s b pid) /\ table c' = table c.
Proof.
  revert c s m. induction b as [|x b IH]; intros c s m Ht Hr Hb; cbn [insert_all].
  - intros [= <-]. eauto.
  - apply Forall_cons in Hb as [Hx Hb].
    destruct (execute_insert c _ _) as [c1 [e|]] eqn:He; [done|]. intros Hi.
    destruct (execute_ok c c1 m _ _ Ht He) as [Ht1 Htab].
    destruct (IH c1 (add_sample pid s x) _ Ht1) as (m'&?&?&Htab'); [by apply represents_insert|done..|].
    exists m'. split_and!; [done|done|congruence].
Qed.

Lemma insert_all_err c b pid m c' e :
  tx c = Open m -> insert_all enc c b pid = (c', Some e) -> tx c' <> NoTx /\ table c' = table c.
Proof.
  revert c m. induction b as [|x b IH]; intros c m Ht; cbn [insert_all]; [done|].
  destruct (execute_insert c _ _) as [c1 [e1|]] eqn:He.
  - intros [= <- <-]. eapply execute_err; [exact He|by rewrite Ht].
  - intros Hi. destruct (execute_ok c c1 m _ _ Ht He) as [Ht1 Htab].
    destruct (IH c1 _ Ht1 Hi) as [? Htab']. split; [done|congruence].
Qed.
Lemma insert_all_table c l pid m c' r :
  tx c = Open m -> insert_all enc c l pid = (c', r) -> table c' = table c.
Proof.
  destruct r as [e|]; [intros Ht E; by apply (insert_all_err _ _ _ _ _ _ Ht E)|].
  revert c m. induction l as [|x l IH]; intros c m Ht; cbn [insert_all]; [by intros [= <-]|].
  destruct (execute_insert c _ _) as [c4 [e4|]] eqn:E4; [done|]. intros E.
  destruct (execute_ok _ _ _ _ _ Ht E4) as [Ht4 Htab]. by rewrite (IH _ _ Ht4 E).
Qed.

Lemma table_list t s : represents t s -> map_to_list t ≡ₚ map row_of (map_to_list s).
Proof.
  intros [Hr Ho]. apply NoDup_Permutation.
  - apply NoDup_map_to_list.
  - apply NoDup_fmap_2_strong; [|apply NoDup_map_to_list].
    intros [[i p] x] [[j q] y] Hi%elem_of_map_to_list Hj%elem_of_map_to_list [= Hc -> Hv].
    apply Ho in Hi as (Hi&Hx&Hx'), Hj as (Hj&Hy&Hy'). apply column_inj in Hc as ->; [|done..].
    by rewrite <- (dec_enc x), <- (dec_enc y), Hv.
  - intros [k v]. rewrite elem_of_map_to_list, Hr, list_elem_of_fmap. split.
    + intros (x&Hs&Hx). exists x. split; [done|]. destruct x. by apply elem_of_map_to_list.
    + intros (x&Hx&Hs). exists x. destruct x. by apply elem_of_map_to_list in Hs.
Qed.

Definition entry_ok (x : (Z * Z) * (Z * Z * Z)) : Prop :=
  ok x.1.1 /\ in_u 64 x.2.1.2 /\ in_u 64 x.2.2.

Lemma entries_ok t s (p : (Z * Z) * (Z * Z * Z) -> bool) :
  represents t s -> Forall entry_ok (filter (fun x => p x = true) (map_to_list s)).
Proof.
  intros [_ Ho]. apply Forall_forall. intros [k v] [_ Hx]%list_elem_of_filter.
  apply elem_of_map_to_list in Hx. by apply Ho in Hx.
Qed.

Lemma selected c s pid p :
  represents (table c) s -> select_rows c pid p ≡ₚ
  map row_of (filter (fun x => (x.1.2 =? pid) && p (column_of_time x.1.1) = true) (map_to_list s)).
Proof.
  intros Hr. unfold select_rows. rewrite (table_list _ _ Hr).
  by rewrite (filter_map_rows row_of (fun y => (y.1.2 =? pid) && p y.1.1)).
Qed.

Lemma decode_rows_ok l :
  Forall entry_ok l -> decode_rows dec (map row_of l) = inl (map (fun x => sample x.1 x.2) l).
Proof.
  induction 1 as [|x l (Ht&Hm&Hi) Hl IH]; [done|].
  cbn [map decode_rows row_of fst snd]. rewrite (kept_reads _ Hok _ Ht : time_of_column _ = _), IH. cbn. rewrite dec_enc by done.
  by destruct x as [[]].
Qed.

(** Rows sorted by the time column decode to samples sorted by time. *)
Lemma sorted_rows (R : Z -> Z -> Prop) (le : T -> T -> bool) l :
  (forall a b, ok a -> ok b -> le (column_of_time a) (column_of_time b) = true -> R a b) ->
  Forall entry_ok l -> StronglySorted (fun a b => le a.1.1 b.1.1 = true) (map row_of l) ->
  StronglySorted (fun a b => R (m_timestamp a) (m_timestamp b)) (map (fun x => sample x.1 x.2) l).
Proof.
  intros Hle Hl Hs. apply StronglySorted_map. apply StronglySorted_map in Hs.
  eapply StronglySorted_ok; [exact Hl| |exact Hs]. intros a b [Ha _] [Hb _]. by apply Hle.
Qed.

Lemma metrics_for_pid_ok c s pid n out :
  represents (table c) s -> 0 <= n -> metrics_for_pid dec c pid (Some n) = inl out ->
  exists all, newest_first s pid all /\ out = take (Z.to_nat n) all.
Proof.
  intros Hr Hn. unfold metrics_for_pid. destruct (select_error c); [done|]. cbn [from_option].
  set (rows := order_desc _ _). rewrite limit_rows_take by done.
  assert (rows ≡ₚ map row_of (filter (fun x => (x.1.2 =? pid) && true = true) (map_to_list s))) as Hp.
  { unfold rows. rewrite order_desc_perm. by apply selected. }
  assert (StronglySorted (fun a b => column_le b.1.1 a.1.1 = true) rows) as Hsort.
  { apply order_desc_sorted. }
  apply rows_perm in Hp as (l&Hrows&Hl).
  assert (Forall entry_ok l) as Hok'.
  { rewrite Hl. by apply (entries_ok (table c) _ (fun x => (x.1.2 =? pid) && true)). }
  rewrite Hrows, firstn_map, decode_rows_ok by by apply Forall_take. intros [= <-].
  exists (map (fun x => sample x.1 x.2) l). split; [split|].
  - unfold samples_of. by rewrite Hl.
  - rewrite Hrows in Hsort. apply (sorted_rows (fun a b => b <= a) (fun a b => column_le b a)); [|done..].
    intros a b Ha Hb. rewrite (kept_order _ Hok) by done. apply Z.leb_le.
  - by rewrite firstn_map.
Qed.

Lemma metrics_in_range_ok c s pid start end_ out :
  represents (table c) s -> ok start -> ok end_ ->
  metrics_in_time_range dec c pid start end_ = inl out -> oldest_first_between s pid start end_ out.
Proof.
  intros Hr Hs He. unfold metrics_in_time_range. destruct (select_error c); [done|].
  set (rows := order_asc _ _).
  assert (rows ≡ₚ map row_of (filter (fun x => (x.1.2 =? pid) &&
    ((start <=? x.1.1) && (x.1.1 <=? end_)) = true) (map_to_list s))) as Hp.
  { unfold rows. rewrite order_asc_perm, selected by done.
    rewrite (filter_bool_ext _ (fun x => (x.1.2 =? pid) && ((start <=? x.1.1) && (x.1.1 <=? end_))));
      [done|].
    apply Forall_forall. intros [k v] Hx%elem_of_map_to_list. cbn. f_equal.
    apply (rep_ok _ _ Hr) in Hx as [Hx _]. by rewrite !(kept_order _ Hok). }
  assert (StronglySorted (fun a b => column_le a.1.1 b.1.1 = true) rows) as Hsort.
  { apply order_asc_sorted. }
  apply rows_perm in Hp as (l&Hrows&Hl).
  assert (Forall entry_ok l) as Hok'.
  { rewrite Hl. by apply (entries_ok (table c) _ (fun x => (x.1.2 =? pid) && ((start <=? x.1.1) && (x.1.1 <=? end_)))). }
  rewrite Hrows, decode_rows_ok by done. intros [= <-]. split.
  - unfold samples_of. by rewrite Hl.
  - rewrite Hrows in Hsort. apply (sorted_rows (fun a b => a <= b) column_le); [|done..].
    intros a b Ha Hb. rewrite (kept_order _ Hok) by done. apply Z.leb_le.
Qed.
End facts.

(** ** The stores keep their contract *)
Section sqlite.
Import SqliteSystemMetricsStore.
Context {C T B : Type} `{MetricsDbLaws C T} `{!Columns T B} `{!ColumnLaws T B} `{!Sql T} `{!SqlLaws T B}.
Context (ok : instant -> Prop) (Hok : times_kept (T := T) ok).

Lemma i64_kept v : in_u 64 v.1.2 -> in_u 64 v.2 -> as_u64 (as_i64 v) = v.
Proof. destruct v as [[a b] c]. intros Hb Hc. unfold as_u64, as_i64; cbn in *. by rewrite !u64_of_i64. Qed.

Definition sqlite_holds (c : C) (s : Samples) : Prop :=
  tx c = NoTx /\ represents ok as_i64 (table c) s.

Lemma sqlite_insert_err c b pid c' e :
  tx c = NoTx -> insert_metrics_batch c b pid = (c', Some e) -> tx c' = NoTx /\ table c' = table c.
Proof.
  intros Ht. unfold insert_metrics_batch. destruct b as [|x b]; [done|].
  destruct (begin_tx c) as [c1 [e1|]] eqn:E1.
  { intros [= <- <-]. apply begin_err in E1 as [-> ->]. done. }
  apply begin_ok in E1 as (_&Ht1&Htab1).
  destruct (prepare_insert c1); [intros [= <- <-]; destruct (rollback_ok c1); split; congruence|].
  destruct (insert_all as_i64 c1 (x :: b) pid) as [c2 [e2|]] eqn:E2.
  { intros [= <- <-]. destruct (insert_all_err _ _ _ _ _ _ _ Ht1 E2), (rollback_ok c2).
    split; congruence. }
  destruct (commit_tx c2) as [c3 [e3|]] eqn:E3; [|done]. intros [= <- <-].
  apply commit_err in E3. destruct (rollback_ok c3). split; [done|].
  pose proof (insert_all_table _ _ _ _ _ _ _ Ht1 E2). congruence.
Qed.

#[local] Existing Instance store.
Lemma sqlite_store_laws : StoreLaws C ok sqlite_holds.
Proof.
  split; cbn.
  - intros c s b pid c' [Ht Hr] Hb. unfold insert_metrics_batch. destruct b as [|x b].
    { intros [= <-]. done. }
    destruct (begin_tx c) as [c1 [e1|]] eqn:E1; [done|]. apply begin_ok in E1 as (_&Ht1&_).
    destruct (prepare_insert c1); [done|].
    destruct (insert_all as_i64 c1 (x :: b) pid) as [c2 [e2|]] eqn:E2; [done|].
    destruct (insert_all_ok ok Hok as_i64 _ _ _ _ _ _ Ht1 Hr Hb E2) as (m'&Ht2&Hr'&_).
    destruct (commit_tx c2) as [c3 [e3|]] eqn:E3; [done|]. intros [= <-].
    apply (commit_ok _ _ _ Ht2) in E3 as [Ht3 Htab3]. split; [done|]. by rewrite Htab3.
  - intros c s b pid c' e [Ht Hr] He. destruct (sqlite_insert_err _ _ _ _ _ Ht He) as [Ht' Htab].
    split; [done|]. by rewrite Htab.
  - intros c s pid n out [_ Hr]. by apply (metrics_for_pid_ok ok Hok as_i64 as_u64 i64_kept).
  - intros c s pid a b out [_ Hr]. by apply (metrics_in_range_ok ok Hok as_i64 as_u64 i64_kept).
Qed.
End sqlite.

Section duckdb.
Import DuckDbSystemMetricsStore.
Context {C T B : Type} `{MetricsDbLaws C T} `{!Columns T B} `{!ColumnLaws T B} `{!Sql T} `{!SqlLaws T B}.
Context (ok : instant -> Prop) (Hok : times_kept (T := T) ok).

Definition duckdb_holds (c : C) (s : Samples) : Prop := represents ok id (table c) s.

Lemma duckdb_insert_err c b pid c' e :
  insert_metrics_batch c b pid = (c', Some e) -> table c' = table c.
Proof.
  unfold insert_metrics_batch. destruct b as [|x b]; [done|].
  destruct (begin_tx c) as [c1 [e1|]] eqn:E1.
  { intros [= <- <-]. by apply begin_err in E1 as [_ ->]. }
  apply begin_ok in E1 as (_&Ht1&Htab1). destruct (prepare_insert c1); [by intros [= <- <-]|].
  destruct (insert_all id c1 (x :: b) pid) as [c2 r2] eqn:E2.
  pose proof (insert_all_table _ _ _ _ _ _ _ Ht1 E2) as H2'.
  destruct r2; [intros [= <- <-]; congruence|]. intros E3%commit_err. congruence.
Qed.

#[local] Existing Instance store.
Lemma duckdb_store_laws : StoreLaws C ok duckdb_holds.
Proof.
  split; cbn.
  - intros c s b pid c' Hr Hb. unfold insert_metrics_batch. destruct b as [|x b].
    { by intros [= <-]. }
    destruct (begin_tx c) as [c1 [e1|]] eqn:E1; [done|]. apply begin_ok in E1 as (_&Ht1&_).
    destruct (prepare_insert c1); [done|].
    destruct (insert_all id c1 (x :: b) pid) as [c2 [e2|]] eqn:E2; [done|].
    destruct (insert_all_ok ok Hok id _ _ _ _ _ _ Ht1 Hr Hb E2) as (m'&Ht2&Hr'&_).
    intros [_ Htab3]%(commit_ok _ _ _ Ht2). unfold duckdb_holds. by rewrite Htab3.
  - intros c s b pid c' e Hr He. unfold duckdb_holds. by rewrite (duckdb_insert_err _ _ _ _ _ He).
  - intros c s pid n out. by apply (metrics_for_pid_ok ok Hok id id).
  - intros c s pid a b out. by apply (metrics_in_range_ok ok Hok id id).
Qed.

(** A transaction that is left open keeps every later batch out. *)
Lemma stuck_insert c b pid :
  tx c <> NoTx -> b <> [] -> exists c' e, insert_metrics_batch c b pid = (c', Some e) /\
  tx c' = tx c /\ table c' = table c.
Proof.
  intros Ht Hb. unfold insert_metrics_batch. destruct b as [|x b]; [done|].
  destruct (begin_tx c) as [c1 [e1|]] eqn:E1.
  - apply begin_err in E1 as [? ?]. eauto.
  - by apply begin_ok in E1 as [? _].
Qed.

Lemma stuck_inserts c bs pid :
  tx c <> NoTx ->
  let c' := foldl (fun c b => (insert_metrics_batch c b pid).1) c bs in
  tx c' <> NoTx /\ table c' = table c.
Proof.
  revert c. induction bs as [|b bs IH]; intros c Ht; [done|]. cbn [foldl].
  destruct (decide (b = [])) as [->|Hb]; [by apply IH|].
  destruct (stuck_insert c b pid Ht Hb) as (c'&e&E&Ht'&Htab). rewrite E. cbn [fst].
  destruct (IH c') as [? ?]; [by rewrite Ht'|]. split; [done|congruence].
Qed.

Definition keys (b : list SystemMetrics) : list T := map (fun m => column_of_time (m_timestamp m)) b.

Lemma insert_all_fresh `{!UniqueKeys C T} c b pid m c' :
  tx c = Open m -> insert_all id c b pid = (c', None) ->
  NoDup (keys b) /\ Forall (fun t => m !! (t, pid) = None) (keys b).
Proof.
  revert c m. induction b as [|x b IH]; intros c m Ht; cbn [insert_all keys map].
  { split; constructor. }
  destruct (execute_insert c _ _) as [c1 [e|]] eqn:E; [done|]. intros Hi.
  destruct (execute_ok _ _ _ _ _ Ht E) as [Ht1 _].
  destruct (IH _ _ Ht1 Hi) as [Hn Hf]. rewrite Forall_forall in Hf. split.
  - constructor; [|done]. intros Hx. apply Hf in Hx. by rewrite lookup_insert_eq in Hx.
  - constructor.
    + destruct (m !! _) eqn:Em; [|done]. exfalso.
      apply (insert_duplicate c m (column_of_time (m_timestamp x), pid) (id (values x)) Ht);
        [by rewrite Em|by rewrite E].
    + apply Forall_forall. intros t Hx. apply Hf in Hx.
      destruct (decide (t = column_of_time (m_timestamp x))) as [->|Hne].
      * by rewrite lookup_insert_eq in Hx.
      * by rewrite lookup_insert_ne in Hx by congruence.
Qed.

(** On DuckDB a batch with two samples of the same time, or with one of a time that
    is stored, is not stored, and because its transaction is never rolled back no batch
    after it is: the table stays as it was for good. *)
Theorem duckdb_duplicate_stops_store `{!UniqueKeys C T} c b pid bs :
  (begin_tx c).2 = None ->
  ~ NoDup (keys b) \/ Exists (fun t => is_Some (table c !! (t, pid))) (keys b) ->
  let c1 := (insert_metrics_batch c b pid).1 in
  let c2 := foldl (fun c b => (insert_metrics_batch c b pid).1) c1 bs in
  (insert_metrics_batch c b pid).2 <> None /\ table c2 = table c /\
  forall b', b' <> [] -> (insert_metrics_batch c2 b' pid).2 <> None.
Proof.
  intros Hbegin Hdup c1 c2.
  assert (b <> []) as Hb.
  { intros ->. destruct Hdup as [Hd|Hd]; [apply Hd; constructor|by inversion Hd]. }
  assert ((insert_metrics_batch c b pid).2 <> None /\ tx c1 <> NoTx /\ table c1 = table c)
    as (He&Ht&Htab).
  { unfold c1, insert_metrics_batch. destruct b as [|x b]; [done|].
    destruct (begin_tx c) as [c3 [e3|]] eqn:E3; [done|]. apply begin_ok in E3 as (_&Ht3&Htab3).
    destruct (prepare_insert c3); [cbn; split_and!; [done|by rewrite Ht3|congruence]|].
    destruct (insert_all id c3 (x :: b) pid) as [c4 [e4|]] eqn:E4.
    - destruct (insert_all_err _ _ _ _ _ _ _ Ht3 E4) as [? ?]. split_and!; [done|done|cbn; congruence].
    - exfalso. destruct (insert_all_fresh _ _ _ _ _ Ht3 E4) as [Hn Hf].
      destruct Hdup as [Hd|Hd]; [done|]. rewrite Exists_exists in Hd.
      destruct Hd as (t&Ht&[v Hv]). rewrite Forall_forall in Hf. apply Hf in Ht. congruence. }
  destruct (stuck_inserts c1 bs pid Ht) as [Ht2 Htab2]. split_and!; [done|unfold c2; congruence|].
  intros b' Hb'. by destruct (stuck_insert c2 b' pid Ht2 Hb') as (c'&e&->&_).
Qed.
End duckdb.

(** C31: both backends keep the contract of the store, whatever fails: an insertion that
    succeeds adds its samples, one that fails none, and the queries answer with the
    samples of the process, the newest first up to the limit, or those of the range,
    its ends included, the oldest first. *)
Theorem metrics_stores_refine {C T B : Type} `{MetricsDbLaws C T} `{!Columns T B} `{!ColumnLaws T B}
    `{!Sql T} `{!SqlLaws T B} (ok : instant -> Prop) :
  times_kept (T := T) ok ->
  @StoreLaws C SqliteSystemMetricsStore.store ok (sqlite_holds ok) /\
  @StoreLaws C DuckDbSystemMetricsStore.store ok (duckdb_holds ok).
Proof. intros Hok. split; [by apply sqlite_store_laws|by apply duckdb_store_laws]. Qed.

(** ** A database in memory

    Its statements fail on a key that is there, when keys are unique, and on the key
    [m_bad]. *)
Section memory.
Context (T : Type) `{Countable T} (unique : bool).

Record MemDb := { m_table : Table T; m_tx : Tx (Table T); m_bad : T * Z }.

Definition mem_set (c : MemDb) (t : Table T) (x : Tx (Table T)) : MemDb :=
  {| m_table := t; m_tx := x; m_bad := m_bad c |}.

Definition mem_db : MetricsDb MemDb T := {|
  begin_tx c := match m_tx c with
    | NoTx => (mem_set c (m_table c) (Open (m_table c)), None)
    | _ => (c, Some "cannot start a transaction within a transaction") end;
  prepare_insert c := None;
  execute_insert c k v := match m_tx c with
    | Open m =>
        if bool_decide (k = m_bad c) || (unique && bool_decide (is_Some (m !! k)))
        then (mem_set c (m_table c) (if unique then Aborted else Open m), Some "constraint")
        else (mem_set c (m_table c) (Open (<[k := v]> m)), None)
    | _ => (c, Some "no transaction") end;
  commit_tx c := match m_tx c with
    | Open m => (mem_set c m NoTx, None)
    | _ => (c, Some "cannot commit") end;
  rollback_tx c := mem_set c (m_table c) NoTx;
  select_error c := None;
  table := m_table;
  tx := m_tx |}.

Lemma mem_db_laws : @MetricsDbLaws MemDb T _ _ mem_db.
Proof.
  split; cbn; intros c.
  - intros c' Hc. destruct (m_tx c) eqn:E; by simplify_eq.
  - intros c' e Hc. destruct (m_tx c) eqn:E; by simplify_eq.
  - intros c' m k v -> Hc. destruct (_ || _); by simplify_eq.
  - intros c' k v e Hc Ht. destruct (m_tx c) as [|m|] eqn:E; [done| |simplify_eq; by rewrite E].
    destruct (_ || _); simplify_eq. by destruct unique.
  - intros c' m -> Hc. by simplify_eq.
  - intros c' e Hc. destruct (m_tx c) eqn:E; by simplify_eq.
  - done.
Qed.

Lemma mem_db_unique : unique = true -> @UniqueKeys MemDb T _ _ mem_db.
Proof.
  intros Hu c m k v Hm Hk. cbn in *. rewrite Hm, Hu, (bool_decide_true (is_Some _)) by done.
  by rewrite orb_true_r.
Qed.
End memory.

Section examples.
#[local] Existing Instances rfc3339_ref sqlite_sql.
Definition demo_metric (t v : Z) : SystemMetrics :=
  {| m_timestamp := t; cpu_percent := v; memory_bytes := v; disk_io_bytes := v |}.
Definition demo_db : MemDb string := {| m_table := ∅; m_tx := NoTx; m_bad := ("none", 0) |}.

Definition demo_batch : list SystemMetrics := [demo_metric 1 5; demo_metric 3 (2 ^ 63); demo_metric 2 7].
Definition demo_insert : MemDb string -> list SystemMetrics -> Z -> MemDb string * option string :=
  @SqliteSystemMetricsStore.insert_metrics_batch (MemDb string) string Z _ _ (mem_db string false) _.
Definition demo_get : MemDb string -> Z -> option Z -> Outcome (list SystemMetrics) :=
  @SqliteSystemMetricsStore.get_metrics_for_pid (MemDb string) string Z _ _ (mem_db string false) _ _.

Lemma metrics_stores_refine_witness :
  demo_get (demo_insert demo_db demo_batch 9).1 9 (Some 2)
    = inl [demo_metric 3 (2 ^ 63); demo_metric 2 7] /\
  exists all, newest_first (add_samples ∅ demo_batch 9) 9 all /\
    [demo_metric 3 (2 ^ 63); demo_metric 2 7] = take 2 all.
Proof.
  destruct (@metrics_stores_refine (MemDb string) string Z _ _ (mem_db string false) (mem_db_laws string false)
    _ _ sqlite_sql sqlite_sql_laws (fun t => 0 <= t) unary_kept) as [[Hins _ Hget _] _].
  split; [by vm_compute|]. apply (Hget (demo_insert demo_db demo_batch 9).1 _ 9 2); [|done|by vm_compute].
  apply (Hins demo_db ∅ demo_batch 9); [|repeat constructor; done|].
  - split; [done|]. split; [|by intros k v Hk].
    intros k v. split; [by intros Hk|]. by intros (x&Hx&_).
  - change (demo_insert demo_db demo_batch 9 = ((demo_insert demo_db demo_batch 9).1, None)).
    rewrite (surjective_pairing (demo_insert demo_db demo_batch 9)) at 1. by vm_compute.
Defined.

Lemma duckdb_duplicate_stops_store_witness :
  let insert := @DuckDbSystemMetricsStore.insert_metrics_batch (MemDb string) string Z _ _
    (mem_db string true) _ in
  let c1 := (insert demo_db [demo_metric 1 5; demo_metric 1 6] 9).1 in
  (insert c1 [demo_metric 2 7] 9).2 <> None.
Proof.
  intros insert c1. pose proof (mem_db_unique string true eq_refl) as Hu.
  destruct (@duckdb_duplicate_stops_store (MemDb string) string Z _ _ (mem_db string true)
    (mem_db_laws string true) _ Hu demo_db [demo_metric 1 5; demo_metric 1 6] 9 []) as (_&_&Hl);
    [done|left|by apply (Hl [demo_metric 2 7])].
  intros Hn. apply NoDup_cons in Hn as [Hn _]. apply Hn. by left.
Defined.
End examples.
