(* ===== verification/MetricsUpkeep.v ===== *)
(** The upkeep of the DuckDB store of system metrics: [get_aggregated_metrics],
    [cleanup_old_metrics], [get_total_metrics_count] and [vacuum_database] of
    crates/storage/src/system_metrics.rs.

    What the database makes of the statements is an interface over that of SystemMetrics;
    an average is what SQL computes of the selected rows, NULL of none. *)
From S2P Require Import Prelude Codec Queries SystemMetrics.

Class UpkeepDb (C T : Type) `{MetricsDb C T} := {
  (** [DELETE FROM system_metrics WHERE timestamp < ?]: the number of rows deleted. *)
  delete_before : C -> T -> C * Outcome Z;
  (** [SELECT COUNT] *)
  count_rows : C -> Outcome Z;
  (** [SELECT AVG(cpu_percent), CAST(AVG(memory_bytes) ...)]: [None] is NULL. *)
  select_averages : C -> Z -> T -> Outcome (option Z * option Z * option Z);
  run_vacuum : C -> C * option string
}.

Section upkeep.
Context {C T B : Type} `{UpkeepDb C T} `{!Columns T B}.

(** The rows of a process from a time on. *)
Definition recent_rows (c : C) (pid : Z) (since : T) : list ((T * Z) * (Z * Z * Z)) :=
  select_rows c pid (fun t => column_le since t).

(** Reading a NULL as a number is an error. *)
Definition get_aggregated_metrics (c : C) (pid : Z) (since_timestamp : instant) : Outcome (Z * Z * Z) :=
  match select_averages c pid (column_of_time since_timestamp) with
  | inr e => inr e
  | inl (Some cpu, Some mem, Some io) => inl (cpu, uw 64 mem, uw 64 io)
  | inl _ => inr "reading a NULL"
  end.

Definition cleanup_old_metrics (c : C) (cutoff_timestamp : instant) : C * Outcome Z :=
  delete_before c (column_of_time cutoff_timestamp).
Definition get_total_metrics_count (c : C) : Outcome Z := count_rows c.
Definition vacuum_database (c : C) : C * option string := run_vacuum c.
End upkeep.

(** The documented effects, outside of a transaction. *)
Class UpkeepLaws (C T B : Type) `{UpkeepDb C T} `{!Columns T B} : Prop := {
  delete_ok c k c' n : tx c = NoTx -> delete_before c k = (c', inl n) ->
    tx c' = NoTx /\ table c' = filter (fun x => column_le k x.1.1 = true) (table c) /\
    n = Z.of_nat (size (table c)) - Z.of_nat (size (table c'));
  delete_err c k c' e : tx c = NoTx -> delete_before c k = (c', inr e) -> tx c' = NoTx /\ table c' = table c;
  count_ok c n : tx c = NoTx -> count_rows c = inl n -> n = Z.of_nat (size (table c));
  averages_none c pid k avg : select_averages c pid k = inl avg -> recent_rows c pid k = [] -> avg = (None, None, None);
  averages_some c pid k avg : select_averages c pid k = inl avg -> recent_rows c pid k <> [] ->
    exists a b d, avg = (Some a, Some b, Some d);
  vacuum_same c : tx (run_vacuum c).1 = tx c /\ table (run_vacuum c).1 = table c
}.

(** The samples from a time on. *)
Definition samples_since (cutoff : instant) (s : Samples) : Samples := filter (fun x => cutoff <=? x.1.1 = true) s.

Section theorems.
Context {C T B : Type} `{UpkeepLaws C T B} `{!ColumnLaws T B} `{!Sql T} `{!SqlLaws T B}.
Context (ok : instant -> Prop) (Hok : times_kept (T := T) ok).

Lemma represents_since (t : Table T) s cutoff : ok cutoff -> represents ok id t s ->
  represents ok id (filter (fun x => column_le (column_of_time cutoff) x.1.1 = true) t) (samples_since cutoff s).
Proof.
  intros Hc [Hr Ho]. split.
  - intros k v. rewrite map_lookup_filter_Some, Hr. split.
    + intros [(x&Hs&Hrow) Hle]. exists x. split; [|done]. apply map_lookup_filter_Some. split; [done|].
      injection Hrow as <- <-. cbn in Hle |- *. destruct (Ho _ _ Hs) as [Hx _].
      by rewrite (kept_order _ Hok) in Hle.
    + intros (x&[Hs Hle]%map_lookup_filter_Some&Hrow). split; [by exists x|]. injection Hrow as <- <-.
      cbn in Hle |- *. destruct (Ho _ _ Hs) as [Hx _]. by rewrite (kept_order _ Hok).
  - intros k v [Hs _]%map_lookup_filter_Some. by apply Ho.
Qed.

Lemma represents_size (t : Table T) s : represents ok id t s -> size t = size s.
Proof.
  intros Hr. rewrite <- !length_map_to_list. rewrite (table_list ok Hok id id (fun v _ _ => eq_refl) t s Hr).
  apply length_map.
Qed.

(** No sample of the process is that recent. *)
Lemma recent_none c s pid since : ok since -> represents ok id (table c) s ->
  recent_rows c pid (column_of_time since) = [] <->
  forall t v, s !! (t, pid) = Some v -> t < since.
Proof.
  intros Hs Hr. unfold recent_rows.
  rewrite <- length_zero_iff_nil.
  rewrite (selected ok Hok id id (fun v _ _ => eq_refl) c s pid _ Hr), length_map, length_zero_iff_nil. split.
  - intros Hnil t v Ht. destruct (Z.lt_ge_cases t since) as [|Hge]; [done|]. exfalso.
    assert ((t, pid, v) ∈ filter (fun x => (x.1.2 =? pid) && column_le (column_of_time since) (column_of_time x.1.1) = true)
      (map_to_list s)) as Hin.
    { apply list_elem_of_filter. split; [|by apply elem_of_map_to_list]. cbn. rewrite Z.eqb_refl. cbn.
      destruct (rep_ok _ _ _ _ Hr _ _ Ht) as [Hx _]. rewrite (kept_order _ Hok) by done. by apply Z.leb_le. }
    rewrite Hnil in Hin. by apply not_elem_of_nil in Hin.
  - intros Hall. destruct (filter _ _) as [|[[t p] v] l] eqn:Hf; [done|]. exfalso.
    assert ((t, p, v) ∈ (t, p, v) :: l) as Hin by left. rewrite <- Hf in Hin.
    apply list_elem_of_filter in Hin as [Hp Hin]. cbn in Hp. apply andb_prop in Hp as [->%Z.eqb_eq Hle].
    apply elem_of_map_to_list in Hin. destruct (rep_ok _ _ _ _ Hr _ _ Hin) as [Hx _].
    rewrite (kept_order _ Hok) in Hle by done. apply Z.leb_le in Hle. specialize (Hall _ _ Hin). lia.
Qed.

(** Cleaning up deletes the samples before the cutoff and no other, and says how many they
    were; the count is that of the samples; the averages are an error for a process
    without samples since the time asked and never otherwise, but for errors of the
    database; the vacuum changes nothing. *)
Theorem upkeep_keeps_samples c s : tx c = NoTx -> duckdb_holds ok c s ->
  (forall cutoff c' r, ok cutoff -> cleanup_old_metrics c cutoff = (c', r) -> tx c' = NoTx /\
     match r with
     | inl n => duckdb_holds ok c' (samples_since cutoff s) /\
         n = Z.of_nat (size s) - Z.of_nat (size (samples_since cutoff s))
     | inr _ => duckdb_holds ok c' s
     end) /\
  (forall n, get_total_metrics_count c = inl n -> n = Z.of_nat (size s)) /\
  (forall pid since avg, ok since -> select_averages c pid (column_of_time since) = inl avg ->
     (exists e, get_aggregated_metrics c pid since = inr e) <-> forall t v, s !! (t, pid) = Some v -> t < since) /\
  duckdb_holds ok (vacuum_database c).1 s.
Proof.
  intros Ht Hr. unfold duckdb_holds in *. split_and!.
  - intros cutoff c' [n|e] Hc Hd.
    + destruct (delete_ok c _ c' n Ht Hd) as (Ht'&Htab&->). split; [done|].
      pose proof (represents_since _ _ cutoff Hc Hr) as Hr'. rewrite <- Htab in Hr'. split; [done|].
      by rewrite (represents_size _ _ Hr), (represents_size _ _ Hr').
    + destruct (delete_err c _ c' e Ht Hd) as [Ht' Htab]. split; [done|]. by rewrite Htab.
  - intros n Hn. rewrite (count_ok c n Ht Hn). by rewrite (represents_size _ _ Hr).
  - intros pid since avg Hs Havg. rewrite <- (recent_none c s pid since Hs Hr).
    unfold get_aggregated_metrics. rewrite Havg. destruct (recent_rows c pid (column_of_time since)) as [|x l] eqn:Hl.
    + rewrite (averages_none _ _ _ _ Havg Hl). split; [done|by eexists].
    + destruct (averages_some _ _ _ _ Havg) as (a&b&d&->); [by rewrite Hl|]. split; [by intros [e He]|done].
  - destruct (vacuum_same c) as [_ Htab]. unfold vacuum_database. by rewrite Htab.
Qed.
End theorems.

(** ** A database in memory *)
Section memory.
#[local] Existing Instances rfc3339_ref sqlite_sql sqlite_sql_laws.
#[local] Instance memory : MetricsDb (MemDb string) string := mem_db string true.

Definition mean (l : list Z) : option Z :=
  match l with [] => None | _ => Some (zsum l / Z.of_nat (length l)) end.

Definition rows_from (c : MemDb string) (k : string) : Table string :=
  filter (fun x => column_le k x.1.1 = true) (m_table _ c).
#[local] Instance memory_upkeep : UpkeepDb (MemDb string) string := {|
  delete_before c k :=
    ({| m_table := rows_from c k; m_tx := m_tx _ c; m_bad := m_bad _ c |},
     inl (Z.of_nat (size (m_table _ c)) - Z.of_nat (size (rows_from c k))));
  count_rows c := inl (Z.of_nat (size (m_table _ c)));
  select_averages c pid k :=
    let rows := recent_rows c pid k in
    inl (mean (map (fun x => x.2.1.1) rows), mean (map (fun x => x.2.1.2) rows), mean (map (fun x => x.2.2) rows));
  run_vacuum c := (c, None) |}.

Lemma memory_upkeep_laws : UpkeepLaws (MemDb string) string Z.
Proof.
  split.
  - intros c k c' n Ht [= <- <-]. by split_and!.
  - done.
  - by intros c n _ [= <-].
  - intros c pid k avg [= <-] ->. done.
  - intros c pid k avg [= <-]. destruct (recent_rows c pid k) as [|x l]; [done|]. intros _. cbn. eauto.
  - done.
Qed.

(** Three samples, of which one is deleted. *)
Definition upkeep_samples : Samples := add_samples ∅ demo_batch 9.
Definition upkeep_db : MemDb string := {|
  m_table := list_to_map (map (row_of id) (map_to_list upkeep_samples)); m_tx := NoTx; m_bad := ("none", 0) |}.

Lemma upkeep_keeps_samples_witness :
  let r := cleanup_old_metrics upkeep_db 2 in
  r.2 = inl 1 /\ duckdb_holds (fun t => 0 <= t) r.1 (samples_since 2 upkeep_samples).
Proof.
  intros r. split; [by vm_compute|].
  assert (duckdb_holds (fun t => 0 <= t) upkeep_db upkeep_samples) as Hholds.
  { split.
    - intros k v. cbn [upkeep_db table memory mem_db m_table]. rewrite <- elem_of_list_to_map.
      + rewrite list_elem_of_fmap. split.
        * intros (x&Hx&Hin). exists x. split; [|done]. destruct x. by apply elem_of_map_to_list in Hin.
        * intros (x&Hs&Hx). exists x. split; [done|]. destruct x. by apply elem_of_map_to_list.
      + apply (bool_decide_unpack _). by vm_compute.
    - assert (map_Forall (fun k v => 0 <= k.1 /\ in_u 64 v.1.2 /\ in_u 64 v.2) upkeep_samples) as Hall.
      { unfold in_u. apply (bool_decide_unpack _). by vm_compute. }
      intros k v Hk. by apply Hall in Hk. }
  pose proof memory_upkeep_laws as HL.
  destruct (upkeep_keeps_samples (C := MemDb string) (T := string) (B := Z) (H0 := memory) (fun t => 0 <= t) unary_kept
    upkeep_db upkeep_samples eq_refl Hholds) as [Hclean _].
  destruct (Hclean 2 r.1 r.2) as [_ Hr]; [lia|apply surjective_pairing|].
  assert (r.2 = inl 1) as E by by vm_compute. rewrite E in Hr. by destruct Hr.
Defined.
End memory.
