(* ===== verification/SystemTracker.v ===== *)
(** The system tracker (src/daemon/tracker/system.rs): its thread, which samples the
    process, buffers, stores in batches, and answers flushes and queries; and the handle
    that starts and stops it through two bridge threads.

    The thread is a function of what each of its turns receives and reads; the store is
    used through its interface. *)
From S2P Require Import Prelude Decimal Events Records SnapshotBus CompactEvents PipelineTypes.
From S2P Require Import Codec Queries SystemMetrics.

(** ** Samples *)
Section readings.
Context `{UnicodeText} (parse_f64 : string -> Outcome Z).

(** What running [ps] gives: a failure to run it, or its status and its output. *)
Definition PsOutput : Type := Outcome (bool * string).

Definition get_cpu_usage (ps : PsOutput) : Outcome Z :=
  match ps with
  | inr e => inr e
  | inl (success, stdout) =>
      if success : bool then
        match parse_f64 (str_trim stdout) with
        | inl z => inl z
        | inr e => inr ("Failed to parse CPU usage: " +:+ e)
        end
      else inr "ps command failed"
  end.

Definition get_memory_usage (ps : PsOutput) : Outcome Z :=
  match ps with
  | inr e => inr e
  | inl (success, stdout) =>
      if success : bool then
        match parse_unsigned 64 (str_trim stdout) with
        | Some rss_kb => inl (uw 64 (rss_kb * 1024))
        | None => inr "Failed to parse RSS"
        end
      else inr "ps command failed"
  end.

(** [proc_pid_rusage]: its result and the bytes read and written. *)
Definition get_disk_io (rusage : Z * Z * Z) : Outcome Z :=
  let '(result, bytesread, byteswritten) := rusage in
  if result =? 0 then inl (u64_add bytesread byteswritten) else inl 0.

(** What the operating system answers in a turn. *)
Record Reading := { r_cpu : PsOutput; r_memory : PsOutput; r_rusage : Z * Z * Z }.

(** The percentage, the bytes of memory, the bytes moved since the last sample and in
    all; a counter that fell starts anew. *)
Definition collect_system_metrics (r : Reading) (last_disk_io : Z) : Outcome (Z * Z * Z * Z) :=
  match get_cpu_usage (r_cpu r) with
  | inr e => inr e
  | inl cpu =>
      match get_memory_usage (r_memory r) with
      | inr e => inr e
      | inl memory =>
          match get_disk_io (r_rusage r) with
          | inr e => inr e
          | inl current =>
              let delta := if last_disk_io <=? current then current - last_disk_io else current in
              inl (cpu, memory, delta, current)
          end
      end
  end.
End readings.

(** ** The thread *)
Inductive MetricsQuery :=
  | ByLimit (pid limit : Z)
  | ByRange (pid : Z) (start end_ : instant).

(** A message or a request carries the name of the channel that its answer goes to. *)
Inductive ControlMsg :=
  | Stop
  | Flush (ack : nat).
Definition MetricsQueryReq : Type := MetricsQuery * nat.

Inductive Answer :=
  | Ack (ack : nat)
  | Reply (reply : nat) (result : Outcome (list SystemMetrics)).

(** What a turn of the loop finds: the control messages that have come, whether their
    senders are gone, the readings, the clock, and the queries that have come. *)
Record Turn := {
  control : list ControlMsg;
  disconnected : bool;
  reading : Reading;
  now : instant;
  queries : list MetricsQueryReq
}.

Section tracker.
Context `{UnicodeText} (parse_f64 : string -> Outcome Z).
Context {S : Type} `{SystemMetricsStore S} (pid batch_size : Z).

Record Tracker := {
  store : S;
  metrics_buffer : list SystemMetrics;
  last_disk_io : Z;
  batch_count : Z
}.

Definition set_store (t : Tracker) (s : S) (b : list SystemMetrics) : Tracker :=
  {| store := s; metrics_buffer := b; last_disk_io := last_disk_io t; batch_count := batch_count t |}.

(** The buffer is kept when the store fails. *)
Definition insert_buffer (t : Tracker) : Tracker :=
  match insert_metrics_batch (store t) (metrics_buffer t) pid with
  | (s, Some _) => set_store t s (metrics_buffer t)
  | (s, None) => set_store t s []
  end.
Definition flush_buffer (t : Tracker) : Tracker :=
  match metrics_buffer t with [] => t | _ => insert_buffer t end.

Definition push_sample (t : Tracker) (at_ : instant) (m : Z * Z * Z * Z) : Tracker :=
  let '(cpu, memory, delta, total) := m in
  {| store := store t;
     metrics_buffer := metrics_buffer t ++ [{| m_timestamp := at_; cpu_percent := cpu;
       memory_bytes := memory; disk_io_bytes := delta |}];
     last_disk_io := total; batch_count := u64_add (batch_count t) 1 |}.

(** The thread's start, with the first sample. *)
Definition start_tracker (s : S) (r : Reading) (at_ : instant) : Tracker :=
  let t := {| store := s; metrics_buffer := []; last_disk_io := 0; batch_count := 0 |} in
  match collect_system_metrics parse_f64 r 0 with
  | inl m => push_sample t at_ m
  | inr _ => t
  end.

Definition acks_of (msgs : list ControlMsg) : list nat :=
  omap (fun m => match m with Flush a => Some a | Stop => None end) msgs.
Definition keeps_running (msgs : list ControlMsg) (disconnected_ : bool) : bool :=
  negb (existsb (fun m => match m with Stop => true | _ => false end) msgs) && negb disconnected_.

Definition flush_for (acks : list nat) (t : Tracker) : Tracker * list Answer :=
  match acks with [] => (t, []) | _ => (flush_buffer t, map Ack acks) end.

(** The sample of a turn; [None]: the remainder by a batch size of zero panics. *)
Definition take_sample (t : Tracker) (u : Turn) (acks : list nat) : option (Tracker * list Answer) :=
  match collect_system_metrics parse_f64 (reading u) (last_disk_io t) with
  | inl m =>
      let t := push_sample t (now u) m in
      if batch_size =? 0 then None
      else Some (flush_for acks (if batch_count t mod batch_size =? 0 then insert_buffer t else t))
  | inr _ => Some (flush_for acks t)
  end.

Definition run_query (t : Tracker) (q : MetricsQuery) : Outcome (list SystemMetrics) :=
  match q with
  | ByLimit p limit =>
      match get_metrics_for_pid (store t) p (Some limit) with
      | inr e => inr e
      | inl rows => inl (reverse rows)
      end
  | ByRange p start end_ => get_metrics_in_time_range (store t) p start end_
  end.

Fixpoint answer_queries (t : Tracker) (qs : list MetricsQueryReq) : Tracker * list Answer :=
  match qs with
  | [] => (t, [])
  | (q, reply) :: qs =>
      let t := flush_buffer t in
      let '(t', out) := answer_queries t qs in
      (t', Reply reply (run_query t q) :: out)
  end.

(** One turn; the flag says whether the loop goes on. *)
Definition turn (t : Tracker) (u : Turn) : option (Tracker * list Answer * bool) :=
  match take_sample t u (acks_of (control u)) with
  | None => None
  | Some (t, acked) =>
      let '(t, replied) := answer_queries t (queries u) in
      Some (t, acked ++ replied, keeps_running (control u) (disconnected u))
  end.

(** The loop: until a turn ends it, or as far as the turns go; [true] at the end means
    that the loop has ended and the last samples have been handed to the store. *)
Fixpoint run_loop (t : Tracker) (us : list Turn) : option (Tracker * list Answer * bool) :=
  match us with
  | [] => Some (t, [], false)
  | u :: us =>
      match turn t u with
      | None => None
      | Some (t, out, false) => Some (flush_buffer t, out, true)
      | Some (t, out, true) =>
          match run_loop t us with
          | None => None
          | Some (t, out', ended) => Some (t, out ++ out', ended)
          end
      end
  end.

Definition tracker_thread (s : S) (r : Reading) (at_ : instant) (us : list Turn)
    : option (Tracker * list Answer * bool) :=
  run_loop (start_tracker s r at_) us.
End tracker.

(** ** What a run has sampled *)
Section samples.
Context `{UnicodeText} (parse_f64 : string -> Outcome Z).

Definition sampled (last : Z) (r : Reading) (at_ : instant) : list SystemMetrics * Z :=
  match collect_system_metrics parse_f64 r last with
  | inl (cpu, memory, delta, total) =>
      ([{| m_timestamp := at_; cpu_percent := cpu; memory_bytes := memory; disk_io_bytes := delta |}],
       total)
  | inr _ => ([], last)
  end.

Fixpoint collected (last : Z) (us : list Turn) : list SystemMetrics :=
  match us with
  | [] => []
  | u :: us => let '(s, last) := sampled last (reading u) (now u) in s ++ collected last us
  end.

(** The turns a run takes: up to the first that ends it. *)
Fixpoint turns_run (us : list Turn) : list Turn :=
  match us with
  | [] => []
  | u :: us => u :: (if keeps_running (control u) (disconnected u) then turns_run us else [])
  end.

(** Every sample of a thread: the first, and one for each turn that could read. *)
Definition thread_samples (r : Reading) (at_ : instant) (us : list Turn) : list SystemMetrics :=
  let '(s, last) := sampled 0 r at_ in s ++ collected last (turns_run us).

(** The counter after the turns. *)
Definition disk_after (last : Z) (us : list Turn) : Z :=
  foldl (fun last u => (sampled last (reading u) (now u)).2) last us.

Lemma collected_app last us u :
  Forall (fun u => keeps_running (control u) (disconnected u) = true) us ->
  collected last (turns_run (us ++ [u])) =
    collected last (turns_run us) ++ (sampled (disk_after last us) (reading u) (now u)).1.
Proof.
  intros Hus. revert last. induction Hus as [|v us Hv Hus IH]; intros last.
  - cbn. destruct (sampled last (reading u) (now u)) as [s l]. cbn.
    destruct (keeps_running _ _); cbn; by rewrite app_nil_r.
  - cbn [app turns_run collected disk_after foldl]. rewrite Hv. cbn [collected].
    specialize (IH (sampled last (reading v) (now v)).2).
    destruct (sampled last (reading v) (now v)) as [s l]. cbn [snd] in *.
    rewrite IH, app_assoc. done.
Qed.

Lemma collect_bounds r last cpu memory delta total :
  in_u 64 last -> collect_system_metrics parse_f64 r last = inl (cpu, memory, delta, total) ->
  in_u 64 memory /\ in_u 64 delta /\ in_u 64 total.
Proof.
  intros Hl. unfold collect_system_metrics.
  destruct (get_cpu_usage parse_f64 (r_cpu r)) as [c|]; [|done].
  destruct (get_memory_usage (r_memory r)) as [m|] eqn:Em; [|done].
  destruct (get_disk_io (r_rusage r)) as [d|] eqn:Ed; [|done]. intros [= <- <- <- <-].
  assert (in_u 64 m) as Hm.
  { unfold get_memory_usage in Em. destruct (r_memory r) as [[[] ?]|]; try done.
    destruct (parse_unsigned 64 _); [|done]. injection Em as <-. by apply uw_bound. }
  assert (in_u 64 d) as Hd.
  { unfold get_disk_io in Ed. destruct (r_rusage r) as [[x y] z]. destruct (x =? 0); injection Ed as <-.
    - by apply uw_bound.
    - done. }
  split_and!; [done| |done]. destruct (Z.leb_spec last d); [|done]. unfold in_u in *. lia.
Qed.

Lemma sampled_bounds last r at_ :
  in_u 64 last -> in_u 64 (sampled last r at_).2 /\
  Forall (fun m => m_timestamp m = at_ /\ in_u 64 (memory_bytes m) /\ in_u 64 (disk_io_bytes m))
    (sampled last r at_).1.
Proof.
  intros Hl. unfold sampled. destruct (collect_system_metrics parse_f64 r last) as [[[[c m] d] t]|] eqn:E.
  - apply collect_bounds in E as (?&?&?); [|done]. split; [done|]. by apply Forall_singleton.
  - split; [done|constructor].
Qed.

Lemma collected_ok (ok : instant -> Prop) last us :
  in_u 64 last -> Forall (fun u => ok (now u)) us -> Forall (sample_ok ok) (collected last us).
Proof.
  intros Hl Hus. revert last Hl. induction Hus as [|u us Hu Hus IH]; intros last Hl; cbn; [constructor|].
  destruct (sampled_bounds last (reading u) (now u) Hl) as [Hl' Hs].
  destruct (sampled last (reading u) (now u)) as [s last']. cbn in *. apply Forall_app. split; [|by apply IH].
  eapply Forall_impl; [exact Hs|]. intros m (Hm&?&?). split_and!; [by rewrite Hm|done..].
Qed.
End samples.

(** ** Nothing sampled is lost *)
Section tracker_facts.
Context `{UnicodeText} (parse_f64 : string -> Outcome Z).
Context {S : Type} `{StoreLaws S ok holds} (pid batch_size : Z).
Context (m0 : Samples).

Notation Tracker := (Tracker (S := S)).
Notation turn := (turn parse_f64 pid batch_size).
Notation run_loop := (run_loop parse_f64 pid batch_size).

(** A store that never fails. *)
Definition reliable : Prop := forall s m b, holds s m -> Forall (sample_ok ok) b ->
  (insert_metrics_batch s b pid).2 = None.

(** The samples so far: those handed over, then those in the buffer. *)
Definition accounts (t : Tracker) (all : list SystemMetrics) : Prop :=
  exists stored, holds (store t) (add_samples m0 stored pid) /\ all = stored ++ metrics_buffer t.

Lemma add_samples_app s a b : add_samples s (a ++ b) pid = add_samples (add_samples s a pid) b pid.
Proof. apply foldl_app. Qed.

Lemma insert_buffer_ok (t : Tracker) all :
  Forall (sample_ok ok) all -> accounts t all ->
  accounts (insert_buffer pid t) all /\
  (reliable -> metrics_buffer (insert_buffer pid t) = []) /\
  last_disk_io (insert_buffer pid t) = last_disk_io t /\
  batch_count (insert_buffer pid t) = batch_count t.
Proof.
  intros Hall (stored&Hs&->). apply Forall_app in Hall as [_ Hb]. unfold insert_buffer.
  destruct (insert_metrics_batch (store t) (metrics_buffer t) pid) as [s [e|]] eqn:E.
  - split_and!; [|intros Hr|done..].
    + exists stored. split; [|done]. by eapply insert_err.
    + specialize (Hr _ _ _ Hs Hb). by rewrite E in Hr.
  - split_and!; [|done..]. exists (stored ++ metrics_buffer t). cbn. rewrite app_nil_r. split; [|done].
    rewrite add_samples_app. by eapply insert_ok.
Qed.

Lemma flush_buffer_ok (t : Tracker) all :
  Forall (sample_ok ok) all -> accounts t all ->
  accounts (flush_buffer pid t) all /\
  (reliable -> metrics_buffer (flush_buffer pid t) = []) /\
  last_disk_io (flush_buffer pid t) = last_disk_io t /\
  batch_count (flush_buffer pid t) = batch_count t.
Proof.
  intros Hall Ha. unfold flush_buffer. destruct (metrics_buffer t) eqn:E; [done|].
  by apply insert_buffer_ok.
Qed.

(** The buffer after a step is empty or as it was. *)
Lemma flush_buffer_len (t : Tracker) :
  (length (metrics_buffer (flush_buffer pid t)) <= length (metrics_buffer t))%nat.
Proof.
  unfold flush_buffer, insert_buffer. destruct (metrics_buffer t) eqn:E; [by rewrite E|].
  destruct (insert_metrics_batch _ _ _) as [? []]; cbn; rewrite ?E; cbn; lia.
Qed.

Lemma flush_for_ok acks (t : Tracker) all :
  Forall (sample_ok ok) all -> accounts t all ->
  accounts (flush_for pid acks t).1 all /\
  last_disk_io (flush_for pid acks t).1 = last_disk_io t /\
  batch_count (flush_for pid acks t).1 = batch_count t /\
  (length (metrics_buffer (flush_for pid acks t).1) <= length (metrics_buffer t))%nat /\
  (flush_for pid acks t).2 = map Ack acks.
Proof.
  intros Hall Ha. unfold flush_for. destruct acks as [|a acks]; [by split_and!|]. cbn [fst snd].
  destruct (flush_buffer_ok t all Hall Ha) as (?&_&?&?). split_and!; try done. apply flush_buffer_len.
Qed.

(** What a query is answered with, from the samples that are stored. *)
Definition answers (m : Samples) (q : MetricsQuery) (r : Outcome (list SystemMetrics)) : Prop :=
  match q, r with
  | _, inr _ => True
  | ByLimit p n, inl rows =>
      0 <= n -> exists all, newest_first m p all /\ rows = reverse (take (Z.to_nat n) all)
  | ByRange p a b, inl rows => ok a -> ok b -> oldest_first_between m p a b rows
  end.

Lemma run_query_ok (t : Tracker) m q : holds (store t) m -> answers m q (run_query t q).
Proof.
  intros Hs. destruct q as [p n|p a b]; cbn.
  - destruct (get_metrics_for_pid (store t) p (Some n)) as [rows|] eqn:E; cbn; [|done].
    intros Hn. destruct (for_pid_ok _ _ _ _ _ Hs Hn E) as (all&?&->). eauto.
  - destruct (get_metrics_in_time_range (store t) p a b) as [rows|] eqn:E; cbn; [|done].
    intros Ha Hb. by eapply range_ok.
Qed.

Definition answered (all : list SystemMetrics) (q : MetricsQueryReq) (a : Answer) : Prop :=
  exists stored r, a = Reply q.2 r /\ stored `prefix_of` all /\ (reliable -> stored = all) /\
  answers (add_samples m0 stored pid) q.1 r.

Lemma answer_queries_ok (t : Tracker) all qs :
  Forall (sample_ok ok) all -> accounts t all ->
  accounts (answer_queries pid t qs).1 all /\
  last_disk_io (answer_queries pid t qs).1 = last_disk_io t /\
  batch_count (answer_queries pid t qs).1 = batch_count t /\
  (length (metrics_buffer (answer_queries pid t qs).1) <= length (metrics_buffer t))%nat /\
  Forall2 (answered all) qs (answer_queries pid t qs).2.
Proof.
  intros Hall. revert t. induction qs as [|[q reply] qs IH]; intros t Ha; cbn [answer_queries].
  { split_and!; by try constructor. }
  destruct (flush_buffer_ok t all Hall Ha) as (Ha'&Hr&Hl&Hc).
  destruct (IH _ Ha') as (Ha''&Hl'&Hc'&Hb'&Hout). pose proof (flush_buffer_len t) as Hb.
  destruct (answer_queries pid (flush_buffer pid t) qs) as [t' out]. cbn in *.
  split_and!; [done|congruence|congruence|lia|]. constructor; [|done].
  destruct Ha' as (stored&Hs&Hall'). exists stored, (run_query (flush_buffer pid t) q).
  split_and!; [done|by rewrite Hall'; apply prefix_app_r| |by apply run_query_ok].
  intros Hrel. by rewrite Hall', (Hr Hrel), app_nil_r.
Qed.

(** The first sample is not stored at once even when a batch is one sample. *)
Definition slack : Z := if batch_size =? 1 then 1 else 0.
Lemma slack_pos : 0 <= slack.
Proof. unfold slack. by destruct (batch_size =? 1). Qed.

(** Between turns: all samples are accounted for and counted, and a buffer of a store
    that never fails is shorter than a batch. *)
Record between_turns (t : Tracker) (all : list SystemMetrics) : Prop := {
  bt_accounts : accounts t all;
  bt_disk : in_u 64 (last_disk_io t);
  bt_count : batch_count t = Z.of_nat (length all);
  bt_short : reliable -> Z.of_nat (length (metrics_buffer t)) <= Z.of_nat (length all) mod batch_size + slack
}.

Context (batch_size_ok : 0 < batch_size).

Lemma mod_step n : (n + 1) mod batch_size <> 0 -> (n + 1) mod batch_size = n mod batch_size + 1.
Proof.
  intros Hn. pose proof (Z.mod_pos_bound n batch_size batch_size_ok) as Hb.
  rewrite <- Zplus_mod_idemp_l in *.
  destruct (decide (n mod batch_size = batch_size - 1)) as [He|He].
  - rewrite He in Hn. replace (batch_size - 1 + 1) with batch_size in Hn by lia.
    by rewrite Z_mod_same_full in Hn.
  - apply Z.mod_small. lia.
Qed.

Lemma take_sample_ok (t : Tracker) all u acks :
  between_turns t all -> Forall (sample_ok ok) all -> ok (now u) ->
  Z.of_nat (length all) + 1 < 2 ^ 64 ->
  let s := sampled parse_f64 (last_disk_io t) (reading u) (now u) in
  exists t', take_sample parse_f64 pid batch_size t u acks = Some (t', map Ack acks) /\
    between_turns t' (all ++ s.1) /\ last_disk_io t' = s.2 /\ Forall (sample_ok ok) (all ++ s.1).
Proof.
  intros [Ha Hd Hc Hs] Hall Hnow Hlen. cbv zeta. unfold take_sample.
  destruct (sampled_bounds parse_f64 (last_disk_io t) (reading u) (now u) Hd) as [Hd' Hnew].
  assert (Forall (sample_ok ok) (all ++ (sampled parse_f64 (last_disk_io t) (reading u) (now u)).1)) as Hall'.
  { apply Forall_app. split; [done|]. eapply Forall_impl; [exact Hnew|].
    intros m (Hm&?&?). split_and!; [by rewrite Hm|done..]. }
  unfold sampled in *. destruct (collect_system_metrics _ _ _) as [[[[cpu mem] delta] total]|] eqn:E.
  - cbn [fst snd] in *. rewrite (proj2 (Z.eqb_neq _ _)) by lia.
    set (t1 := push_sample t (now u) (cpu, mem, delta, total)).
    set (all' := all ++ [_]) in *.
    assert (accounts t1 all') as Ha1.
    { destruct Ha as (stored&Hst&->). exists stored. split; [exact Hst|]. unfold all'. cbn.
      by rewrite app_assoc. }
    assert (batch_count t1 = Z.of_nat (length all')) as Hc1.
    { unfold all'. cbn. rewrite Hc, length_app. cbn. unfold u64_add. rewrite uw_small by (split; lia). lia. }
    set (t2 := if _ =? 0 then _ else _).
    assert (accounts t2 all' /\ last_disk_io t2 = total /\ batch_count t2 = batch_count t1 /\
      (reliable -> Z.of_nat (length (metrics_buffer t2)) <= Z.of_nat (length all') mod batch_size + slack))
      as (Ha2&Hd2&Hc2&Hs2).
    { unfold t2. destruct (Z.eqb_spec (batch_count t1 mod batch_size) 0) as [Hz|Hz].
      - destruct (insert_buffer_ok t1 all' Hall' Ha1) as (?&Hr&?&?). split_and!; [done..|].
        intros Hrel. rewrite (Hr Hrel), <- Hc1, Hz. apply slack_pos.
      - split_and!; [done..|]. intros Hrel. specialize (Hs Hrel). rewrite Hc1 in Hz. unfold all' in *.
        rewrite length_app in *. cbn [length] in *. rewrite Nat2Z.inj_add in *. cbn in *.
        rewrite length_app. cbn. rewrite mod_step by done. lia. }
    destruct (flush_for_ok acks t2 all' Hall' Ha2) as (Ha3&Hd3&Hc3&Hb3&Ho).
    destruct (flush_for pid acks t2) as [t3 o] eqn:Ef. cbn in *. subst o.
    exists t3. split; [done|]. split; [|split; [congruence|done]].
    split; [done|by rewrite Hd3, Hd2|congruence|]. intros Hrel. specialize (Hs2 Hrel). lia.
  - cbn [fst snd] in *. rewrite app_nil_r in *.
    destruct (flush_for_ok acks t all Hall Ha) as (Ha3&Hd3&Hc3&Hb3&Ho).
    destruct (flush_for pid acks t) as [t3 o] eqn:Ef. cbn in *. subst o.
    exists t3. split; [done|]. split; [|split; [congruence|done]].
    split; [done|by rewrite Hd3|congruence|]. intros Hrel. specialize (Hs Hrel). lia.
Qed.

Lemma turn_ok (t : Tracker) all u :
  between_turns t all -> Forall (sample_ok ok) all -> ok (now u) ->
  Z.of_nat (length all) + 1 < 2 ^ 64 ->
  let s := sampled parse_f64 (last_disk_io t) (reading u) (now u) in
  exists t' replies, turn t u =
      Some (t', map Ack (acks_of (control u)) ++ replies, keeps_running (control u) (disconnected u)) /\
    between_turns t' (all ++ s.1) /\ last_disk_io t' = s.2 /\ Forall (sample_ok ok) (all ++ s.1) /\
    Forall2 (answered (all ++ s.1)) (queries u) replies.
Proof.
  intros Hb Hall Hnow Hlen. cbv zeta. unfold SystemTracker.turn.
  destruct (take_sample_ok t all u (acks_of (control u)) Hb Hall Hnow Hlen) as (t1&->&[Ha1 Hd1 Hc1 Hs1]&Hl1&Hall1).
  destruct (answer_queries_ok t1 _ (queries u) Hall1 Ha1) as (Ha2&Hd2&Hc2&Hb2&Hout).
  destruct (answer_queries pid t1 (queries u)) as [t2 replies]. cbn in *.
  exists t2, replies. split; [done|]. split; [|split_and!; [congruence|done|done]].
  split; [done|by rewrite Hd2|congruence|]. intros Hrel. specialize (Hs1 Hrel). lia.
Qed.

Lemma sampled_short last r at_ : (length (sampled parse_f64 last r at_).1 <= 1)%nat.
Proof. unfold sampled. destruct (collect_system_metrics _ _ _) as [[[[]]]|]; cbn; lia. Qed.

Lemma collected_short last us : (length (collected parse_f64 last (turns_run us)) <= length us)%nat.
Proof.
  revert last. induction us as [|u us IH]; intros last; [done|]. cbn [turns_run collected].
  pose proof (sampled_short last (reading u) (now u)).
  destruct (sampled parse_f64 last (reading u) (now u)) as [s l]. cbn in *. rewrite length_app.
  destruct (keeps_running _ _); [specialize (IH l)|]; cbn; lia.
Qed.

Lemma run_loop_ok (t : Tracker) all us :
  between_turns t all -> Forall (sample_ok ok) all -> Forall (fun u => ok (now u)) us ->
  Z.of_nat (length all) + Z.of_nat (length us) < 2 ^ 64 ->
  exists t' out ended, run_loop t us = Some (t', out, ended) /\
    (let all' := all ++ collected parse_f64 (last_disk_io t) (turns_run us) in
     accounts t' all' /\ (ended = false -> between_turns t' all' /\ Forall (sample_ok ok) all' /\
       last_disk_io t' = disk_after parse_f64 (last_disk_io t) us) /\
     (reliable -> ended = true -> metrics_buffer t' = [])) /\
    (ended = true <-> Exists (fun u => keeps_running (control u) (disconnected u) = false) us).
Proof.
  intros Hb Hall Hus. revert t all Hb Hall. induction Hus as [|u us Hu Hus IH]; intros t all Hb Hall Hlen.
  { exists t, [], false. cbn. rewrite app_nil_r. split_and!; try done; [by destruct Hb|].
    split; [done|by intros ?%Exists_nil]. }
  cbn [length] in Hlen. destruct (turn_ok t all u Hb Hall Hu ltac:(lia)) as (t1&o1&Et&Hb1&Hl1&Hall1&_).
  pose proof (sampled_short (last_disk_io t) (reading u) (now u)) as Hsh.
  cbn [SystemTracker.run_loop turns_run collected]. rewrite Et.
  destruct (sampled parse_f64 (last_disk_io t) (reading u) (now u)) as [s last'] eqn:Es. cbn in Hl1, Hsh, Hb1, Hall1.
  destruct (keeps_running (control u) (disconnected u)) eqn:Ek.
  - destruct (IH t1 _ Hb1 Hall1) as (t2&o2&ended&Er&Hacc&Hend).
    { rewrite length_app. lia. }
    rewrite Er. eexists _, _, _. split; [reflexivity|]. rewrite Hl1, <- app_assoc in Hacc.
    cbn [disk_after foldl]. rewrite Es. split; [exact Hacc|].
    rewrite Exists_cons, Ek, Hend. naive_solver.
  - eexists _, _, _. split; [reflexivity|]. cbn [collected]. rewrite app_nil_r.
    destruct (flush_buffer_ok t1 (all ++ s) Hall1 (bt_accounts _ _ Hb1)) as (?&?&_).
    split_and!; [done|done|by eauto|]. split; [intros _; by left|done].
Qed.

Lemma start_ok s r at_ :
  holds s m0 -> ok at_ -> between_turns (start_tracker parse_f64 s r at_) (sampled parse_f64 0 r at_).1 /\
  last_disk_io (start_tracker parse_f64 s r at_) = (sampled parse_f64 0 r at_).2 /\
  Forall (sample_ok ok) (sampled parse_f64 0 r at_).1.
Proof.
  intros Hs Hat. destruct (sampled_bounds parse_f64 0 r at_ ltac:(done)) as [Hd Hnew].
  assert (Forall (sample_ok ok) (sampled parse_f64 0 r at_).1) as Hok.
  { eapply Forall_impl; [exact Hnew|]. intros m (Hm&?&?). split_and!; [by rewrite Hm|done..]. }
  unfold start_tracker, sampled in *.
  destruct (collect_system_metrics parse_f64 r 0) as [[[[c m] d] tot]|]; cbn in *.
  - split_and!; [|done|done]. split; [by exists []|done|done|]. intros _. cbn. unfold slack.
    destruct (Z.eqb_spec batch_size 1) as [->|Hb]; [done|]. rewrite Z.mod_small; lia.
  - split_and!; [|done|done]. split; [by exists []|done|done|]. intros _. cbn. apply slack_pos.
Qed.

(** A run before its end, with its samples. *)
Lemma thread_ok s r at_ us :
  holds s m0 -> ok at_ -> Forall (fun u => ok (now u)) us -> Z.of_nat (length us) + 1 < 2 ^ 64 ->
  exists t out ended, tracker_thread parse_f64 pid batch_size s r at_ us = Some (t, out, ended) /\
    (let all := thread_samples parse_f64 r at_ us in
     accounts t all /\ (ended = false -> between_turns t all /\ Forall (sample_ok ok) all /\
       last_disk_io t = disk_after parse_f64 (sampled parse_f64 0 r at_).2 us) /\
     (reliable -> ended = true -> metrics_buffer t = [])) /\
    (ended = true <-> Exists (fun u => keeps_running (control u) (disconnected u) = false) us).
Proof.
  intros Hs Hat Hus Hlen. destruct (start_ok s r at_ Hs Hat) as (Hb&Hl&Hok).
  pose proof (sampled_short 0 r at_) as Hsh.
  destruct (run_loop_ok _ _ us Hb Hok Hus) as (t&out&ended&Er&Hacc&Hend); [lia|].
  exists t, out, ended. split; [exact Er|]. split; [|exact Hend].
  unfold thread_samples. rewrite Hl in Hacc. by destruct (sampled parse_f64 0 r at_).
Qed.

(** C32: with a positive batch size, whatever comes and whatever fails, the thread does not
    panic, and every sample it has taken is in the store or in its buffer, in order and
    once; it ends exactly when told to stop or when nobody can tell it any more, and over a
    store that does not fail all samples are then stored. *)
Theorem tracker_keeps_samples s r at_ us :
  holds s m0 -> ok at_ -> Forall (fun u => ok (now u)) us -> Z.of_nat (length us) + 1 < 2 ^ 64 ->
  exists t out ended stored,
    tracker_thread parse_f64 pid batch_size s r at_ us = Some (t, out, ended) /\
    holds (store t) (add_samples m0 stored pid) /\
    thread_samples parse_f64 r at_ us = stored ++ metrics_buffer t /\
    (ended = true <-> Exists (fun u => keeps_running (control u) (disconnected u) = false) us) /\
    (reliable -> ended = true -> metrics_buffer t = []).
Proof.
  intros Hs Hat Hus Hlen. destruct (thread_ok s r at_ us Hs Hat Hus Hlen)
    as (t&out&ended&Er&((stored&Hst&Hall)&_&Hend)&Hiff).
  by exists t, out, ended, stored.
Qed.

(** What a turn answers: each flush that has come is acknowledged, once and in order,
    and then each query, from a store that, when it does not fail, holds every sample
    taken so far, this turn's included: the newest up to the limit, oldest first, or the
    range asked for. *)
Theorem tracker_answers s r at_ us u :
  holds s m0 -> ok at_ -> Forall (fun u => ok (now u)) (us ++ [u]) ->
  Forall (fun u => keeps_running (control u) (disconnected u) = true) us ->
  Z.of_nat (length us) + 2 < 2 ^ 64 ->
  exists t out t' replies go,
    tracker_thread parse_f64 pid batch_size s r at_ us = Some (t, out, false) /\
    turn t u = Some (t', map Ack (acks_of (control u)) ++ replies, go) /\
    Forall2 (answered (thread_samples parse_f64 r at_ (us ++ [u]))) (queries u) replies.
Proof.
  intros Hs Hat Hus Hgo Hlen. apply Forall_app in Hus as [Hus Hu]. apply Forall_cons in Hu as [Hu _].
  destruct (thread_ok s r at_ us Hs Hat Hus ltac:(lia)) as (t&out&ended&Er&(_&Hb&_)&Hiff).
  assert (ended = false) as ->.
  { destruct ended; [|done]. pose proof (proj1 Hiff eq_refl) as (v&Hv&Hk)%Exists_exists.
    rewrite Forall_forall in Hgo. apply Hgo in Hv. congruence. }
  destruct (Hb eq_refl) as (Hbt&Hok&Hlast).
  assert (length (thread_samples parse_f64 r at_ us) <= 1 + length us)%nat as Hn.
  { pose proof (sampled_short 0 r at_). unfold thread_samples. destruct (sampled parse_f64 0 r at_) as [s0 l0].
    rewrite length_app. pose proof (collected_short l0 us). cbn in *. lia. }
  destruct (turn_ok t _ u Hbt Hok Hu) as (t'&replies&Et&_&_&_&Hout).
  { lia. }
  exists t, out, t', replies, (keeps_running (control u) (disconnected u)).
  split_and!; [exact Er|exact Et|]. rewrite Hlast in Hout. unfold thread_samples in *.
  destruct (sampled parse_f64 0 r at_) as [s0 l0]. by rewrite collected_app, app_assoc.
Qed.

(** Over a store that does not fail the buffer stays shorter than a batch, the first
    sample of batches of one aside. *)
Theorem tracker_buffer_bounded s r at_ us t out :
  holds s m0 -> ok at_ -> Forall (fun u => ok (now u)) us -> Z.of_nat (length us) + 1 < 2 ^ 64 ->
  reliable -> tracker_thread parse_f64 pid batch_size s r at_ us = Some (t, out, false) ->
  Z.of_nat (length (metrics_buffer t)) <= Z.max 1 (batch_size - 1).
Proof.
  intros Hs Hat Hus Hlen Hrel Hrun.
  destruct (thread_ok s r at_ us Hs Hat Hus Hlen) as (t'&out'&ended&Er&(_&Hb&_)&_).
  rewrite Hrun in Er. injection Er as <- <- <-. destruct (Hb eq_refl) as ([_ _ _ Hshort]&_).
  specialize (Hshort Hrel). unfold slack in Hshort.
  pose proof (Z.mod_pos_bound (Z.of_nat (length (thread_samples parse_f64 r at_ us))) batch_size batch_size_ok).
  destruct (Z.eqb_spec batch_size 1); lia.
Qed.
End tracker_facts.

(** With a batch size of zero the first turn that can read a sample panics. *)
Theorem zero_batch_panics `{UnicodeText} (parse_f64 : string -> Outcome Z) {S : Type}
    `{SystemMetricsStore S} pid (t : Tracker (S := S)) u m :
  collect_system_metrics parse_f64 (reading u) (last_disk_io t) = inl m ->
  turn parse_f64 pid 0 t u = None.
Proof. intros Hm. unfold turn, take_sample. by rewrite Hm. Qed.

(** ** An ideal store, and a run *)
Definition ideal_list (s : Samples) (pid : Z) (wanted : instant -> bool) : list SystemMetrics :=
  samples_of s pid wanted.
Definition ideal_store : SystemMetricsStore Samples := {|
  insert_metrics_batch s b pid := (add_samples s b pid, None);
  get_metrics_for_pid s pid limit :=
    let all := sort_desc m_timestamp (ideal_list s pid (fun _ => true)) in
    inl (from_option (fun n => take (Z.to_nat n) all) all limit);
  get_metrics_in_time_range s pid start end_ :=
    inl (sort_asc m_timestamp (ideal_list s pid (fun t => (start <=? t) && (t <=? end_))))
|}.

Lemma ideal_laws : @StoreLaws Samples ideal_store (fun _ => True) eq.
Proof.
  split; cbn.
  - by intros s m b pid s' -> _ [= <-].
  - by intros s m b pid s' e -> [=].
  - intros s m pid n out -> Hn [= <-]. eexists. split; [|done]. split; [apply sort_desc_perm|].
    apply sort_desc_sorted.
  - intros s m pid a b out -> _ _ [= <-]. split; [apply sort_asc_perm|apply sort_asc_sorted].
Qed.

Section examples.
#[local] Existing Instances unicode_ascii ideal_store ideal_laws.
Definition demo_f64 (s : string) : Outcome Z :=
  match parse_unsigned 64 s with Some z => inl z | None => inr "invalid float literal" end.
Definition demo_reading (disk : Z) : Reading :=
  {| r_cpu := inl (true, "3"); r_memory := inl (true, "2"); r_rusage := (0, disk, 1) |}.
Definition demo_turn (t disk : Z) (c : list ControlMsg) (q : list MetricsQueryReq) : Turn :=
  {| control := c; disconnected := false; reading := demo_reading disk; now := t; queries := q |}.
Definition demo_turns : list Turn :=
  [demo_turn 10 9 [] []; demo_turn 20 5 [Flush 0] []; demo_turn 30 8 [] [];
   demo_turn 40 8 [Stop] []].

Lemma tracker_keeps_samples_witness :
  exists t out, tracker_thread demo_f64 7 10 ∅ (demo_reading 4) 0 demo_turns = Some (t, out, true) /\
    store t = add_samples ∅ (thread_samples demo_f64 (demo_reading 4) 0 demo_turns) 7 /\
    map disk_io_bytes (thread_samples demo_f64 (demo_reading 4) 0 demo_turns) = [5; 5; 6; 3; 0].
Proof.
  destruct (tracker_keeps_samples demo_f64 7 10 ∅ ltac:(done) ∅ (demo_reading 4) 0 demo_turns)
    as (t&out&ended&stored&Hr&Hs&Hall&Hend&Hbuf); [done|done|by repeat constructor|done|].
  assert (ended = true) as ->.
  { apply Hend. do 3 (apply Exists_cons_tl). by apply Exists_cons_hd. }
  exists t, out. split; [done|]. split; [|by vm_compute].
  rewrite Hall, (Hbuf ltac:(by intros ? ? ? ? ?) eq_refl), app_nil_r. done.
Defined.

Lemma tracker_answers_witness :
  exists t out t' replies go,
    tracker_thread demo_f64 7 10 ∅ (demo_reading 4) 0 (take 2 demo_turns) = Some (t, out, false) /\
    turn demo_f64 7 10 t (demo_turn 30 8 [Flush 3] [(ByLimit 7 2, 4%nat)]) = Some (t', Ack 3 :: replies, go).
Proof.
  destruct (tracker_answers demo_f64 7 10 ∅ ltac:(done) ∅ (demo_reading 4) 0 (take 2 demo_turns)
    (demo_turn 30 8 [Flush 3] [(ByLimit 7 2, 4%nat)])) as (t&out&t'&replies&go&Hr&Ht&_);
    [done|done|by repeat constructor|by repeat constructor|done|].
  by exists t, out, t', replies, go.
Defined.

Lemma tracker_buffer_bounded_witness :
  exists t out, tracker_thread demo_f64 7 3 ∅ (demo_reading 4) 0 (take 3 demo_turns) = Some (t, out, false) /\
  Z.of_nat (length (metrics_buffer t)) <= 2.
Proof.
  eexists _, _. split; [by vm_compute|].
  eapply (tracker_buffer_bounded demo_f64 7 3 ∅ ltac:(done) ∅ (demo_reading 4) 0 (take 3 demo_turns));
    [done|done|by repeat constructor|done|by intros ? ? ? ? ?|by vm_compute].
Defined.

Lemma zero_batch_panics_witness :
  turn demo_f64 7 0 (start_tracker demo_f64 ∅ (demo_reading 4) 0) (demo_turn 10 9 [] []) = None.
Proof. eapply (zero_batch_panics demo_f64 7). by vm_compute. Defined.
End examples.
