(* ===== verification/TrackerHandle.v ===== *)
(** The handle of the system tracker: [SystemTracker::start_with_registry], [stop] and
    [flush] (src/daemon/tracker/system.rs) with the two bridge threads between the API's
    channels and the tracker's, and the API's cells (src/daemon/server/grpc.rs), which
    keep the first sender that they are given.

    Threads, channels and callers move one step at a time, in any order. *)
From S2P Require Import Prelude SystemTracker.

(** ** The parts

    A bridge waits for a request of the API, or for the tracker's acknowledgement of the
    flush that it passed on. *)
Inductive Bridge := Receiving | Waiting (ack : nat) | Finished.
#[export] Instance bridge_eq_dec : EqDecision Bridge.
Proof. solve_decision. Defined.

(** How far a call of [stop] has come. *)
Inductive Stopper := NotCalled | StopSent | ThreadJoined | ControlJoined | Returned.
#[export] Instance stopper_eq_dec : EqDecision Stopper.
Proof. solve_decision. Defined.

Record Handle := {
  alive : bool;                 (** the tracker's thread *)
  control_q : list ControlMsg;  (** what it has not yet received *)
  async_control : list ControlMsg;
  async_query : list nat;
  query_q : list nat;
  control_bridge : Bridge;
  query_bridge : Bridge;
  api_sender : bool;            (** the API's cells hold senders of this tracker *)
  stopper : Stopper;
  acked : list nat;             (** acknowledgements that reached the API *)
  replied : list (nat * bool)   (** replies, and whether they are answers *)
}.

(** The process: whether the API's cells are set, the [started] flag, the handle. *)
Record Process := { cells_set : bool; started : bool; handle : option Handle }.

Definition new_handle (api : bool) : Handle := {|
  alive := true; control_q := []; async_control := []; async_query := []; query_q := [];
  control_bridge := Receiving; query_bridge := Receiving; api_sender := api; stopper := NotCalled;
  acked := []; replied := [] |}.

(** [start]: [OnceCell::set] keeps what is there. *)
Definition start_with_registry (p : Process) : Process + string :=
  if started p then inr "System tracker is already running"
  else inl {| cells_set := true; started := true; handle := Some (new_handle (negb (cells_set p))) |}.

(** The call of [stop], up to its first wait. *)
Definition call_stop (p : Process) : Process + string :=
  if started p then
    inl {| cells_set := cells_set p; started := false;
           handle := (fun h => {| alive := alive h;
             control_q := if alive h then control_q h ++ [Stop] else control_q h;
             async_control := async_control h; async_query := async_query h; query_q := query_q h;
             control_bridge := control_bridge h; query_bridge := query_bridge h;
             api_sender := api_sender h; stopper := StopSent; acked := acked h;
             replied := replied h |}) <$> handle p |}
  else inr "System tracker is not running".

(** ** Steps *)
Inductive Actor :=
  | ApiControl (m : ControlMsg)   (** a request of the API *)
  | ApiQuery (reply : nat)
  | Thread                        (** a turn of the tracker *)
  | ControlBridge
  | QueryBridge
  | Stopping.                     (** a join that can return *)

Definition set_control (h : Handle) (q a : list ControlMsg) (b : Bridge) (acks : list nat) : Handle := {|
  alive := alive h; control_q := q; async_control := a; async_query := async_query h;
  query_q := query_q h; control_bridge := b; query_bridge := query_bridge h;
  api_sender := api_sender h; stopper := stopper h; acked := acked h ++ acks; replied := replied h |}.
Definition set_query (h : Handle) (q a : list nat) (b : Bridge) (r : list (nat * bool)) : Handle := {|
  alive := alive h; control_q := control_q h; async_control := async_control h; async_query := a;
  query_q := q; control_bridge := control_bridge h; query_bridge := b;
  api_sender := api_sender h; stopper := stopper h; acked := acked h; replied := replied h ++ r |}.
Definition set_stopper (h : Handle) (s : Stopper) : Handle := {|
  alive := alive h; control_q := control_q h; async_control := async_control h;
  async_query := async_query h; query_q := query_q h; control_bridge := control_bridge h;
  query_bridge := query_bridge h; api_sender := api_sender h; stopper := s; acked := acked h;
  replied := replied h |}.

(** A turn receives all control messages and all queries; [Stop] among the former ends
    the thread, which drops its channels.  The flush that a bridge waits for is among
    those received, for only bridges and callers of [flush] send them. *)
Definition thread_turn (h : Handle) : Handle := {|
  alive := keeps_running (control_q h) false; control_q := []; async_control := async_control h;
  async_query := async_query h; query_q := [];
  control_bridge := match control_bridge h with
    | Waiting a => if bool_decide (a ∈ acks_of (control_q h)) then Receiving else Waiting a
    | b => b end;
  query_bridge := query_bridge h; api_sender := api_sender h; stopper := stopper h;
  acked := acked h ++ match control_bridge h with
    | Waiting a => if bool_decide (a ∈ acks_of (control_q h)) then [a] else []
    | _ => [] end;
  replied := replied h ++ map (fun r => (r, true)) (query_q h) |}.

(** [control_forward]: with nothing to receive it waits while there is a sender. *)
Definition control_bridge_step (h : Handle) : option Handle :=
  match control_bridge h with
  | Finished => None
  | Waiting a =>
      (* the tracker has dropped the channel of the acknowledgement *)
      if alive h then None else Some (set_control h (control_q h) (async_control h) Finished [a])
  | Receiving =>
      match async_control h with
      | [] => if api_sender h then None
              else Some (set_control h (control_q h) [] Finished [])
      | Stop :: rest =>
          if alive h then Some (set_control h (control_q h ++ [Stop]) rest Receiving [])
          else Some (set_control h (control_q h) rest Finished [])
      | Flush a :: rest =>
          if alive h then Some (set_control h (control_q h ++ [Flush a]) rest (Waiting a) [])
          else Some (set_control h (control_q h) rest Finished [a])
      end
  end.

(** [query_forward]. *)
Definition query_bridge_step (h : Handle) : option Handle :=
  match query_bridge h with
  | Receiving =>
      match async_query h with
      | [] => if api_sender h then None else Some (set_query h (query_q h) [] Finished [])
      | r :: rest =>
          if alive h then Some (set_query h (query_q h ++ [r]) rest Receiving [])
          else Some (set_query h (query_q h) rest Finished [(r, false)])
      end
  | _ => None
  end.

(** [stop] joins the tracker, then the bridges. *)
Definition stop_step (h : Handle) : option Handle :=
  match stopper h with
  | StopSent => if alive h then None else Some (set_stopper h ThreadJoined)
  | ThreadJoined =>
      if decide (control_bridge h = Finished) then Some (set_stopper h ControlJoined) else None
  | ControlJoined =>
      if decide (query_bridge h = Finished) then Some (set_stopper h Returned) else None
  | NotCalled | Returned => None
  end.

Definition hstep (h : Handle) (a : Actor) : option Handle :=
  match a with
  | ApiControl m =>
      if api_sender h && bool_decide (control_bridge h <> Finished)
      then Some (set_control h (control_q h) (async_control h ++ [m]) (control_bridge h) [])
      else None
  | ApiQuery r =>
      if api_sender h && bool_decide (query_bridge h <> Finished)
      then Some (set_query h (query_q h) (async_query h ++ [r]) (query_bridge h) [])
      else None
  | Thread => if alive h then Some (thread_turn h) else None
  | ControlBridge => control_bridge_step h
  | QueryBridge => query_bridge_step h
  | Stopping => stop_step h
  end.

(** Runs: an actor that cannot move is passed over. *)
Definition hrun (h : Handle) (sched : list Actor) : Handle :=
  foldl (fun h a => default h (hstep h a)) h sched.

Definition no_request (a : Actor) : Prop :=
  match a with ApiControl _ | ApiQuery _ => False | _ => True end.

(** ** Stopping *)
Definition stopped_handle (p : Process) : option Handle :=
  match call_stop p with inl p' => handle p' | inr _ => None end.

(** The first tracker of a process cannot be stopped: the API keeps a sender of its
    channels, so its bridges never end, and however long the threads run [stop] does not
    return, unless the API is used meanwhile. *)
Theorem first_stop_hangs p h sched :
  start_with_registry {| cells_set := false; started := false; handle := None |} = inl p ->
  stopped_handle p = Some h -> Forall no_request sched -> stopper (hrun h sched) <> Returned.
Proof.
  intros [= <-] [= <-] Hs.
  set (waits := fun h : Handle => api_sender h = true /\ control_bridge h = Receiving /\
    async_control h = [] /\ (stopper h = StopSent \/ stopper h = ThreadJoined)).
  assert (forall h, waits h -> waits (hrun h sched)) as Hw.
  { induction Hs as [|a sched Ha Hs IH]; intros h Hh; [done|]. cbn [hrun foldl]. apply IH.
    destruct Hh as (Hapi&Hb&Hq&Hst). destruct a as [m|r| | | |]; try done; cbn.
    - destruct (alive h); cbn; [|by split_and!]. unfold waits, thread_turn; cbn. by rewrite Hb.
    - unfold control_bridge_step. by rewrite Hb, Hq, Hapi.
    - unfold query_bridge_step. destruct (query_bridge h); try by split_and!.
      destruct (async_query h); [by rewrite Hapi|]. destruct (alive h); by split_and!.
    - unfold stop_step. destruct Hst as [Hst|Hst]; rewrite Hst.
      + destruct (alive h); cbn; [split_and!; by try left|]. split_and!; try done. by right.
      + rewrite decide_False by by rewrite Hb. split_and!; try done. by right. }
  specialize (Hw (Build_Handle true [Stop] [] [] [] Receiving Receiving true StopSent [] [])).
  destruct Hw as (_&_&_&Hst); [split_and!; by try left|]. intros Hr.
  change (stopper (hrun (Build_Handle true [Stop] [] [] [] Receiving Receiving true StopSent [] []) sched)
    = Returned) in Hr. rewrite Hr in Hst. by destruct Hst.
Qed.

Definition finishing : list Actor :=
  [Thread; ControlBridge; QueryBridge; Stopping; Stopping; Stopping].

(** A tracker that the API does not know, on its way to a stop. *)
Record stopping (h : Handle) : Prop := {
  sg_api : api_sender h = false;
  sg_control : async_control h = [];
  sg_query : async_query h = [];
  sg_stop : alive h = true -> keeps_running (control_q h) false = false;
  sg_bridges : control_bridge h = Receiving \/ control_bridge h = Finished;
  sg_bridges' : query_bridge h = Receiving \/ query_bridge h = Finished;
  sg_stopper : match stopper h with
    | NotCalled => False
    | StopSent => True
    | ThreadJoined => alive h = false
    | ControlJoined => alive h = false /\ control_bridge h = Finished
    | Returned => alive h = false /\ control_bridge h = Finished /\ query_bridge h = Finished
    end
}.

Lemma stopping_step h a : stopping h -> no_request a -> stopping (default h (hstep h a)).
Proof.
  intros Hh Ha. destruct Hh as [Hapi Hc Hq Hs Hb Hb' Hst] eqn:E. clear E.
  destruct a as [m|r| | | |]; try done; cbn.
  - destruct (alive h) eqn:Ea; cbn; [|done]. specialize (Hs eq_refl).
    split; cbn; try done; [by rewrite Hs| |].
    + by destruct Hb as [-> | ->]; [left|right].
    + destruct (stopper h); intuition congruence.
  - unfold control_bridge_step. rewrite Hc, Hapi. destruct Hb as [-> | ->]; [|done]. cbn.
    split; cbn; try done; [by right|]. destruct (stopper h); intuition congruence.
  - unfold query_bridge_step. rewrite Hq, Hapi. destruct Hb' as [-> | ->]; [|done]. cbn.
    split; cbn; try done; [by right|]. destruct (stopper h); intuition congruence.
  - unfold stop_step. destruct (stopper h) eqn:Es; try done.
    + destruct (alive h) eqn:Ea; cbn; [done|]. split; cbn; intuition congruence.
    + case_decide; cbn; [|done]. split; cbn; first [done | by split_and!].
    + case_decide; cbn; [|done]. destruct Hst. split; cbn; first [done | by split_and!].
Qed.

Lemma stopping_finishes h : stopping h -> stopper (hrun h finishing) = Returned.
Proof.
  intros [Hapi Hc Hq Hs Hb Hb' Hst]. destruct h as [al cq ac aq qq cb qb api st ak rp]. cbn in *. subst.
  destruct al; [specialize (Hs eq_refl)|clear Hs]; destruct Hb as [-> | ->], Hb' as [-> | ->], st;
    try done; cbn; rewrite ?Hs; try done; intuition congruence.
Qed.

(** Every later tracker can be stopped: after [stop] is called, wherever the threads
    have got to, the thread's next turn, its bridges and the joins bring [stop] to its
    return. *)
Theorem later_stop_returns p h sched :
  start_with_registry {| cells_set := true; started := false; handle := None |} = inl p ->
  stopped_handle p = Some h -> Forall no_request sched ->
  stopper (hrun (hrun h sched) finishing) = Returned.
Proof.
  intros [= <-] [= <-] Hs. apply stopping_finishes.
  assert (forall h, stopping h -> stopping (hrun h sched)) as Hrun.
  { induction Hs as [|a sched Ha Hs IH]; intros h Hh; [done|]. cbn. by apply IH, stopping_step. }
  apply Hrun. by split; cbn; try left.
Qed.

(** A flush that the API asks of a tracker that has ended is acknowledged all the
    same. *)
Theorem ended_flush_acknowledged h a :
  alive h = false -> api_sender h = true -> control_bridge h = Receiving -> async_control h = [] ->
  acked (hrun h [ApiControl (Flush a); ControlBridge]) = acked h ++ [a].
Proof.
  intros Ha Hapi Hb Hq. cbn. rewrite Hapi, Hb, bool_decide_true by done. cbn.
  unfold control_bridge_step. cbn. rewrite Hq, Ha. cbn. by rewrite app_nil_r.
Qed.

(** ** The synchronous flush

    [flush] up to its wait: the handle has no sender before a start and after a stop, and a
    send fails when the thread has gone. *)
Definition call_flush (p : Process) (a : nat) : Process + string :=
  match handle p with
  | None => inr "Tracker control channel not available"
  | Some h =>
      if decide (stopper h = Returned) then inr "Tracker control channel not available"
      else if alive h then
        inl {| cells_set := cells_set p; started := started p;
               handle := Some (set_control h (control_q h ++ [Flush a]) (async_control h)
                 (control_bridge h) []) |}
      else inr "Failed to send flush control message"
  end.

(** [recv_timeout] over what happens within its two seconds: the turn that receives the
    message acknowledges it; a thread that ends without drops the channel. *)
Fixpoint flush_wait (h : Handle) (a : nat) (sched : list Actor) : Handle * (unit + string) :=
  match sched with
  | [] => (h, inr "Timed out waiting for tracker flush ack")
  | x :: sched =>
      let h' := default h (hstep h x) in
      match x with
      | Thread =>
          if alive h && bool_decide (a ∈ acks_of (control_q h)) then (h', inl ())
          else flush_wait h' a sched
      | _ => flush_wait h' a sched
      end
  end.

(** [is_running]. *)
Definition is_running (p : Process) : bool := started p.

(** A message stays in the channel until the next turn. *)
Lemma flush_waits h x a : x <> Thread -> alive h = true -> a ∈ acks_of (control_q h) ->
  let h' := default h (hstep h x) in alive h' = true /\ a ∈ acks_of (control_q h').
Proof.
  assert (forall l k, acks_of (l ++ k) = acks_of l ++ acks_of k) as Happ by (intros l k; apply omap_app).
  intros Hx Hal Ha. destruct x as [m|r| | | |]; cbn [hstep]; try done.
  - by destruct (_ && _).
  - by destruct (_ && _).
  - unfold control_bridge_step. rewrite Hal.
    destruct (control_bridge h); [|done|done]. destruct (async_control h) as [|[|b] l]; cbn.
    + by destruct (api_sender h).
    + split; [done|]. rewrite Happ. apply elem_of_app. by left.
    + split; [done|]. rewrite Happ. apply elem_of_app. by left.
  - unfold query_bridge_step. destruct (query_bridge h); [|done|done].
    destruct (async_query h); [by destruct (api_sender h)|]. by rewrite Hal.
  - unfold stop_step. rewrite Hal. destruct (stopper h); try done; by destruct (decide _).
Qed.

(** A flush of a running tracker is acknowledged at the next turn of its thread, whatever the
    other threads do meanwhile, and times out exactly when there is none within its two
    seconds; it fails at once without a tracker, and after its end. *)
Theorem flush_answers p p' a h sched :
  call_flush p a = inl p' -> handle p' = Some h ->
  (Thread ∈ sched -> (flush_wait h a sched).2 = inl ()) /\
  (Thread ∉ sched -> (flush_wait h a sched).2 = inr "Timed out waiting for tracker flush ack").
Proof.
  unfold call_flush. destruct (handle p) as [h0|]; [|done]. destruct (decide _); [done|].
  destruct (alive h0) eqn:Hal; [|done]. intros [= <-] [= <-].
  assert (a ∈ acks_of (control_q h0 ++ [Flush a])) as Ha.
  { unfold acks_of. rewrite omap_app. apply elem_of_app. right. by left. }
  revert Ha Hal. set (h := set_control h0 _ _ _ _). change (control_q h0 ++ [Flush a]) with (control_q h).
  change (alive h0) with (alive h). clearbody h. intros Ha Hal. split.
  - intros Hin. revert h Ha Hal. induction sched as [|x sched IH]; intros h Ha Hal; [by apply elem_of_nil in Hin|].
    cbn [flush_wait]. assert (x = Thread \/ x <> Thread) as [->|Hx] by (destruct x; (by left) || by right).
    + rewrite Hal, bool_decide_true by done. done.
    + apply elem_of_cons in Hin as [Heq|Hin]; [by destruct Hx|].
      destruct (flush_waits h x a Hx Hal Ha) as [Hal' Ha']. specialize (IH Hin _ Ha' Hal').
      by destruct x.
  - intros Hn. clear Ha Hal. revert h. induction sched as [|x sched IH]; intros h; [done|].
    apply not_elem_of_cons in Hn as [Hx Hn]. cbn [flush_wait]. destruct x; try done; by apply IH.
Qed.

(** ** Witnesses *)
Lemma flush_answers_witness :
  exists p' h, call_flush {| cells_set := true; started := true; handle := Some (new_handle true) |} 3 = inl p' /\
    handle p' = Some h /\ (flush_wait h 3 [QueryBridge; ControlBridge; Thread]).2 = inl ().
Proof.
  eexists _, _. split; [reflexivity|]. split; [reflexivity|].
  refine (proj1 (flush_answers {| cells_set := true; started := true; handle := Some (new_handle true) |}
    _ 3 _ [QueryBridge; ControlBridge; Thread] eq_refl eq_refl) _). by right; right; left.
Defined.

Definition first_process : Process :=
  {| cells_set := true; started := true; handle := Some (new_handle true) |}.
Definition later_process : Process :=
  {| cells_set := true; started := true; handle := Some (new_handle false) |}.

Lemma first_stop_hangs_witness :
  exists h, stopped_handle first_process = Some h /\
  stopper (hrun h [Thread; Stopping; ControlBridge; QueryBridge; Stopping; Stopping]) <> Returned.
Proof.
  eexists. split; [reflexivity|]. eapply (first_stop_hangs first_process); [done|done|by repeat constructor].
Defined.

Lemma later_stop_returns_witness :
  exists h, stopped_handle later_process = Some h /\
  stopper (hrun (hrun h [ControlBridge; Thread; Stopping]) finishing) = Returned.
Proof.
  eexists. split; [reflexivity|]. eapply (later_stop_returns later_process); [done|done|by repeat constructor].
Defined.
