(* ===== verification/MetricsApi.v ===== *)
(** [get_system_metrics] of the gRPC server (src/daemon/server/grpc.rs): a flush and a
    query through the channels of the system tracker, once more when the answer is
    empty, and the reply.

    What the channels give is a parameter; the clock is read through [Reads]. *)
From S2P Require Import Prelude Decimal Wire SystemMetrics SystemTracker.

(** ** Messages *)
Record SystemMetricsRequest := {
  req_pid : Z;
  req_start_time : option Timestamp;
  req_end_time : option Timestamp;
  req_limit : Z
}.
Record SystemMetric := {
  pm_timestamp : option Timestamp;
  pm_cpu_percent : Z;
  pm_memory_bytes : Z;
  pm_disk_io_bytes : Z
}.
Record SystemMetricsReply := { reply_metrics : list SystemMetric; total_count : Z }.

Inductive Status :=
  | Unavailable (msg : string)
  | Internal (msg : string)
  | DeadlineExceeded (msg : string)
  | InvalidArgument (msg : string).

(** What a request to the tracker comes to: its channel is closed, no answer in time, the
    answer's channel is dropped, or an answer. *)
Inductive Awaited (A : Type) :=
  | NotSent
  | TimedOut
  | Dropped
  | Answered (a : A).
Arguments NotSent {A}.
Arguments TimedOut {A}.
Arguments Dropped {A}.
Arguments Answered {A} a.

(** The cells of the API, and what comes of a flush, and of a query of the first attempt
    or of the second. *)
Record Channels := {
  db_path_set : bool;
  control_tx : option (Awaited unit);
  query_tx : option (bool -> MetricsQuery -> Awaited (list SystemMetrics + string))
}.

Section api.
Context `{ChronoParts} (utc : nat -> instant).

(** Steps that may end the call with a status. *)
Definition Call (A : Type) : Type := Reads (A + Status).
Definition bind_call {A B} (m : Call A) (f : A -> Call B) : Call B :=
  fun k => match m k with (inl a, k) => f a k | (inr s, k) => (inr s, k) end.
Definition fail {A} (s : Status) : Call A := fun k => (inr s, k).
Definition answer {A} (a : A) : Call A := fun k => (inl a, k).
Notation "'let!' x := m 'in' k" := (bind_call m (fun x => k))
  (at level 200, x name, m at level 100, k at level 200).

(** A time of the request, or one reckoned from the clock. *)
Definition bound_time (name : string) (ts : option Timestamp) (ago : duration) : Call instant :=
  match ts with
  | Some ts =>
      match ts_to_utc ts with
      | inl t => answer t
      | inr e => fail (InvalidArgument ("Invalid " +:+ name +:+ ": " +:+ e))
      end
  | None => fun k => let '(n, k) := utc_now utc k in (inl (n - ago), k)
  end.

Definition query_of (r : SystemMetricsRequest) : Call MetricsQuery :=
  if 0 <? req_limit r then answer (ByLimit (req_pid r) (req_limit r))
  else
    let! start := bound_time "start_time" (req_start_time r) (minutes 5) in
    let! end_ := bound_time "end_time" (req_end_time r) 0 in
    answer (ByRange (req_pid r) start end_).

Definition suffix (retry : bool) : string := if retry then " (retry)" else "".

Definition ask (send : bool -> MetricsQuery -> Awaited (list SystemMetrics + string))
    (retry : bool) (r : SystemMetricsRequest) : Call (list SystemMetrics) :=
  let! q := query_of r in
  match send retry q with
  | NotSent => fail (Internal ("Failed to send query to tracker thread" +:+ suffix retry))
  | TimedOut => fail (DeadlineExceeded ("Timed out waiting for tracker reply" +:+ suffix retry))
  | Dropped => fail (Internal ("Tracker query channel closed" +:+ suffix retry))
  | Answered (inr e) => fail (Internal ("Tracker query error" +:+ suffix retry +:+ ": " +:+ e))
  | Answered (inl rows) => answer rows
  end.

Definition to_metric (m : SystemMetrics) : SystemMetric :=
  {| pm_timestamp := Some (utc_to_ts (m_timestamp m)); pm_cpu_percent := cpu_percent m;
     pm_memory_bytes := memory_bytes m; pm_disk_io_bytes := disk_io_bytes m |}.

Definition reply_of (metrics : list SystemMetrics) : SystemMetricsReply :=
  {| reply_metrics := map to_metric metrics; total_count := uw 32 (Z.of_nat (length metrics)) |}.

Definition get_system_metrics (c : Channels) (r : SystemMetricsRequest) : Call SystemMetricsReply :=
  if negb (db_path_set c) then fail (Unavailable "System tracker not configured")
  else match control_tx c with
  | None => fail (Unavailable "System tracker control channel not configured")
  | Some NotSent => fail (Internal "Failed to request tracker flush")
  | Some TimedOut => fail (DeadlineExceeded "Timed out waiting for tracker flush")
  | Some Dropped => fail (Internal "Tracker flush acknowledgement dropped")
  | Some (Answered _) =>
      match query_tx c with
      | None => fail (Unavailable "System tracker not configured (query tx)")
      | Some send =>
          let! metrics := ask send false r in
          let! metrics := match metrics with
            | [] => ask send true r
            | _ => answer metrics
            end in
          answer (reply_of metrics)
      end
  end.

(** ** What a reply shows *)

(** The query the request stands for; its open ends are near the clock's readings. *)
Definition asks_for (r : SystemMetricsRequest) (q : MetricsQuery) : Prop :=
  match q with
  | ByLimit p n => 0 < req_limit r /\ p = req_pid r /\ n = req_limit r
  | ByRange p a b =>
      req_limit r <= 0 /\ p = req_pid r /\
      match req_start_time r with
      | Some ts => ts_to_utc ts = inl a
      | None => exists k, a = utc k - minutes 5
      end /\
      match req_end_time r with Some ts => ts_to_utc ts = inl b | None => exists k, b = utc k end
  end.

Lemma bound_time_ok name ts ago k k' t :
  bound_time name ts ago k = (inl t, k') ->
  match ts with Some ts => ts_to_utc ts = inl t | None => exists k, t = utc k - ago end.
Proof.
  unfold bound_time. destruct ts as [ts|]; cbn.
  - destruct (ts_to_utc ts); cbn; [by intros [= -> _]|done].
  - intros [= <- _]. by exists k.
Qed.

Lemma query_of_ok r k k' q : query_of r k = (inl q, k') -> asks_for r q.
Proof.
  unfold query_of, bind_call. destruct (Z.ltb_spec 0 (req_limit r)).
  - intros [= <- _]. by cbn.
  - cbn. destruct (bound_time "start_time" _ _ k) as [[a|s] k1] eqn:Ea; cbn; [|done].
    destruct (bound_time "end_time" _ _ k1) as [[b|s] k2] eqn:Eb; cbn; [|done].
    intros [= <- _]. apply bound_time_ok in Ea, Eb. cbn. split_and!; [lia|done|done|].
    destruct (req_end_time r); [done|]. destruct Eb as [j ->]. exists j. lia.
Qed.

Lemma ask_ok send retry r k k' rows :
  ask send retry r k = (inl rows, k') ->
  exists q, asks_for r q /\ send retry q = Answered (inl rows).
Proof.
  unfold ask, bind_call. cbn. destruct (query_of r k) as [[q|s] k1] eqn:Eq; cbn; [|done].
  apply query_of_ok in Eq. destruct (send retry q) as [| | |[out|e]] eqn:Es; try done.
  intros [= <- _]. eauto.
Qed.

(** A reply carries what the tracker answered to the query that the request stands
    for, sample by sample and in its order, with their number; and it is empty only if
    the tracker answered twice that there is nothing. *)
Theorem metrics_reply c r k k' reply :
  get_system_metrics c r k = (inl reply, k') ->
  exists send retry q rows, query_tx c = Some send /\ control_tx c = Some (Answered ()) /\
    asks_for r q /\ send retry q = Answered (inl rows) /\
    reply_metrics reply = map to_metric rows /\
    total_count reply = uw 32 (Z.of_nat (length rows)) /\
    (rows = [] -> retry = true /\ exists q', asks_for r q' /\ send false q' = Answered (inl [])).
Proof.
  unfold get_system_metrics. destruct (db_path_set c); [|done].
  destruct (control_tx c) as [[| | |[]]|] eqn:Ec; try done.
  destruct (query_tx c) as [send|] eqn:Eq; [|done]. unfold bind_call. cbn.
  destruct (ask send false r k) as [[rows|s] k1] eqn:E1; cbn; [|done].
  apply ask_ok in E1 as (q&Hq&Hs). destruct rows as [|m rows].
  - destruct (ask send true r k1) as [[rows|s] k2] eqn:E2; cbn; [|done]. intros [= <- _].
    apply ask_ok in E2 as (q'&Hq'&Hs'). exists send, true, q', rows. split_and!; eauto.
  - intros [= <- _]. exists send, false, q, (m :: rows). by split_and!.
Qed.

(** A request with a time that is none is refused, but only once the tracker has been
    flushed; with a limit its times are not looked at. *)
Theorem bad_time_refused c r ts k send :
  db_path_set c = true -> control_tx c = Some (Answered ()) -> query_tx c = Some send ->
  req_start_time r = Some ts -> ts_to_utc ts = inr "nanos out of range" -> req_limit r = 0 ->
  get_system_metrics c r k = (inr (InvalidArgument "Invalid start_time: nanos out of range"), k).
Proof.
  intros Hd Hc Hs Ht Hbad Hl. unfold get_system_metrics. rewrite Hd, Hc, Hs. cbn.
  unfold bind_call, ask, bind_call, query_of. rewrite Hl. cbn. unfold bind_call, bound_time.
  rewrite Ht, Hbad. done.
Qed.
End api.

(** ** Witnesses *)
Section examples.
#[local] Existing Instances chrono_ref chrono_parts_ref.
Definition demo_channels (rows : bool -> list SystemMetrics) : Channels :=
  {| db_path_set := true; control_tx := Some (Answered ());
     query_tx := Some (fun retry _ => Answered (inl (rows retry))) |}.
Definition demo_row : SystemMetrics :=
  {| m_timestamp := 1500000000; cpu_percent := 1; memory_bytes := 2; disk_io_bytes := 3 |}.

Definition demo_request (limit : Z) (start : option Timestamp) : SystemMetricsRequest :=
  {| req_pid := 7; req_start_time := start; req_end_time := None; req_limit := limit |}.

Lemma metrics_reply_witness :
  exists reply (send : bool -> MetricsQuery -> Awaited (list SystemMetrics + string)) retry q rows,
  get_system_metrics Z.of_nat
    (demo_channels (fun retry => if retry then [demo_row] else [])) (demo_request 0 None) 0%nat
    = (inl reply, 4%nat) /\ total_count reply = 1 /\
  asks_for Z.of_nat (demo_request 0 None) q /\ send retry q = Answered (inl rows) /\
  reply_metrics reply = map to_metric rows.
Proof.
  eexists. edestruct (metrics_reply Z.of_nat (demo_channels (fun retry => if retry then [demo_row] else []))
    (demo_request 0 None) 0%nat 4%nat) as (send&retry&q&rows&_&_&Hq&Hs&Hm&_&_); [reflexivity|].
  exists send, retry, q, rows. by split_and!.
Defined.

Lemma bad_time_refused_witness :
  get_system_metrics Z.of_nat (demo_channels (fun _ => [demo_row]))
    (demo_request 0 (Some {| seconds := 1; nanos := -1 |})) 0%nat
  = (inr (InvalidArgument "Invalid start_time: nanos out of range"), 0%nat).
Proof. by eapply (bad_time_refused Z.of_nat). Defined.
End examples.
