(* ===== verification/TrackerTable.v ===== *)
(** The table of the tracker's samples, [show_tracker_data_grpc] of src/bin/kronictl.rs: what
    the client asks the server for and what it prints of the reply.  The command line does
    not reach it while the tracker is disabled. *)
From S2P Require Import Prelude Decimal LogCli LogList Wire SystemMetrics SystemTracker MetricsApi.

(** [{:<w}] *)
Definition pad_right (w : nat) (s : string) : string :=
  s +:+ String.concat "" (replicate (w - String.length s) " ").

(** Times in RFC 3339 with microseconds and as [to_rfc3339] prints them, and a number with
    one digit after the point. *)
Class TableText := {
  rfc3339_micros : instant -> string;
  rfc3339_now : instant -> string;
  one_digit : Z -> string
}.

Section table.
Context `{HP : ChronoParts} `{HT : TableText}.

Definition table_header : list string :=
  [pad_right 32 "Timestamp (RFC3339)" +:+ " " +:+ pad_left 8 "CPU %" +:+ " " +:+
     pad_left 12 "Memory KB" +:+ " " +:+ pad_left 12 "Disk IO KB";
   String.concat "" (replicate 68 "-")].

Definition metric_row (time_part : string) (metric : SystemMetric) : string :=
  let memory_kb := pm_memory_bytes metric `div` 1024 in
  let disk_io_kb := pm_disk_io_bytes metric `div` 1024 in
  pad_right 32 time_part +:+ " " +:+ pad_left 8 (one_digit (pm_cpu_percent metric)) +:+ " " +:+
    pad_left 12 (show memory_kb) +:+ " " +:+ pad_left 12 (show disk_io_kb).

(** A time that is none ends the table with an error; the rows before it are printed. *)
Fixpoint metric_rows (l : list SystemMetric) : Printed :=
  match l with
  | [] => ([], inl ())
  | metric :: l =>
      let row time_part := let '(rows, r) := metric_rows l in (metric_row time_part metric :: rows, r) in
      match pm_timestamp metric with
      | Some ts =>
          match ts_opt (Some ts) with
          | Some dt => row (rfc3339_micros dt)
          | None => ([], inr "Invalid timestamp range")
          end
      | None => row "unknown"
      end
  end.

(** The time of the first or the last sample: unknown when it is none. *)
Definition time_or_unknown (metric : SystemMetric) : string :=
  from_option rfc3339_micros "unknown" (ts_opt (pm_timestamp metric)).

Definition table_footer (metrics : list SystemMetric) (pid_to_query : Z) (now : instant) : list string :=
  match head metrics, last metrics with
  | Some first_, Some last_ =>
      ["";
       "Showing " +:+ show (Z.of_nat (length metrics)) +:+ " entries from " +:+ time_or_unknown first_
         +:+ " to " +:+ time_or_unknown last_;
       "Source: PID=" +:+ show pid_to_query] ++
      match ts_opt (pm_timestamp last_) with
      | Some last_dt =>
          ["Debug: last_ts_age=" +:+ show (num_seconds (now - last_dt)) +:+ "s (now=" +:+
             rfc3339_now now +:+ ")"]
      | None => []
      end
  | _, _ => []
  end.

(** The latest rows of the daemon's process, ten unless a number is asked for; [limit] is
    32 bits wide. *)
Definition table_request (count : option Z) (daemon_pid : Z) : SystemMetricsRequest := {|
  req_pid := daemon_pid; req_start_time := None; req_end_time := None;
  req_limit := uw 32 (default 10 count) |}.

Definition show_tracker_data_grpc (uds_grpc : string) (connected : Outcome unit)
    (ask : SystemMetricsRequest -> Outcome SystemMetricsReply) (count : option Z) (daemon_pid : Z)
    (now : instant) : Printed :=
  match connected with
  | inr e => ([], inr e)
  | inl _ =>
      let debug := "Debug: UDS=" +:+ uds_grpc +:+ " PID=" +:+ show daemon_pid +:+ " limit="
        +:+ show (default 10 count) +:+ " (server flush-before-query)" in
      match ask (table_request count daemon_pid) with
      | inr e => ([debug], inr e)
      | inl response =>
          match reply_metrics response with
          | [] => ([debug; "No tracker data found for current daemon run"], inl ())
          | metrics =>
              let '(rows, r) := metric_rows metrics in
              (debug :: table_header ++ rows ++
                 match r with inl _ => table_footer metrics daemon_pid now | inr _ => [] end, r)
          end
      end
  end.

(** ** What the table shows *)
Context `{!ChronoPartsLaws}.

Definition sample_row (m : SystemMetrics) : string :=
  metric_row (rfc3339_micros (m_timestamp m)) (to_metric m).

Lemma metric_rows_of rows : metric_rows (map to_metric rows) = (map sample_row rows, inl ()).
Proof.
  induction rows as [|m rows IH]; [done|]. cbn [map metric_rows pm_timestamp to_metric].
  by rewrite ts_opt_utc, IH.
Qed.

(** Of a reply of the server's the table shows every sample, in the order of the reply, with
    its own time, between the heading and the lines that name the first and the last. *)
Theorem table_shows_reply uds_grpc ask count daemon_pid now m rows :
  ask (table_request count daemon_pid) = inl (reply_of (m :: rows)) ->
  let l := last (m :: rows) in
  exists before after,
    show_tracker_data_grpc uds_grpc (inl ()) ask count daemon_pid now
      = (before ++ map sample_row (m :: rows) ++ after, inl ()) /\
    length before = 3%nat /\
    after !! 1%nat = (fun z => "Showing " +:+ show (Z.of_nat (length (m :: rows))) +:+ " entries from "
       +:+ rfc3339_micros (m_timestamp m) +:+ " to " +:+ rfc3339_micros (m_timestamp z)) <$> l.
Proof.
  intros Hask l. unfold show_tracker_data_grpc. rewrite Hask. unfold reply_of. cbn [reply_metrics].
  change (map to_metric (m :: rows)) with (to_metric m :: map to_metric rows). cbv iota beta.
  change (to_metric m :: map to_metric rows) with (map to_metric (m :: rows)).
  rewrite metric_rows_of. eexists (_ :: table_header), _. split; [reflexivity|]. split; [done|].
  unfold table_footer. cbn [map head].
  change (to_metric m :: map to_metric rows) with (to_metric <$> (m :: rows)).
  rewrite fmap_last. subst l.
  destruct (last_is_Some (m :: rows)) as [_ [z Hz]]; [done|]. rewrite Hz.
  cbn [fmap option_fmap option_map]. unfold time_or_unknown. cbn [pm_timestamp to_metric].
  rewrite !ts_opt_utc, length_fmap. reflexivity.
Qed.
End table.

(** ** A table *)
Section examples.
#[local] Existing Instances chrono_ref chrono_parts_ref chrono_parts_ref_laws.
#[local] Instance demo_table_text : TableText := {|
  rfc3339_micros t := show t; rfc3339_now t := show t; one_digit z := show z |}.

Lemma table_shows_reply_witness :
  exists before after,
    show_tracker_data_grpc "api.grpc" (inl ()) (fun _ => inl (reply_of [demo_row])) None 7 1500000000
      = (before ++ [sample_row demo_row] ++ after, inl ()) /\
    after !! 1%nat = Some "Showing 1 entries from 1500000000 to 1500000000".
Proof.
  destruct (table_shows_reply "api.grpc" (fun _ => inl (reply_of [demo_row])) None 7 1500000000 demo_row []
    eq_refl) as (before&after&Hs&_&Ha).
  exists before, after. split; [exact Hs|]. rewrite Ha. by vm_compute.
Defined.
End examples.
