(* ===== verification/RunId.v ===== *)
(** Run ids (src/util/run_id.rs): sixteen bytes in base64, written in one alphabet and
    read in three, with or without padding.

    The base64 crate is a parameter, with the documented behaviour of its engines as
    laws. *)
From Stdlib Require Import Ascii.
From S2P Require Import Prelude Decimal.

Notation bytes := (list Z).

(** ** Engines *)
Inductive Alphabet := Standard | UrlSafe | Legacy.

(** How an engine that reads treats padding: it wants it to the full, or wants none. *)
Inductive PaddingMode := RequireCanonical | RequireNone.

(** [encode] with an alphabet, padded or not; [decode] with an alphabet and a mode. *)
Class Base64 := {
  encode : Alphabet -> bool -> bytes -> string;
  decode : Alphabet -> PaddingMode -> string -> option bytes
}.

(** The last two characters of an alphabet. *)
Definition digit_62 (a : Alphabet) : ascii :=
  match a with Standard => "+" | UrlSafe => "-" | Legacy => "." end.
Definition digit_63 (a : Alphabet) : ascii :=
  match a with Standard => "/" | UrlSafe => "_" | Legacy => "_" end.

(** A text of the standard alphabet written in another. *)
Definition translate_char (a : Alphabet) (c : ascii) : ascii :=
  if Ascii.eqb c "+" then digit_62 a else if Ascii.eqb c "/" then digit_63 a else c.
Fixpoint translate (a : Alphabet) (s : string) : string :=
  match s with EmptyString => "" | String c s' => String (translate_char a c) (translate a s') end.

Fixpoint equals_signs (n : nat) : string :=
  match n with O => "" | S n => String "=" (equals_signs n) end.

(** Letters, digits, plus and slash. *)
Definition standard_char (c : ascii) : bool :=
  let n := N_of_ascii c in
  is_digit c || ((65 <=? n)%N && (n <=? 90)%N) || ((97 <=? n)%N && (n <=? 122)%N)
    || Ascii.eqb c "+" || Ascii.eqb c "/".

Definition bytes_ok (b : bytes) : Prop := Forall (fun z => 0 <= z < 256) b.

(** RFC 4648: the alphabets differ in two characters, a text is padded to groups of four,
    and an engine reads exactly what it would write. *)
Class Base64Laws `{Base64} : Prop := {
  encode_chars b : bytes_ok b -> string_all standard_char (encode Standard false b) = true;
  encode_alphabet a b : encode a false b = translate a (encode Standard false b);
  encode_length b : length b = 16%nat -> String.length (encode Standard false b) = 22%nat;
  encode_padded a b : exists n, encode a true b = encode a false b +:+ equals_signs n /\
    (n <= 2)%nat /\ (String.length (encode a true b) mod 4 = 0)%nat;
  encode_inj b b' : bytes_ok b -> bytes_ok b' ->
    encode Standard false b = encode Standard false b' -> b = b';
  decode_canonical a s b :
    decode a RequireCanonical s = Some b <-> bytes_ok b /\ s = encode a true b;
  decode_none a s b : decode a RequireNone s = Some b <-> bytes_ok b /\ s = encode a false b
}.

Section run_id.
Context `{Base64}.

Definition RUN_ID_LEN_BYTES : nat := 16.

(** The engines: those built with [GeneralPurposeConfig::new] want canonical padding when
    they read, whether or not they write it. *)
Definition RUN_ID_ENGINE_encode : bytes -> string := encode Standard false.
Definition RUN_ID_ENGINE : string -> option bytes := decode Standard RequireCanonical.
Definition RUN_ID_LEGACY_ENGINE : string -> option bytes := decode Legacy RequireCanonical.
Definition RUN_ID_LEGACY_ENGINE_PADDED : string -> option bytes := decode Legacy RequireCanonical.
Definition STANDARD : string -> option bytes := decode Standard RequireCanonical.
Definition STANDARD_NO_PAD : string -> option bytes := decode Standard RequireNone.
Definition URL_SAFE : string -> option bytes := decode UrlSafe RequireCanonical.
Definition URL_SAFE_NO_PAD : string -> option bytes := decode UrlSafe RequireNone.

(** The first engine that reads the text. *)
Fixpoint first_decoded (engines : list (string -> option bytes)) (s : string) : option bytes :=
  match engines with
  | [] => None
  | e :: engines => match e s with Some b => Some b | None => first_decoded engines s end
  end.

Definition pad (input : string) : string :=
  let rem := (String.length input mod 4)%nat in
  if (rem =? 0)%nat then input else input +:+ equals_signs (4 - rem).

Definition decode_run_id (input : string) : bytes + string :=
  match first_decoded [RUN_ID_ENGINE; RUN_ID_LEGACY_ENGINE; STANDARD_NO_PAD; URL_SAFE_NO_PAD;
      RUN_ID_LEGACY_ENGINE_PADDED; STANDARD; URL_SAFE] input with
  | Some b => inl b
  | None =>
      match first_decoded [RUN_ID_LEGACY_ENGINE_PADDED; STANDARD; URL_SAFE] (pad input) with
      | Some b => inl b
      | None => inr ("invalid base64 run id '" +:+ input +:+ "'")
      end
  end.

Definition encode_uuid (uuid : bytes) : string := RUN_ID_ENGINE_encode uuid.

Definition parse_run_id (input : string) : string + string :=
  match decode_run_id input with
  | inr e => inr ("invalid base64 run id '" +:+ input +:+ "'")
  | inl decoded =>
      if (length decoded =? RUN_ID_LEN_BYTES)%nat then inl (RUN_ID_ENGINE_encode decoded)
      else inr ("invalid run id length: expected " +:+ show (Z.of_nat RUN_ID_LEN_BYTES)
        +:+ " bytes, got " +:+ show (Z.of_nat (length decoded)))
  end.
End run_id.

(** ** Texts in an alphabet *)
Definition not_equals (c : ascii) : bool := negb (Ascii.eqb c "=").

Lemma translate_length a s : String.length (translate a s) = String.length s.
Proof. induction s as [|c s IH]; [done|]. cbn. by rewrite IH. Qed.

Lemma translate_char_plain a c : standard_char c = true -> not_equals (translate_char a c) = true.
Proof.
  intros Hc. unfold translate_char.
  destruct (Ascii.eqb_spec c "+"); [by destruct a|]. destruct (Ascii.eqb_spec c "/"); [by destruct a|].
  unfold not_equals. destruct (Ascii.eqb_spec c "="); by subst.
Qed.

Lemma translate_plain a s :
  string_all standard_char s = true -> string_all not_equals (translate a s) = true.
Proof.
  induction s as [|c s IH]; cbn; [done|]. intros [Hc Hs]%andb_true_iff.
  by rewrite translate_char_plain, IH.
Qed.

(** A character stands for the same digit in every alphabet that has it. *)
Lemma translate_char_inj a a' c c' :
  standard_char c = true -> standard_char c' = true -> translate_char a c = translate_char a' c' -> c = c'.
Proof.
  intros Hc Hc'. unfold translate_char.
  destruct (Ascii.eqb_spec c "+"), (Ascii.eqb_spec c "/"), (Ascii.eqb_spec c' "+"), (Ascii.eqb_spec c' "/");
    subst; try done; destruct a, a'; cbn; intros He; subst; done.
Qed.

Lemma translate_inj a a' s s' :
  string_all standard_char s = true -> string_all standard_char s' = true ->
  translate a s = translate a' s' -> s = s'.
Proof.
  revert s'. induction s as [|c s IH]; intros [|c' s']; cbn; try done.
  intros [Hc Hs]%andb_true_iff [Hc' Hs']%andb_true_iff [= He1 He2].
  f_equal; [by eapply translate_char_inj|by apply IH].
Qed.

(** Padding comes off in one way. *)
Lemma plain_padding s s' k k' :
  string_all not_equals s = true -> string_all not_equals s' = true ->
  s +:+ equals_signs k = s' +:+ equals_signs k' -> s = s' /\ k = k'.
Proof.
  assert (forall k k', equals_signs k = equals_signs k' -> k = k') as Heq.
  { induction k0 as [|k0 IH]; intros [|k0']; cbn; try done. intros [= He]. by rewrite (IH k0'). }
  revert s'. induction s as [|c s IH]; intros [|c' s']; cbn [string_all].
  - intros _ _ He. split; [done|]. by apply Heq.
  - intros _ [Hc' _]%andb_true_iff He. change ("" +:+ equals_signs k) with (equals_signs k) in He.
    change (String c' s' +:+ equals_signs k') with (String c' (s' +:+ equals_signs k')) in He.
    destruct k; [done|]. cbn in He. injection He as <-. done.
  - intros [Hc _]%andb_true_iff _ He. change ("" +:+ equals_signs k') with (equals_signs k') in He.
    change (String c s +:+ equals_signs k) with (String c (s +:+ equals_signs k)) in He.
    destruct k'; [done|]. cbn in He. injection He as ->. done.
  - intros [_ Hs]%andb_true_iff [_ Hs']%andb_true_iff He.
    change (String c s +:+ equals_signs k) with (String c (s +:+ equals_signs k)) in He.
    change (String c' s' +:+ equals_signs k') with (String c' (s' +:+ equals_signs k')) in He.
    injection He as -> He. by destruct (IH s' Hs Hs' He) as [-> ->].
Qed.

Lemma equals_app k j : equals_signs k +:+ equals_signs j = equals_signs (k + j).
Proof. induction k as [|k IH]; [done|]. cbn. change (String "=" (equals_signs k +:+ equals_signs j) = String "=" (equals_signs (k + j))). by rewrite IH. Qed.

Lemma strip_padding s t m n :
  string_all not_equals t = true -> s +:+ equals_signs m = t +:+ equals_signs n ->
  exists k, n = (k + m)%nat /\ s = t +:+ equals_signs k.
Proof.
  revert t n. induction s as [|c s IH]; intros [|c' t] n Ht He.
  - exists 0%nat. destruct (plain_padding "" "" m n eq_refl eq_refl He) as [_ ->]. done.
  - destruct (plain_padding "" (String c' t) m n eq_refl Ht He) as [Hf _]. done.
  - change (String c (s +:+ equals_signs m) = equals_signs n) in He. destruct n as [|n]; [done|].
    cbn in He. injection He as -> He. destruct (IH "" n eq_refl He) as (k&->&->). by exists (S k).
  - change (String c (s +:+ equals_signs m) = String c' (t +:+ equals_signs n)) in He.
    injection He as -> He. cbn in Ht. apply andb_true_iff in Ht as [_ Ht].
    destruct (IH t n Ht He) as (k&->&->). by exists k.
Qed.

Lemma append_length s t : String.length (s +:+ t) = (String.length s + String.length t)%nat.
Proof. induction s as [|c s IH]; [done|]. change (S (String.length (s +:+ t)) = S (String.length s + String.length t)). by rewrite IH. Qed.
Lemma equals_length n : String.length (equals_signs n) = n.
Proof. induction n as [|n IH]; [done|]. cbn. by rewrite IH. Qed.
Lemma run_text_append_assoc s t u : (s +:+ t) +:+ u = s +:+ (t +:+ u).
Proof. induction s as [|c s IH]; [done|]. change (String c ((s +:+ t) +:+ u) = String c (s +:+ (t +:+ u))). by rewrite IH. Qed.
Lemma append_nil s : s +:+ "" = s.
Proof. induction s as [|c s IH]; [done|]. change (String c (s +:+ "") = String c s). by rewrite IH. Qed.

Section parsing.
Context `{Base64Laws}.

(** A text for sixteen bytes: in an alphabet, with up to two equals signs. *)
Definition run_id_text (b : bytes) (s : string) : Prop :=
  exists a k, (k <= 2)%nat /\ s = encode a false b +:+ equals_signs k.

Lemma encode_plain a b : bytes_ok b -> string_all not_equals (encode a false b) = true.
Proof. intros Hb. rewrite encode_alphabet. by apply translate_plain, encode_chars. Qed.

Lemma run_id_text_inj b b' s :
  bytes_ok b -> bytes_ok b' -> run_id_text b s -> run_id_text b' s -> b = b'.
Proof.
  intros Hb Hb' (a&k&_&->) (a'&k'&_&He). apply plain_padding in He as [He _]; [|by apply encode_plain..].
  rewrite (encode_alphabet a), (encode_alphabet a') in He.
  apply translate_inj in He; [|by apply encode_chars..]. by apply encode_inj.
Qed.

Lemma canonical_text a s b :
  decode a RequireCanonical s = Some b -> bytes_ok b /\ run_id_text b s.
Proof.
  intros [Hb ->]%decode_canonical. split; [done|]. destruct (encode_padded a b) as (n&->&Hn&_).
  by exists a, n.
Qed.

Lemma padded_text a s b :
  decode a RequireCanonical (pad s) = Some b -> bytes_ok b /\ run_id_text b s.
Proof.
  intros Hd. unfold pad in Hd. destruct (_ =? 0)%nat; [by eapply canonical_text|].
  apply decode_canonical in Hd as [Hb He]. split; [done|].
  destruct (encode_padded a b) as (n&Hn&Hle&_). rewrite Hn in He.
  apply strip_padding in He as (k&->&->); [|by apply encode_plain]. exists a, k. split; [lia|done].
Qed.

Lemma first_decoded_in engines s b :
  first_decoded engines s = Some b -> Exists (fun e => e s = Some b) engines.
Proof.
  induction engines as [|e engines IH]; cbn; [done|].
  destruct (e s) as [b'|] eqn:E; [intros [= ->]; by left|intros Hf; right; by apply IH].
Qed.

Lemma decode_run_id_sound s b : decode_run_id s = inl b -> bytes_ok b /\ run_id_text b s.
Proof.
  unfold decode_run_id. destruct (first_decoded _ s) as [b1|] eqn:E1.
  - intros [= ->]. apply first_decoded_in in E1. rewrite Exists_exists in E1. destruct E1 as (e&He&Hs).
    assert ((exists a, decode a RequireCanonical s = Some b) \/ (exists a, decode a RequireNone s = Some b))
      as [[a Hd]|[a Hd]].
    { repeat (apply elem_of_cons in He as [->|He]; [unfold RUN_ID_ENGINE, RUN_ID_LEGACY_ENGINE,
        STANDARD_NO_PAD, URL_SAFE_NO_PAD, RUN_ID_LEGACY_ENGINE_PADDED, STANDARD, URL_SAFE in Hs; eauto|]).
      by apply not_elem_of_nil in He. }
    + by eapply canonical_text.
    + apply decode_none in Hd as [Hb ->]. split; [done|]. exists a, 0%nat. split; [lia|]. by rewrite append_nil.
  - destruct (first_decoded _ (pad s)) as [b2|] eqn:E2; [|done]. intros [= ->].
    apply first_decoded_in in E2. rewrite Exists_exists in E2. destruct E2 as (e&He&Hs).
    repeat (apply elem_of_cons in He as [->|He]; [unfold RUN_ID_LEGACY_ENGINE_PADDED, STANDARD, URL_SAFE in Hs;
      by eapply padded_text|]).
    by apply not_elem_of_nil in He.
Qed.

Lemma pad_text a b k :
  length b = 16%nat -> (k <= 2)%nat -> pad (encode a false b +:+ equals_signs k) = encode a true b.
Proof.
  intros Hb Hk. assert (String.length (encode a false b) = 22%nat) as Hl.
  { rewrite encode_alphabet, translate_length. by apply encode_length. }
  destruct (encode_padded a b) as (n&Hn&Hle&Hmod). rewrite Hn in *. rewrite append_length, Hl, equals_length in Hmod.
  assert (n = 2%nat) as -> by (destruct n as [|[|[|]]]; cbn in Hmod; lia).
  unfold pad. rewrite append_length, Hl, equals_length.
  destruct k as [|[|[|k]]]; [| | |lia]; cbn [Nat.add Nat.modulo Nat.divmod Nat.eqb snd Nat.sub].
  - cbn. by rewrite append_nil.
  - cbn. by rewrite run_text_append_assoc.
  - done.
Qed.

Lemma decode_run_id_complete s b :
  bytes_ok b -> length b = 16%nat -> run_id_text b s -> decode_run_id s = inl b.
Proof.
  intros Hb Hlen Ht. assert (exists b', decode_run_id s = inl b') as [b' Hd].
  { destruct Ht as (a&k&Hk&->). unfold decode_run_id. destruct (first_decoded _ _) as [b1|]; [by eexists|].
    rewrite pad_text by done.
    assert (decode a RequireCanonical (encode a true b) = Some b) as Hd by by apply decode_canonical.
    cbn [first_decoded]. unfold RUN_ID_LEGACY_ENGINE_PADDED, STANDARD, URL_SAFE.
    destruct a; rewrite Hd;
      [destruct (decode Legacy RequireCanonical _)
      |destruct (decode Legacy RequireCanonical _); [|destruct (decode Standard RequireCanonical _)]|];
      eexists; reflexivity. }
  rewrite Hd. f_equal. apply decode_run_id_sound in Hd as [Hb' Ht']. by eapply run_id_text_inj.
Qed.

Lemma parse_run_id_iff s t :
  parse_run_id s = inl t <->
  exists b, bytes_ok b /\ length b = 16%nat /\ run_id_text b s /\ t = encode Standard false b.
Proof.
  unfold parse_run_id. split.
  - destruct (decode_run_id s) as [b|] eqn:E; [|done].
    destruct (Nat.eqb_spec (length b) RUN_ID_LEN_BYTES) as [Hl|]; [|done]. intros [= <-].
    apply decode_run_id_sound in E as [Hb Ht]. by exists b.
  - intros (b&Hb&Hl&Ht&->). rewrite (decode_run_id_complete s b) by done.
    by rewrite (proj2 (Nat.eqb_eq _ _)).
Qed.

(** A text is accepted as a run id exactly if it writes sixteen bytes in one of the
    three alphabets, with no, one or two equals signs, whichever engine reads it first;
    what comes out is the one text of these bytes that the program writes itself. *)
Theorem parse_run_id_reads s t :
  parse_run_id s = inl t <->
  exists b, bytes_ok b /\ length b = 16%nat /\ run_id_text b s /\ t = encode Standard false b.
Proof. apply parse_run_id_iff. Qed.

(** A run id that the program made, or has read before, is read as itself. *)
Theorem run_id_roundtrip uuid s t :
  bytes_ok uuid -> length uuid = 16%nat ->
  parse_run_id (encode_uuid uuid) = inl (encode_uuid uuid) /\
  (parse_run_id s = inl t -> parse_run_id t = inl t).
Proof.
  intros Hu Hl. assert (forall b, run_id_text b (encode Standard false b)) as Hself.
  { intros b. exists Standard, 0%nat. split; [lia|]. by rewrite append_nil. }
  split; [apply parse_run_id_iff; by exists uuid|].
  intros (b&Hb&Hlb&_&->)%parse_run_id_iff. apply parse_run_id_iff. by exists b.
Qed.
End parsing.

(** ** Base64 of RFC 4648 *)
Module Rfc4648.

(** Three bytes are four digits; two are three, and one is two. *)
Fixpoint sextets (b : bytes) : list Z :=
  match b with
  | [] => []
  | [x] => [x / 4; (x mod 4) * 16]
  | [x; y] => [x / 4; (x mod 4) * 16 + y / 16; (y mod 16) * 4]
  | x :: y :: z :: b =>
      x / 4 :: (x mod 4) * 16 + y / 16 :: (y mod 16) * 4 + z / 64 :: z mod 64 :: sextets b
  end.
Fixpoint octets (l : list Z) : bytes :=
  match l with
  | [] | [_] => []
  | [a; b] => [a * 4 + b / 16]
  | [a; b; c] => [a * 4 + b / 16; (b mod 16) * 16 + c / 4]
  | a :: b :: c :: d :: l => a * 4 + b / 16 :: (b mod 16) * 16 + c / 4 :: (c mod 4) * 64 + d :: octets l
  end.

Definition sextet_char (z : Z) : ascii :=
  ascii_of_N (Z.to_N (if z <? 26 then 65 + z else if z <? 52 then 71 + z
    else if z <? 62 then z - 4 else if z =? 62 then 43 else 47)).
Definition char_sextet (c : ascii) : Z :=
  let n := Z.of_N (N_of_ascii c) in
  if n =? 43 then 62 else if n =? 47 then 63 else if n <? 58 then n + 4
  else if n <? 91 then n - 65 else n - 71.

Fixpoint text (l : list Z) : string :=
  match l with [] => "" | z :: l => String (sextet_char z) (text l) end.
Fixpoint digits (s : string) : list Z :=
  match s with EmptyString => [] | String c s => char_sextet c :: digits s end.

Definition untranslate_char (a : Alphabet) (c : ascii) : ascii :=
  if Ascii.eqb c (digit_62 a) then "+" else if Ascii.eqb c (digit_63 a) then "/" else c.
(** Without the padding, in the standard alphabet. *)
Fixpoint plain (a : Alphabet) (s : string) : string :=
  match s with
  | EmptyString => ""
  | String c s => if Ascii.eqb c "=" then plain a s else String (untranslate_char a c) (plain a s)
  end.

Definition padding (b : bytes) : nat := ((4 - length (sextets b) mod 4) mod 4)%nat.
Definition encode (a : Alphabet) (padded : bool) (b : bytes) : string :=
  translate a (text (sextets b)) +:+ (if padded then equals_signs (padding b) else "").
Definition is_byte (z : Z) : bool := (0 <=? z) && (z <? 256).
Definition decode (a : Alphabet) (m : PaddingMode) (s : string) : option bytes :=
  let b := octets (digits (plain a s)) in
  let padded := match m with RequireCanonical => true | RequireNone => false end in
  if forallb is_byte b && bool_decide (s = encode a padded b) then Some b else None.

Definition base64 : Base64 := {| RunId.encode := encode; RunId.decode := decode |}.

Lemma bytes_ind (P : bytes -> Prop) :
  P [] -> (forall x, P [x]) -> (forall x y, P [x; y]) ->
  (forall x y z b, P b -> P (x :: y :: z :: b)) -> forall b, P b.
Proof.
  intros H0 H1 H2 H3 b. assert (P b /\ (forall x, P (x :: b)) /\ (forall x y, P (x :: y :: b))) as [Hb _]; [|done].
  induction b as [|x b (IH1&IH2&IH3)]; [done|]. split_and!; [done|done|]. intros y z. by apply H3.
Qed.

Ltac digit_eqs := repeat match goal with |- _ :: _ = _ :: _ => f_equal end;
  try (Z.div_mod_to_equations; lia).

Lemma octets_sextets b : bytes_ok b -> octets (sextets b) = b.
Proof.
  intros Hb. induction b as [|x|x y|x y z b IH] using bytes_ind; cbn [sextets octets]; [done|..];
    apply Forall_cons in Hb as [Hx Hb].
  - digit_eqs.
  - apply Forall_cons in Hb as [Hy _]. digit_eqs.
  - apply Forall_cons in Hb as [Hy Hb]. apply Forall_cons in Hb as [Hz Hb]. rewrite IH by done. digit_eqs.
Qed.

Lemma sextets_bound b : bytes_ok b -> Forall (fun z => 0 <= z < 64) (sextets b).
Proof.
  intros Hb. induction b as [|x|x y|x y z b IH] using bytes_ind; cbn [sextets]; [constructor|..];
    apply Forall_cons in Hb as [Hx Hb].
  - repeat constructor; Z.div_mod_to_equations; lia.
  - apply Forall_cons in Hb as [Hy _]. repeat constructor; Z.div_mod_to_equations; lia.
  - apply Forall_cons in Hb as [Hy Hb]. apply Forall_cons in Hb as [Hz Hb].
    repeat (apply Forall_cons; split; [Z.div_mod_to_equations; lia|]). by apply IH.
Qed.

Lemma sextet_chars z :
  0 <= z < 64 -> char_sextet (sextet_char z) = z /\ standard_char (sextet_char z) = true.
Proof.
  intros Hz. assert (forallb (fun z => (char_sextet (sextet_char z) =? z) && standard_char (sextet_char z))
    (seqZ 0 64) = true) as Hall by by vm_compute.
  rewrite forallb_forall in Hall. specialize (Hall z). rewrite <- list_elem_of_In, elem_of_seqZ in Hall.
  specialize (Hall ltac:(lia)). apply andb_true_iff in Hall as [?%Z.eqb_eq ?]. done.
Qed.

Lemma text_digits l : Forall (fun z => 0 <= z < 64) l ->
  digits (text l) = l /\ string_all standard_char (text l) = true.
Proof.
  induction 1 as [|z l Hz Hl [IH1 IH2]]; [done|]. cbn. destruct (sextet_chars z Hz) as [-> ->].
  by rewrite IH1, IH2.
Qed.

Lemma untranslate a c : standard_char c = true -> untranslate_char a (translate_char a c) = c.
Proof.
  intros Hc. unfold translate_char.
  destruct (Ascii.eqb_spec c "+"); [subst; by destruct a|].
  destruct (Ascii.eqb_spec c "/"); [subst; by destruct a|]. unfold untranslate_char.
  destruct (Ascii.eqb_spec c (digit_62 a)); [subst; destruct a; done|].
  destruct (Ascii.eqb_spec c (digit_63 a)); [subst; destruct a; done|]. done.
Qed.

Lemma plain_equals a n : plain a (equals_signs n) = "".
Proof. by induction n. Qed.

Lemma plain_encode a s n :
  string_all standard_char s = true -> plain a (translate a s +:+ equals_signs n) = s.
Proof.
  induction s as [|c s IH]; [intros _; apply plain_equals|]. cbn [string_all].
  intros [Hc Hs]%andb_true_iff.
  change (plain a (String (translate_char a c) (translate a s +:+ equals_signs n)) = String c s).
  cbn [plain]. pose proof (translate_char_plain a c Hc) as Hp. unfold not_equals in Hp.
  destruct (Ascii.eqb _ "="); [done|]. by rewrite untranslate, IH.
Qed.

Lemma encode_form a p b : exists n, encode a p b = translate a (text (sextets b)) +:+ equals_signs n.
Proof. unfold encode. destruct p; [by eexists|by exists 0%nat]. Qed.

Lemma decode_encode a p b :
  bytes_ok b -> octets (digits (plain a (encode a p b))) = b.
Proof.
  intros Hb. destruct (encode_form a p b) as [n ->].
  destruct (text_digits (sextets b) (sextets_bound b Hb)) as [Hd Hc].
  by rewrite plain_encode, Hd, octets_sextets.
Qed.

Lemma is_bytes b : forallb is_byte b = true <-> bytes_ok b.
Proof.
  unfold bytes_ok, is_byte. induction b as [|z b IH]; cbn; [by split|].
  rewrite !andb_true_iff, IH, Forall_cons, Z.leb_le, Z.ltb_lt. done.
Qed.

Lemma decode_iff a m s b :
  decode a m s = Some b <-> bytes_ok b /\
  s = encode a (match m with RequireCanonical => true | RequireNone => false end) b.
Proof.
  unfold decode. set (p := match m with RequireCanonical => true | RequireNone => false end). split.
  - destruct (forallb _ _) eqn:E; [|done]. cbn [andb]. case_bool_decide as Hs; [|done]. intros [= <-].
    split; [by apply is_bytes|done].
  - intros [Hb ->]. rewrite decode_encode by done. rewrite (proj2 (is_bytes b) Hb). cbn [andb].
    by rewrite bool_decide_true.
Qed.

Lemma text_length l : String.length (text l) = length l.
Proof. induction l as [|z l IH]; [done|]. cbn. by rewrite IH. Qed.

Lemma sextets_mod b : (length (sextets b) mod 4 <> 1)%nat.
Proof.
  induction b as [|x|x y|x y z b IH] using bytes_ind; cbn [sextets length]; [done..|].
  rewrite (Nat.Div0.add_mod 4 (length (sextets b)) 4 : (S (S (S (S _))) mod 4)%nat = _).
  rewrite Nat.Div0.mod_same, Nat.add_0_l, Nat.Div0.mod_mod. done.
Qed.

Lemma base64_laws : @Base64Laws base64.
Proof.
  split; cbn [RunId.encode RunId.decode base64].
  - intros b Hb. unfold encode. rewrite append_nil.
    destruct (text_digits (sextets b) (sextets_bound b Hb)) as [_ Hc].
    assert (forall s, translate Standard s = s) as ->; [|done].
    induction s as [|c s IH]; [done|]. cbn. rewrite IH. f_equal. unfold translate_char; cbn.
    destruct (Ascii.eqb_spec c "+"); [by subst|]. by destruct (Ascii.eqb_spec c "/"); [subst|].
  - intros a b. unfold encode. rewrite !append_nil. f_equal.
    assert (forall s, translate Standard s = s) as ->; [|done].
    induction s as [|c s IH]; [done|]. cbn. rewrite IH. f_equal. unfold translate_char; cbn.
    destruct (Ascii.eqb_spec c "+"); [by subst|]. by destruct (Ascii.eqb_spec c "/"); [subst|].
  - intros b Hb. unfold encode. rewrite append_nil, translate_length, text_length.
    do 16 (destruct b as [|? b]; [done|]). by destruct b.
  - intros a b. exists (padding b). unfold encode. rewrite append_nil. split; [done|].
    rewrite append_length, translate_length, text_length, equals_length. unfold padding.
    pose proof (sextets_mod b) as Hm. pose proof (Nat.mod_upper_bound (length (sextets b)) 4 ltac:(done)).
    rewrite Nat.Div0.add_mod.
    destruct (length (sextets b) mod 4)%nat as [|[|[|[|]]]]; try done; try lia; cbn; split; lia || done.
  - intros b b' Hb Hb' He. rewrite <- (decode_encode Standard false b Hb), He. by apply decode_encode.
  - intros a s b. apply (decode_iff a RequireCanonical).
  - intros a s b. apply (decode_iff a RequireNone).
Qed.
End Rfc4648.

(** ** Witnesses *)
Section examples.
#[local] Existing Instances Rfc4648.base64 Rfc4648.base64_laws.
Definition demo_uuid : bytes := [251; 255; 191; 3; 4; 5; 6; 7; 8; 9; 10; 11; 12; 13; 14; 15].

Lemma run_id_roundtrip_witness :
  parse_run_id (encode_uuid demo_uuid) = inl "+/+/AwQFBgcICQoLDA0ODw" /\
  (parse_run_id "-_-_AwQFBgcICQoLDA0ODw=" = inl "+/+/AwQFBgcICQoLDA0ODw" ->
   parse_run_id "+/+/AwQFBgcICQoLDA0ODw" = inl "+/+/AwQFBgcICQoLDA0ODw").
Proof.
  assert (encode_uuid demo_uuid = "+/+/AwQFBgcICQoLDA0ODw") as <- by by vm_compute.
  apply (run_id_roundtrip demo_uuid "-_-_AwQFBgcICQoLDA0ODw="); [by repeat constructor|done].
Defined.

(** The same bytes in the alphabet of older versions. *)
Example legacy_run_id : parse_run_id "._._AwQFBgcICQoLDA0ODw==" = inl "+/+/AwQFBgcICQoLDA0ODw".
Proof. by vm_compute. Qed.
End examples.
