(* ===== verification/RunIdRestart.v ===== *)
(** The run id across a restart: [kronictl restart] (src/bin/kronictl.rs) reads the run id
    that the last daemon wrote and hands it to the next one. *)
From S2P Require Import Prelude Decimal PidFile RunId.

Section restarting.
Context `{Base64Laws} `{UnicodeText} (answer : unit + string).
Context (term : Z -> gmap file string * gset Z -> gmap file string * gset Z).

(** The run id file is read and trimmed, and holds a run id, nothing or something else. *)
Lemma load_previous_spec raw w : fs w !! RunIdFile = Some raw -> exists w',
  run_alone (fun _ => false) answer term (load_previous_run_id parse_run_id) w =
    (if bool_decide (str_trim raw = "") then inl None
     else match parse_run_id (str_trim raw) with
          | inl id => inl (Some id)
          | inr _ => inr "invalid run id"
          end, w') /\
  fs w' = fs w /\ table w' = table w /\ spawned w' = spawned w /\ killed w' = killed w.
Proof.
  intros Hr. cbn. rewrite Hr, bool_decide_true by eauto. cbn. rewrite Hr. by eexists.
Qed.

(** What [kronictl restart] without a run id leads to once the old daemon has ended. *)
Definition restarts (raw : string) (w : World) (r : unit + string) (w' : World) : Prop :=
  (forall b, bytes_ok b -> length b = 16%nat -> run_id_text b (str_trim raw) ->
     r = inl () /\ spawned w' = spawned w ++ [Some (encode_uuid b)]) /\
  ((forall b, bytes_ok b -> length b = 16%nat -> ~ run_id_text b (str_trim raw)) ->
     r = inr "invalid run id" /\ spawned w' = spawned w).

(** [kronictl restart] without a run id ends the running daemon and starts the next
    one with the sixteen bytes that the run id file holds in any of the alphabets, with
    or without padding, rewritten in today's; where the file holds no run id, the old
    daemon is stopped and none is started. *)
Theorem restart_keeps_run_id raw content pid w m t :
  fs w !! PidFile = Some content -> parse_pid content = Some pid -> pid ∈ table w ->
  term (sw 32 pid) (fs w, table w) = (m, t) -> pid ∉ t ->
  m !! RunIdFile = Some raw -> str_trim raw <> "" ->
  exists r w', run_alone (fun _ => false) answer term (restart_daemon parse_run_id None) w = (r, w') /\
  killed w' = killed w ++ [sw 32 pid] /\ fs w' = delete PidFile m /\ restarts raw w r w'.
Proof.
  intros Hf Hp Hr Ht Hd Hm Hne. unfold restart_daemon. rewrite run_alone_bind.
  destruct (stop_daemon_spec answer term parse_run_id content pid w) as (w1&->&Hw1); [done..|].
  rewrite Ht, bool_decide_true, bool_decide_false in Hw1 by done. destruct Hw1 as (Hf1&Ht1&Hs1&Hk1).
  unfold try_. rewrite run_alone_bind.
  destruct (load_previous_spec raw w1) as (w2&->&Hf2&Ht2&Hs2&Hk2); [by rewrite Hf1, lookup_delete_ne|].
  rewrite bool_decide_false by done. unfold restarts.
  setoid_rewrite <- Hs1. setoid_rewrite <- Hs2.
  destruct (parse_run_id (str_trim raw)) as [id|e] eqn:Hid.
  - destruct (start_daemon_spec answer term (Some id) w2) as (r&w3&->&Ht3&Hk3&Hw3).
    rewrite Hf2, Hf1, lookup_delete_eq in Hw3. destruct Hw3 as (->&Hs3&Hf3).
    apply parse_run_id_iff in Hid as (b&Hb&Hl&Htext&->).
    eexists _, _. split_and!; [reflexivity|congruence|done| |].
    + intros b' Hb' _ Ht'. by rewrite (run_id_text_inj b' b (str_trim raw)).
    + intros Hno. by destruct (Hno b).
  - cbn. eexists _, _. split_and!; [reflexivity|congruence|congruence| |done].
    intros b Hb Hl Htext. exfalso.
    rewrite (proj2 (parse_run_id_iff (str_trim raw) (encode_uuid b))) in Hid; [done|by exists b].
Qed.
End restarting.

(** ** Witnesses *)
Section examples.
#[local] Existing Instances Rfc4648.base64 Rfc4648.base64_laws.
#[local] Instance demo_text : UnicodeText := unicode_ascii.
Definition restart_world : World :=
  start_in {[PidFile := "41"; LockFile := ""; RunIdFile := "-_-_AwQFBgcICQoLDA0ODw=="]} {[41]}.
Lemma restart_keeps_run_id_witness :
  exists w', run_alone (fun _ => false) stopped_service terminated (restart_daemon parse_run_id None)
    restart_world = (inl (), w') /\ spawned w' = [Some "+/+/AwQFBgcICQoLDA0ODw"].
Proof.
  destruct (restart_keeps_run_id stopped_service terminated "-_-_AwQFBgcICQoLDA0ODw==" "41" 41
    restart_world {[RunIdFile := "-_-_AwQFBgcICQoLDA0ODw=="]} ∅) as (r&w'&Hw&_&_&Hid&_);
    [by vm_compute|by vm_compute|set_solver|by vm_compute|set_solver|by vm_compute|done|].
  destruct (Hid demo_uuid) as [-> Hs]; [by repeat constructor|done| |].
  - exists UrlSafe, 2%nat. split; [lia|by vm_compute].
  - exists w'. split; [exact Hw|]. rewrite Hs. by vm_compute.
Defined.
End examples.
