(* ===== verification/Input.v ===== *)
(** The native input hooks: the conversions of crates/input/src/lib.rs and the handler
    that turns what the hooks report into the pipeline's events
    (src/daemon/coordinator.rs).

    The hook library is a parameter: its events as the handler reads them, and the codes
    of its constants. *)
From S2P Require Import Prelude Events Interner PipelineTypes Ingest Focus FocusWrapper.

(** ** What the hooks report *)
Inductive HookMouseButton := NoButton | HookButton1 | HookButton2 | HookButton3 | HookButton4 | HookButton5.
Inductive HookMouseEventType := HookMoved | HookPressed | HookReleased | HookClicked | HookDragged.

Record HookMouse := {
  hm_event_type : HookMouseEventType; hm_button : HookMouseButton; hm_clicks : Z; hm_x : Z; hm_y : Z
}.
Record HookWheel := {
  hw_clicks : Z; hw_x : Z; hw_y : Z; hw_type : Z; hw_amount : Z; hw_rotation : Z; hw_direction : Z
}.
Inductive UiohookEvent :=
  | HookKeyboard
  | HookMouseEvent (m : HookMouse)
  | HookWheelEvent (w : HookWheel)
  | HookEnabled
  | HookDisabled.

(** The codes of the hook library. *)
Class HookCodes := {
  WHEEL_UNIT_SCROLL : Z;
  WHEEL_BLOCK_SCROLL : Z;
  WHEEL_VERTICAL_DIRECTION : Z;
  WHEEL_HORIZONTAL_DIRECTION : Z
}.

(** ** The conversions *)
Definition button_from_hook (button : HookMouseButton) : option MouseButton :=
  match button with
  | NoButton => None
  | HookButton1 => Some Primary
  | HookButton2 => Some Secondary
  | HookButton3 => Some Middle
  | HookButton4 => Some Button4
  | HookButton5 => Some Button5
  end.

Definition event_kind_from_hook (event_type : HookMouseEventType) : MouseEventKind :=
  match event_type with
  | HookMoved => Moved
  | HookPressed => Pressed
  | HookReleased => Released
  | HookClicked => Clicked
  | HookDragged => Dragged
  end.

Section input.
Context `{HookCodes}.

Definition wheel_scroll_type_from_raw (raw : Z) : WheelScrollType :=
  if raw =? uw 8 WHEEL_UNIT_SCROLL then WheelUnit
  else if raw =? uw 8 WHEEL_BLOCK_SCROLL then WheelBlock
  else WheelUnknown raw.

Definition wheel_axis_from_direction (direction : Z) : option WheelAxis :=
  if direction =? WHEEL_VERTICAL_DIRECTION then Some Vertical
  else if direction =? WHEEL_HORIZONTAL_DIRECTION then Some Horizontal
  else None.

(** [handle_event]: what is sent to the pipeline, if anything. *)
Definition handle_event (event : UiohookEvent) : option KronicalEvent :=
  match event with
  | HookKeyboard => Some KKeyboardInput
  | HookMouseEvent m =>
      let kind := event_kind_from_hook (hm_event_type m) in
      let button := button_from_hook (hm_button m) in
      Some (KMouseInput (sw 32 (hm_x m)) (sw 32 (hm_y m)) button (hm_clicks m) kind)
  | HookWheelEvent w =>
      let scroll_type := wheel_scroll_type_from_raw (hw_type w) in
      let axis := wheel_axis_from_direction (hw_direction w) in
      Some (KMouseWheel (hw_clicks w) (sw 32 (hw_x w)) (sw 32 (hw_y w)) scroll_type (hw_amount w)
              (hw_rotation w) axis)
  | HookEnabled | HookDisabled => None
  end.

(** [FocusCallback::on_focus_change]. *)
Definition on_focus_change (focus_info : WindowFocusInfo) : KronicalEvent :=
  KWindowFocusChange focus_info.

(** What the pipeline's ingest stage makes of a hook event. *)
Definition raw_of_hook (event : UiohookEvent) (now : instant) (event_id : Z) : option RawEvent :=
  k ← handle_event event; convert_kronid_to_raw k now event_id.

(** ** Reading the hook's event back *)
Definition hook_button (b : option MouseButton) : HookMouseButton :=
  match b with
  | None | Some (Other _) => NoButton
  | Some Primary => HookButton1
  | Some Secondary => HookButton2
  | Some Middle => HookButton3
  | Some Button4 => HookButton4
  | Some Button5 => HookButton5
  end.
Definition hook_kind (k : MouseEventKind) : HookMouseEventType :=
  match k with
  | Moved => HookMoved | Pressed => HookPressed | Released => HookReleased
  | Clicked => HookClicked | Dragged => HookDragged
  end.
Definition hook_scroll_type (t : WheelScrollType) : Z :=
  match t with
  | WheelUnit => uw 8 WHEEL_UNIT_SCROLL | WheelBlock => uw 8 WHEEL_BLOCK_SCROLL | WheelUnknown b => b
  end.
Definition hook_direction (a : WheelAxis) : Z :=
  match a with Vertical => WHEEL_VERTICAL_DIRECTION | Horizontal => WHEEL_HORIZONTAL_DIRECTION end.

Definition hook_of_raw (e : RawEvent) : option UiohookEvent :=
  match e with
  | RawKeyboardInput _ _ _ => Some HookKeyboard
  | RawMouseInput _ _ d =>
      match event_type d with
      | Some k => Some (HookMouseEvent {|
          hm_event_type := hook_kind k; hm_button := hook_button (button d);
          hm_clicks := default 0 (click_count d); hm_x := pos_x (position d); hm_y := pos_y (position d) |})
      | None =>
          t ← wheel_scroll_type d; a ← wheel_axis d; clicks ← click_count d;
          amount ← wheel_amount d; rotation ← wheel_rotation d;
          Some (HookWheelEvent {|
            hw_clicks := clicks; hw_x := pos_x (position d); hw_y := pos_y (position d);
            hw_type := hook_scroll_type t; hw_amount := amount; hw_rotation := rotation;
            hw_direction := hook_direction a |})
      end
  | RawWindowFocusChange _ _ _ => None
  end.

(** The widths of the hook's fields, and a direction the program knows. *)
Definition hook_event_ok (event : UiohookEvent) : Prop :=
  match event with
  | HookMouseEvent m => in_s 16 (hm_x m) /\ in_s 16 (hm_y m) /\ in_u 16 (hm_clicks m)
  | HookWheelEvent w =>
      in_s 16 (hw_x w) /\ in_s 16 (hw_y w) /\ in_u 16 (hw_clicks w) /\ in_u 16 (hw_amount w) /\
      in_s 16 (hw_rotation w) /\
      (hw_direction w = WHEEL_VERTICAL_DIRECTION \/ hw_direction w = WHEEL_HORIZONTAL_DIRECTION)
  | HookKeyboard => True
  | HookEnabled | HookDisabled => False
  end.

Lemma sw_16_32 z : in_s 16 z -> sw 32 z = z.
Proof. intros Hz. apply sw_small; unfold in_s in *; lia. Qed.
Lemma uw_16_32 z : in_u 16 z -> sw 32 z = z.
Proof. intros Hz. apply sw_small; unfold in_s, in_u in *; lia. Qed.

Lemma button_back b : hook_button (button_from_hook b) = b.
Proof. by destruct b. Qed.
Lemma kind_back k : hook_kind (event_kind_from_hook k) = k.
Proof. by destruct k. Qed.
Lemma scroll_type_back raw : hook_scroll_type (wheel_scroll_type_from_raw raw) = raw.
Proof.
  unfold wheel_scroll_type_from_raw.
  destruct (Z.eqb_spec raw (uw 8 WHEEL_UNIT_SCROLL)) as [->|]; [done|].
  by destruct (Z.eqb_spec raw (uw 8 WHEEL_BLOCK_SCROLL)) as [->|].
Qed.
Lemma direction_back d :
  d = WHEEL_VERTICAL_DIRECTION \/ d = WHEEL_HORIZONTAL_DIRECTION ->
  exists a, wheel_axis_from_direction d = Some a /\ hook_direction a = d.
Proof.
  intros Hd. unfold wheel_axis_from_direction.
  destruct (Z.eqb_spec d WHEEL_VERTICAL_DIRECTION) as [->|Hv]; [by exists Vertical|].
  destruct Hd as [?| ->]; [done|]. rewrite Z.eqb_refl. by exists Horizontal.
Qed.

(** Nothing of an input event is lost on its way into the pipeline: whatever the hook
    reports of a key, the mouse or the wheel, within the widths of its fields, can be read
    off the raw event that the ingest stage makes of it. *)
Theorem input_preserved event now event_id :
  hook_event_ok event -> exists e,
  raw_of_hook event now event_id = Some e /\ hook_of_raw e = Some event /\
  raw_timestamp e = now /\ raw_event_id e = event_id.
Proof.
  destruct event as [|[k b c x y]|[c x y t a r d]| |]; try done; cbn.
  - intros _. by eexists.
  - intros (Hx&Hy&Hc). eexists. split; [reflexivity|]. cbn.
    rewrite button_back, kind_back, !sw_16_32 by done. split_and!; try done.
    destruct (Z.ltb_spec 0 c); [done|]. unfold in_u in Hc. by replace c with 0 by lia.
  - intros (Hx&Hy&Hc&Ha&Hr&Hd). eexists. split; [reflexivity|]. cbn.
    destruct (direction_back d Hd) as (ax&->&Hax). cbn.
    by rewrite Hax, scroll_type_back, (sw_16_32 x), (sw_16_32 y), (sw_16_32 r), (uw_16_32 a), uw_small by done.
Qed.
End input.

(** [FocusChangeHandler]: what the focus hook reports goes to the focus worker, if the
    handler has one. *)
Section focus_hook.
Context {I : Type} `{HashOrder} `{Chrono} `{TitleInterner I} `{Focus.FocusEnv}.
Notation Wrapper := (@FocusWrapper.System I).

Definition on_app_change (pid : Z) (app_name : string) : option Wrapper -> option Wrapper :=
  fmap (FocusWrapper.handle_app_change pid app_name).
Definition on_window_change (window_title : string) : option Wrapper -> option Wrapper :=
  fmap (FocusWrapper.handle_window_change window_title).
Definition on_app_change_info (info : Focus.ActiveWindowInfo) : option Wrapper -> option Wrapper :=
  fmap (FocusWrapper.handle_app_change_info info).
Definition on_window_change_info (info : Focus.ActiveWindowInfo) : option Wrapper -> option Wrapper :=
  fmap (FocusWrapper.handle_window_change_info info).
End focus_hook.

(** ** Witnesses *)
(** The codes of libuiohook. *)
Definition libuiohook_codes : HookCodes := {|
  WHEEL_UNIT_SCROLL := 1; WHEEL_BLOCK_SCROLL := 2;
  WHEEL_VERTICAL_DIRECTION := 3; WHEEL_HORIZONTAL_DIRECTION := 4 |}.
Definition demo_wheel : UiohookEvent := HookWheelEvent {|
  hw_clicks := 1; hw_x := -5; hw_y := 300; hw_type := 2; hw_amount := 3; hw_rotation := -1;
  hw_direction := 4 |}.

Lemma input_preserved_witness : exists e,
  @raw_of_hook libuiohook_codes demo_wheel 7 8 = Some e /\
  @hook_of_raw libuiohook_codes e = Some demo_wheel /\ raw_event_id e = 8.
Proof.
  destruct (@input_preserved libuiohook_codes demo_wheel 7 8) as (e&He&Hb&_&Hi).
  - cbn. unfold in_s, in_u. lia.
  - by exists e.
Defined.
