(* ===== verification/Coordinator.v ===== *)
(** The life of the daemon's main thread: [EventCoordinator::start_main_thread] with its
    shutdown guard (src/daemon/coordinator.rs), the start of the two servers with their
    readiness handshake (src/daemon/server/grpc.rs, src/daemon/server/http.rs) and the
    join of their threads (src/daemon/api.rs).

    The main thread, the servers, the pipeline, the hooks and the signal handler move one
    step at a time, in any order.  A call that can fail or block takes its outcome from
    the schedule.  The pipeline is what the other components prove of it: it handles the
    events of its channel in order and ends with the shutdown event. *)
From S2P Require Import Prelude Events PipelineTypes.

(** ** The process *)
Inductive Server := Grpc | Http.
#[export] Instance server_eq_dec : EqDecision Server.
Proof. solve_decision. Defined.

(** A server's thread: not spawned, about to bind its socket, accepting, gone. *)
Inductive ServerThread := NotSpawned | Binding | Serving | Gone.
#[export] Instance server_thread_eq_dec : EqDecision ServerThread.
Proof. solve_decision. Defined.

(** What the main thread does next. *)
Inductive Pc :=
  | RemoveStale (s : Server)     (** [spawn_server]: a socket left by another process *)
  | SpawnServer (s : Server)
  | AwaitReady (s : Server)      (** [recv_timeout] of half a second *)
  | JoinUnready (s : Server)     (** the join of a server that did not signal readiness *)
  | SpawnTracker
  | SpawnPipeline
  | BuildFocusHook
  | InstallHandler
  | RunUiohook
  | RunFocusHook                 (** blocks until the focus hook ends *)
  | CleanupUiohook               (** the drop of the guard, from here on *)
  | CleanupFocusHook
  | CleanupPipeline
  | CleanupServer (s : Server)
  | CleanupSocket (s : Server)
  | Returned.

(** What the guard's drop has done. *)
Inductive Cleanup :=
  | UiohookStopped | FocusHookStopped | PipelineJoined | ServerJoined (s : Server)
  | SocketRemoved (s : Server) | SocketKept (s : Server).

(** What the guard holds. *)
Record Guard := {
  api_handles : bool; pipeline_handles : bool; uiohook : bool; focus_hook : bool
}.

Record Process := {
  pc : Pc;
  result : unit + string;
  guard : Guard;
  threads : Server -> ServerThread;
  sockets : Server -> bool;          (** the socket file exists *)
  channel : list KronicalEvent;      (** sent to the pipeline and not yet received *)
  pipeline_runs : bool;
  handler : bool;                    (** Ctrl+C is handled *)
  stop_requests : nat;               (** how often the focus hook was told to stop *)
  cleanup : list Cleanup
}.

Definition set_at {A} (f : Server -> A) (s : Server) (a : A) : Server -> A :=
  fun s' => if decide (s' = s) then a else f s'.

Definition goto (p : Process) (c : Pc) : Process := {|
  pc := c; result := result p; guard := guard p; threads := threads p; sockets := sockets p;
  channel := channel p; pipeline_runs := pipeline_runs p; handler := handler p;
  stop_requests := stop_requests p; cleanup := cleanup p |}.
(** The question mark operator: the guard is dropped and the error returned. *)
Definition fail (p : Process) (e : string) : Process := {|
  pc := CleanupUiohook; result := inr e; guard := guard p; threads := threads p;
  sockets := sockets p; channel := channel p; pipeline_runs := pipeline_runs p;
  handler := handler p; stop_requests := stop_requests p; cleanup := cleanup p |}.
Definition hold (p : Process) (g : Guard) : Process := {|
  pc := pc p; result := result p; guard := g; threads := threads p; sockets := sockets p;
  channel := channel p; pipeline_runs := pipeline_runs p; handler := handler p;
  stop_requests := stop_requests p; cleanup := cleanup p |}.
Definition set_thread (p : Process) (s : Server) (t : ServerThread) (sock : bool) : Process := {|
  pc := pc p; result := result p; guard := guard p; threads := set_at (threads p) s t;
  sockets := set_at (sockets p) s sock; channel := channel p; pipeline_runs := pipeline_runs p;
  handler := handler p; stop_requests := stop_requests p; cleanup := cleanup p |}.
Definition set_socket (p : Process) (s : Server) (sock : bool) : Process := {|
  pc := pc p; result := result p; guard := guard p; threads := threads p;
  sockets := set_at (sockets p) s sock; channel := channel p; pipeline_runs := pipeline_runs p;
  handler := handler p; stop_requests := stop_requests p; cleanup := cleanup p |}.
Definition set_pipeline (p : Process) (q : list KronicalEvent) (runs : bool) : Process := {|
  pc := pc p; result := result p; guard := guard p; threads := threads p; sockets := sockets p;
  channel := q; pipeline_runs := runs; handler := handler p; stop_requests := stop_requests p;
  cleanup := cleanup p |}.
Definition stop_focus (p : Process) : Process := {|
  pc := pc p; result := result p; guard := guard p; threads := threads p; sockets := sockets p;
  channel := channel p; pipeline_runs := pipeline_runs p; handler := handler p;
  stop_requests := S (stop_requests p); cleanup := cleanup p |}.
Definition install (p : Process) : Process := {|
  pc := pc p; result := result p; guard := guard p; threads := threads p; sockets := sockets p;
  channel := channel p; pipeline_runs := pipeline_runs p; handler := true;
  stop_requests := stop_requests p; cleanup := cleanup p |}.
Definition cleaned (p : Process) (c : Cleanup) : Process := {|
  pc := pc p; result := result p; guard := guard p; threads := threads p; sockets := sockets p;
  channel := channel p; pipeline_runs := pipeline_runs p; handler := handler p;
  stop_requests := stop_requests p; cleanup := cleanup p ++ [c] |}.

(** [start_main_thread] begins: whatever sockets there are, nothing runs. *)
Definition start (stale : Server -> bool) : Process := {|
  pc := RemoveStale Grpc; result := inl ();
  guard := {| api_handles := false; pipeline_handles := false; uiohook := false; focus_hook := false |};
  threads := fun _ => NotSpawned; sockets := stale; channel := []; pipeline_runs := false;
  handler := false; stop_requests := 0; cleanup := [] |}.

(** ** The main thread *)

(** [spawn_server] and [spawn_http_server]: the same handshake. *)
Definition spawn_step (p : Process) (s : Server) (ok : bool) (next : Pc) : option Process :=
  match pc p with
  | RemoveStale _ =>
      (* what [remove_file] answers is ignored *)
      Some (goto (if ok then set_socket p s false else p) (SpawnServer s))
  | SpawnServer _ =>
      if ok then Some (goto (set_thread p s Binding (sockets p s)) (AwaitReady s))
      else Some (fail p "spawn server thread")
  | AwaitReady _ =>
      match threads p s with
      | Serving => Some (goto p next)
      | _ => Some (goto p (JoinUnready s))     (* the time is over, or the thread panicked *)
      end
  | JoinUnready _ =>
      match threads p s with
      | Gone => Some (fail p "server failed to signal readiness within 500ms")
      | _ => None
      end
  | _ => None
  end.

(** [spawn_all]: the guard gets the handles only when both servers are up. *)
Definition with_api (g : Guard) : Guard :=
  {| api_handles := true; pipeline_handles := pipeline_handles g; uiohook := uiohook g;
     focus_hook := focus_hook g |}.
Definition with_pipeline (g : Guard) : Guard :=
  {| api_handles := api_handles g; pipeline_handles := true; uiohook := uiohook g;
     focus_hook := focus_hook g |}.
Definition with_focus_hook (g : Guard) : Guard :=
  {| api_handles := api_handles g; pipeline_handles := pipeline_handles g; uiohook := uiohook g;
     focus_hook := true |}.
Definition with_uiohook (g : Guard) : Guard :=
  {| api_handles := api_handles g; pipeline_handles := pipeline_handles g; uiohook := true;
     focus_hook := focus_hook g |}.

(** What the drop of the guard calls; a join waits until the thread is gone. *)
Definition cleanup_uiohook (p : Process) : Process := cleaned p UiohookStopped.
Definition cleanup_focus_hook (p : Process) : Process := stop_focus (cleaned p FocusHookStopped).
Definition cleanup_pipeline (p : Process) : option Process :=
  if pipeline_runs p then None else Some (cleaned p PipelineJoined).
(** [ApiHandles::join_all]: the gRPC server, then the HTTP server. *)
Definition cleanup_api_server (p : Process) (s : Server) : option Process :=
  match threads p s with Gone => Some (cleaned p (ServerJoined s)) | _ => None end.
(** One round of [cleanup_socket_files]. *)
Definition cleanup_socket_file (p : Process) (s : Server) (ok : bool) : Process :=
  if sockets p s then
    if ok then cleaned (set_socket p s false) (SocketRemoved s) else cleaned p (SocketKept s)
  else p.

(** The drop of the guard; [take] empties what it cleans up. *)
Definition guard_drop_step (p : Process) (ok : bool) : option Process :=
  match pc p with
  | CleanupUiohook =>
      Some (goto (if uiohook (guard p) then cleanup_uiohook p else p) CleanupFocusHook)
  | CleanupFocusHook =>
      Some (goto (if focus_hook (guard p) then cleanup_focus_hook p else p) CleanupPipeline)
  | CleanupPipeline =>
      q ← (if pipeline_handles (guard p) then cleanup_pipeline p else Some p);
      Some (goto q (CleanupServer Grpc))
  | CleanupServer s =>
      let next := match s with Grpc => CleanupServer Http | Http => CleanupSocket Grpc end in
      q ← (if api_handles (guard p) then cleanup_api_server p s else Some p);
      Some (goto q next)
  | CleanupSocket s =>
      let next := match s with Grpc => CleanupSocket Http | Http => Returned end in
      Some (goto (cleanup_socket_file p s ok) next)
  | _ => None
  end.

(** ** What the start calls *)
Definition spawn_server (p : Process) (ok : bool) : option Process :=
  spawn_step p Grpc ok (RemoveStale Http).
Definition spawn_http_server (p : Process) (ok : bool) : option Process :=
  spawn_step p Http ok SpawnTracker.

(** The handles go into the guard when the second server is up. *)
Definition spawn_api_servers (p : Process) (ok : bool) : option Process :=
  match pc p with
  | RemoveStale Grpc | SpawnServer Grpc | AwaitReady Grpc | JoinUnready Grpc => spawn_server p ok
  | AwaitReady Http =>
      q ← spawn_http_server p ok;
      Some (match pc q with SpawnTracker => hold q (with_api (guard q)) | _ => q end)
  | RemoveStale Http | SpawnServer Http | JoinUnready Http => spawn_http_server p ok
  | _ => None
  end.

(** The tracker is disabled: only a log line. *)
Definition spawn_tracker (p : Process) : Process := p.
Definition spawn_pipeline (p : Process) (ok : bool) : Process + string :=
  if ok then inl (set_pipeline p (channel p) true) else inr "spawn pipeline".
Definition build_focus_hook (p : Process) (ok : bool) : Process + string :=
  if ok then inl p else inr "spawn focus worker".
Definition setup_shutdown_handler (p : Process) (ok : bool) : Process + string :=
  if ok then inl (install p) else inr "set handler".
Definition run_uiohook (p : Process) (ok : bool) : Process + string :=
  if ok then inl p else inr "UIohook failed".
Definition run_focus_hook (p : Process) (ok : bool) : Process + string :=
  if ok then inl p else inr "Focus hook failed".

(** A call of the main thread, with the question mark operator. *)
Definition call (p : Process) (r : Process + string) (f : Guard -> Guard) (next : Pc) : option Process :=
  Some (match r with inl q => goto (hold q (f (guard q))) next | inr e => fail p e end).

(** [start_main_thread] *)
Definition main_step (p : Process) (ok : bool) : option Process :=
  match pc p with
  | RemoveStale _ | SpawnServer _ | AwaitReady _ | JoinUnready _ => spawn_api_servers p ok
  | SpawnTracker => Some (goto (spawn_tracker p) SpawnPipeline)
  | SpawnPipeline => call p (spawn_pipeline p ok) with_pipeline BuildFocusHook
  | BuildFocusHook => call p (build_focus_hook p ok) with_focus_hook InstallHandler
  | InstallHandler => call p (setup_shutdown_handler p ok) (fun g => g) RunUiohook
  | RunUiohook => call p (run_uiohook p ok) with_uiohook RunFocusHook
  | RunFocusHook => call p (run_focus_hook p ok) (fun g => g) CleanupUiohook
  | Returned => None
  | _ => guard_drop_step p ok
  end.

(** ** The other actors *)
Inductive Actor :=
  | Main (ok : bool)                   (** its next operation, and how it ends *)
  | Bind (s : Server) (ok : bool)      (** the server binds its socket, or panics *)
  | AcceptFails (s : Server)           (** the server cannot accept: it panics *)
  | Hook (e : KronicalEvent)           (** a hook sends an event *)
  | CtrlC
  | Pipeline.                          (** the pipeline handles the next event *)

(** The closure of [setup_shutdown_handler]. *)
Definition on_ctrl_c (p : Process) : Process :=
  stop_focus (set_pipeline p (channel p ++ [KShutdown]) (pipeline_runs p)).

Definition step (p : Process) (a : Actor) : option Process :=
  match a with
  | Main ok => main_step p ok
  | Bind s ok =>
      match threads p s with
      | Binding =>
          if ok && negb (sockets p s) then Some (set_thread p s Serving true)
          else Some (set_thread p s Gone (sockets p s))
      | _ => None
      end
  | AcceptFails s =>
      match threads p s with Serving => Some (set_thread p s Gone (sockets p s)) | _ => None end
  | Hook e =>
      match e with
      | KShutdown => None
      | _ => if focus_hook (guard p) || uiohook (guard p)
             then Some (set_pipeline p (channel p ++ [e]) (pipeline_runs p)) else None
      end
  | CtrlC => if handler p then Some (on_ctrl_c p) else None
  | Pipeline =>
      if pipeline_runs p then
        match channel p with
        | [] => None                   (* it waits: the main thread keeps a sender *)
        | KShutdown :: q => Some (set_pipeline p q false)
        | _ :: q => Some (set_pipeline p q true)
        end
      else None
  end.

(** Runs: an actor that cannot move is passed over. *)
Definition run (p : Process) (sched : list Actor) : Process :=
  foldl (fun p a => default p (step p a)) p sched.

(** The calls of the main thread, down to the fields. *)
Ltac unfold_main :=
  unfold main_step, call, spawn_tracker, spawn_pipeline, build_focus_hook, setup_shutdown_handler,
    run_uiohook, run_focus_hook, spawn_api_servers, spawn_server, spawn_http_server, spawn_step,
    guard_drop_step, cleanup_uiohook, cleanup_focus_hook, cleanup_pipeline, cleanup_api_server,
    cleanup_socket_file.

(** ** What every run keeps *)

(** How far the main thread has come. *)
Definition rank (c : Pc) : nat :=
  match c with
  | RemoveStale _ | SpawnServer _ | AwaitReady _ | JoinUnready _ => 0
  | SpawnTracker | SpawnPipeline => 1
  | BuildFocusHook => 2
  | InstallHandler => 3
  | RunUiohook => 4
  | RunFocusHook => 5
  | CleanupUiohook => 6
  | CleanupFocusHook => 7
  | CleanupPipeline => 8
  | CleanupServer Grpc => 9
  | CleanupServer Http => 10
  | CleanupSocket Grpc => 11
  | CleanupSocket Http => 12
  | Returned => 13
  end.
Definition cleaning (c : Pc) : bool := (6 <=? rank c)%nat.

(** The start of the HTTP server, after that of the gRPC server. *)
Definition http_stage (c : Pc) : bool :=
  match c with RemoveStale Http | SpawnServer Http | AwaitReady Http | JoinUnready Http => true | _ => false end.

(** The guard fills up in the order of the start; [n] is what it holds. *)
Definition guard_of (n : nat) : Guard := {|
  api_handles := (1 <=? n)%nat; pipeline_handles := (2 <=? n)%nat; focus_hook := (3 <=? n)%nat;
  uiohook := (5 <=? n)%nat |}.

(** What its drop has done before it comes to [c]. *)
Definition unwound (g : Guard) (c : Pc) : list Cleanup :=
  (if uiohook g && (7 <=? rank c)%nat then [UiohookStopped] else []) ++
  (if focus_hook g && (8 <=? rank c)%nat then [FocusHookStopped] else []) ++
  (if pipeline_handles g && (9 <=? rank c)%nat then [PipelineJoined] else []) ++
  (if api_handles g && (10 <=? rank c)%nat then [ServerJoined Grpc] else []) ++
  (if api_handles g && (11 <=? rank c)%nat then [ServerJoined Http] else []).

Definition socket_step (c : Cleanup) : Prop :=
  match c with SocketRemoved _ | SocketKept _ => True | _ => False end.

(** What the sockets' removal has done, and what it has left. *)
Definition sockets_done (p : Process) (socks : list Cleanup) : Prop :=
  Forall socket_step socks /\
  ((rank (pc p) <= 11)%nat -> socks = []) /\
  ((12 <= rank (pc p))%nat -> sockets p Grpc = true -> SocketKept Grpc ∈ socks) /\
  ((13 <= rank (pc p))%nat -> sockets p Http = true -> SocketKept Http ∈ socks).

Record inv (p : Process) : Prop := {
  iv_guard : exists n, guard p = guard_of n /\
    (if cleaning (pc p) then (n <= 5)%nat /\ (result p = inl () -> n = 5%nat)
     else n = rank (pc p) /\ result p = inl ());
  iv_handler : handler p = true -> (4 <= rank (pc p))%nat /\ pipeline_handles (guard p) = true;
  iv_binding s : threads p s = Binding -> pc p = AwaitReady s \/ pc p = JoinUnready s;
  iv_grpc_up : http_stage (pc p) = true -> threads p Grpc = Serving \/ threads p Grpc = Gone;
  iv_serving : threads p Http = Serving ->
    pc p = AwaitReady Http \/ pc p = JoinUnready Http \/ api_handles (guard p) = true;
  iv_up s : api_handles (guard p) = true -> threads p s = Serving \/ threads p s = Gone;
  iv_pipeline : pipeline_handles (guard p) = true -> (9 <= rank (pc p))%nat -> pipeline_runs p = false;
  iv_grpc : api_handles (guard p) = true -> (10 <= rank (pc p))%nat -> threads p Grpc = Gone;
  iv_http : api_handles (guard p) = true -> (11 <= rank (pc p))%nat -> threads p Http = Gone;
  iv_cleanup : exists socks, cleanup p = unwound (guard p) (pc p) ++ socks /\ sockets_done p socks
}.

Lemma inv_start stale : inv (start stale).
Proof.
  split; cbn; try done; try lia.
  - by exists 0%nat.
  - exists []. split; [done|]. split_and!; cbn; [constructor|done|lia..].
Qed.

Lemma guard_of_rank p n :
  guard p = guard_of n -> (if cleaning (pc p) then (n <= 5)%nat /\ (result p = inl () -> n = 5%nat)
     else n = rank (pc p) /\ result p = inl ()) -> rank (pc p) = 0%nat -> api_handles (guard p) = false.
Proof. unfold cleaning. intros -> Hn Hr. rewrite Hr in Hn. cbn in Hn. by destruct Hn as [-> _]. Qed.

(** A server's thread moves on: the facts about it are those of its new state. *)
Lemma inv_thread p s t sock :
  inv p -> t <> Binding ->
  (t = Serving -> threads p s = Binding) ->
  (t = Gone -> sock = sockets p s) -> (t = Gone \/ t = Serving) ->
  inv (set_thread p s t sock).
Proof.
  intros [Hg Hh Hb Hup Hs Hu Hp Hgr Hht Hc] Ht Hserve Hgone Hor.
  assert (t = Serving -> rank (pc p) = 0%nat /\ api_handles (guard p) = false) as Hearly.
  { intros E. specialize (Hserve E). assert (rank (pc p) = 0%nat) as Hr by by destruct (Hb s Hserve) as [-> | ->].
    split; [done|]. destruct Hg as (n&Hn&Hg). by eapply guard_of_rank. }
  split; cbn; unfold set_at; try done.
  - intros s' Hs'. case_decide; [done|]. by apply Hb.
  - intros Hst. case_decide as E; [|by apply Hup]. subst s. destruct Hor as [->| ->]; auto.
  - case_decide as E; [|done]. intros ->. subst s. specialize (Hserve eq_refl).
    destruct (Hb Http Hserve) as [-> | ->]; auto.
  - intros s' Hapi. case_decide as E; [|by apply Hu]. destruct Hor as [->|E']; [by right|].
    destruct (Hearly E'). congruence.
  - intros Hapi Hr. case_decide as E; [|by apply Hgr]. destruct Hor as [->|E']; [done|].
    destruct (Hearly E'). congruence.
  - intros Hapi Hr. case_decide as E; [|by apply Hht]. destruct Hor as [->|E']; [done|].
    destruct (Hearly E'). congruence.
  - destruct Hc as (socks&Hc&Hf&H0&H1&H2). exists socks. split; [done|].
    destruct Hor as [E'|E'].
    + specialize (Hgone E'). subst sock. split_and!; try done; cbn; unfold set_at;
        intros ?; case_decide; subst; auto.
    + destruct (Hearly E') as [Hr _]. split_and!; try done; cbn; intros; lia.
Qed.

(** The other actors leave the main thread alone. *)
Lemma inv_other p a : (forall ok, a <> Main ok) -> inv p -> inv (default p (step p a)).
Proof.
  intros Ha Hi. destruct a as [ok|s ok|s|e| |]; [by destruct (Ha ok)|..]; cbn.
  - destruct (threads p s) eqn:Et; try done. destruct (ok && _); by apply inv_thread; auto.
  - destruct (threads p s) eqn:Et; try done. by apply inv_thread; auto.
  - destruct e, Hi as [Hg Hh Hb Hup Hs Hu Hp Hgr Hht Hc]; try done;
      (destruct (_ || _); [by split|by split]).
  - destruct (handler p) eqn:Eh; [|done]. destruct Hi as [Hg Hh Hb Hup Hs Hu Hp Hgr Hht Hc]. by split.
  - destruct (pipeline_runs p) eqn:Er; [|done]. destruct Hi as [Hg Hh Hb Hup Hs Hu Hp Hgr Hht Hc].
    assert (pipeline_handles (guard p) = true -> (9 <= rank (pc p))%nat -> False) as Hno.
    { intros H1 H2. by rewrite (Hp H1 H2) in Er. }
    destruct (channel p) as [|[] q]; try (by split); split; cbn; try done; intros; by destruct Hno.
Qed.

(** A state up to the moment the guard is dropped. *)
Lemma inv_early c n r th so ch pr hd sr :
  (rank c <= 6)%nat -> (n <= 5)%nat ->
  (if cleaning c then r = inl () -> n = 5%nat else n = rank c /\ r = inl ()) ->
  (hd = true -> (4 <= rank c)%nat /\ (2 <= n)%nat) ->
  (forall s, th s = Binding -> c = AwaitReady s \/ c = JoinUnready s) ->
  (http_stage c = true -> th Grpc = Serving \/ th Grpc = Gone) ->
  (th Http = Serving -> c = AwaitReady Http \/ c = JoinUnready Http \/ (1 <= n)%nat) ->
  (forall s, (1 <= n)%nat -> th s = Serving \/ th s = Gone) ->
  inv {| pc := c; result := r; guard := guard_of n; threads := th; sockets := so; channel := ch;
         pipeline_runs := pr; handler := hd; stop_requests := sr; cleanup := [] |}.
Proof.
  intros Hc Hn Hg Hh Hb Hup Hs Hu.
  assert (forall k, (7 <= k)%nat -> (k <=? rank c)%nat = false) as Hlow by (intros k Hk; apply Nat.leb_gt; lia).
  split; cbn -[Nat.leb]; try (intros; lia); try done.
  - exists n. split; [done|]. by destruct (cleaning c).
  - intros Hd. destruct (Hh Hd). split; [done|]. by apply Nat.leb_le.
  - intros E. destruct (Hs E) as [?|[?|?]]; auto. right; right. by apply Nat.leb_le.
  - intros s Hle%Nat.leb_le. by apply Hu.
  - exists []. unfold unwound. rewrite !Hlow, !andb_false_r by lia. split; [done|].
    split_and!; cbn; [constructor|done|lia..].
Qed.

Lemma set_at_eq {A} (f : Server -> A) s a : set_at f s a s = a.
Proof. unfold set_at. by rewrite decide_True. Qed.
Lemma set_at_ne {A} (f : Server -> A) s s' a : s' <> s -> set_at f s a s' = f s'.
Proof. intros. unfold set_at. by rewrite decide_False. Qed.

(** Solves a state of the start that holds the first [n] parts. *)
Ltac early n :=
  solve [apply (inv_early _ n); cbn; try done; try lia; intros; unfold set_at in *;
    repeat case_decide; subst; try done;
    repeat match goal with
    | H : ?P -> _, E : ?P |- _ => specialize (H E)
    | H : forall s, ?t s = Binding -> _, E : ?t ?s' = Binding |- _ => specialize (H s' E)
    end;
    try match goal with |- ?t ?s = _ \/ _ => is_var s; destruct s end;
    intuition (congruence || lia)].

(** The main thread until the guard is dropped. *)
Lemma inv_starting p ok : inv p -> (rank (pc p) <= 5)%nat -> inv (default p (main_step p ok)).
Proof.
  intros [(n&Hg&Hn) Hh Hb Hup Hs Hu Hp Hgr Hht (socks&Hc&Hf&H0&H1&H2)] Hr.
  destruct p as [c r g th so ch pr hd sr cl].
  cbn -[cleaning] in Hg, Hn, Hh, Hb, Hup, Hs, Hu, Hc, H0, Hr |- *. subst g cl. rewrite H0 by lia. clear Hp Hgr Hht Hf H0 H1 H2 socks.
  assert (cleaning c = false) as Hcl by (by apply Nat.leb_gt; lia). rewrite Hcl in Hn. destruct Hn as [-> ->].
  unfold_main.
  destruct c as [[]|[]|[]|[]| | | | | | | | | |s|s|]; cbn in *; try lia.
  all: repeat match goal with
    | |- context [if ?b then _ else _] => is_var b; destruct b; cbn
    | |- context [match ?t ?s with _ => _ end] => is_var t; destruct (t s) eqn:?; cbn
    end.
  all: try done.
  all: unfold hold; cbn.
  all: first [early 0%nat|early 1%nat|early 2%nat|early 3%nat|early 4%nat|early 5%nat].
Qed.

(** A step of the guard's drop. *)
Definition moved (p : Process) (c : Pc) (sr : nat) (socks : Server -> bool) (extra : list Cleanup)
    : Process := {|
  pc := c; result := result p; guard := guard p; threads := threads p; sockets := socks;
  channel := channel p; pipeline_runs := pipeline_runs p; handler := handler p;
  stop_requests := sr; cleanup := cleanup p ++ extra |}.

(** The drop of the guard, one step; [extra] is what it adds to the trace. *)
Lemma inv_unwind p c sr socks' extra :
  inv p -> cleaning (pc p) = true -> rank c = S (rank (pc p)) -> http_stage c = false ->
  (pipeline_handles (guard p) = true -> rank c = 9%nat -> pipeline_runs p = false) ->
  (api_handles (guard p) = true -> rank c = 10%nat -> threads p Grpc = Gone) ->
  (api_handles (guard p) = true -> rank c = 11%nat -> threads p Http = Gone) ->
  (forall socks, cleanup p = unwound (guard p) (pc p) ++ socks -> sockets_done p socks ->
   exists socks1, cleanup p ++ extra = unwound (guard p) c ++ socks1 /\
   sockets_done (moved p c sr socks' extra) socks1) ->
  inv (moved p c sr socks' extra).
Proof.
  intros [Hg Hh Hb Hup Hs Hu Hp Hgr Hht (socks&Hc&Hsd)] Hcl Hr Hst Hp' Hg' Ht' Hx.
  assert (6 <= rank (pc p))%nat as Hle by by apply Nat.leb_le.
  assert (forall s, threads p s <> Binding) as Hnb.
  { intros s Es. destruct (Hb s Es) as [E|E]; rewrite E in Hle; cbn in Hle; lia. }
  assert (cleaning c = true) as Hcl' by (apply Nat.leb_le; lia).
  split; cbn -[cleaning]; try done.
  - destruct Hg as (n&Hg&Hn). exists n. split; [done|]. rewrite Hcl in Hn.
    by rewrite Hcl'.
  - intros Hd. destruct (Hh Hd). split; [lia|done].
  - intros s Es. by destruct (Hnb s).
  - by rewrite Hst.
  - intros Es. right; right. destruct (Hs Es) as [E|[E|E]]; [rewrite E in Hle; cbn in Hle; lia..|done].
  - intros Hpi H9. destruct (decide (rank c = 9%nat)); [by apply Hp'|]. apply Hp; [done|lia].
  - intros Ha H9. destruct (decide (rank c = 10%nat)); [by apply Hg'|]. apply Hgr; [done|lia].
  - intros Ha H9. destruct (decide (rank c = 11%nat)); [by apply Ht'|]. apply Hht; [done|lia].
  - by apply (Hx socks).
Qed.

(** Before the sockets the trace only grows by what the step has done. *)
Lemma unwind_early p c socks' sr extra socks :
  (rank (pc p) <= 10)%nat -> (rank c <= 11)%nat ->
  unwound (guard p) c = unwound (guard p) (pc p) ++ extra ->
  cleanup p = unwound (guard p) (pc p) ++ socks -> sockets_done p socks ->
  exists socks1, cleanup p ++ extra = unwound (guard p) c ++ socks1 /\
  sockets_done (moved p c sr socks' extra) socks1.
Proof.
  intros Hr Hc He Hcl (_&H0&_&_). exists []. rewrite Hcl, H0 by lia. rewrite app_nil_r, He, app_nil_r.
  split; [done|]. split_and!; cbn; [constructor|done|lia..].
Qed.

Lemma sockets_snoc p c socks' sr socks x :
  (11 <= rank (pc p))%nat -> rank c = S (rank (pc p)) ->
  cleanup p = unwound (guard p) (pc p) ++ socks ->
  Forall socket_step (socks ++ x) ->
  ((12 <= rank c)%nat -> socks' Grpc = true -> SocketKept Grpc ∈ socks ++ x) ->
  ((13 <= rank c)%nat -> socks' Http = true -> SocketKept Http ∈ socks ++ x) ->
  exists socks1, cleanup p ++ x = unwound (guard p) c ++ socks1 /\
  sockets_done (moved p c sr socks' x) socks1.
Proof.
  intros Hr Hc Hcl Hf Hg Hh. exists (socks ++ x). rewrite Hcl, <- app_assoc. split.
  - assert (forall k n, (11 <= n)%nat -> (k <= 11)%nat -> (k <=? n)%nat = true) as Hle
      by (intros; apply Nat.leb_le; lia).
    f_equal. unfold unwound. by rewrite !Hle by lia.
  - split_and!; try done. cbn. lia.
Qed.


Lemma inv_moved p c b sr x :
  inv p -> cleaning (pc p) = true -> rank c = S (rank (pc p)) -> (rank c <= 11)%nat ->
  http_stage c = false ->
  unwound (guard p) c = unwound (guard p) (pc p) ++ (if b : bool then [x] else []) ->
  (pipeline_handles (guard p) = true -> rank c = 9%nat -> pipeline_runs p = false) ->
  (api_handles (guard p) = true -> rank c = 10%nat -> threads p Grpc = Gone) ->
  (api_handles (guard p) = true -> rank c = 11%nat -> threads p Http = Gone) ->
  inv (moved p c sr (sockets p) (if b then [x] else [])).
Proof.
  intros Hi Hcl Hr Hle Hst Hun Hp Hg Ht. apply inv_unwind; try done.
  intros socks Hc Hd. eapply unwind_early; [lia|lia|done..].
Qed.

Lemma goto_cleaned p (b : bool) x c :
  goto (if b then cleaned p x else p) c =
  moved p c (stop_requests p) (sockets p) (if b then [x] else []).
Proof. destruct b; unfold moved, goto; cbn; [done|by rewrite app_nil_r]. Qed.
Lemma goto_stopped p (b : bool) x c :
  goto (if b then stop_focus (cleaned p x) else p) c =
  moved p c (if b then S (stop_requests p) else stop_requests p) (sockets p) (if b then [x] else []).
Proof. destruct b; unfold moved, goto; cbn; [done|by rewrite app_nil_r]. Qed.

Lemma unwound_next g c c' (b : bool) x k :
  rank c = k -> rank c' = S k ->
  nth (k - 6) [(uiohook g, UiohookStopped); (focus_hook g, FocusHookStopped);
    (pipeline_handles g, PipelineJoined); (api_handles g, ServerJoined Grpc);
    (api_handles g, ServerJoined Http)] (false, x) = (b, x) -> (6 <= k <= 10)%nat ->
  unwound g c' = unwound g c ++ (if b then [x] else []).
Proof.
  intros Hc Hc' Hn Hk. unfold unwound. rewrite Hc, Hc'.
  do 6 (destruct k as [|k]; [lia|]).
  do 5 (destruct k as [|k]; [cbn in Hn; injection Hn as <- <-; cbn;
    destruct g as [[] [] [] []]; done|]). lia.
Qed.

(** The removal of a socket. *)
Lemma inv_socket p s c ok :
  inv p -> pc p = CleanupSocket s -> rank c = S (rank (CleanupSocket s)) -> http_stage c = false ->
  inv (goto (cleanup_socket_file p s ok) c).
Proof.
  intros Hi E Hc Hst.
  assert (forall x socks', Forall socket_step x ->
    (forall s', socks' s' = true -> sockets p s' = true /\ (s' = s -> SocketKept s ∈ x)) ->
    inv (moved p c (stop_requests p) socks' x)) as Hmv.
  { intros x socks' Hx Hs. apply inv_unwind; try done; rewrite ?E; try done; rewrite ?Hc; try (destruct s; done).
    intros socks Hcl (Hf&_&H1&H2).
    apply (sockets_snoc p c socks' _ socks); rewrite ?E, ?Hc; try done; [destruct s; cbn; lia|by apply Forall_app|..].
    - intros _ [Hs1 Hs2]%Hs. apply elem_of_app. destruct s; [right; by apply Hs2|left]. apply H1; [|done].
      rewrite E. cbn. lia.
    - intros H13 [Hs1 Hs2]%Hs. apply elem_of_app. destruct s; [cbn in H13; lia|right; by apply Hs2]. }
  unfold cleanup_socket_file. destruct (sockets p s) eqn:Es; [destruct ok|].
  - apply (Hmv [SocketRemoved s]); [by repeat constructor|]. intros s'. cbn. unfold set_at.
    by destruct (decide (s' = s)).
  - apply (Hmv [SocketKept s]); [by repeat constructor|]. intros s' Hs'. split; [done|]. left.
  - specialize (Hmv [] (sockets p)). unfold moved in Hmv. rewrite app_nil_r in Hmv. apply Hmv; [done|].
    intros s' Hs'. split; [done|]. intros ->. congruence.
Qed.

Ltac next H := eapply H; [reflexivity|reflexivity|cbn; congruence|cbn; lia].

Lemma inv_cleaning p ok : inv p -> cleaning (pc p) = true -> inv (default p (main_step p ok)).
Proof.
  intros Hi Hcl. pose proof (fun c b sr x => inv_moved p c b sr x Hi Hcl) as Hmv.
  pose proof (fun c b x => unwound_next (guard p) (pc p) c b x) as Hnext.
  unfold_main. destruct (pc p) as [s|s|s|s| | | | | | | | | |[]|s|] eqn:E; try done;
    cbn [default mbind option_bind].
  - rewrite goto_cleaned. apply Hmv; try done; cbn; try lia; next Hnext.
  - rewrite goto_stopped. apply Hmv; try done; cbn; try lia; next Hnext.
  - destruct (pipeline_handles (guard p)) eqn:Eg.
    + destruct (pipeline_runs p) eqn:Er; [done|]. cbn [default mbind option_bind].
      rewrite (goto_cleaned p true). apply (Hmv _ true); try done; cbn; try lia; next (fun c => Hnext c true).
    + cbn [default mbind option_bind]. rewrite (goto_cleaned p false PipelineJoined).
      apply (Hmv _ false _ PipelineJoined); try done; cbn; try lia; next (fun c => Hnext c false PipelineJoined).
  - destruct (api_handles (guard p)) eqn:Eg.
    + destruct (threads p Grpc) eqn:Er; try done. cbn [default mbind option_bind].
      rewrite (goto_cleaned p true). apply (Hmv _ true); try done; cbn; try lia; next (fun c => Hnext c true).
    + cbn [default mbind option_bind]. rewrite (goto_cleaned p false (ServerJoined Grpc)).
      apply (Hmv _ false _ (ServerJoined Grpc)); try done; cbn; try lia; next (fun c => Hnext c false (ServerJoined Grpc)).
  - destruct (api_handles (guard p)) eqn:Eg.
    + destruct (threads p Http) eqn:Er; try done. cbn [default mbind option_bind].
      rewrite (goto_cleaned p true). apply (Hmv _ true); try done; cbn; try lia; next (fun c => Hnext c true).
    + cbn [default mbind option_bind]. rewrite (goto_cleaned p false (ServerJoined Http)).
      apply (Hmv _ false _ (ServerJoined Http)); try done; cbn; try lia; next (fun c => Hnext c false (ServerJoined Http)).
  - destruct s; by apply inv_socket.
Qed.

Lemma inv_step p a : inv p -> inv (default p (step p a)).
Proof.
  intros Hi. destruct a as [ok|s ok|s|e| |]; try (by apply inv_other).
  destruct (cleaning (pc p)) eqn:E; [by apply inv_cleaning|]. apply inv_starting; [done|].
  apply Nat.leb_gt in E. lia.
Qed.

Lemma process_inv_run p sched : inv p -> inv (run p sched).
Proof. revert p. induction sched as [|a sched IH]; intros p Hi; [done|]. by apply IH, inv_step. Qed.

Lemma run_app p s1 s2 : run p (s1 ++ s2) = run (run p s1) s2.
Proof. apply foldl_app. Qed.

Lemma schedule_cons p a sched : run p (a :: sched) = run (default p (step p a)) sched.
Proof. done. Qed.

(** ** What ends the pipeline *)
Definition ended (p : Process) : Prop :=
  KShutdown ∈ channel p \/ (pipeline_handles (guard p) = true /\ pipeline_runs p = false).

Lemma main_keeps_pipeline p ok : ended (default p (main_step p ok)) -> ended p.
Proof.
  unfold_main. unfold ended, goto, fail, hold, set_thread, set_socket, install.
  destruct (pc p) as [[]|[]|[]|[]| | | | | | | | | |s|s|] eqn:E; cbn; try tauto.
  all: repeat (case_match; cbn; try tauto).
  all: simplify_eq; cbn; intros [?|[? ?]]; auto; congruence.
Qed.

(** The channel carries the shutdown event, or has carried it, only by the signal
    handler. *)
Lemma ended_step p a :
  ended (default p (step p a)) -> ended p \/ (a = CtrlC /\ handler p = true).
Proof.
  destruct a as [ok|s ok|s|e| |]; cbn.
  - left. by eapply main_keeps_pipeline.
  - destruct (threads p s); try by left. destruct (_ && _); by left.
  - destruct (threads p s); by left.
  - destruct e; try (by left); destruct (_ || _); try (by left); unfold ended; cbn;
      (intros [[H|H%list_elem_of_singleton]%elem_of_app|H]; [by left; left|done|by left; right]).
  - destruct (handler p) eqn:E; [by right|by left].
  - left. revert H. unfold ended. destruct (pipeline_runs p) eqn:E; cbn; [|by rewrite E].
    destruct (channel p) as [|k q] eqn:Ec; cbn; [by rewrite Ec, E|].
    destruct k; cbn; rewrite elem_of_cons; tauto.
Qed.

Lemma ended_signalled stale sched :
  ended (run (start stale) sched) ->
  exists s1 s2, sched = s1 ++ CtrlC :: s2 /\ handler (run (start stale) s1) = true.
Proof.
  induction sched as [|a sched IH] using rev_ind; [by intros [?%not_elem_of_nil|[? ?]]|].
  rewrite run_app. cbn [run foldl]. intros [H|[-> Hh]]%ended_step; [|by exists sched, []].
  destruct (IH H) as (s1&s2&->&Hh). exists s1, (s2 ++ [a]). by rewrite <- app_assoc.
Qed.

(** ** Theorems *)

(** What the guard undoes when it holds [g], in order. *)
Definition undone (g : Guard) : list Cleanup :=
  (if uiohook g then [UiohookStopped] else []) ++
  (if focus_hook g then [FocusHookStopped] else []) ++
  (if pipeline_handles g then [PipelineJoined] else []) ++
  (if api_handles g then [ServerJoined Grpc; ServerJoined Http] else []).

Lemma unwound_returned g : unwound g Returned = undone g.
Proof. by destruct g as [[] [] [] []]. Qed.

(** The guard holds the pipeline as soon as it runs. *)
Lemma pipeline_held p a :
  (pipeline_runs p = true -> pipeline_handles (guard p) = true) ->
  pipeline_runs (default p (step p a)) = true -> pipeline_handles (guard (default p (step p a))) = true.
Proof.
  intros Hp. destruct a as [ok|s ok|s|e| |]; cbn [step].
  - unfold_main. unfold goto, fail, hold, set_thread, set_socket, install.
    destruct (pc p) as [[]|[]|[]|[]| | | | | | | | | |s|s|]; cbn; try done.
    all: repeat (case_match; cbn; try done); simplify_eq; cbn; auto; intros E; by rewrite Hp in *.
  - destruct (threads p s); try done. by destruct (_ && _).
  - by destruct (threads p s).
  - destruct e; try done; by destruct (_ || _).
  - by destruct (handler p).
  - destruct (pipeline_runs p) eqn:E; [|by cbn; rewrite E]. destruct (channel p) as [|[] q]; cbn; auto.
Qed.

Lemma pipeline_held_run stale sched :
  pipeline_runs (run (start stale) sched) = true -> pipeline_handles (guard (run (start stale) sched)) = true.
Proof.
  induction sched as [|a sched IH] using rev_ind; [done|]. rewrite run_app. by apply pipeline_held.
Qed.

(** C26: wherever the start fails, and in any interleaving: when [start_main_thread]
    returns, its guard has undone what it holds and nothing else, in the reverse order of
    the start (the input hook and the focus hook stopped, the pipeline joined after its
    end, both servers joined after theirs), the pipeline does not run, and every socket
    file is gone unless its removal failed.  Of the threads of the servers none is left
    but one: a gRPC server that was up when the HTTP server failed to start is not in the
    guard and goes on serving.  A return without an error is after a complete start. *)
Theorem shutdown_unwinds stale sched :
  let p := run (start stale) sched in
  pc p = Returned -> exists n socks,
  guard p = guard_of n /\ (result p = inl () -> n = 5%nat) /\
  cleanup p = undone (guard p) ++ socks /\ Forall socket_step socks /\
  (forall s, sockets p s = true -> SocketKept s ∈ socks) /\
  pipeline_runs p = false /\
  (api_handles (guard p) = true -> forall s, threads p s = Gone) /\
  (forall s, threads p s = NotSpawned \/ threads p s = Gone \/
     s = Grpc /\ threads p s = Serving /\ api_handles (guard p) = false /\ result p <> inl ()).
Proof.
  intros p Hpc. destruct (process_inv_run _ sched (inv_start stale)) as [Hg _ Hb _ Hserve _ Hp Hgr Hht Hc].
  pose proof (pipeline_held_run stale sched) as Hheld.
  fold p in Hg, Hb, Hserve, Hp, Hgr, Hht, Hc, Hheld. rewrite Hpc in *. destruct Hg as (n&Hg&_&Hn).
  destruct Hc as (socks&Hc&Hf&_&H1&H2). rewrite Hpc in H1, H2. cbn in H1, H2, Hn. exists n, socks.
  assert (api_handles (guard p) = true -> forall s, threads p s = Gone) as Hgone.
  { intros E []; [apply Hgr|apply Hht]; done || (cbn; lia). }
  split_and!; try done.
  - by rewrite Hc, unwound_returned.
  - intros []; [apply H1|apply H2]; lia.
  - destruct (pipeline_runs p); [|done]. apply Hp; [by apply Hheld|cbn; lia].
  - intros s. destruct (threads p s) eqn:Es; [by left|by destruct (Hb s Es)| |by right; left].
    right; right. destruct s.
    + split; [done|]. split; [done|]. destruct (api_handles (guard p)) eqn:E.
      { by rewrite Hgone in Es. }
      split; [done|]. intros ->%Hn. by rewrite Hg in E.
    + destruct (Hserve Es) as [E|[E|E]]; [done..|]. by rewrite Hgone in Es.
Qed.

(** And it is left: the HTTP server's thread cannot be started when the gRPC server
    serves; the main thread returns the error and nothing has stopped that server. *)
Theorem grpc_left_serving stale :
  let p := run (start stale) [Main true; Main true; Bind Grpc true; Main true;
    Main true; Main false; Main true; Main true; Main true; Main true; Main true; Main true; Main true] in
  pc p = Returned /\ result p = inr "spawn server thread" /\ threads p Grpc = Serving /\
  cleanup p = SocketRemoved Grpc :: [].
Proof. by vm_compute. Qed.

(** C38: once the pipeline has been started, [start_main_thread] returns only after a
    Ctrl+C that came when it was handled: an error of a later step of the start, or of a
    hook, waits in the guard for a signal, and one that comes before the handler is
    installed waits for ever. *)
Theorem return_needs_signal stale sched :
  let p := run (start stale) sched in
  pipeline_handles (guard p) = true -> pc p = Returned ->
  exists s1 s2, sched = s1 ++ CtrlC :: s2 /\ handler (run (start stale) s1) = true.
Proof.
  intros p Hg Hpc. apply ended_signalled. right. split; [done|].
  apply (iv_pipeline _ (process_inv_run _ sched (inv_start stale))); fold p; [done|rewrite Hpc; cbn; lia].
Qed.

Lemma main_keeps_http p ok :
  inv p -> threads p Http = Serving -> threads (default p (main_step p ok)) Http = Serving.
Proof.
  intros Hi Ht. assert (pc p <> SpawnServer Http) as Hne.
  { intros E. destruct (iv_serving _ Hi Ht) as [E'|[E'|Hapi]]; [congruence..|].
    destruct (iv_guard _ Hi) as (n&Hg&Hn). rewrite (guard_of_rank p n) in Hapi; [done|done|done|by rewrite E]. }
  unfold_main. unfold goto, fail, hold, set_thread, set_socket, install.
  destruct (pc p) as [[]|[]|[]|[]| | | | | | | | | |s|s|] eqn:E; cbn; try done.
  all: repeat (case_match; cbn; try done).
  all: by simplify_eq.
Qed.

Lemma http_stays p a :
  inv p -> a <> AcceptFails Http -> threads p Http = Serving ->
  threads (default p (step p a)) Http = Serving.
Proof.
  intros Hi Ha Ht. destruct a as [ok|s ok|s|e| |]; cbn; [by apply main_keeps_http|..].
  - destruct s; [|by rewrite Ht]. destruct (threads p Grpc); [done| |done..].
    by destruct (_ && _).
  - destruct s; [|done]. by destruct (threads p Grpc).
  - destruct e; [| | | |done]; by destruct (_ || _).
  - by destruct (handler p).
  - destruct (pipeline_runs p); [|done]. by destruct (channel p) as [|[] q].
Qed.

(** C14: Once the HTTP server accepts connections, [start_main_thread] does not return
    unless accepting fails: nothing tells the servers to stop, and the guard joins their
    threads.  So after a Ctrl+C the daemon has stopped its hooks and its pipeline and
    then waits for ever, with its sockets in place. *)
Theorem servers_block_shutdown stale s1 s2 :
  threads (run (start stale) s1) Http = Serving -> AcceptFails Http ∉ s2 ->
  pc (run (start stale) (s1 ++ s2)) <> Returned.
Proof.
  intros Ht Hs. rewrite run_app. pose proof (process_inv_run _ s1 (inv_start stale)) as Hi.
  revert Ht Hi. generalize (run (start stale) s1) as p.
  induction s2 as [|a s2 IH]; intros p Ht Hi.
  - cbn. intros E. destruct (iv_serving _ Hi Ht) as [E'|[E'|Hapi]]; [congruence..|].
    by rewrite (iv_http _ Hi Hapi) in Ht by (rewrite E; cbn; lia).
  - rewrite not_elem_of_cons in Hs. destruct Hs as [Ha Hs]. cbn [run foldl].
    apply (IH Hs); [by apply http_stays|by apply inv_step].
Qed.

(** The signal, the pipeline's remaining events, the end of both servers, and the main
    thread. *)
Definition wind_down (p : Process) : list Actor :=
  CtrlC :: replicate (S (length (channel p))) Pipeline ++
  [AcceptFails Grpc; AcceptFails Http] ++ replicate 9 (Main true).

Lemma pipeline_drains n p q b :
  KShutdown ∈ q -> (length q <= n)%nat ->
  exists q', run (set_pipeline p q b) (replicate n Pipeline) = set_pipeline p q' false.
Proof.
  revert q b. induction n as [|n IH]; intros q b Hq Hn.
  - destruct q; [by apply not_elem_of_nil in Hq|cbn in Hn; lia].
  - assert (forall q, exists q', run (set_pipeline p q false) (replicate n Pipeline) = set_pipeline p q' false)
      as Hoff by (intros q0; exists q0; clear; induction n; [done|by cbn]).
    destruct b; [|apply (Hoff q)]. destruct q as [|k q]; [by apply not_elem_of_nil in Hq|].
    cbn in Hn. apply elem_of_cons in Hq. destruct k; cbn;
      try (destruct Hq as [?|Hq]; [done|]; apply (IH q true); [done|lia]). apply Hoff.
Qed.

(** Nothing holds the main thread up any more. *)
Definition unblocked (p : Process) : Prop :=
  (4 <= rank (pc p))%nat /\ pipeline_runs p = false /\
  (api_handles (guard p) = true -> forall s, threads p s = Gone).

Lemma main_progress p :
  unblocked p -> (rank (pc p) < 13)%nat ->
  unblocked (default p (main_step p true)) /\
  rank (pc (default p (main_step p true))) = S (rank (pc p)).
Proof.
  intros (Hr&Hp&Ht) Hlt. unfold unblocked. unfold_main.
  destruct (pc p) as [[]|[]|[]|[]| | | | | | | | | |[]|[]|] eqn:E; cbn in Hr, Hlt; try lia; cbn.
  all: try destruct (api_handles (guard p)) eqn:Ea; try rewrite (Ht eq_refl).
  all: repeat (case_match; cbn); try congruence.
  all: cbn; rewrite ?Ea; by split_and!; try lia.
Qed.

Lemma main_finishes k p :
  unblocked p -> (13 <= rank (pc p) + k)%nat -> pc (run p (replicate k (Main true))) = Returned.
Proof.
  revert p. induction k as [|k IH]; intros p Hu Hk.
  - cbn. assert (rank (pc p) <= 13)%nat by (destruct (pc p) as [| | | | | | | | | | | | |[]|[]|]; cbn; lia).
    destruct (pc p) as [[]|[]|[]|[]| | | | | | | | | |[]|[]|] eqn:E; cbn in *; lia || done.
  - destruct (decide (rank (pc p) < 13)%nat) as [Hlt|Hge].
    + destruct (main_progress p Hu Hlt) as [Hu' Hr']. cbn. apply IH; [done|]. rewrite Hr'. lia.
    + assert (pc p = Returned) as E.
      { destruct (pc p) as [[]|[]|[]|[]| | | | | | | | | |[]|[]|]; cbn in Hge; lia || done. }
      cbn. unfold_main. rewrite E. cbn. apply IH; [done|lia].
Qed.

(** C40: Nothing else stands in the way: from every state in which Ctrl+C is handled, the
    signal, the pipeline's remaining events and the end of the two servers bring
    [start_main_thread] to its return. *)
Theorem shutdown_completes stale sched :
  let p := run (start stale) sched in
  handler p = true -> pc (run p (wind_down p)) = Returned.
Proof.
  intros p Hh. pose proof (process_inv_run _ sched (inv_start stale)) as Hi. fold p in Hi. clearbody p.
  destruct (iv_handler _ Hi Hh) as [Hr Hg]. unfold wind_down. rewrite schedule_cons. cbn [step]. rewrite Hh.
  unfold on_ctrl_c. cbn [default]. rewrite !run_app.
  destruct (pipeline_drains (S (length (channel p))) (stop_focus p) (channel p ++ [KShutdown]) (pipeline_runs p))
    as (q&Hq); [apply elem_of_app; right; by apply list_elem_of_singleton|rewrite length_app; cbn; lia|].
  change (stop_focus (set_pipeline p (channel p ++ [KShutdown]) (pipeline_runs p)))
    with (set_pipeline (stop_focus p) (channel p ++ [KShutdown]) (pipeline_runs p)).
  unfold id. rewrite Hq. apply main_finishes; [|].
  - rewrite !schedule_cons. cbn [step threads set_pipeline stop_focus].
    assert (api_handles (guard p) = true) as Ha .
    { destruct (iv_guard _ Hi) as (n&Hn&_). rewrite Hn in Hg |- *. apply Nat.leb_le in Hg.
      apply Nat.leb_le. lia. }
    destruct (iv_up _ Hi Grpc Ha) as [E1|E1], (iv_up _ Hi Http Ha) as [E2|E2]; rewrite E1; cbn;
      rewrite ?set_at_ne, ?E2 by done; cbn;
      (split_and!; [done|done|]); intros _ []; cbn; rewrite ?set_at_eq, ?set_at_ne, ?set_at_eq by done; done.
  - rewrite !schedule_cons. cbn. repeat (case_match; cbn); lia.
Qed.

(** ** Witnesses *)
(** A complete start, over a stale socket. *)
Definition full_start : list Actor :=
  [Main true; Main true; Bind Grpc true; Main true; Main true; Main true; Bind Http true; Main true;
   Main true; Main true; Main true; Main true; Main true].
Definition one_stale : Server -> bool := fun s => bool_decide (s = Grpc).

(** The focus worker cannot be started, and Ctrl+C is not handled yet. *)
Definition failed_start : list Actor :=
  [Main true; Main true; Bind Grpc true; Main true; Main true; Main true; Bind Http true; Main true;
   Main true; Main true; Main false].

Lemma shutdown_unwinds_witness :
  let p := run (start one_stale) (full_start ++ wind_down (run (start one_stale) full_start)) in
  cleanup p = [UiohookStopped; FocusHookStopped; PipelineJoined; ServerJoined Grpc; ServerJoined Http;
               SocketRemoved Grpc; SocketRemoved Http] /\ forall s, threads p s = Gone.
Proof.
  intros p. destruct (shutdown_unwinds one_stale (full_start ++ wind_down (run (start one_stale) full_start)))
    as (n&socks&_&_&_&_&_&_&Ht&_); [by vm_compute|].
  split; [by vm_compute|]. apply Ht. by vm_compute.
Defined.

Lemma return_needs_signal_witness :
  exists s1 s2, full_start ++ wind_down (run (start one_stale) full_start) = s1 ++ CtrlC :: s2 /\
  handler (run (start one_stale) s1) = true.
Proof.
  apply (return_needs_signal one_stale (full_start ++ wind_down (run (start one_stale) full_start)));
    by vm_compute.
Defined.

Lemma servers_block_shutdown_witness :
  pc (run (start one_stale) (full_start ++ [Main true; CtrlC; Pipeline; Main true; Main true; Main true;
    Main true; Main true; Main true])) <> Returned.
Proof.
  apply (servers_block_shutdown one_stale); [by vm_compute|].
  repeat (rewrite not_elem_of_cons; split; [done|]). apply not_elem_of_nil.
Defined.

Lemma shutdown_completes_witness :
  let p := run (start one_stale) full_start in pc (run p (wind_down p)) = Returned.
Proof. apply (shutdown_completes one_stale full_start). by vm_compute. Defined.

(** A start that fails waits in its guard for ever. *)
Example failed_start_hangs :
  let p := run (start one_stale) failed_start in
  result p = inr "spawn focus worker" /\
  pc (run p [Main true; Main true; Main true; CtrlC; Pipeline; Main true]) = CleanupPipeline.
Proof. by vm_compute. Qed.
