(* ===== verification/Config.v ===== *)
(** The configuration (src/crates/common/src/config.rs) and the paths of the workspace
    (src/crates/common/src/paths.rs).

    The [config] crate is a parameter: its values and how a value is read at a type.
    Sources are merged in the order they are added, a later one over an earlier one. *)
From Stdlib Require Import SpecFloat.
From S2P Require Import Prelude.

Inductive DatabaseBackendConfig := Duckdb | Sqlite3.
#[export] Instance backend_eq_dec : EqDecision DatabaseBackendConfig.
Proof. solve_decision. Defined.

(** A double precision number. *)
Definition f64 : Type := spec_float.
Definition f64_one : f64 := binary_normalize 53 1024 1 0 false.

Record AppConfig := {
  workspace_dir : string;
  db_backend : DatabaseBackendConfig;
  tracker_db_backend : DatabaseBackendConfig;
  persist_raw_events : bool;
  retention_minutes : Z;
  active_grace_secs : Z;
  idle_threshold_secs : Z;
  ephemeral_max_duration_secs : Z;
  ephemeral_min_distinct_ids : Z;
  max_windows_per_app : Z;
  ephemeral_app_max_duration_secs : Z;
  ephemeral_app_min_distinct_procs : Z;
  pid_cache_capacity : Z;
  title_cache_capacity : Z;
  title_cache_ttl_secs : Z;
  focus_interner_max_strings : Z;
  focus_window_coalesce_ms : Z;
  focus_allow_zero_window_id : bool;
  tracker_enabled : bool;
  tracker_interval_secs : f64;
  tracker_batch_size : Z;
  tracker_refresh_secs : f64;
  monitor_apps_sleep_filter_enabled : bool;
  duckdb_memory_limit_mb_main : Z;
  duckdb_memory_limit_mb_tracker : Z
}.

(** ** The config crate *)
Inductive Value := VBool (b : bool) | VInt (z : Z) | VFloat (f : f64) | VString (s : string) | VOther.

Class ConfigCrate := {
  as_bool : Value -> option bool;
  as_unsigned : Value -> option Z;
  as_f64 : Value -> option f64;
  as_string : Value -> option string
}.
(** A value of the very type that is asked for is read as it is. *)
Class ConfigCrateLaws `{ConfigCrate} : Prop := {
  as_bool_bool b : as_bool (VBool b) = Some b;
  as_unsigned_int z : 0 <= z < 2 ^ 63 -> as_unsigned (VInt z) = Some z;
  as_f64_float f : as_f64 (VFloat f) = Some f;
  as_string_string s : as_string (VString s) = Some s
}.

Notation Source := (gmap string Value).

(** [add_source], and [set_default]. *)
Definition add_source (source config : Source) : Source := source ∪ config.
Definition set_default (config : Source) (kv : string * Value) : Source := <[kv.1 := kv.2]> config.

Notation Loaded A := (A + string)%type.
Definition and_then {A B} (m : Loaded A) (k : A -> Loaded B) : Loaded B :=
  match m with inl a => k a | inr e => inr e end.
Notation "'let!' x := m 'in' k" := (and_then m (fun x => k))
  (at level 200, x name, m at level 100, k at level 200).

Section config.
Context `{ConfigCrate}.

(** [impl Default for AppConfig]: the first directory there is. *)
Definition base_dir (home : option string) (env_home : option string) (cwd : option string) : string :=
  match home with
  | Some d => d
  | None => match env_home with
    | Some d => d
    | None => match cwd with Some d => d | None => "." end
    end
  end.
Definition join (dir name : string) : string := dir +:+ "/" +:+ name.

Definition app_config_default (base : string) : AppConfig := {|
  workspace_dir := join base ".kronical";
  db_backend := Duckdb;
  tracker_db_backend := Duckdb;
  persist_raw_events := false;
  retention_minutes := 72 * 60;
  active_grace_secs := 30;
  idle_threshold_secs := 300;
  ephemeral_max_duration_secs := 60;
  ephemeral_min_distinct_ids := 3;
  max_windows_per_app := 30;
  ephemeral_app_max_duration_secs := 60;
  ephemeral_app_min_distinct_procs := 3;
  pid_cache_capacity := 1024;
  title_cache_capacity := 512;
  title_cache_ttl_secs := 0;
  focus_interner_max_strings := 4096;
  focus_window_coalesce_ms := 100;
  focus_allow_zero_window_id := true;
  tracker_enabled := false;
  tracker_interval_secs := f64_one;
  tracker_batch_size := 60;
  tracker_refresh_secs := f64_one;
  monitor_apps_sleep_filter_enabled := false;
  duckdb_memory_limit_mb_main := 10;
  duckdb_memory_limit_mb_tracker := 10 |}.

(** The defaults that [load] gives the builder. *)
Definition builder_defaults (workspace : string) : list (string * Value) := [
  ("workspace_dir", VString workspace);
  ("db_backend", VString "duckdb");
  ("tracker_db_backend", VString "duckdb");
  ("persist_raw_events", VBool false);
  ("retention_minutes", VInt (72 * 60));
  ("active_grace_secs", VInt 30);
  ("idle_threshold_secs", VInt 300);
  ("ephemeral_max_duration_secs", VInt 60);
  ("ephemeral_min_distinct_ids", VInt 3);
  ("max_windows_per_app", VInt 30);
  ("ephemeral_app_max_duration_secs", VInt 60);
  ("ephemeral_app_min_distinct_procs", VInt 3);
  ("pid_cache_capacity", VInt 1024);
  ("title_cache_capacity", VInt 512);
  ("title_cache_ttl_secs", VInt 0);
  ("focus_interner_max_strings", VInt 4096);
  ("focus_window_coalesce_ms", VInt 100);
  ("focus_allow_zero_window_id", VBool true);
  ("tracker_enabled", VBool false);
  ("tracker_interval_secs", VFloat f64_one);
  ("tracker_batch_size", VInt 60);
  ("tracker_refresh_secs", VFloat f64_one);
  ("monitor_apps_sleep_filter_enabled", VBool false);
  ("duckdb_memory_limit_mb_main", VInt 10);
  ("duckdb_memory_limit_mb_tracker", VInt 10)].

(** The variants of the backend, in lower case. *)
Definition as_backend (v : Value) : option DatabaseBackendConfig :=
  s ← as_string v;
  if bool_decide (s = "duckdb") then Some Duckdb
  else if bool_decide (s = "sqlite3") then Some Sqlite3 else None.

(** A field of the configuration. *)
Definition field {A} (config : Source) (key : string) (as_ : Value -> option A) : Loaded A :=
  match config !! key with
  | None => inr ("missing field `" +:+ key +:+ "`")
  | Some v => match as_ v with Some a => inl a | None => inr ("invalid value for key `" +:+ key +:+ "`") end
  end.

Definition try_deserialize (c : Source) : Loaded AppConfig :=
  let! c1 := field c "workspace_dir" as_string in
  let! c2 := field c "db_backend" as_backend in
  let! c3 := field c "tracker_db_backend" as_backend in
  let! c4 := field c "persist_raw_events" as_bool in
  let! c5 := field c "retention_minutes" as_unsigned in
  let! c6 := field c "active_grace_secs" as_unsigned in
  let! c7 := field c "idle_threshold_secs" as_unsigned in
  let! c8 := field c "ephemeral_max_duration_secs" as_unsigned in
  let! c9 := field c "ephemeral_min_distinct_ids" as_unsigned in
  let! c10 := field c "max_windows_per_app" as_unsigned in
  let! c11 := field c "ephemeral_app_max_duration_secs" as_unsigned in
  let! c12 := field c "ephemeral_app_min_distinct_procs" as_unsigned in
  let! c13 := field c "pid_cache_capacity" as_unsigned in
  let! c14 := field c "title_cache_capacity" as_unsigned in
  let! c15 := field c "title_cache_ttl_secs" as_unsigned in
  let! c16 := field c "focus_interner_max_strings" as_unsigned in
  let! c17 := field c "focus_window_coalesce_ms" as_unsigned in
  let! c18 := field c "focus_allow_zero_window_id" as_bool in
  let! c19 := field c "tracker_enabled" as_bool in
  let! c20 := field c "tracker_interval_secs" as_f64 in
  let! c21 := field c "tracker_batch_size" as_unsigned in
  let! c22 := field c "tracker_refresh_secs" as_f64 in
  let! c23 := field c "monitor_apps_sleep_filter_enabled" as_bool in
  let! c24 := field c "duckdb_memory_limit_mb_main" as_unsigned in
  let! c25 := field c "duckdb_memory_limit_mb_tracker" as_unsigned in
  inl (Build_AppConfig c1 c2 c3 c4 c5 c6 c7 c8 c9 c10 c11 c12 c13 c14 c15 c16 c17 c18 c19 c20 c21 c22
    c23 c24 c25).

(** [AppConfig::load]: [file] is what [config.toml] holds, if it is there, and [env] the
    variables with the program's prefix. *)
Definition load (base : string) (file : option (Loaded Source)) (env : Source) : Loaded AppConfig :=
  let workspace := workspace_dir (app_config_default base) in
  let builder := foldl set_default ∅ (builder_defaults workspace) in
  let! config := match file with
    | None => inl builder
    | Some (inl f) => inl (add_source f builder)
    | Some (inr e) => inr e
    end in
  try_deserialize (add_source env config).

(** ** Paths *)
Definition pid_file (workspace : string) : string := join workspace "kronid.pid".
Definition run_id_file (workspace : string) : string := join workspace "kronid.run_id".
Definition grpc_uds (workspace : string) : string := join workspace "kronid.sock".
Definition http_uds (workspace : string) : string := join workspace "kronid.http.sock".
Definition tracker_db_with_backend (workspace : string) (backend : DatabaseBackendConfig) : string :=
  match backend with
  | Duckdb => join workspace "system-tracker.duckdb"
  | Sqlite3 => join workspace "system-tracker.sqlite3"
  end.
Definition tracker_db (workspace : string) : string := tracker_db_with_backend workspace Duckdb.
(** [create_data_store] of kronid. *)
Definition data_file (config : AppConfig) : string :=
  match db_backend config with
  | Duckdb => join (workspace_dir config) "data.duckdb"
  | Sqlite3 => join (workspace_dir config) "data.sqlite3"
  end.
End config.

(** ** What is loaded *)
Section loading.
Context `{ConfigCrateLaws}.

(** A field comes from the environment, else from the file, else it has its default. *)
Definition reads {A} (f env : Source) (key : string) (as_ : Value -> option A) (dflt x : A) : Prop :=
  match env !! key with
  | Some v => as_ v = Some x
  | None => match f !! key with Some v => as_ v = Some x | None => x = dflt end
  end.

Definition configures (f env : Source) (d c : AppConfig) : Prop :=
  reads f env "workspace_dir" as_string (workspace_dir d) (workspace_dir c) /\
  reads f env "db_backend" as_backend (db_backend d) (db_backend c) /\
  reads f env "tracker_db_backend" as_backend (tracker_db_backend d) (tracker_db_backend c) /\
  reads f env "persist_raw_events" as_bool (persist_raw_events d) (persist_raw_events c) /\
  reads f env "retention_minutes" as_unsigned (retention_minutes d) (retention_minutes c) /\
  reads f env "active_grace_secs" as_unsigned (active_grace_secs d) (active_grace_secs c) /\
  reads f env "idle_threshold_secs" as_unsigned (idle_threshold_secs d) (idle_threshold_secs c) /\
  reads f env "ephemeral_max_duration_secs" as_unsigned
    (ephemeral_max_duration_secs d) (ephemeral_max_duration_secs c) /\
  reads f env "ephemeral_min_distinct_ids" as_unsigned
    (ephemeral_min_distinct_ids d) (ephemeral_min_distinct_ids c) /\
  reads f env "max_windows_per_app" as_unsigned (max_windows_per_app d) (max_windows_per_app c) /\
  reads f env "ephemeral_app_max_duration_secs" as_unsigned
    (ephemeral_app_max_duration_secs d) (ephemeral_app_max_duration_secs c) /\
  reads f env "ephemeral_app_min_distinct_procs" as_unsigned
    (ephemeral_app_min_distinct_procs d) (ephemeral_app_min_distinct_procs c) /\
  reads f env "pid_cache_capacity" as_unsigned (pid_cache_capacity d) (pid_cache_capacity c) /\
  reads f env "title_cache_capacity" as_unsigned (title_cache_capacity d) (title_cache_capacity c) /\
  reads f env "title_cache_ttl_secs" as_unsigned (title_cache_ttl_secs d) (title_cache_ttl_secs c) /\
  reads f env "focus_interner_max_strings" as_unsigned
    (focus_interner_max_strings d) (focus_interner_max_strings c) /\
  reads f env "focus_window_coalesce_ms" as_unsigned
    (focus_window_coalesce_ms d) (focus_window_coalesce_ms c) /\
  reads f env "focus_allow_zero_window_id" as_bool
    (focus_allow_zero_window_id d) (focus_allow_zero_window_id c) /\
  reads f env "tracker_enabled" as_bool (tracker_enabled d) (tracker_enabled c) /\
  reads f env "tracker_interval_secs" as_f64 (tracker_interval_secs d) (tracker_interval_secs c) /\
  reads f env "tracker_batch_size" as_unsigned (tracker_batch_size d) (tracker_batch_size c) /\
  reads f env "tracker_refresh_secs" as_f64 (tracker_refresh_secs d) (tracker_refresh_secs c) /\
  reads f env "monitor_apps_sleep_filter_enabled" as_bool
    (monitor_apps_sleep_filter_enabled d) (monitor_apps_sleep_filter_enabled c) /\
  reads f env "duckdb_memory_limit_mb_main" as_unsigned
    (duckdb_memory_limit_mb_main d) (duckdb_memory_limit_mb_main c) /\
  reads f env "duckdb_memory_limit_mb_tracker" as_unsigned
    (duckdb_memory_limit_mb_tracker d) (duckdb_memory_limit_mb_tracker c).

Lemma and_then_inl {A B} (m : Loaded A) (k : A -> Loaded B) b :
  and_then m k = inl b <-> exists a, m = inl a /\ k a = inl b.
Proof. destruct m as [a|e]; cbn; naive_solver. Qed.

Notation builder base := (foldl set_default ∅ (builder_defaults (workspace_dir (app_config_default base)))).

Lemma field_reads {A} (b f env : Source) key (as_ : Value -> option A) v d x :
  b !! key = Some v -> as_ v = Some d ->
  field (add_source env (add_source f b)) key as_ = inl x <-> reads f env key as_ d x.
Proof.
  intros Hb Hd. unfold field, reads, add_source. rewrite !lookup_union, Hb.
  destruct (env !! key) as [w|]; [|destruct (f !! key) as [w|]].
  - rewrite union_Some_l. destruct (as_ w); naive_solver.
  - replace (None ∪ (Some w ∪ Some v)) with (Some w) by done. destruct (as_ w); naive_solver.
  - replace (None ∪ (None ∪ Some v)) with (Some v) by done. rewrite Hd. naive_solver.
Qed.

Lemma backend_default : as_backend (VString "duckdb") = Some Duckdb.
Proof. unfold as_backend. by rewrite as_string_string. Qed.

Lemma add_nothing (c : Source) : add_source ∅ c = c.
Proof. apply (left_id_L ∅ (∪)). Qed.

Lemma set_defaults_lookup l (m : Source) key v :
  NoDup (map fst l) -> (key, v) ∈ l -> foldl set_default m l !! key = Some v.
Proof.
  induction l as [|[k w] l IH] using rev_ind; [by intros _ ?%not_elem_of_nil|].
  rewrite map_app, NoDup_app. intros (Hl&Hd&_). rewrite foldl_app. cbn. unfold set_default at 1. cbn.
  rewrite elem_of_app, list_elem_of_singleton. intros [Hin|[= -> ->]]; [|apply lookup_insert_eq].
  rewrite lookup_insert_ne; [by apply IH|]. intros ->. apply (Hd key); [|by left].
  apply list_elem_of_fmap. by exists (key, v).
Qed.

(** The table of defaults and the [Default] of the record say the same. *)
Lemma builder_lookup base key v :
  (key, v) ∈ builder_defaults (workspace_dir (app_config_default base)) -> builder base !! key = Some v.
Proof. apply set_defaults_lookup, (bool_decide_unpack _). by vm_compute. Qed.

(** A field against its default. *)
Lemma default_field {A} base f env key (as_ : Value -> option A) v d x :
  (key, v) ∈ builder_defaults (workspace_dir (app_config_default base)) -> as_ v = Some d ->
  field (add_source env (add_source f (builder base))) key as_ = inl x <-> reads f env key as_ d x.
Proof. intros Hv. by eapply field_reads, builder_lookup. Qed.

Ltac in_defaults := cbn [builder_defaults]; repeat first [apply list_elem_of_here|apply list_elem_of_further].
Ltac default_value := first [exact (as_bool_bool _) | apply as_unsigned_int; cbn; lia | exact (as_f64_float _)
  | exact (as_string_string _) | exact backend_default].

Lemma deserialize_spec base f env c :
  try_deserialize (add_source env (add_source f (builder base))) = inl c <->
  configures f env (app_config_default base) c.
Proof.
  split.
  - unfold try_deserialize. intros Hl. repeat (apply and_then_inl in Hl as (?&?&Hl)).
    injection Hl as <-. unfold configures. repeat split.
    all: match goal with H : field _ ?key _ = _ |- reads _ _ ?key _ _ _ =>
      eapply default_field; [in_defaults|default_value|exact H] end.
  - intros Hc. unfold configures in Hc. decompose [and] Hc. clear Hc. unfold try_deserialize.
    repeat (apply and_then_inl; eexists; split;
      [eapply default_field; [in_defaults|default_value|eassumption]|]).
    by destruct c.
Qed.

(** C34: What [load] answers, exactly: every field comes from the environment, or else
    from the configuration file, or else is the one of [AppConfig::default] (so the two
    tables of defaults in the source agree); and it answers with an error just when the
    file cannot be read or a field that is given cannot be read at its type: such a field
    is never replaced by its default. *)
Theorem load_spec base file env c :
  load base file env = inl c <->
  exists f, (file = None /\ f = ∅ \/ file = Some (inl f)) /\ configures f env (app_config_default base) c.
Proof.
  unfold load. destruct file as [[f|e]|]; cbn [and_then].
  - rewrite deserialize_spec. naive_solver.
  - split; [done|]. by intros (f&[[? ?]|?]&_).
  - rewrite <- (add_nothing (foldl _ _ _)), deserialize_spec. naive_solver.
Qed.

(** Nothing given is the default. *)
Lemma configures_default d : configures ∅ ∅ d d.
Proof. unfold configures, reads. by rewrite !lookup_empty. Qed.
End loading.

(** ** Witnesses *)
(** Texts of the environment are read as what they say. *)
Definition demo_crate : ConfigCrate := {|
  as_bool v := match v with
    | VBool b => Some b
    | VString s => if bool_decide (s = "true") then Some true
                   else if bool_decide (s = "false") then Some false else None
    | _ => None end;
  as_unsigned v := match v with VInt z => if 0 <=? z then Some z else None | _ => None end;
  as_f64 v := match v with VFloat f => Some f | _ => None end;
  as_string v := match v with VString s => Some s | _ => None end |}.
Lemma demo_crate_laws : @ConfigCrateLaws demo_crate.
Proof. split; cbn; try done. intros z Hz. by rewrite (proj2 (Z.leb_le _ _)) by lia. Qed.

Definition demo_file : Source := {["db_backend" := VString "sqlite3"; "tracker_enabled" := VBool true]}.
Definition demo_env : Source := {["tracker_enabled" := VString "false"]}.

(** The default but for the backend. *)
Definition demo_config : AppConfig :=
  let d := app_config_default "/home/me" in
  Build_AppConfig (workspace_dir d) Sqlite3 Duckdb false 4320 30 300 60 3 30 60 3 1024 512 0 4096 100 true
    false f64_one 60 f64_one false 10 10.

Lemma load_spec_witness : @load demo_crate "/home/me" (Some (inl demo_file)) demo_env = inl demo_config.
Proof.
  apply (@load_spec demo_crate demo_crate_laws). exists demo_file. split; [by right|].
  unfold configures. repeat split.
Defined.
