(* ===== verification/SleepPeriod.v ===== *)
(** The period that [kronictl monitor] shows: the last night, found in the records of the
    login window ([find_sleep_period] and [select_apps_period] of src/bin/kronictl.rs).

    The local time zone is a parameter; a [DateTime<Local>] is its instant. *)
From Stdlib Require Import SpecFloat.
From S2P Require Import Prelude Events Records AppTree Config.

(** ** Double precision numbers *)
Definition f64_of_Z (z : Z) : f64 := binary_normalize 53 1024 z 0 false.
Definition f64_add : f64 -> f64 -> f64 := SFadd 53 1024.
Definition f64_sub : f64 -> f64 -> f64 := SFsub 53 1024.
Definition f64_mul : f64 -> f64 -> f64 := SFmul 53 1024.
Definition f64_div : f64 -> f64 -> f64 := SFdiv 53 1024.
Definition f64_ltb : f64 -> f64 -> bool := SFltb.
(** [f64::min]: the other operand when one is not a number. *)
Definition f64_min (a b : f64) : f64 :=
  match a, b with
  | S754_nan, _ => b
  | _, S754_nan => a
  | _, _ => if f64_ltb b a then b else a
  end.
(** A literal with one digit behind the point: the number nearest to it. *)
Definition f64_tenths (n : Z) : f64 := f64_div (f64_of_Z n) (f64_of_Z 10).

(** ** The local time *)
Class LocalZone := {
  seconds_from_midnight : instant -> Z;
  (** [date_naive().and_hms_opt(h, 0, 0)] of the day of a time, read in the zone: the
      earliest and the latest instant with that reading. *)
  at_hour_earliest : instant -> Z -> option instant;
  at_hour_latest : instant -> Z -> option instant;
  (** [format("%H:%M")]. *)
  hh_mm : instant -> string
}.
Definition local_hour `{LocalZone} (t : instant) : Z := seconds_from_midnight t / 3600.
Definition hours (n : Z) : duration := n * 3600000000000.

Definition LOGINWINDOW_APP : string := "loginwindow".
Definition MONITOR_SLEEP_MIN_SECS : Z := 4 * 60 * 60.
Definition MONITOR_SLEEP_MERGE_GAP_SECS : Z := 60 * 60.
Definition MONITOR_SLEEP_WINDOW_START_HOUR : Z := 21.
Definition MONITOR_SLEEP_TARGET_HOUR : Z := 4.
Definition MONITOR_SLEEP_NIGHT_START_HOUR : Z := 22.
Definition MONITOR_SLEEP_NIGHT_END_HOUR : Z := 10.
Definition MONITOR_SLEEP_MIDPOINT_MAX_DIFF_SECS : Z := 6 * 60 * 60.

Section sleep.
Context `{Chrono} `{LocalZone}.

Definition local_midnight (now_local : instant) : instant :=
  match at_hour_earliest now_local 0 with
  | Some t => t
  | None => default now_local (at_hour_latest now_local 0)
  end.

Definition sleep_window_bounds (now_local : instant) : instant * instant :=
  let start_today := default now_local (at_hour_earliest now_local MONITOR_SLEEP_WINDOW_START_HOUR) in
  if MONITOR_SLEEP_WINDOW_START_HOUR <=? local_hour now_local then (start_today, start_today + hours 24)
  else (start_today - hours 24, start_today).

Definition midpoint_score (midpoint_local : instant) : f64 :=
  let target_secs := MONITOR_SLEEP_TARGET_HOUR * 3600 in
  let diff := Z.abs (seconds_from_midnight midpoint_local - target_secs) in
  let diff := Z.min diff MONITOR_SLEEP_MIDPOINT_MAX_DIFF_SECS in
  f64_sub (f64_of_Z 1) (f64_div (f64_of_Z diff) (f64_of_Z MONITOR_SLEEP_MIDPOINT_MAX_DIFF_SECS)).

Definition overlap_seconds (start end_ window_start window_end : instant) : Z :=
  Z.max (num_seconds (Z.min end_ window_end - Z.max start window_start)) 0.

(** Half of a duration; chrono cuts the nanosecond. *)
Definition midpoint (start end_ : instant) : instant := start + (end_ - start) ÷ 2.

Definition night_band_overlap_seconds (start end_ : instant) : Z :=
  let mid := midpoint start end_ in
  let band_start := default mid (at_hour_earliest mid MONITOR_SLEEP_NIGHT_START_HOUR) in
  let band_end := band_start + hours (24 - MONITOR_SLEEP_NIGHT_START_HOUR + MONITOR_SLEEP_NIGHT_END_HOUR) in
  overlap_seconds start end_ band_start band_end.

(** ** The segments: runs of records of the login window *)
Notation Segment := (instant * instant)%type.

Record Scan := { segments : list Segment; current_start : option instant; current_end : option instant }.

Definition is_loginwindow (r : ActivityRecord) : bool :=
  match focus_info r with Some f => eq_ignore_ascii_case (app_name f) LOGINWINDOW_APP | None => false end.
Definition rec_end (now : instant) (r : ActivityRecord) : instant := default now (end_time r).

Definition close_segment (s : Scan) : Scan := {|
  segments := segments s ++
    match current_start s, current_end s with Some a, Some b => [(a, b)] | _, _ => [] end;
  current_start := None; current_end := None |}.

Definition scan_step (now : instant) (s : Scan) (r : ActivityRecord) : Scan :=
  if is_loginwindow r then
    match current_start s with
    | None => {| segments := segments s; current_start := Some (start_time r);
                 current_end := Some (rec_end now r) |}
    | Some _ =>
        match current_end s with
        | Some e => {| segments := segments s; current_start := current_start s;
                       current_end := Some (if e <? rec_end now r then rec_end now r else e) |}
        | None => s
        end
    end
  else close_segment s.

Definition scan (records : list ActivityRecord) (now : instant) : list Segment :=
  segments (close_segment (foldl (scan_step now)
    {| segments := []; current_start := None; current_end := None |} records)).

(** ** Merging, oldest first *)
Definition merge_step (merged : list Segment) (seg : Segment) : list Segment :=
  let '(start, end_) := seg in
  match last merged with
  | Some (s0, e0) =>
      let gap := num_seconds (start - e0) in
      if (0 <=? gap) && (gap <=? MONITOR_SLEEP_MERGE_GAP_SECS)
      then removelast merged ++ [(s0, if e0 <? end_ then end_ else e0)]
      else merged ++ [(start, end_)]
  | None => merged ++ [(start, end_)]
  end.
Definition merge (l : list Segment) : list Segment :=
  foldl merge_step [] (sort_asc fst l).

(** ** The best of them *)
Definition score (start end_ : instant) (duration_secs : Z) : f64 :=
  let mid := midpoint start end_ in
  let duration_hours := f64_div (f64_of_Z duration_secs) (f64_of_Z 3600) in
  let duration_score := f64_div (f64_min duration_hours (f64_of_Z 12)) (f64_of_Z 12) in
  let night_overlap := night_band_overlap_seconds start end_ in
  let night_score :=
    if 0 <? duration_secs then f64_div (f64_of_Z night_overlap) (f64_of_Z duration_secs) else f64_of_Z 0 in
  f64_add (f64_add (f64_mul (f64_tenths 5) duration_score) (f64_mul (f64_tenths 3) (midpoint_score mid)))
    (f64_mul (f64_tenths 2) night_score).

(** A block within the window that is long enough. *)
Definition candidate (window : Segment) (min_duration_secs : Z) (block : Segment) : option Segment :=
  let '(start, end_) := block in
  if overlap_seconds start end_ window.1 window.2 <=? 0 then None
  else
    let clipped_start := Z.max start window.1 in
    let clipped_end := Z.min end_ window.2 in
    if num_seconds (clipped_end - clipped_start) <? min_duration_secs then None
    else Some (clipped_start, clipped_end).

Definition best_step (window : Segment) (min_duration_secs : Z) (best : option (f64 * Segment))
    (block : Segment) : option (f64 * Segment) :=
  match candidate window min_duration_secs block with
  | None => best
  | Some (a, b) =>
      let sc := score a b (num_seconds (b - a)) in
      match best with
      | Some (best_score, _) => if f64_ltb best_score sc then Some (sc, (a, b)) else best
      | None => Some (sc, (a, b))
      end
  end.

Definition find_sleep_period_with_window (records : list ActivityRecord) (now : instant)
    (window : Segment) (min_duration_secs : Z) : option Segment :=
  match scan records now with
  | [] => None
  | segments => snd <$> foldl (best_step window min_duration_secs) None (merge segments)
  end.

Definition find_sleep_period (now_local : instant) (records : list ActivityRecord) (now : instant)
    (min_duration_secs : Z) : option Segment :=
  find_sleep_period_with_window records now (sleep_window_bounds now_local) min_duration_secs.

(** ** The period shown *)
(** The same text as [pretty_format_duration] of the snapshot stage. *)
Definition pretty_duration (seconds : Z) : string := pretty_format_duration seconds.

Record AppsPeriod := { since_utc : instant; title : string; line : string }.

(** The three readings of the clock. *)
Definition select_apps_period (now_utc now_local now_local' : instant) (records : list ActivityRecord)
    : AppsPeriod :=
  match find_sleep_period now_local' records now_utc MONITOR_SLEEP_MIN_SECS with
  | Some (start, end_) =>
      let duration_secs := Z.max (num_seconds (end_ - start)) 0 in
      {| since_utc := start;
         title := "Apps (since " +:+ hh_mm start +:+ ")";
         line := "Period: last loginwindow " +:+ hh_mm start +:+ "–" +:+ hh_mm end_ +:+ " ("
           +:+ pretty_duration duration_secs +:+ ")" |}
  | None =>
      let midnight := local_midnight now_local in
      {| since_utc := midnight;
         title := "Apps (since " +:+ hh_mm midnight +:+ ")";
         line := "Period: since " +:+ hh_mm midnight +:+ " (fallback: local midnight)" |}
  end.
End sleep.

(** ** Where the period comes from *)
Section facts.
Context `{ChronoLaws} `{LocalZone} (now : instant).
Notation Segment := (instant * instant)%type.

(** A segment begins with a record of the login window and ends with one. *)
Definition from_records (records : list ActivityRecord) (seg : Segment) : Prop :=
  exists r1 r2, r1 ∈ records /\ r2 ∈ records /\ is_loginwindow r1 = true /\ is_loginwindow r2 = true /\
  seg = (start_time r1, rec_end now r2).
(** A record lies within a segment. *)
Definition within (r : ActivityRecord) (seg : Segment) : Prop :=
  seg.1 <= start_time r /\ rec_end now r <= seg.2.

(** What the scan has made of the records so far. *)
Record scanned (records : list ActivityRecord) (s : Scan) : Prop := {
  sc_segments : Forall (from_records records) (segments s);
  sc_current : match current_start s, current_end s with
    | Some a, Some b => from_records records (a, b)
    | None, None => True
    | _, _ => False
    end;
  sc_covers : StronglySorted (fun r r' => start_time r <= start_time r') records ->
    forall r, r ∈ records -> is_loginwindow r = true ->
    Exists (within r) (segments (close_segment s))
}.

Lemma from_records_app rs rs' seg : from_records rs seg -> from_records (rs ++ rs') seg.
Proof. intros (r1&r2&Hr1&Hr2&Hr). exists r1, r2. rewrite !elem_of_app. naive_solver. Qed.

Lemma sorted_last rs r r' :
  StronglySorted (fun r r' => start_time r <= start_time r') (rs ++ [r']) -> r ∈ rs ->
  start_time r <= start_time r'.
Proof.
  induction rs as [|r0 rs IH]; [by intros _ ?%not_elem_of_nil|]. cbn.
  intros [Hs Hf]%StronglySorted_inv [->|Hr]%elem_of_cons; [|by apply IH].
  rewrite Forall_forall in Hf. apply Hf, elem_of_app. right. by left.
Qed.

Lemma sorted_init rs (r' : ActivityRecord) :
  StronglySorted (fun r r' => start_time r <= start_time r') (rs ++ [r']) ->
  StronglySorted (fun r r' => start_time r <= start_time r') rs.
Proof.
  induction rs as [|r0 rs IH]; [constructor|]. cbn. intros [Hs Hf]%StronglySorted_inv.
  constructor; [by apply IH|]. by apply Forall_app in Hf as [? _].
Qed.

Lemma scanned_step rs s r : scanned rs s -> scanned (rs ++ [r]) (scan_step now s r).
Proof.
  intros [Hs Hc Hv]. unfold scan_step.
  assert (Forall (from_records (rs ++ [r])) (segments s)) as Hs'
    by (eapply Forall_impl; [exact Hs|intros seg; apply from_records_app]).
  destruct (is_loginwindow r) eqn:Hr.
  - unfold close_segment in Hv.
    destruct (current_start s) as [a|] eqn:Ea, (current_end s) as [b|] eqn:Eb; try done.
    + assert (from_records (rs ++ [r]) (a, if b <? rec_end now r then rec_end now r else b)) as Hab.
      { destruct Hc as (r1&r2&H1'&H2'&Hl1&Hl2&[= -> ->]).
        destruct (_ <? _); [exists r1, r|exists r1, r2]; rewrite !elem_of_app, ?list_elem_of_singleton; naive_solver. }
      split; cbn; [done|done|]. intros Hsort r0 Hr0 Hl0. apply Exists_app.
      apply elem_of_app in Hr0 as [Hr0| ->%list_elem_of_singleton].
      * destruct (proj1 (Exists_app _ _ _) (Hv (sorted_init _ _ Hsort) r0 Hr0 Hl0)) as [He|He]; [by left|right].
        apply Exists_cons in He as [[Hw1 Hw2]|He]; [|by apply Exists_nil in He]. cbn in Hw1, Hw2.
        left. split; cbn; [done|]. destruct (Z.ltb_spec b (rec_end now r)); lia.
      * right. left. split; cbn; [|destruct (Z.ltb_spec b (rec_end now r)); lia].
        destruct Hc as (r1&r2&H1'&_&_&_&[= -> ->]). by eapply sorted_last.
    + split; cbn; [done| |].
      * exists r, r. rewrite !elem_of_app, !list_elem_of_singleton. naive_solver.
      * intros Hsort r0 Hr0 Hl0. apply Exists_app. apply elem_of_app in Hr0 as [Hr0| ->%list_elem_of_singleton].
        -- left. specialize (Hv (sorted_init _ _ Hsort) r0 Hr0 Hl0). cbn in Hv. by rewrite app_nil_r in Hv.
        -- right. left. by split.
  - unfold close_segment in *. split; cbn; [|done|].
    + apply Forall_app. split; [done|].
      destruct (current_start s), (current_end s); try by constructor.
      constructor; [by apply from_records_app|constructor].
    + intros Hsort r0 Hr0 Hl0. rewrite app_nil_r.
      apply elem_of_app in Hr0 as [Hr0| ->%list_elem_of_singleton]; [|congruence].
      exact (Hv (sorted_init _ _ Hsort) r0 Hr0 Hl0).
Qed.

Lemma login_scan_spec records :
  Forall (from_records records) (scan records now) /\
  (StronglySorted (fun r r' => start_time r <= start_time r') records ->
   forall r, r ∈ records -> is_loginwindow r = true -> Exists (within r) (scan records now)).
Proof.
  assert (forall rs, scanned rs (foldl (scan_step now)
    {| segments := []; current_start := None; current_end := None |} rs)) as Hall.
  { intros rs. induction rs as [|r rs IH] using rev_ind.
    - split; cbn; [done|done|]. by intros _ r ?%not_elem_of_nil.
    - rewrite foldl_app. by apply scanned_step. }
  destruct (Hall records) as [Hs Hc Hv]. unfold scan. split; [|done].
  cbn. apply Forall_app. split; [done|].
  destruct (current_start _), (current_end _); by repeat constructor.
Qed.

(** ** Merging *)
Lemma merge_step_from records merged seg :
  Forall (from_records records) merged -> from_records records seg ->
  Forall (from_records records) (merge_step merged seg).
Proof.
  intros Hm Hs. destruct seg as [a b]. unfold merge_step.
  destruct (last merged) as [[a0 b0]|] eqn:El; [|by apply Forall_app; auto].
  destruct (_ && _); [|by apply Forall_app; auto].
  apply last_Some in El as [m ->]. rewrite removelast_last.
  apply Forall_app in Hm as [Hm Hl]. apply Forall_inv in Hl. apply Forall_app. split; [done|].
  apply Forall_singleton. destruct Hl as (r1&r2&?&?&?&?&[= -> ->]), Hs as (r3&r4&?&?&?&?&[= -> ->]).
  destruct (_ <? _); [by exists r1, r4|by exists r1, r2].
Qed.

Lemma merge_from records l :
  Forall (from_records records) l -> Forall (from_records records) (merge l).
Proof.
  intros Hl. unfold merge. assert (Forall (from_records records) (sort_asc fst l)) as Hs
    by (by rewrite sort_asc_perm).
  assert (forall m, Forall (from_records records) m -> Forall (from_records records)
    (foldl merge_step m (sort_asc fst l))) as Hgo; [|by apply Hgo].
  induction Hs as [|seg l' Hseg Hl' IH]; intros m Hm; [done|]. cbn. apply IH. by apply merge_step_from.
Qed.

(** A segment lies within another. *)
Definition inside (seg seg' : Segment) : Prop := seg'.1 <= seg.1 /\ seg.2 <= seg'.2.

Lemma inside_within r seg seg' : inside seg seg' -> within r seg -> within r seg'.
Proof. unfold inside, within. lia. Qed.

(** Merging a segment that starts no earlier than all before loses nothing. *)
Lemma merge_step_covers merged seg :
  Forall (fun m => m.1 <= seg.1) merged ->
  Forall (fun m => m.1 <= seg.1) (merge_step merged seg) /\
  Forall (fun s => Exists (inside s) (merge_step merged seg)) (seg :: merged).
Proof.
  intros Hm. destruct seg as [a b]. unfold merge_step. cbn in *.
  assert (Forall (fun s => Exists (inside s) merged) merged) as Hself.
  { apply Forall_forall. intros s Hs. apply Exists_exists. exists s. split; [done|]. split; lia. }
  assert (Forall (fun m : Segment => m.1 <= a) (merged ++ [(a, b)]) /\
    Forall (fun s => Exists (inside s) (merged ++ [(a, b)])) ((a, b) :: merged)) as Hpush.
  { split; [apply Forall_app; split; [done|apply Forall_singleton; cbn; lia]|]. constructor.
    - apply Exists_app. right. left. split; cbn; lia.
    - eapply Forall_impl; [exact Hself|]. intros s Hs. apply Exists_app. by left. }
  destruct (last merged) as [[a0 b0]|] eqn:El; [|done]. destruct (_ && _); [|done]. clear Hpush.
  apply last_Some in El as [m ->]. rewrite removelast_last.
  apply Forall_app in Hm as [Hm Hl]. apply Forall_inv in Hl. cbn in Hl. split.
  - apply Forall_app. split; [done|]. by apply Forall_singleton.
  - assert (inside (a, b) (a0, if b0 <? b then b else b0) /\
      inside (a0, b0) (a0, if b0 <? b then b else b0)) as [Hn Ho].
    { unfold inside. cbn. destruct (Z.ltb_spec b0 b); lia. }
    constructor; [apply Exists_app; right; by left|].
    apply Forall_app. split; [|apply Forall_singleton, Exists_app; right; by left].
    apply Forall_forall. intros s Hs. apply Exists_app. left. apply Exists_exists. exists s.
    split; [done|]. split; lia.
Qed.

Lemma merge_covers l s : s ∈ l -> Exists (inside s) (merge l).
Proof.
  unfold merge. rewrite <- (sort_asc_perm fst l) at 1. pose proof (sort_asc_sorted fst l) as Hsort.
  assert (forall l' m, StronglySorted (fun a b : Segment => a.1 <= b.1) l' ->
    (forall x y, x ∈ m -> y ∈ l' -> x.1 <= y.1) -> s ∈ l' \/ Exists (inside s) m ->
    Exists (inside s) (foldl merge_step m l')) as Hgo.
  { intros l'. induction l' as [|y l' IH]; intros m Hs Hm Hin.
    - destruct Hin as [?%not_elem_of_nil|]; done.
    - apply StronglySorted_inv in Hs as [Hs Hy]. rewrite Forall_forall in Hy. cbn.
      destruct (merge_step_covers m y) as [Hle Hcov].
      { apply Forall_forall. intros x Hx. apply Hm; [done|by left]. }
      apply IH; [done| |].
      + intros x z Hx Hz. rewrite Forall_forall in Hle. specialize (Hle x Hx). specialize (Hy z Hz). lia.
      + apply Forall_cons in Hcov as [Hcy Hcm]. destruct Hin as [[->|Hs']%elem_of_cons|He]; [by right|by left|right].
        apply Exists_exists in He as (x&Hx&Hix). rewrite Forall_forall in Hcm. specialize (Hcm x Hx).
        apply Exists_exists in Hcm as (z&Hz&Hiz). apply Exists_exists. exists z. split; [done|].
        unfold inside in *. lia. }
  intros Hs. apply Hgo; [done|by intros x y ?%not_elem_of_nil|by left].
Qed.

(** ** The best candidate *)
Lemma best_spec window m l best :
  (foldl (best_step window m) best l = None <-> best = None /\ Forall (fun b => candidate window m b = None) l) /\
  (forall sc x, foldl (best_step window m) best l = Some (sc, x) ->
   best = Some (sc, x) \/ exists b, b ∈ l /\ candidate window m b = Some x).
Proof.
  revert best. induction l as [|b l IH]; intros best; cbn.
  - split; [by intuition|by left].
  - destruct (IH (best_step window m best b)) as [Hn Hs]. unfold best_step in Hn, Hs |- *.
    rewrite Forall_cons. destruct (candidate window m b) as [[x y]|] eqn:Ec.
    + split.
      * rewrite Hn. destruct best as [[sc0 x0]|]; [destruct (f64_ltb _ _)|]; naive_solver.
      * intros sc z Hz%Hs. destruct Hz as [Hz|(b'&Hb'&Hc')].
        -- destruct best as [[sc0 x0]|]; [destruct (f64_ltb _ _)|]; simplify_eq; auto;
             right; exists b; rewrite elem_of_cons; auto.
        -- right. exists b'. rewrite elem_of_cons. auto.
    + split; [rewrite Hn; naive_solver|]. intros sc z Hz%Hs. destruct Hz as [Hz|(b'&Hb'&Hc')]; [by left|].
      right. exists b'. rewrite elem_of_cons. auto.
Qed.

Lemma num_seconds_mono d d' : d <= d' -> num_seconds d <= num_seconds d'.
Proof. rewrite !num_seconds_spec. apply Z.quot_le_mono. lia. Qed.

(** C39: what is found is a night: it lies within the window and lasts long enough, it begins
    where a record of the login window does, or with the window, and ends where such a
    record does, or with the window.  And where the records are in order a night is found
    whenever some record of the login window is long enough within the window. *)
Theorem sleep_period_found records window m :
  (forall a b, find_sleep_period_with_window records now window m = Some (a, b) ->
   window.1 <= a /\ b <= window.2 /\ 0 < num_seconds (b - a) /\ m <= num_seconds (b - a) /\
   exists r1 r2, r1 ∈ records /\ r2 ∈ records /\ is_loginwindow r1 = true /\ is_loginwindow r2 = true /\
   a = Z.max (start_time r1) window.1 /\ b = Z.min (rec_end now r2) window.2) /\
  (StronglySorted (fun r r' => start_time r <= start_time r') records ->
   forall r, r ∈ records -> is_loginwindow r = true ->
   0 < overlap_seconds (start_time r) (rec_end now r) window.1 window.2 ->
   m <= overlap_seconds (start_time r) (rec_end now r) window.1 window.2 ->
   find_sleep_period_with_window records now window m <> None).
Proof.
  destruct (login_scan_spec records) as [Hfrom Hcov].
  destruct (best_spec window m (merge (scan records now)) None) as [Hnone Hsome].
  unfold find_sleep_period_with_window. split.
  - intros a b Hf. apply merge_from in Hfrom.
    assert (exists block, block ∈ merge (scan records now) /\ candidate window m block = Some (a, b)) as (blk&Hb&Hc).
    { destruct (scan records now) eqn:Es; [done|]. apply fmap_Some in Hf as ([sc x]&Hx&->).
      by destruct (Hsome sc x Hx) as [?|?]. }
    rewrite Forall_forall in Hfrom. destruct (Hfrom _ Hb) as (r1&r2&H1'&H2'&Hl1&Hl2&->).
    unfold candidate in Hc. destruct (Z.leb_spec (overlap_seconds (start_time r1) (rec_end now r2) window.1 window.2) 0) as [|Ho];
      [done|]. destruct (Z.ltb_spec (num_seconds (Z.min (rec_end now r2) window.2 - Z.max (start_time r1) window.1)) m);
      [done|]. injection Hc as <- <-. unfold overlap_seconds in Ho.
    split_and!; try lia. exists r1, r2. by split_and!.
  - intros Hsort r Hr Hl Ho Hm Hf. specialize (Hcov Hsort r Hr Hl). apply Exists_exists in Hcov as (seg&Hseg&Hw).
    destruct (proj1 (Exists_exists _ _) (merge_covers _ _ Hseg)) as (blk&Hblk&Hin).
    assert (foldl (best_step window m) None (merge (scan records now)) = None) as Hn.
    { destruct (scan records now); [by apply not_elem_of_nil in Hseg|]. by apply fmap_None in Hf. }
    apply Hnone in Hn as [_ Hn]. rewrite Forall_forall in Hn. specialize (Hn blk Hblk).
    apply (inside_within r) in Hin as [Hlo Hhi]; [|done].
    assert (overlap_seconds (start_time r) (rec_end now r) window.1 window.2
      <= num_seconds (Z.min blk.2 window.2 - Z.max blk.1 window.1)) as Hle.
    { unfold overlap_seconds in *. rewrite Z.max_l by lia. apply num_seconds_mono. lia. }
    pose proof (Z.lt_le_trans _ _ _ Ho Hle) as Hpos. pose proof (Z.le_trans _ _ _ Hm Hle) as Hlong.
    destruct blk as [x y]. unfold candidate in Hn. cbn [fst snd] in *.
    destruct (Z.leb_spec (overlap_seconds x y window.1 window.2) 0) as [Hz|]; [unfold overlap_seconds in Hz; lia|].
    destruct (Z.ltb_spec (num_seconds (Z.min y window.2 - Z.max x window.1)) m); [lia|done].
Qed.
End facts.

(** The score for the night is that of the evening after a block whose middle is past
    midnight: a block that ends before ten in the evening of the day of its middle
    overlaps the band of that evening nowhere. *)
Theorem night_band_misses `{ChronoLaws} `{LocalZone} a b band :
  a <= b -> at_hour_earliest (midpoint a b) MONITOR_SLEEP_NIGHT_START_HOUR = Some band -> b <= band ->
  night_band_overlap_seconds a b = 0.
Proof.
  intros Hab Hband Hb. unfold night_band_overlap_seconds, overlap_seconds. rewrite Hband. cbn [default from_option].
  rewrite num_seconds_spec. assert ((Z.min b (band + hours (24 - MONITOR_SLEEP_NIGHT_START_HOUR +
    MONITOR_SLEEP_NIGHT_END_HOUR)) - Z.max a band) ÷ 1000000000 <= 0); [|unfold id; lia].
  rewrite <- (Z.quot_0_l 1000000000) by done. apply Z.quot_le_mono; lia.
Qed.

(** ** Witnesses *)
(** A zone without an offset. *)
Definition utc_zone : LocalZone := {|
  seconds_from_midnight t := (t / 1000000000) mod 86400;
  at_hour_earliest t h := Some (t - t mod hours 24 + hours h);
  at_hour_latest t h := Some (t - t mod hours 24 + hours h);
  hh_mm _ := "" |}.

(** Eight hours of sleep from eleven in the evening. *)
Definition demo_night : ActivityRecord :=
  {| record_id := 1; run_id := None; start_time := hours 23; end_time := Some (hours 31); state := Locked;
     focus_info := Some {| pid := 1; process_start_time := 1; app_name := "LoginWindow"; window_title := "t";
       window_id := 1; window_instance_start := 0; window_position := None; window_size := None |};
     event_count := 0; triggering_events := [] |}.

Lemma sleep_period_found_witness :
  @find_sleep_period_with_window chrono_ref utc_zone [demo_night] (hours 40) (hours 21, hours 45) 14400 <> None.
Proof.
  apply (proj2 (@sleep_period_found chrono_ref chrono_ref_laws utc_zone (hours 40) [demo_night] (hours 21, hours 45)
    14400)) with (r := demo_night); [by repeat constructor|by left|by vm_compute..].
Defined.

Lemma night_band_misses_witness :
  @night_band_overlap_seconds chrono_ref utc_zone (hours 23) (hours 31) = 0.
Proof.
  apply (@night_band_misses chrono_ref chrono_ref_laws utc_zone (hours 23) (hours 31) (hours 46)); by vm_compute.
Defined.
