(* ===== verification/Watch.v ===== *)
(** The snapshots that the daemon serves and that kronictl shows: the handlers of
    src/daemon/server/http.rs and the two of server/grpc.rs that serve snapshots, and
    [snapshot_autoselect], [watch_via_http] and what they call in src/bin/kronictl.rs.

    Text is its bytes.  What axum, hyper and serde_json write is known only as far as the
    formats are documented: server-sent events, chunked HTTP and JSON. *)
From Stdlib Require Import Ascii.
From stdpp Require Import sorting.
From S2P Require Import Prelude Decimal Events Records SnapshotBus AppTree Wire.

Definition LF : ascii := "010"%char.
Definition CR : ascii := "013"%char.
Definition nl : string := String LF "".
Definition crlf : string := String CR nl.

(** ** Reading text *)
(** What [BufRead::read_line] gives, call after call, until it gives nothing. *)
Fixpoint lines (s : string) : list string :=
  match s with
  | EmptyString => []
  | String c s =>
      if Ascii.eqb c LF then nl :: lines s
      else match lines s with
           | [] => [String c ""]
           | l :: ls => String c l :: ls
           end
  end.

Fixpoint ends_line (s : string) : bool :=
  match s with
  | EmptyString => false
  | String c s => if bool_decide (s = "") then Ascii.eqb c LF else ends_line s
  end.

(** What comes over a connection: the bytes up to its end, or up to an error. *)
Record Connection := { received : string; broken : bool }.

(** The lines that are read: an error loses the bytes of the line it cuts. *)
Definition read_lines (c : Connection) : list string :=
  if broken c then filter (fun l => ends_line l = true) (lines (received c)) else lines (received c).

(** [str::find] of the empty line behind the headers, and the text behind it. *)
Fixpoint body_of (resp : string) : option string :=
  match strip_prefix (crlf +:+ crlf) resp with
  | Some body => Some body
  | None => match resp with EmptyString => None | String _ s => body_of s end
  end.

(** [str::trim_end]; [str::trim] is [str_trim]. *)
Class TrimEnd := str_trim_end : string -> string.

(** serde_json on snapshots. *)
Class SnapshotJson := {
  to_json : Snapshot -> option string;
  from_json : string -> option Snapshot
}.

(** ** The daemon's side *)
(** A subscription of the watch channel of a bus: [WatchStream] gives the value that is
    current at its first poll, and from then on the current value whenever one was sent
    since the last. *)
Record Subscription := { sub_bus : SnapshotBus; unseen : bool }.
Definition watch_snapshot (b : SnapshotBus) : Subscription := {| sub_bus := b; unseen := true |}.

(** An operation on the bus, or a poll of the stream. *)
Inductive serve := BusOp (o : bus_op) | Poll.

Definition stream_step (s : Subscription) (e : serve) : Subscription * list Snapshot :=
  match e with
  | BusOp o =>
      let '(b, sent) := bus_step (sub_bus s) o in
      ({| sub_bus := b; unseen := unseen s || negb (bool_decide (sent = [])) |}, [])
  | Poll =>
      if unseen s then ({| sub_bus := sub_bus s; unseen := false |}, [current_snapshot (sub_bus s)])
      else (s, [])
  end.

(** Server-sent events and HTTP/1.1 as axum and hyper write them. *)
Class SseWire := {
  sse_event : string -> string;
  http_chunk : string -> string
}.

Section server.
Context `{SnapshotJson} `{SseWire}.

(** The bytes of an answer: the head, and the body. *)
Definition http_head (hs : list string) : string :=
  foldr (fun h t => h +:+ crlf +:+ t) crlf hs.

(** [Json] writes the snapshot; without a text for it there is an error page. *)
Definition snapshot_handler (b : SnapshotBus) : option string := to_json (current_snapshot b).

Definition stream_data (snap : Snapshot) : string := default "{}" (to_json snap).
Definition stream_handler (snaps : list Snapshot) : string :=
  foldr (fun s t => http_chunk (sse_event (stream_data s)) +:+ t) "" snaps.
End server.

Section grpc.
Context `{ChronoParts} (utc : nat -> instant).
Definition grpc_snapshot_handler (b : SnapshotBus) : SnapshotReply := to_pb utc (current_snapshot b).
Definition grpc_watch_handler (snaps : list Snapshot) : list SnapshotReply := map (to_pb utc) snaps.
End grpc.

(** ** The client's side *)
(** What is printed: a snapshot in full, as a line, as the three fields of the polling
    fallback, as JSON, as indented JSON, or a text as it came. *)
Inductive Printed :=
  | SnapshotPretty (s : Snapshot)
  | SnapshotLine (s : Snapshot)
  | SnapshotFields (s : Snapshot)
  | SnapshotJsonText (s : Snapshot)
  | SnapshotJsonPretty (s : Snapshot)
  | Text (t : string).

(** A line of the stream: the buffer after it, and the event that it ends.  The payload
    is trimmed by the caller's function. *)
Definition sse_line (trim : string -> string) (data_buf line : string) : string * list string :=
  match strip_prefix "data:" line with
  | Some payload => (data_buf +:+ trim payload +:+ nl, [])
  | None =>
      if bool_decide (line = crlf) || bool_decide (line = nl) then
        if bool_decide (data_buf = "") then (data_buf, []) else ("", [data_buf])
      else (data_buf, [])
  end.

Fixpoint skip_headers (ls : list string) : option (list string) :=
  match ls with
  | [] => None
  | l :: ls => if bool_decide (l = crlf) then Some ls else skip_headers ls
  end.

Section client.
Context `{SnapshotJson} `{UnicodeText} `{TrimEnd} `{ChronoParts} (utc : nat -> instant).

Definition http_get_snapshot (conn : option Connection) : option Snapshot :=
  c ← conn;
  if broken c then None else body ← body_of (received c); from_json body.

(** A complete event. *)
Definition sse_event_printed (pretty : bool) (data_buf : string) : list Printed :=
  match from_json (str_trim_end data_buf) with
  | Some snap => [if pretty then SnapshotPretty snap else Text (str_trim_end data_buf)]
  | None => []
  end.

(** What is printed, and whether the end was reached without an error. *)
Definition sse_watch_via_http (conn : option Connection) (pretty : bool) : list Printed * bool :=
  match conn with
  | None => ([], false)
  | Some c =>
      match skip_headers (read_lines c) with
      | None => ([], false)
      | Some ls =>
          (flat_map (sse_event_printed pretty) (run_list (sse_line str_trim) "" ls).2, negb (broken c))
      end
  end.

(** The messages of a gRPC stream, up to its end or to an error. *)
Record Replies := { replies : list SnapshotReply; failed : bool }.

Definition grpc_snapshot (reply : option SnapshotReply) : Reads (option Snapshot) :=
  match reply with
  | None => mret None
  | Some r => s ← map_pb_snapshot utc r; mret (Some s)
  end.

Fixpoint grpc_print (pretty : bool) (rs : list SnapshotReply) : Reads (list Printed) :=
  match rs with
  | [] => mret []
  | r :: rs =>
      snap ← map_pb_snapshot utc r;
      ps ← grpc_print pretty rs;
      mret ((if pretty then SnapshotPretty snap else SnapshotJsonText snap) :: ps)
  end.

Definition grpc_watch (stream : option Replies) (pretty : bool) : Reads (list Printed * bool) :=
  match stream with
  | None => mret ([], false)
  | Some s => ps ← grpc_print pretty (replies s); mret (ps, negb (failed s))
  end.

Definition sse_watch_via_grpc_then_http (stream : option Replies) (conn : option Connection)
    (pretty : bool) : Reads (list Printed * bool) :=
  r ← grpc_watch stream pretty;
  let '(ps, ok) := r : list Printed * bool in
  if ok then mret (ps, true)
  else let '(ps', ok') := sse_watch_via_http conn pretty in mret (ps ++ ps', ok').

(** The polls so far: the loop ends only with an error. *)
Fixpoint poll_loop (pretty : bool) (conns : list (option Connection)) : list Printed * bool :=
  match conns with
  | [] => ([], true)
  | c :: cs =>
      match http_get_snapshot c with
      | None => ([], false)
      | Some snap =>
          let '(ps, running) := poll_loop pretty cs in
          ((if pretty then SnapshotLine snap else SnapshotFields snap) :: ps, running)
      end
  end.

Inductive WatchEnd := Done | Polling | WatchError.

Definition watch_via_http (stream : option Replies) (conn : option Connection)
    (polls : list (option Connection)) (pretty : bool) : Reads (list Printed * WatchEnd) :=
  r ← sse_watch_via_grpc_then_http stream conn pretty;
  let '(ps, ok) := r : list Printed * bool in
  if ok then mret (ps, Done)
  else let '(ps', running) := poll_loop pretty polls in
       mret (ps ++ ps', if running : bool then Polling else WatchError).

(** What is printed, or an error. *)
Definition snapshot_autoselect (reply : option SnapshotReply) (conn : option Connection)
    (pretty : bool) : Reads (option Printed) :=
  let shown s := if pretty then SnapshotPretty s else SnapshotJsonPretty s in
  r ← grpc_snapshot reply;
  match r : option Snapshot with
  | Some snap => mret (Some (shown snap))
  | None => mret (shown <$> http_get_snapshot conn)
  end.
End client.

(** ** The formats *)
Definition is_hex (c : ascii) : bool :=
  is_digit c || ((97 <=? N_of_ascii c)%N && (N_of_ascii c <=? 102)%N)
  || ((65 <=? N_of_ascii c)%N && (N_of_ascii c <=? 70)%N).
Definition is_blank (c : ascii) : bool :=
  Ascii.eqb c " " || Ascii.eqb c "009" || Ascii.eqb c LF || Ascii.eqb c CR.
Definition not_lf (c : ascii) : bool := negb (Ascii.eqb c LF).
(** Text within a line. *)
Definition is_plain (c : ascii) : bool := not_lf c && negb (Ascii.eqb c CR).
(** The text of a JSON object. *)
Definition framed (j : string) : Prop := exists m, j = "{" +:+ m +:+ "}".

(** White space is trimmed where it is, up to the braces. *)
Class TrimLaws `{UnicodeText} `{TrimEnd} : Prop := {
  trim_framed w j w' : string_all is_blank w = true -> string_all is_blank w' = true -> framed j ->
    str_trim (w +:+ j +:+ w') = j;
  trim_end_framed w j w' : string_all is_blank w' = true -> framed j ->
    str_trim_end (w +:+ j +:+ w') = w +:+ j
}.

Class SseWireLaws `{SseWire} : Prop := {
  sse_event_text d : string_all is_plain d = true ->
    exists w, string_all is_blank w = true /\ string_all is_plain w = true /\
    sse_event d = "data:" +:+ w +:+ d +:+ nl +:+ nl;
  http_chunk_text x : exists size, size <> "" /\ string_all is_hex size = true /\
    http_chunk x = size +:+ crlf +:+ x +:+ crlf
}.

(** JSON escapes what is not plain; blanks around it do not matter. *)
Class SnapshotJsonLaws `{SnapshotJson} : Prop := {
  to_json_framed s j : to_json s = Some j -> framed j /\ string_all is_plain j = true;
  from_json_blank w j : string_all is_blank w = true -> framed j -> from_json (w +:+ j) = from_json j
}.

(** A snapshot that survives its text. *)
Definition json_keeps `{SnapshotJson} (s : Snapshot) : Prop :=
  exists j, to_json s = Some j /\ from_json j = Some s.

(** ** Lines *)
Lemma plain_not_lf s : string_all is_plain s = true -> string_all not_lf s = true.
Proof. apply string_all_impl. intros c. unfold is_plain. by intros [? _]%andb_true_iff. Qed.

Lemma lines_line l r : string_all not_lf l = true -> lines (l +:+ nl +:+ r) = (l +:+ nl) :: lines r.
Proof.
  induction l as [|c l IH]; [done|]. cbn [string_all]. intros [Hc Hl]%andb_true_iff.
  change (String c l +:+ nl +:+ r) with (String c (l +:+ nl +:+ r)). cbn [lines].
  unfold not_lf in Hc. destruct (Ascii.eqb c LF); [done|]. by rewrite IH.
Qed.

Lemma not_lf_open s : string_all not_lf s = true -> ends_line s = false.
Proof.
  induction s as [|c s IH]; [done|]. cbn. intros [Hc Hs]%andb_true_iff.
  case_bool_decide; [|by apply IH]. unfold not_lf in Hc. by destruct (Ascii.eqb c LF).
Qed.

(** The lines of the beginning of a text: some whole lines of the text, and what is left. *)
Lemma lines_prefix a b :
  exists fl t, lines a = fl ++ t /\ fl `prefix_of` lines (a +:+ b) /\
  Forall (fun l => ends_line l = true) fl /\ (t = [] \/ exists x, t = [x] /\ string_all not_lf x = true).
Proof.
  induction a as [|c a (fl&t&Ha&[k Hk]&Hfl&Ht)].
  { exists [], []. split_and!; [done|apply prefix_nil|done|by left]. }
  change (String c a +:+ b) with (String c (a +:+ b)). cbn [lines].
  destruct (Ascii.eqb c LF) eqn:Hc.
  { exists (nl :: fl), t. rewrite Ha, Hk. split_and!; [done|by exists k|by constructor|done]. }
  destruct fl as [|l fl].
  - exists []. cbn in Ha. rewrite Ha. destruct Ht as [->|(x&->&Hx)].
    + exists [String c ""]. split_and!; [done|apply prefix_nil|done|]. right. exists (String c "").
      split; [done|]. cbn. unfold not_lf. by rewrite Hc.
    + exists [String c x]. split_and!; [done|apply prefix_nil|done|]. right. exists (String c x).
      split; [done|]. cbn. unfold not_lf at 1. by rewrite Hc.
  - exists (String c l :: fl), t. rewrite Ha, Hk. split_and!; [done|by exists k| |done].
    apply Forall_cons in Hfl as [Hl Hfl]. constructor; [|done]. cbn. case_bool_decide as Hn; [|done].
    by rewrite Hn in Hl.
Qed.

(** The lines that are read of a connection that carried the beginning of a text. *)
Lemma read_lines_prefix c full b :
  full = received c +:+ b ->
  exists fl t, read_lines c = fl ++ t /\ fl `prefix_of` lines full /\
  (t = [] \/ exists x, t = [x] /\ string_all not_lf x = true).
Proof.
  intros ->. destruct (lines_prefix (received c) b) as (fl&t&Ha&Hp&Hfl&Ht).
  unfold read_lines. destruct (broken c); [|by exists fl, t].
  exists fl, []. split_and!; [|done|by left]. rewrite Ha, filter_app, app_nil_r.
  assert (filter (fun l => ends_line l = true) fl = fl) as ->.
  { clear Ha Hp. induction Hfl as [|l fl Hl Hfl IH]; [done|]. rewrite filter_cons, decide_True by done. by f_equal. }
  destruct Ht as [->|(x&->&Hx)]; [by rewrite app_nil_r|].
  rewrite filter_cons, decide_False, app_nil_r by (by rewrite not_lf_open). done.
Qed.

(** ** What the client makes of them *)
Lemma not_lf_other x : string_all not_lf x = true -> x <> crlf /\ x <> nl.
Proof. intros Hx. by split; intros ->. Qed.

(** An unfinished line shows nothing. *)
Lemma sse_line_open trim buf x : string_all not_lf x = true -> (sse_line trim buf x).2 = [].
Proof.
  intros [H1 H2]%not_lf_other. unfold sse_line. destruct (strip_prefix "data:" x); [done|].
  by rewrite !bool_decide_false by done.
Qed.

Lemma skip_headers_skip hs l :
  Forall (fun h => h <> crlf) hs -> skip_headers (hs ++ l) = skip_headers l.
Proof.
  induction 1 as [|h hs Hh Hhs IH]; [done|]. cbn. by rewrite bool_decide_false.
Qed.

Lemma skip_headers_open t :
  t = [] \/ (exists x, t = [x] /\ string_all not_lf x = true) -> skip_headers t = None.
Proof.
  intros [->|(x&->&[Hx _]%not_lf_other)]; [done|]. cbn. by rewrite bool_decide_false.
Qed.

(** A header line. *)
Definition header (h : string) : Prop := h <> "" /\ string_all is_plain h = true.

Lemma header_line h r : header h ->
  lines (h +:+ crlf +:+ r) = (h +:+ crlf) :: lines r /\ h +:+ crlf <> crlf.
Proof.
  intros [Hh Hp]. split.
  - change (crlf +:+ r) with (String CR "" +:+ nl +:+ r). rewrite <- append_assoc, lines_line.
    + by rewrite append_assoc.
    + rewrite string_all_app, plain_not_lf by done. done.
  - destruct h as [|a [|b h]]; [done|by intros [= ]|]. by destruct h.
Qed.

Lemma head_lines hs body : Forall header hs ->
  exists ls, lines (http_head hs +:+ body) = ls ++ crlf :: lines body /\ Forall (fun l => l <> crlf) ls.
Proof.
  induction 1 as [|h hs Hh Hhs (ls&IH&Hls)].
  - exists []. split; [|done]. apply (lines_line (String CR "") body). done.
  - cbn [http_head foldr]. fold (http_head hs). rewrite !append_assoc.
    destruct (header_line h (http_head hs +:+ body) Hh) as [-> Hne]. exists ((h +:+ crlf) :: ls).
    rewrite IH. split; [done|by constructor].
Qed.

(** The beginning of an answer: the body's lines begin the lines that are left behind
    the headers, if there are any. *)
Lemma skip_headers_prefix hs body c b :
  Forall header hs -> http_head hs +:+ body = received c +:+ b ->
  match skip_headers (read_lines c) with
  | None => True
  | Some ls => exists fl t, ls = fl ++ t /\ fl `prefix_of` lines body /\
      (t = [] \/ exists x, t = [x] /\ string_all not_lf x = true)
  end.
Proof.
  intros Hhs Hb. destruct (head_lines hs body Hhs) as (H&HL&HH).
  destruct (read_lines_prefix c _ b Hb) as (fl&t&->&[k Hk]&Ht). rewrite HL in Hk.
  destruct (app_eq_inv _ _ _ _ Hk) as [(k'&->&HB)|(k'&->&HB)].
  - apply Forall_app in HH as [HH _]. by rewrite skip_headers_skip, skip_headers_open.
  - rewrite <- app_assoc, skip_headers_skip by done. destruct k' as [|x k']; cbn.
    + by rewrite skip_headers_open.
    + cbn in HB. injection HB as <- HB. rewrite bool_decide_true by done.
      exists k', t. split_and!; [done|by exists k|done].
Qed.

Lemma skip_headers_whole hs body :
  Forall header hs ->
  skip_headers (read_lines {| received := http_head hs +:+ body; broken := false |}) = Some (lines body).
Proof.
  intros Hhs. unfold read_lines. cbn. destruct (head_lines hs body Hhs) as (H&->&HH).
  rewrite skip_headers_skip by done. done.
Qed.

(** ** The stream over HTTP *)
Section http.
Context `{SnapshotJsonLaws} `{!UnicodeText} `{!TrimEnd} `{!TrimLaws} `{SseWireLaws}.

Definition shown (pretty : bool) (s : Snapshot) : Printed :=
  if pretty then SnapshotPretty s else Text (stream_data s).

Lemma strip_prefix_Some p s r : strip_prefix p s = Some r -> s = p +:+ r.
Proof.
  revert s. induction p as [|a p IH]; intros s; cbn; [by intros [= ->]|].
  destruct s as [|b s]; [done|]. destruct (Ascii.eqb_spec a b) as [->|]; [|done]. by intros ->%IH.
Qed.

Lemma hex_not_lf s : string_all is_hex s = true -> string_all not_lf (s +:+ String CR "") = true.
Proof.
  intros Hs. rewrite string_all_app. apply andb_true_iff. split; [|done].
  revert Hs. apply string_all_impl. intros c. unfold not_lf. destruct (Ascii.eqb_spec c LF) as [->|]; [done|done].
Qed.

(** The line with the size of a chunk is none of an event. *)
Lemma size_line trim size buf : size <> "" -> string_all is_hex size = true ->
  sse_line trim buf (size +:+ crlf) = (buf, []).
Proof.
  intros Hne Hs. unfold sse_line.
  assert (strip_prefix "data:" (size +:+ crlf) = None) as ->.
  { destruct (strip_prefix "data:" _) as [r|] eqn:Hp; [|done]. apply strip_prefix_Some in Hp.
    assert (string_all (fun c => is_hex c || is_blank c) (size +:+ crlf) = true) as Hall.
    { rewrite string_all_app. apply andb_true_iff. split; [|done].
      revert Hs. apply string_all_impl. by intros c ->. }
    by rewrite Hp in Hall. }
  assert (size +:+ crlf <> crlf /\ size +:+ crlf <> nl) as [Hn1 Hn2].
  { split; destruct size as [|a [|b size]]; try done; by destruct size. }
  rewrite (bool_decide_false _ Hn1), (bool_decide_false _ Hn2). done.
Qed.

Lemma framed_nonempty j r : framed j -> j +:+ r <> "".
Proof. by intros [m ->]. Qed.

(** A way to trim a payload: up to blanks before it, which [pad] keeps or does not. *)
Definition trims (trim pad : string -> string) : Prop :=
  (forall w, string_all is_blank w = true -> string_all is_blank (pad w) = true) /\
  forall w d, string_all is_blank w = true -> framed d -> trim (w +:+ d +:+ nl) = pad w +:+ d.

Lemma str_trim_trims : trims str_trim (fun _ => "").
Proof. split; [done|]. intros w d Hw Hd. by apply trim_framed. Qed.

Lemma str_trim_end_trims : trims str_trim_end id.
Proof. split; [done|]. intros w d Hw Hd. by apply trim_end_framed. Qed.

(** The text that an event comes to. *)
Definition event_text (pad : string -> string) (s : Snapshot) (t : string) : Prop :=
  exists w, string_all is_blank w = true /\ t = pad w +:+ stream_data s +:+ nl.

Section lines.
Context (trim pad : string -> string) (Htrim : trims trim pad).

(** The lines of a chunk with an event, and what they come to. *)
Lemma chunk_lines d rest : framed d -> string_all is_plain d = true ->
  exists ls w, lines (http_chunk (sse_event d) +:+ rest) = ls ++ lines rest /\
  string_all is_blank w = true /\ run_list (sse_line trim) "" ls = ("", [pad w +:+ d +:+ nl]).
Proof.
  intros Hf Hp. destruct (sse_event_text d Hp) as (w&Hw&Hw'&->).
  destruct (http_chunk_text ("data:" +:+ w +:+ d +:+ nl +:+ nl)) as (size&Hne&Hs&->).
  exists [size +:+ crlf; "data:" +:+ w +:+ d +:+ nl; nl; crlf], w. split_and!; [|done|].
  - assert (forall x, size +:+ crlf +:+ x = (size +:+ String CR "") +:+ nl +:+ x) as Hsize
      by (intros x; by rewrite append_assoc).
    rewrite !append_assoc, Hsize, lines_line by by apply hex_not_lf.
    assert (forall x, "data:" +:+ w +:+ d +:+ nl +:+ x = ("data:" +:+ w +:+ d) +:+ nl +:+ x) as Hd
      by (intros x; by rewrite !append_assoc).
    rewrite Hd, lines_line.
    + by rewrite !append_assoc.
    + rewrite !string_all_app. rewrite (plain_not_lf w), (plain_not_lf d) by done. done.
  - assert (sse_line trim "" ("data:" +:+ w +:+ d +:+ nl) = (pad w +:+ d +:+ nl, [])) as Hdata.
    { unfold sse_line. change (strip_prefix "data:" ("data:" +:+ w +:+ d +:+ nl)) with (Some (w +:+ d +:+ nl)).
      cbv beta iota. rewrite (proj2 Htrim w d Hw Hf). by rewrite append_assoc. }
    assert (sse_line trim (pad w +:+ d +:+ nl) nl = ("", [pad w +:+ d +:+ nl])) as Hend.
    { unfold sse_line. cbn [strip_prefix nl]. rewrite (bool_decide_true (nl = nl)), orb_true_r by done.
      rewrite bool_decide_false; [done|]. destruct (pad w) as [|c p]; [by apply (framed_nonempty d)|done]. }
    rewrite run_list_cons, size_line by done. cbn [fst snd app].
    rewrite run_list_cons, Hdata. cbn [fst snd app]. by rewrite run_list_cons, Hend.
Qed.

(** Every event of the stream, one after the other. *)
Lemma stream_events snaps : Forall json_keeps snaps ->
  exists ts, run_list (sse_line trim) "" (lines (stream_handler snaps)) = ("", ts) /\
  Forall2 (event_text pad) snaps ts.
Proof.
  induction 1 as [|s snaps (j&Hj&_) Hs (ts&IH&Hts)]; [by exists []|].
  destruct (to_json_framed s j Hj) as [Hf Hp]. cbn [stream_handler foldr].
  fold (stream_handler snaps). unfold stream_data at 1. rewrite Hj. cbn [default from_option id].
  destruct (chunk_lines j (stream_handler snaps) Hf Hp) as (ls&w&->&Hw&Hrun).
  rewrite run_list_app, Hrun, IH. exists ((pad w +:+ j +:+ nl) :: ts). split; [done|].
  constructor; [|done]. exists w. unfold stream_data. by rewrite Hj.
Qed.

(** Of the stream, cut after any byte and in any way, the first events arrive. *)
Lemma stream_prefix hs snaps c b ls :
  Forall header hs -> Forall json_keeps snaps -> http_head hs +:+ stream_handler snaps = received c +:+ b ->
  skip_headers (read_lines c) = Some ls ->
  exists ts k, Forall2 (event_text pad) snaps ts /\
    (run_list (sse_line trim) "" ls).2 = take k ts.
Proof.
  intros Hhs Hs Hb Hls. destruct (stream_events snaps Hs) as (ts&Hrun&Hts).
  pose proof (skip_headers_prefix hs _ c b Hhs Hb) as Hskip. rewrite Hls in Hskip.
  destruct Hskip as (fl&t&->&[k Hk]&Ht). rewrite Hk, run_list_app in Hrun. rewrite run_list_app.
  destruct (run_list (sse_line trim) "" fl) as [buf out].
  assert ((run_list (sse_line trim) buf t).2 = []) as Hnone.
  { destruct Ht as [->|(x&->&Hx)]; [done|]. rewrite run_list_cons. cbn. by rewrite sse_line_open. }
  destruct (run_list (sse_line trim) buf t) as [buf' out'], (run_list (sse_line trim) buf k) as [buf'' out''].
  cbn [snd] in *. subst out'. injection Hrun as _ Hrun. exists ts, (length out).
  split; [done|]. by rewrite app_nil_r, <- Hrun, take_app_length.
Qed.

(** The snapshot is read from the text of its event. *)
Lemma event_reads s t : json_keeps s -> event_text pad s t -> from_json (str_trim_end t) = Some s.
Proof.
  intros (j&Hj&Hr) (w&Hw&->). unfold stream_data. rewrite Hj. cbn [default from_option id].
  destruct (to_json_framed s j Hj) as [Hf _]. rewrite (trim_end_framed (pad w) j nl eq_refl Hf).
  by rewrite from_json_blank by (done || by apply Htrim).
Qed.
End lines.

Lemma printed_event pretty s t : json_keeps s -> event_text (fun _ => "") s t ->
  sse_event_printed pretty t = [shown pretty s].
Proof.
  intros Hk Ht. pose proof (event_reads _ _ str_trim_trims s t Hk Ht) as Hr. unfold sse_event_printed, shown.
  rewrite Hr. destruct pretty; [done|]. destruct Ht as (w&_&->), Hk as (j&Hj&_). unfold stream_data. rewrite Hj.
  destruct (to_json_framed s j Hj) as [Hf _].
  do 2 f_equal. exact (trim_end_framed "" j nl eq_refl Hf).
Qed.

Lemma printed_events pretty snaps ts k : Forall json_keeps snaps -> Forall2 (event_text (fun _ => "")) snaps ts ->
  flat_map (sse_event_printed pretty) (take k ts) = map (shown pretty) (take k snaps).
Proof.
  intros Hs Hts. revert k Hs. induction Hts as [|s t snaps ts Ht Hts IH]; intros [|k] Hs; [done..|].
  apply Forall_cons in Hs as [Hs Hss]. cbn [take flat_map map]. by rewrite (printed_event pretty s t), IH.
Qed.

(** The stream of the daemon, cut after any byte and in any way, shows the first of the
    snapshots that were sent, as they were, and all of them if it was not cut. *)
Lemma sse_watch_prefix hs snaps c b pretty :
  Forall header hs -> Forall json_keeps snaps -> http_head hs +:+ stream_handler snaps = received c +:+ b ->
  exists k, (sse_watch_via_http (Some c) pretty).1 = map (shown pretty) (take k snaps).
Proof.
  intros Hhs Hs Hb. unfold sse_watch_via_http.
  destruct (skip_headers (read_lines c)) as [ls|] eqn:Hls; [|by exists 0%nat].
  destruct (stream_prefix _ _ str_trim_trims hs snaps c b ls Hhs Hs Hb Hls) as (ts&k&Hts&->).
  exists k. by apply printed_events.
Qed.

Lemma sse_watch_whole hs snaps pretty :
  Forall header hs -> Forall json_keeps snaps ->
  sse_watch_via_http (Some {| received := http_head hs +:+ stream_handler snaps; broken := false |}) pretty
  = (map (shown pretty) snaps, true).
Proof.
  intros Hhs Hs. unfold sse_watch_via_http. rewrite skip_headers_whole by done.
  destruct (stream_events _ _ str_trim_trims snaps Hs) as (ts&->&Hts). cbn [snd negb broken]. f_equal.
  pose proof (printed_events pretty snaps ts (length ts) Hs Hts) as Hp.
  by rewrite firstn_all, <- (Forall2_length _ _ _ Hts), firstn_all in Hp.
Qed.
End http.

(** ** The stream of a bus *)
Definition bus_ops (es : list serve) : list bus_op :=
  omap (fun e => match e with BusOp o => Some o | Poll => None end) es.
(** What was published from [b] on. *)
Definition published (b : SnapshotBus) (es : list serve) : list Snapshot :=
  (run_list bus_step b (bus_ops es)).2.

Lemma bus_step_current b o :
  (bus_step b o).2 = [] /\ current_snapshot (bus_step b o).1 = current_snapshot b \/
  (bus_step b o).2 = [current_snapshot (bus_step b o).1].
Proof. destruct o; [by left|by left|by right]. Qed.

(** The snapshot that a subscription has yet to give. *)
Definition pending (s : Subscription) : list Snapshot :=
  if unseen s then [current_snapshot (sub_bus s)] else [].

Record followed (b : SnapshotBus) (sent : list Snapshot) (s : Subscription) (given : list Snapshot) : Prop := {
  fo_sublist : given ++ pending s `sublist_of` current_snapshot b :: sent;
  fo_newest : last (given ++ pending s) = Some (current_snapshot (sub_bus s))
}.

Lemma stream_followed b es :
  let r := run_list stream_step (watch_snapshot b) es in
  sub_bus r.1 = (run_list bus_step b (bus_ops es)).1 /\ followed b (published b es) r.1 r.2.
Proof.
  cbv zeta. induction es as [|e es [IHb [IHs IHn]]] using rev_ind.
  - split; [done|]. by split.
  - unfold published, bus_ops in *. rewrite omap_app, !run_list_app.
    destruct (run_list stream_step _ es) as [s given], (run_list bus_step b (omap _ es)) as [b' sent].
    cbn [fst snd] in *. subst b'. destruct e as [o|]; cbn [omap list_omap run_list].
    + pose proof (bus_step_current (sub_bus s) o) as Hcur. unfold stream_step.
      destruct (bus_step (sub_bus s) o) as [b'' out]. cbn [fst snd] in *. split; [done|]. rewrite !app_nil_r.
      destruct Hcur as [[-> Hcur]| ->].
      * rewrite bool_decide_true, orb_false_r, app_nil_r by done.
        split; unfold pending in *; cbn; by rewrite Hcur.
      * rewrite bool_decide_false, orb_true_r by done. split; unfold pending; cbn; [|by rewrite last_snoc].
        apply (sublist_app given (current_snapshot b :: sent)); [|done].
        etrans; [|exact IHs]. by apply sublist_inserts_r.
    + rewrite app_nil_r. unfold stream_step, pending in *. destruct (unseen s) eqn:Hu; cbn [fst snd unseen sub_bus].
      * split; [done|]. split; unfold pending; cbn; by rewrite ?app_nil_r.
      * split; [done|]. rewrite app_nil_r. split; unfold pending; by rewrite Hu.
Qed.

Lemma prefix_sublist {A} (l k : list A) : l `prefix_of` k -> l `sublist_of` k.
Proof. intros [r ->]. by apply sublist_inserts_r. Qed.

Lemma Forall_sublist {A} (P : A -> Prop) l k : sublist l k -> Forall P k -> Forall P l.
Proof. induction 1 as [|x l k Hl IH|x l k Hl IH]; [done| |]; intros [? ?]%Forall_cons; auto. Qed.

Lemma StronglySorted_sublist {A} (R : A -> A -> Prop) l k :
  sublist l k -> StronglySorted R k -> StronglySorted R l.
Proof.
  induction 1 as [|x l k Hl IH|x l k Hl IH]; [done| |].
  - intros [Hs Hf]%StronglySorted_inv. constructor; [by apply IH|]. by eapply Forall_sublist.
  - intros [Hs _]%StronglySorted_inv. by apply IH.
Qed.

(** Snapshots are numbered as they are published. *)
Lemma published_sorted now es :
  Z.of_nat (length (published (bus_new now) es)) < 2 ^ 64 ->
  StronglySorted (fun a b => s_seq a < s_seq b) (current_snapshot (bus_new now) :: published (bus_new now) es).
Proof.
  intros Hlen. pose proof (proj2 (proj2 (bus_history now (bus_ops es)))) as Hseq.
  fold (published (bus_new now) es) in Hseq. set (l := published (bus_new now) es) in *.
  assert (forall i s, l !! i = Some s -> s_seq s = Z.of_nat i + 1) as Hnum.
  { intros i s Hi. destruct (Hseq i s Hi) as [-> _]. apply uw_small. apply lookup_lt_Some in Hi. unfold in_u. lia. }
  clearbody l. clear Hseq Hlen. constructor.
  - assert (forall n, (forall i s, l !! i = Some s -> s_seq s = Z.of_nat i + n) ->
      StronglySorted (fun a b => s_seq a < s_seq b) l) as Hgo; [|by apply (Hgo 1)].
    clear Hnum. induction l as [|s l IH]; intros n Hn; [constructor|]. constructor.
    + apply (IH (n + 1)). intros i s' Hi. rewrite (Hn (S i) s' Hi). lia.
    + apply Forall_lookup. intros i s' Hi. rewrite (Hn 0%nat s eq_refl), (Hn (S i) s' Hi). lia.
  - apply Forall_lookup. intros i s Hi. rewrite (Hnum i s Hi). cbn. lia.
Qed.

Section shows.
Context `{SnapshotJsonLaws} `{!UnicodeText} `{!TrimEnd} `{!TrimLaws} `{SseWireLaws}.

(** ** A single snapshot *)
Lemma body_of_step c s : c <> CR -> body_of (String c s) = body_of s.
Proof.
  intros Hc. change (body_of (String c s)) with (match
    (if Ascii.eqb CR c then strip_prefix (nl +:+ crlf) s else None) with Some b => Some b | None => body_of s end).
  by rewrite (proj2 (Ascii.eqb_neq CR c)).
Qed.

Lemma plain_not_cr c : is_plain c = true -> c <> CR.
Proof. by intros Hc ->. Qed.

Lemma body_of_plain h r : string_all is_plain h = true -> body_of (h +:+ r) = body_of r.
Proof.
  induction h as [|c h IH]; [done|]. cbn [string_all]. intros [Hc Hh]%andb_true_iff.
  change (String c h +:+ r) with (String c (h +:+ r)). rewrite body_of_step by by apply plain_not_cr. by apply IH.
Qed.

Lemma body_of_answer hs body : Forall header hs -> body_of (crlf +:+ http_head hs +:+ body) = Some body.
Proof.
  induction 1 as [|h hs [Hne Hh] Hhs IH]; [done|]. cbn [http_head foldr]. fold (http_head hs).
  rewrite !append_assoc. transitivity (body_of (h +:+ crlf +:+ http_head hs +:+ body)); [|by rewrite body_of_plain].
  destruct h as [|c h]; [done|]. cbn [string_all] in Hh. apply andb_true_iff in Hh as [Hc%plain_not_cr _].
  set (t := h +:+ crlf +:+ http_head hs +:+ body).
  change (body_of (crlf +:+ String c h +:+ crlf +:+ http_head hs +:+ body)) with
    (match (if Ascii.eqb CR c then strip_prefix nl t else None) with
     | Some b => Some b | None => body_of (String LF (String c t)) end).
  rewrite (proj2 (Ascii.eqb_neq CR c)) by done. by rewrite body_of_step.
Qed.

Lemma http_get_answer h hs b c s : Forall header (h :: hs) -> snapshot_handler b = Some s ->
  json_keeps (current_snapshot b) ->
  c = {| received := http_head (h :: hs) +:+ s; broken := false |} ->
  http_get_snapshot (Some c) = Some (current_snapshot b).
Proof.
  intros [[Hne Hh] Hhs]%Forall_cons Hs (j&Hj&Hr) ->. unfold http_get_snapshot. cbn [mbind option_bind broken received].
  cbn [http_head foldr]. fold (http_head hs). rewrite !append_assoc, body_of_plain, body_of_answer by done.
  unfold snapshot_handler in Hs. cbn. congruence.
Qed.

(** [kronictl snapshot] shows the daemon's current snapshot: over gRPC what the messages
    carry of it, and when that fails, over HTTP, all of it. *)
Theorem snapshot_autoselect_answers `{ChronoPartsLaws} utc b h hs body pretty k :
  Forall header (h :: hs) -> snapshot_handler b = Some body -> json_keeps (current_snapshot b) ->
  snapshot_bounds (current_snapshot b) ->
  let shown s := if pretty : bool then SnapshotPretty s else SnapshotJsonPretty s in
  let conn := Some {| received := http_head (h :: hs) +:+ body; broken := false |} in
  snapshot_autoselect utc (Some (grpc_snapshot_handler utc b)) conn pretty k
    = (Some (shown (carried_snapshot (current_snapshot b))), k) /\
  snapshot_autoselect utc None conn pretty k = (Some (shown (current_snapshot b)), k) /\
  snapshot_autoselect utc None None pretty k = (None, k).
Proof.
  intros Hhs Hs Hk Hb shown conn. pose proof (http_get_answer h hs b _ body Hhs Hs Hk eq_refl) as Hget.
  fold conn in Hget. split_and!; [| |done].
  - unfold snapshot_autoselect, grpc_snapshot, grpc_snapshot_handler, mbind, Reads_bind.
    pose proof (snapshot_law utc (current_snapshot b) k Hb) as Hw.
    change (map_pb_snapshot utc (to_pb utc (current_snapshot b)) k = (carried_snapshot (current_snapshot b), k)) in Hw.
    by rewrite Hw.
  - unfold snapshot_autoselect, mbind, Reads_bind. cbn [grpc_snapshot mret Reads_ret]. by rewrite Hget.
Qed.
End shows.

(** ** The command *)
(** How a snapshot is printed that came over gRPC, and one of the polling fallback. *)
Definition over_grpc (pretty : bool) (s : Snapshot) : Printed :=
  if pretty then SnapshotPretty (carried_snapshot s) else SnapshotJsonText (carried_snapshot s).
Definition over_poll (pretty : bool) (s : Snapshot) : Printed :=
  if pretty then SnapshotLine s else SnapshotFields s.

Lemma grpc_printed `{ChronoPartsLaws} utc pretty snaps k : Forall snapshot_bounds snaps ->
  grpc_print utc pretty (grpc_watch_handler utc snaps) k = (map (over_grpc pretty) snaps, k).
Proof.
  unfold grpc_watch_handler. induction 1 as [|s snaps Hb Hs IH]; [done|].
  cbn [map grpc_print]. unfold mbind, Reads_bind. pose proof (snapshot_law utc s k Hb) as Hw.
  change (map_pb_snapshot utc (to_pb utc s) k = (carried_snapshot s, k)) in Hw. by rewrite Hw, IH.
Qed.

(** What the gRPC stream of a command carries: the messages of some snapshots that came
    over, and whether it ended with an error; none when there was no connection. *)
Inductive grpc_carries `{ChronoParts} (utc : nat -> instant) : list Snapshot -> option Replies -> Prop :=
  | carries_nothing : grpc_carries utc [] None
  | carries_replies snaps bad :
      grpc_carries utc snaps (Some {| replies := grpc_watch_handler utc snaps; failed := bad |}).

Definition stream_fails (stream : option Replies) : bool :=
  match stream with Some s => failed s | None => true end.

(** Watching over gRPC shows what the messages carry of the snapshots; when the stream
    fails the HTTP stream is shown behind it, and polling only when that fails too. *)
Lemma watch_falls_back `{SnapshotJson} `{UnicodeText} `{TrimEnd} `{ChronoPartsLaws} utc snaps stream
    conn polls pretty k :
  grpc_carries utc snaps stream -> Forall snapshot_bounds snaps ->
  let http := sse_watch_via_http conn pretty in
  let polled := poll_loop pretty polls in
  watch_via_http utc stream conn polls pretty k =
    (if negb (stream_fails stream) then (map (over_grpc pretty) snaps, Done)
     else if http.2 then (map (over_grpc pretty) snaps ++ http.1, Done)
     else (map (over_grpc pretty) snaps ++ http.1 ++ polled.1,
           if polled.2 then Polling else WatchError), k).
Proof.
  intros Hstream Hs http polled.
  assert (grpc_watch utc stream pretty k = (map (over_grpc pretty) snaps, negb (stream_fails stream), k))
    as Hg.
  { destruct Hstream as [|snaps bad]; [done|]. unfold grpc_watch, mbind, Reads_bind. cbn [replies failed].
    by rewrite grpc_printed. }
  unfold watch_via_http, sse_watch_via_grpc_then_http, mbind, Reads_bind. rewrite Hg.
  unfold mret, Reads_ret. destruct (stream_fails stream); cbn [negb]; [|done].
  fold http. destruct http as [ps ok]. cbn [fst snd]. destruct ok; [done|].
  fold polled. destruct polled as [ps' running]. cbn [fst snd]. by rewrite (assoc_L (++)).
Qed.

(** What the bus shows, first and from then on. *)
Definition trail (b : SnapshotBus) (ops : list bus_op) : list Snapshot :=
  current_snapshot b :: (run_list bus_step b ops).2.

(** The buses that polls meet, each behind some operations. *)
Fixpoint poll_buses (b : SnapshotBus) (polls : list (list bus_op * option Connection)) : list SnapshotBus :=
  match polls with
  | [] => []
  | (ops, _) :: polls => let b := (run_list bus_step b ops).1 in b :: poll_buses b polls
  end.

Lemma trail_app b ops ops' :
  trail b (ops ++ ops') = trail b ops ++ (run_list bus_step (run_list bus_step b ops).1 ops').2.
Proof.
  unfold trail. rewrite run_list_app. destruct (run_list bus_step b ops) as [b' out].
  cbn [fst snd]. by destruct (run_list bus_step b' ops').
Qed.

Lemma trail_last b ops : last (trail b ops) = Some (current_snapshot (run_list bus_step b ops).1).
Proof.
  revert b. induction ops as [|o ops IH]; intros b; [done|]. unfold trail. rewrite run_list_cons.
  specialize (IH (bus_step b o).1). unfold trail in IH.
  destruct (run_list bus_step (bus_step b o).1 ops) as [b' out]. cbn [fst snd] in *. rewrite <- IH.
  destruct (bus_step_current b o) as [[-> Hc]| ->]; [|done]. rewrite Hc. done.
Qed.

Lemma trail_current b ops : current_snapshot (run_list bus_step b ops).1 ∈ trail b ops.
Proof. apply last_Some_elem_of, trail_last. Qed.

(** The later trail is the end of the whole. *)
Lemma trail_suffix b ops ops' :
  trail (run_list bus_step b ops).1 ops' `suffix_of` trail b (ops ++ ops').
Proof.
  rewrite trail_app. pose proof (trail_last b ops) as Hl.
  apply last_Some in Hl as [l Hl]. rewrite Hl. exists l. by rewrite <- (assoc_L (++)).
Qed.

Definition no_later (a b : Snapshot) : Prop := s_seq a <= s_seq b.

(** Lists in order that share an end and a beginning are in order one behind the other. *)
Lemma sorted_join l x r :
  StronglySorted no_later l -> last l = Some x -> StronglySorted no_later (x :: r) ->
  StronglySorted no_later (l ++ x :: r).
Proof.
  intros Hl Hx Hr. induction Hl as [|y l Hl IH Hy]; [done|]. cbn [app].
  destruct l as [|z l]; cbn in Hx.
  { injection Hx as ->. constructor; [done|]. constructor; [unfold no_later; lia|].
    by apply StronglySorted_inv in Hr as [_ ?]. }
  constructor; [by apply IH|]. apply Forall_app. split; [done|].
  assert (no_later y x) as Hyx.
  { rewrite Forall_forall in Hy. apply Hy. by apply last_Some_elem_of. }
  constructor; [done|]. apply StronglySorted_inv in Hr as [_ Hr].
  eapply Forall_impl; [exact Hr|]. unfold no_later in *. intros a Ha. lia.
Qed.

Lemma poll_buses_shown b polls ops :
  StronglySorted no_later (trail b (ops ++ concat (map fst polls))) ->
  let shots := map current_snapshot (poll_buses (run_list bus_step b ops).1 polls) in
  StronglySorted no_later (current_snapshot (run_list bus_step b ops).1 :: shots) /\
  (forall s, s ∈ shots -> s ∈ trail b (ops ++ concat (map fst polls))).
Proof.
  revert ops. induction polls as [|[ops1 c] polls IH]; intros ops Hs; cbn [poll_buses map fst concat].
  { split; [by repeat constructor|]. by intros s Hin%elem_of_nil. }
  cbn [map concat fst] in Hs. rewrite (assoc_L (++)) in Hs |- *.
  destruct (IH (ops ++ ops1) Hs) as [Hs1 Hin]. cbv zeta in Hs1, Hin.
  assert ((run_list bus_step b (ops ++ ops1)).1 = (run_list bus_step (run_list bus_step b ops).1 ops1).1)
    as Hb.
  { rewrite run_list_app. destruct (run_list bus_step b ops) as [b' out]. cbn.
    by destruct (run_list bus_step b' ops1). }
  rewrite Hb in Hs1, Hin. set (b1 := (run_list bus_step b ops).1) in *.
  set (b2 := (run_list bus_step b1 ops1).1) in *. split.
  - assert (no_later (current_snapshot b1) (current_snapshot b2)) as Hle.
    { pose proof (trail_suffix b ops (ops1 ++ concat (map fst polls))) as [pre Hpre].
      rewrite (assoc_L (++)) in Hpre. rewrite Hpre in Hs. fold b1 in Hs. rewrite trail_app in Hs.
      apply StronglySorted_app_1_r in Hs. apply StronglySorted_app_1_l in Hs.
      pose proof (trail_current b1 ops1) as Hc. fold b2 in Hc. unfold trail in Hs, Hc.
      apply StronglySorted_inv in Hs as [_ Hs]. apply elem_of_cons in Hc as [->|Hc];
        [unfold no_later; lia|]. rewrite Forall_forall in Hs. by apply Hs. }
    constructor; [done|]. apply StronglySorted_inv in Hs1 as [_ Hs1]. constructor; [done|].
    eapply Forall_impl; [exact Hs1|]. unfold no_later in *. intros a Ha. lia.
  - cbn [map]. intros s [->|Hin']%elem_of_cons; [|by apply Hin].
    rewrite trail_app. apply elem_of_app. left.
    pose proof (trail_current b (ops ++ ops1)) as Hc. by rewrite Hb in Hc.
Qed.

(** The answer to a poll: none, one that is cut by an error, or the daemon's. *)
Inductive poll_meets `{SnapshotJson} (b : SnapshotBus) : option Connection -> Prop :=
  | meets_nobody : poll_meets b None
  | meets_error c : broken c = true -> poll_meets b (Some c)
  | meets_daemon h hs body :
      Forall header (h :: hs) -> snapshot_handler b = Some body ->
      poll_meets b (Some {| received := http_head (h :: hs) +:+ body; broken := false |}).

Lemma poll_loop_shown `{SnapshotJsonLaws} `{!UnicodeText} `{!TrimEnd} `{!TrimLaws} `{SseWireLaws}
    pretty bs conns :
  Forall2 poll_meets bs conns -> Forall json_keeps (map current_snapshot bs) ->
  exists p, (poll_loop pretty conns).1 = map (over_poll pretty) p /\
    p `prefix_of` map current_snapshot bs /\
    ((poll_loop pretty conns).2 = true -> p = map current_snapshot bs).
Proof.
  induction 1 as [|b c bs conns Hc Hcs IH]; intros Hk; [by exists []|].
  cbn [map] in Hk |- *. apply Forall_cons in Hk as [Hk Hks]. cbn [poll_loop].
  destruct (IH Hks) as (p&Hp&Hpre&Hall). destruct Hc as [|c Hb|h hs body Hh Hbody].
  - exists []. split_and!; [done|apply prefix_nil|done].
  - assert (http_get_snapshot (Some c) = None) as -> by (unfold http_get_snapshot; cbn; by rewrite Hb).
    exists []. split_and!; [done|apply prefix_nil|done].
  - rewrite (http_get_answer h hs b _ body) by done.
    destruct (poll_loop pretty conns) as [ps running]. cbn [fst snd] in *. subst ps.
    exists (current_snapshot b :: p). split_and!; [done|by apply prefix_cons|].
    intros Hr. by rewrite (Hall Hr).
Qed.

Lemma trail_sorted now ops :
  Z.of_nat (length (trail (bus_new now) ops)) <= 2 ^ 64 ->
  StronglySorted (fun a b => s_seq a < s_seq b) (trail (bus_new now) ops).
Proof.
  assert (bus_ops (map BusOp ops) = ops) as Hops.
  { unfold bus_ops. induction ops as [|o ops IH]; [done|]. cbn. by f_equal. }
  intros Hlen. pose proof (published_sorted now (map BusOp ops)) as Hs. unfold published in Hs.
  rewrite Hops in Hs. apply Hs. unfold trail in Hlen. cbn [length] in Hlen. lia.
Qed.

Lemma sorted_no_later l : StronglySorted (fun a b => s_seq a < s_seq b) l -> StronglySorted no_later l.
Proof.
  induction 1 as [|x l Hl IH Hx]; constructor; [done|]. eapply Forall_impl; [exact Hx|].
  unfold no_later. cbn. lia.
Qed.

(** What the HTTP stream of a command carries: nothing, or what came of the bytes of the
    daemon's answer, which may be cut anywhere. *)
Inductive http_carries `{SnapshotJson} `{SseWire} (sent : list Snapshot) : option Connection -> Prop :=
  | carries_nobody : http_carries sent None
  | carries_bytes hs c rest :
      Forall header hs -> http_head hs +:+ stream_handler sent = received c +:+ rest ->
      http_carries sent (Some c).

Section command.
Context `{SnapshotJsonLaws} `{!UnicodeText} `{!TrimEnd} `{!TrimLaws} `{SseWireLaws}.
Context `{ChronoPartsLaws} (utc : nat -> instant).

(** A subscription gives some of what the bus shows. *)
Lemma subscription_trail b es :
  let r := run_list stream_step (watch_snapshot b) es in
  sub_bus r.1 = (run_list bus_step b (bus_ops es)).1 /\
  r.2 `sublist_of` trail b (bus_ops es) /\
  (unseen r.1 = false -> last r.2 = Some (current_snapshot (sub_bus r.1))).
Proof.
  cbv zeta. destruct (stream_followed b es) as [Hb [Hsub Hnew]]. split_and!; [done| |].
  - etrans; [|exact Hsub]. by apply sublist_inserts_r.
  - intros Hu. unfold pending in Hnew. by rewrite Hu, app_nil_r in Hnew.
Qed.

Lemma http_shown sent conn pretty : Forall json_keeps sent -> http_carries sent conn ->
  let printed := (sse_watch_via_http conn pretty).1 in
  printed = map (shown pretty) (take (length printed) sent).
Proof.
  intros Hk Hc printed. assert (exists n, printed = map (shown pretty) (take n sent)) as [n Hn].
  { destruct Hc as [|hs c rest Hhs Hc]; [by exists 0%nat|].
    exact (sse_watch_prefix hs sent c rest pretty Hhs Hk Hc). }
  rewrite Hn at 2. rewrite length_map, length_take, Hn. f_equal.
  destruct (decide (n <= length sent)%nat); [f_equal; lia|].
  by rewrite !take_ge by lia.
Qed.

(** Parts of what the bus shows one behind the other are in order. *)
Lemma trails_in_order b ops1 ops2 polls g h p :
  let b1 := (run_list bus_step b ops1).1 in
  let b2 := (run_list bus_step b1 ops2).1 in
  let all := trail b (ops1 ++ ops2 ++ concat (map fst polls)) in
  StronglySorted no_later all ->
  g `sublist_of` trail b ops1 -> h `sublist_of` trail b1 ops2 ->
  p `prefix_of` map current_snapshot (poll_buses b2 polls) ->
  g `sublist_of` all /\ h `sublist_of` all /\ (forall s, s ∈ g ++ h ++ p -> s ∈ all) /\
  StronglySorted no_later (g ++ h ++ p).
Proof.
  intros b1 b2 all Hall Hg Hh Hp.
  assert (trail b ops1 `sublist_of` all) as Hin1.
  { unfold all. rewrite trail_app. by apply sublist_inserts_r. }
  assert (trail b1 ops2 `sublist_of` all) as Hin2.
  { destruct (trail_suffix b ops1 (ops2 ++ concat (map fst polls))) as [pre Hpre]. unfold all.
    rewrite Hpre. apply sublist_inserts_l. rewrite trail_app. by apply sublist_inserts_r. }
  pose proof (poll_buses_shown b polls (ops1 ++ ops2)) as Hbuses.
  rewrite <- (assoc_L (++)) in Hbuses. destruct (Hbuses Hall) as [Hpolled Hpin].
  assert ((run_list bus_step b (ops1 ++ ops2)).1 = b2) as Hb2.
  { unfold b2, b1. rewrite run_list_app. destruct (run_list bus_step b ops1) as [b' out].
    cbn. by destruct (run_list bus_step b' ops2). }
  rewrite Hb2 in Hpolled, Hpin.
  assert (g `sublist_of` all) as Hg' by by etrans. assert (h `sublist_of` all) as Hh' by by etrans.
  split_and!; [done..| |].
  - intros s [Hs|[Hs|Hs]%elem_of_app]%elem_of_app; [by eapply elem_of_sublist..|].
    apply Hpin. by apply (elem_of_sublist _ _ _ Hs (prefix_sublist _ _ Hp)).
  - apply (StronglySorted_sublist _ _ (trail b ops1 ++ trail b1 ops2 ++
      current_snapshot b2 :: map current_snapshot (poll_buses b2 polls))).
    + apply sublist_app; [done|]. apply sublist_app; [done|].
      apply sublist_cons. by apply prefix_sublist.
    + apply sorted_join; [|apply trail_last|].
      * by eapply StronglySorted_sublist, Hall.
      * apply (sorted_join (trail b1 ops2)); [|apply trail_last|done].
        by eapply StronglySorted_sublist, Hall.
Qed.

(** C18: whatever is published while a client watches, however late its streams are served,
    and wherever its connections are cut, [kronictl watch] prints published snapshots, in
    the order of their numbers: those that came over gRPC as the messages carry them, and
    behind them, only when that stream failed, those of the HTTP stream as they were and,
    when that failed too, those of the polls.  Within a stream no snapshot is repeated; of
    a stream that has been served and has come over whole, the last that is printed is the
    newest; and as long as the polls go on, each prints the snapshot of its time. *)
Theorem watch_shows_published now es1 g stream es2 conn polls pretty k :
  let b := bus_new now in
  let r1 := run_list stream_step (watch_snapshot b) es1 in
  let b1 := sub_bus r1.1 in
  let r2 := run_list stream_step (watch_snapshot b1) es2 in
  let b2 := sub_bus r2.1 in
  let all := trail b (bus_ops es1 ++ bus_ops es2 ++ concat (map fst polls)) in
  let newest_polled := map current_snapshot (poll_buses b2 polls) in
  Z.of_nat (length all) <= 2 ^ 64 -> Forall json_keeps all -> Forall snapshot_bounds all ->
  grpc_carries utc g stream -> g `prefix_of` r1.2 ->
  http_carries r2.2 conn ->
  Forall2 poll_meets (poll_buses b2 polls) (map snd polls) ->
  exists h p ended,
    watch_via_http utc stream conn (map snd polls) pretty k
      = ((map (over_grpc pretty) g ++ map (shown pretty) h ++ map (over_poll pretty) p, ended), k) /\
    (forall s, s ∈ g ++ h ++ p -> s ∈ all) /\
    StronglySorted (fun a b => s_seq a < s_seq b) g /\
    StronglySorted (fun a b => s_seq a < s_seq b) h /\
    StronglySorted (fun a b => s_seq a <= s_seq b) (g ++ h ++ p) /\
    (stream_fails stream = false -> h = [] /\ p = [] /\ ended = Done /\
       (g = r1.2 -> unseen r1.1 = false -> last g = Some (current_snapshot b1))) /\
    (forall hs, stream_fails stream = true -> Forall header hs ->
       conn = Some {| received := http_head hs +:+ stream_handler r2.2; broken := false |} ->
       p = [] /\ ended = Done /\
       (unseen r2.1 = false -> last h = Some (current_snapshot b2))) /\
    (ended = Polling -> p = newest_polled).
Proof.
  intros b r1 b1 r2 b2 all newest_polled Hlen Hkeep Hbounds Hg Hpre Hhttp Hpolls.
  destruct (subscription_trail b es1) as (Hb1&Hsub1&Hnew1). fold r1 b1 in Hb1, Hsub1, Hnew1.
  destruct (subscription_trail b1 es2) as (Hb2&Hsub2&Hnew2). fold r2 b2 in Hb2, Hsub2, Hnew2.
  assert (StronglySorted (fun a b => s_seq a < s_seq b) all) as Hlt by by apply trail_sorted.
  assert (forall h p, h `sublist_of` r2.2 -> p `prefix_of` newest_polled ->
    g `sublist_of` all /\ h `sublist_of` all /\ (forall s, s ∈ g ++ h ++ p -> s ∈ all) /\
    StronglySorted no_later (g ++ h ++ p)) as Horder.
  { intros h p Hh Hp. subst all newest_polled. rewrite Hb2, Hb1 in Hp. apply trails_in_order.
    - by apply sorted_no_later.
    - etrans; [by apply prefix_sublist|done].
    - rewrite <- Hb1. by etrans.
    - done. }
  destruct (Horder r2.2 newest_polled) as (Hgs&Hhs&Hps&_); [done..|].
  assert (Forall json_keeps newest_polled) as Hkp.
  { apply Forall_forall. intros s Hs. rewrite Forall_forall in Hkeep.
    apply Hkeep, Hps. by rewrite !elem_of_app; auto. }
  pose proof (Forall_sublist _ _ _ Hhs Hkeep) as Hk2.
  pose proof (http_shown r2.2 conn pretty Hk2 Hhttp) as Hshown. cbv zeta in Hshown.
  set (h := take (length (sse_watch_via_http conn pretty).1) r2.2) in Hshown.
  assert (h `sublist_of` r2.2) as Hh by apply sublist_take.
  destruct (poll_loop_shown pretty _ _ Hpolls Hkp) as (q&Hq&Hqpre&Hqall).
  assert (StronglySorted (fun a b => s_seq a < s_seq b) h) as Hht
    by (eapply StronglySorted_sublist; [|exact Hlt]; by etrans).
  assert (StronglySorted (fun a b => s_seq a < s_seq b) g) as Hgt by by eapply StronglySorted_sublist.
  rewrite (watch_falls_back utc g stream conn (map snd polls) pretty k Hg (Forall_sublist _ _ _ Hgs Hbounds)).
  cbv zeta. destruct (stream_fails stream) eqn:Hfails; cbn [negb].
  2: { exists [], [], Done. destruct (Horder [] []) as (_&_&Hin&Hord); [apply sublist_nil_l|apply prefix_nil|].
       split_and!; try done; [by rewrite !app_nil_r|constructor|].
       intros _. split_and!; try done. by intros -> . }
  destruct (sse_watch_via_http conn pretty).2 eqn:Hended.
  - exists h, [], Done. destruct (Horder h []) as (_&_&Hin&Hord); [done|apply prefix_nil|].
    split_and!; try done; [by rewrite app_nil_r, <- Hshown|].
    intros hs _ Hhs' ->. split_and!; [done..|]. intros Hu. unfold h.
    rewrite (sse_watch_whole hs r2.2 pretty) by done. cbn [fst]. rewrite length_map, firstn_all. auto.
  - exists h, q, (if (poll_loop pretty (map snd polls)).2 then Polling else WatchError).
    destruct (Horder h q) as (_&_&Hin&Hord); [done..|]. split_and!; try done; [by rewrite Hshown, Hq| |].
    + intros hs _ Hhs' ->. by rewrite (sse_watch_whole hs r2.2 pretty) in Hended.
    + intros Hp. apply Hqall. by destruct (poll_loop pretty (map snd polls)).2.
Qed.
End command.

(** ** A run *)
Fixpoint drop_blank (s : string) : string :=
  match s with
  | EmptyString => ""
  | String c t => if is_blank c then drop_blank t else s
  end.
Fixpoint drop_blank_end (s : string) : string :=
  match s with
  | EmptyString => ""
  | String c s => match drop_blank_end s with
                  | EmptyString => if is_blank c then "" else String c ""
                  | t => String c t
                  end
  end.
Definition ascii_text : UnicodeText :=
  {| str_trim s := drop_blank_end (drop_blank s); str_to_lowercase := string_lower |}.

Definition ascii_end : TrimEnd := drop_blank_end.

Lemma drop_blank_app w s : string_all is_blank w = true -> drop_blank (w +:+ s) = drop_blank s.
Proof.
  induction w as [|c w IH]; [done|]. cbn [string_all]. intros [Hc Hw]%andb_true_iff.
  change (String c w +:+ s) with (String c (w +:+ s)). cbn [drop_blank]. rewrite Hc. by apply IH.
Qed.

Lemma drop_blank_end_app s w : string_all is_blank w = true -> drop_blank_end (s +:+ w) = drop_blank_end s.
Proof.
  intros Hw. assert (drop_blank_end w = "") as Hend.
  { induction w as [|c w IH]; [done|]. cbn [string_all] in Hw. apply andb_true_iff in Hw as [Hc Hw].
    cbn [drop_blank_end]. by rewrite IH, Hc. }
  induction s as [|c s IH]; [done|]. change (String c s +:+ w) with (String c (s +:+ w)).
  cbn [drop_blank_end]. by rewrite IH.
Qed.

Lemma drop_blank_end_brace s : drop_blank_end (s +:+ "}") = s +:+ "}".
Proof.
  induction s as [|c s IH]; [done|]. change (String c s +:+ "}") with (String c (s +:+ "}")).
  cbn [drop_blank_end]. rewrite IH. by destruct s.
Qed.

Lemma ascii_trim_laws : @TrimLaws ascii_text ascii_end.
Proof.
  split.
  - intros w j w' Hw Hw' [m ->]. cbn [str_trim ascii_text]. rewrite drop_blank_app by done.
    change (drop_blank (("{" +:+ m +:+ "}") +:+ w')) with (("{" +:+ m +:+ "}") +:+ w').
    rewrite drop_blank_end_app, <- (append_assoc "{" m) by done. by rewrite drop_blank_end_brace.
  - intros w j w' Hw' [m ->]. unfold str_trim_end, ascii_end. rewrite <- append_assoc, drop_blank_end_app by done.
    rewrite <- !append_assoc. by rewrite drop_blank_end_brace.
Qed.

Definition demo_wire : SseWire := {|
  sse_event d := "data:" +:+ " " +:+ d +:+ nl +:+ nl;
  http_chunk x := "1f" +:+ crlf +:+ x +:+ crlf |}.
Lemma demo_wire_laws : @SseWireLaws demo_wire.
Proof. split; [intros d Hd; by exists " "|intros x; by exists "1f"]. Qed.

Definition demo_publication : publication :=
  {| p_state := Active; p_focus := None; p_last_transition := None; p_records := []; p_counts := counts_default;
     p_cadence_ms := 2000; p_cadence_reason := "Active"; p_next_timeout := None;
     p_storage := {| backlog_count := 0; last_flush_at := None |}; p_config := config_default; p_health := [];
     p_aggregated_apps := [] |}.
Definition demo_second : Snapshot := current_snapshot (publish_basic (bus_new 0) 5 demo_publication).
(** JSON of the two snapshots of the run. *)
Definition demo_json : SnapshotJson := {|
  to_json s := Some (if s_seq s =? 0 then "{0}" else "{1}");
  from_json t := let t := drop_blank t in
    if bool_decide (t = "{0}") then Some (snapshot_empty 0)
    else if bool_decide (t = "{1}") then Some demo_second else None |}.
Lemma demo_json_laws : @SnapshotJsonLaws demo_json.
Proof.
  split.
  - intros s j [= <-]. by destruct (_ =? _); split; [exists "0"| |exists "1"|].
  - intros w j Hw [m ->]. cbn [from_json demo_json]. by rewrite drop_blank_app.
Qed.
#[local] Existing Instances ascii_text ascii_end demo_wire demo_json ascii_trim_laws demo_wire_laws demo_json_laws.

Definition demo_serve : list serve := [Poll; BusOp (Publish 5 demo_publication); Poll].
Definition demo_sent : Connection := {|
  received := http_head ["HTTP/1.1 200 OK"; "content-type: text/event-stream"]
    +:+ stream_handler [snapshot_empty 0; demo_second]; broken := false |}.

Example demo_printed : sse_watch_via_http (Some demo_sent) false = ([Text "{0}"; Text "{1}"], true).
Proof. by vm_compute. Qed.

(** A command whose gRPC stream fails behind the first message, whose HTTP stream is cut by
    an error behind the next snapshot, and that polls once. *)
Definition demo_http : Connection := {|
  received := http_head ["HTTP/1.1 200 OK"; "content-type: text/event-stream"]
    +:+ stream_handler [demo_second]; broken := true |}.
Definition demo_polls : list (list bus_op * option Connection) :=
  [([PushHealth "late"], Some {| received := http_head ["HTTP/1.1 200 OK"] +:+ "{1}"; broken := false |})].
Definition demo_replies : Replies :=
  {| replies := @grpc_watch_handler chrono_ref chrono_parts_ref (fun _ => 0) [snapshot_empty 0]; failed := true |}.

Lemma watch_shows_published_witness :
  exists h p ended,
    @watch_via_http demo_json ascii_text ascii_end chrono_ref chrono_parts_ref (fun _ => 0)
        (Some demo_replies) (Some demo_http) (map snd demo_polls) false 0%nat
      = ((map (over_grpc false) [snapshot_empty 0] ++ map (shown false) h ++ map (over_poll false) p, ended),
         0%nat) /\
    StronglySorted (fun a b => s_seq a <= s_seq b) ([snapshot_empty 0] ++ h ++ p) /\
    (ended = Polling -> p = [demo_second]).
Proof.
  destruct (@watch_shows_published demo_json demo_json_laws ascii_text ascii_end ascii_trim_laws demo_wire
    demo_wire_laws chrono_ref chrono_parts_ref chrono_parts_ref_laws (fun _ => 0) 0 [Poll] [snapshot_empty 0]
    (Some demo_replies) [BusOp (Publish 5 demo_publication); Poll] (Some demo_http) demo_polls false 0%nat)
    as (h&p&ended&He&_&_&_&Hs&_&_&Hp).
  - by vm_compute.
  - repeat constructor; [by exists "{0}"|by exists "{1}"].
  - repeat constructor; done.
  - constructor.
  - reflexivity.
  - apply (carries_bytes _ ["HTTP/1.1 200 OK"; "content-type: text/event-stream"] demo_http "");
      [by repeat constructor|by vm_compute].
  - repeat constructor; done.
  - exists h, p, ended. split; [exact He|]. split; [exact Hs|exact Hp].
Defined.

Example demo_watch_printed :
  @watch_via_http demo_json ascii_text ascii_end chrono_ref chrono_parts_ref (fun _ => 0)
    (Some demo_replies) (Some demo_http) (map snd demo_polls) false 0%nat
  = ([SnapshotJsonText (snapshot_empty 0); Text "{1}"; SnapshotFields demo_second], Polling, 0%nat).
Proof. by vm_compute. Qed.

Lemma snapshot_autoselect_answers_witness :
  let conn := Some {| received := http_head ["HTTP/1.1 200 OK"] +:+ "{0}"; broken := false |} in
  @snapshot_autoselect demo_json chrono_ref chrono_parts_ref (fun _ => 0) None conn true 0%nat
    = (Some (SnapshotPretty (snapshot_empty 0)), 0%nat).
Proof.
  refine (proj1 (proj2 (@snapshot_autoselect_answers demo_json chrono_ref chrono_parts_ref chrono_parts_ref_laws
    (fun _ => 0) (bus_new 0) "HTTP/1.1 200 OK" [] "{0}" true 0%nat _ _ _ _))).
  - by repeat constructor.
  - done.
  - by exists "{0}".
  - by repeat constructor.
Defined.
