(* ===== verification/Monitor.v ===== *)
(** [kronictl monitor]: the loop over the stream of snapshots and what it draws
    ([run_monitor_loop] of src/bin/kronictl.rs).

    A screen is its lines of styled spans; the terminal wraps and clips them.  The keys
    that were pressed, the size of the panel and the clock are given from outside. *)
From Stdlib Require Import Ascii.
From S2P Require Import Prelude Decimal Events Records Aggregation SnapshotBus AppTree Wire.
From S2P Require Import SnapshotStage Config SleepPeriod Watch.

(** ** Text on a terminal *)
Definition is_continuation (c : ascii) : bool := (128 <=? N_of_ascii c)%N && (N_of_ascii c <? 192)%N.

(** [str::chars], each character as its bytes. *)
Fixpoint chars (s : string) : list string :=
  match s with
  | EmptyString => []
  | String c s =>
      match chars s with
      | String d ch :: rest =>
          if is_continuation d then String c (String d ch) :: rest
          else String c "" :: String d ch :: rest
      | l => String c "" :: l
      end
  end.

Definition join (l : list string) : string := foldr String.append "" l.

(** The columns that a text and a character take, as unicode-width has them. *)
Class DisplayWidth := {
  str_width : string -> Z;
  char_width : string -> option Z
}.
(** [format("%H:%M:%S")] in the local zone, and [to_rfc3339]. *)
Class TimeText := { hms : instant -> string; to_rfc3339 : instant -> string }.
(** [str::trim_start]. *)
Class TrimStart := str_trim_start : string -> string.

Inductive Color := DarkGray | Gray | White | Green | Cyan | Magenta | Yellow | Red.
Record Span := { content : string; fg : option Color; bold : bool }.
Definition raw (t : string) : Span := {| content := t; fg := None; bold := false |}.
Definition styled (t : string) (c : Color) : Span := {| content := t; fg := Some c; bold := false |}.
Definition strong (t : string) (c : Color) : Span := {| content := t; fg := Some c; bold := true |}.
Notation Line := (list Span).

(** [" ".repeat(n)]. *)
Definition spaces (n : Z) : string := Nat.iter (Z.to_nat n) (String " ") "".

(** The same text as [build_app_tree] of the snapshot stage. *)
Definition build_app_tree `{Chrono} `{HashOrder} (utc : nat -> instant) (n : nat)
    (aggregated_activities : list AggregatedActivity)
    (app_short_max_duration_secs app_short_min_distinct : Z) : nat * list SnapshotApp :=
  AppTree.build_app_tree utc n aggregated_activities app_short_max_duration_secs app_short_min_distinct.

(** ** The name of a group *)
Section labels.
Context `{UnicodeText} `{TrimStart}.

Definition strip_group_prefix (title canonical : string) : option string :=
  let prefix := str_trim canonical in
  if bool_decide (prefix = "") then None
  else rest ← strip_prefix prefix title; Some (str_trim_start rest).

(** The text up to the first colon. *)
Fixpoint until_colon (s : string) : string :=
  match s with
  | EmptyString => ""
  | String c s => if Ascii.eqb c ":" then "" else String c (until_colon s)
  end.

Definition canonical_key (window_id : string) : option string :=
  match strip_prefix "group:" window_id with
  | Some rest => Some rest
  | None => until_colon <$> strip_prefix "group-temporal:" window_id
  end.

Definition group_label_for_display (window_id window_title : string) : string :=
  let label :=
    match canonical_key window_id with
    | Some key => default window_title (strip_group_prefix window_title key)
    | None => window_title
    end in
  let label := str_trim_start label in
  if bool_decide (label = "") then window_title else label.
End labels.

(** ** The lines of the panels *)
Section lines.
Context `{UnicodeText} `{TrimStart} `{DisplayWidth} `{TimeText}.

(** The title cut to [limit] columns and an ellipsis; [out] is what is taken so far. *)
Fixpoint truncate_title (limit : Z) (l : list string) (acc : Z) (out : string) : string :=
  match l with
  | [] => out
  | ch :: l =>
      let w := default 0 (char_width ch) in
      if limit <? acc + w then out +:+ "…" else truncate_title limit l (acc + w) (out +:+ ch)
  end.

Definition title_display (width left_fixed visible_right : Z) (base_title : string) : string :=
  let total_needed := left_fixed + str_width base_title + visible_right in
  if width <=? total_needed then
    let remain := Z.max 0 (width - (left_fixed + visible_right)) in
    if remain =? 0 then "…" else truncate_title (Z.max 0 (remain - 2)) (chars base_title) 0 ""
  else base_title.

Definition base_title (win : SnapshotWindow) : string :=
  if sw_is_group win
  then group_label_for_display (sw_window_id win) (sw_window_title win) +:+ " [group]"
  else sw_window_title win.

Definition tree_prefix (i total : nat) : string :=
  if ((S i <? total) && (i <? 4))%nat then "  ├── " else "  └── ".
Definition id_text (win : SnapshotWindow) : string := "<#" +:+ sw_window_id win +:+ ">".
Definition right_info (win : SnapshotWindow) : string :=
  pretty_duration (sw_duration_seconds win) +:+ " • since " +:+ hms (sw_first_seen win).
Definition left_fixed (i total : nat) (win : SnapshotWindow) : Z :=
  str_width (tree_prefix i total) + str_width (id_text win) + 1.

(** The line of the [i]th of [total] windows in a panel of [width] columns. *)
Definition window_line (width : Z) (i total : nat) (win : SnapshotWindow) : Line :=
  let local_first := hms (sw_first_seen win) in
  let dur_pretty := pretty_duration (sw_duration_seconds win) in
  let visible_right := str_width (right_info win) in
  let left := left_fixed i total win in
  let title := title_display width left visible_right (base_title win) in
  let visible_left_final := left + str_width title in
  let pad_spaces :=
    if visible_left_final + visible_right <? width then width - visible_left_final - visible_right else 1 in
  [styled (tree_prefix i total) DarkGray; styled (id_text win) Green; raw " ";
   styled title (if sw_is_group win then Magenta else White); raw (spaces pad_spaces);
   styled dur_pretty Cyan; raw " • "; styled ("since " +:+ local_first) Gray].

(** An application: its header and its first five windows. *)
Definition app_lines_of (width : Z) (app : SnapshotApp) : list Line :=
  [strong ("[" +:+ show (sa_pid app) +:+ "]") Green; raw " "; strong (sa_app_name app) Yellow;
   raw " • "; styled (sa_total_duration_pretty app) Cyan] ::
  imap (fun i win => window_line width i (length (sa_windows app)) win) (take 5 (sa_windows app)).

(** The panel of the applications: at most eight. *)
Definition app_lines (width : Z) (apps : list SnapshotApp) (apps_period : option AppsPeriod) : list Line :=
  match apps_period with Some period => [[styled (line period) Gray]] | None => [] end ++
  match apps with
  | [] =>
      if apps_period then [[raw "Apps: (no activity in this period)"]] else [[raw "Apps: (no recent activity)"]]
  | _ => flat_map (app_lines_of width) (take 8 apps)
  end.

Definition stats_lines (pid_text : option string) (snap : Snapshot) : list Line :=
  let pid_shown := from_option show "unknown" (t ← pid_text; parse_unsigned 32 (str_trim t)) in
  [[styled "Status: " Gray; strong "running" Green];
   [styled "PID: " Gray; strong pid_shown Yellow];
   [styled "State: " Gray; strong (state_name (s_activity_state snap)) Cyan];
   [styled "Run: " Gray; raw (default "-" (s_run_id snap))];
   [styled "Cadence: " Gray; raw (show (s_cadence_ms snap) +:+ "ms (" +:+ s_cadence_reason snap +:+ ")")];
   [styled "Focus: " Gray;
    raw (match s_focus snap with
         | Some f => app_name f +:+ " [" +:+ show (pid f) +:+ "] - " +:+ window_title f
         | None => "-"
         end)]].

Definition dot_color (by_signal : option string) : Color :=
  match by_signal with
  | Some s =>
      if bool_decide (s = "KeyboardInput") then Yellow
      else if bool_decide (s = "MouseInput") then Cyan
      else if bool_decide (s = "AppChanged") then Green
      else if bool_decide (s = "WindowChanged") then Magenta
      else if bool_decide (s = "ActivityPulse") then Green
      else if bool_decide (s = "LockStart") then Red
      else if bool_decide (s = "LockEnd") then Green
      else Gray
  | None => Gray
  end.

(** The transition that a snapshot carries, and one of the recent ones. *)
Definition last_transition_line (t : Transition) : Line :=
  [styled "Last transition: " Gray; strong (state_name (t_from t)) Yellow; raw " → ";
   strong (state_name (t_to t)) Green; raw " at "; styled (hms (t_at t)) Gray] ++
  match t_by_signal t with
  | Some sig => [raw "  "; styled "● " Green; styled sig Green]
  | None => [raw ""; raw ""; raw ""]
  end.
Definition recent_transition_line (t : Transition) : Line :=
  let c := dot_color (t_by_signal t) in
  [styled "  ● " c; styled (state_name (t_from t)) Yellow; raw " → ";
   styled (state_name (t_to t)) Green; raw " at "; styled (hms (t_at t)) Gray] ++
  match t_by_signal t with
  | Some sig => [raw "  "; styled sig c]
  | None => [raw ""; raw ""]
  end.

Definition details (snap : Snapshot) : list Line :=
  [[raw ("Counts: signals=" +:+ show (signals_seen (s_counts snap)) +:+ " hints="
      +:+ show (hints_seen (s_counts snap)) +:+ " records=" +:+ show (records_emitted (s_counts snap)))];
   [raw ("Storage: backlog=" +:+ show (backlog_count (s_storage snap)) +:+ " last_flush="
      +:+ from_option to_rfc3339 "" (last_flush_at (s_storage snap)))]] ++
  match s_last_transition snap with Some t => [last_transition_line t] | None => [] end ++
  [[raw ("Transitions captured: " +:+ show (Z.of_nat (length (s_transitions_recent snap))))]] ++
  match s_transitions_recent snap with
  | [] => []
  | ts => [raw "Recent transitions:"] :: map recent_transition_line (take 5 ts)
  end ++
  match s_health snap with
  | [] => []
  | hs => [raw "Health:"] :: map (fun h => [raw ("- " +:+ h)]) hs
  end.
End lines.

(** ** The screen *)
Record Screen := { top : list Line; middle : list Line; apps_title : string; bottom : list Line }.

(** What a drawing finds: the width of the third panel, the content of the pid file, the
    readings of the clock. *)
Record Env := { panel_width : Z; pid_text : option string; clock : nat -> instant }.

Section screen.
Context `{Chrono} `{HashOrder} `{LocalZone} `{UnicodeText} `{TrimStart} `{DisplayWidth} `{TimeText}.
Context (config : AppConfig).

(** The applications shown: those of the period that the monitor chooses, or those that
    came with the snapshot. *)
Definition monitor_apps (clock : nat -> instant) (snap : Snapshot) : list SnapshotApp * option AppsPeriod :=
  if monitor_apps_sleep_filter_enabled config then
    let period := select_apps_period (clock 0%nat) (clock 1%nat) (clock 2%nat) (s_records snap) in
    let aggregated := aggregate_activities_since (s_records snap) (since_utc period) (clock 3%nat)
      (ephemeral_max_duration_secs config) (ephemeral_min_distinct_ids config) (max_windows_per_app config) in
    ((build_app_tree clock 4 aggregated (ephemeral_app_max_duration_secs config)
       (ephemeral_app_min_distinct_procs config)).2, Some period)
  else (s_aggregated_apps snap, None).

Definition draw (env : Env) (snap : Snapshot) : Screen :=
  let '(apps, apps_period) := monitor_apps (clock env) snap in
  {| top := stats_lines (pid_text env) snap;
     middle := details snap;
     apps_title := from_option title "Apps" apps_period;
     bottom := app_lines (Z.max 0 (panel_width env - 2)) apps apps_period |}.
End screen.

(** ** The loop *)
(** What a poll of the keyboard finds: [q], an error, or neither. *)
Inductive Key := OtherKey | QuitKey | KeyError.
Inductive SessionEnd := Quits | Fails | Reconnects.

Section loop.
Context `{SnapshotJson} `{TrimEnd}.

Definition snapshot_of_event (data_buf : string) : list Snapshot :=
  match from_json (str_trim_end data_buf) with Some snap => [snap] | None => [] end.

(** The lines behind the headers: before each the keyboard is polled. *)
Fixpoint watch_lines (data_buf : string) (ls : list string) (keys : list Key) (broken : bool)
    : list Snapshot * SessionEnd :=
  match keys with
  | QuitKey :: _ => ([], Quits)
  | KeyError :: _ => ([], Fails)
  | _ =>
      match ls with
      | [] => ([], if broken then Fails else Reconnects)
      | line :: ls =>
          let '(data_buf, event) := sse_line str_trim_end data_buf line in
          let '(snaps, e) := watch_lines data_buf ls (tail keys) broken in
          (flat_map snapshot_of_event event ++ snaps, e)
      end
  end.

Definition monitor_session (c : Connection) (keys : list Key) : list Snapshot * SessionEnd :=
  match skip_headers (read_lines c) with
  | None => if broken c then ([], Fails) else watch_lines "" [] keys false
  | Some ls => watch_lines "" ls keys (broken c)
  end.

(** A turn of the loop: nothing listens; the request cannot be written; a session. *)
Inductive Attempt :=
  | Refused (key : Key)
  | Unsent
  | Session (c : Connection) (keys : list Key).
(** What is drawn: that the monitor waits for the daemon, or a snapshot. *)
Inductive Frame := Connecting | Shows (snap : Snapshot).
Inductive MonitorEnd := Monitoring | Quitted | MonitorError.

Fixpoint run_monitor_loop (attempts : list Attempt) : list Frame * MonitorEnd :=
  match attempts with
  | [] => ([], Monitoring)
  | Refused QuitKey :: _ => ([Connecting], Quitted)
  | Refused KeyError :: _ => ([Connecting], MonitorError)
  | Refused OtherKey :: l => let '(fs, e) := run_monitor_loop l in (Connecting :: fs, e)
  | Unsent :: l => run_monitor_loop l
  | Session c keys :: l =>
      let '(snaps, e) := monitor_session c keys in
      match e with
      | Quits => (map Shows snaps, Quitted)
      | Fails => (map Shows snaps, MonitorError)
      | Reconnects => let '(fs, e) := run_monitor_loop l in (map Shows snaps ++ fs, e)
      end
  end.

(** ** What the loop shows *)
Lemma watch_lines_run data_buf ls keys b :
  exists k, (watch_lines data_buf ls keys b).1
    = flat_map snapshot_of_event (run_list (sse_line str_trim_end) data_buf (take k ls)).2 /\
  (Forall (eq OtherKey) keys ->
   take k ls = ls /\ (watch_lines data_buf ls keys b).2 = if b then Fails else Reconnects).
Proof.
  revert data_buf keys. induction ls as [|l ls IH]; intros buf keys.
  - exists 0%nat. destruct keys as [|[] keys]; cbn; (split; [done|]); intros Hk;
      try done; apply Forall_cons in Hk as [? _]; done.
  - destruct keys as [|key keys].
    + cbn [watch_lines tail]. destruct (sse_line str_trim_end buf l) as [buf' ev] eqn:El.
      destruct (IH buf' []) as (k&Hk&Hall). exists (S k). cbn [take].
      rewrite run_list_cons, El. cbn [fst snd]. destruct (watch_lines buf' ls [] b) as [snaps e].
      cbn [fst snd] in *. rewrite flat_map_app, Hk. split; [done|]. intros Ho. destruct (Hall Ho) as [-> ?]. done.
    + destruct key; cbn [watch_lines tail].
      * destruct (sse_line str_trim_end buf l) as [buf' ev] eqn:El.
        destruct (IH buf' keys) as (k&Hk&Hall). exists (S k). cbn [take].
        rewrite run_list_cons, El. cbn [fst snd]. destruct (watch_lines buf' ls keys b) as [snaps e].
        cbn [fst snd] in *. rewrite flat_map_app, Hk. split; [done|].
        intros [_ Ho]%Forall_cons. destruct (Hall Ho) as [-> ?]. done.
      * exists 0%nat. split; [done|]. by intros [? _]%Forall_cons.
      * exists 0%nat. split; [done|]. by intros [? _]%Forall_cons.
Qed.

(** As long as neither a key nor an error ends it the monitor goes on, whatever becomes
    of the daemon, and shows the snapshots of every session. *)
Definition undisturbed (a : Attempt) : Prop :=
  match a with
  | Refused key => key = OtherKey
  | Unsent => True
  | Session c keys => Forall (eq OtherKey) keys /\ broken c = false
  end.
Definition frames_of (a : Attempt) : list Frame :=
  match a with
  | Refused _ => [Connecting]
  | Unsent => []
  | Session c _ => map Shows (monitor_session c []).1
  end.

Lemma watch_lines_keys data_buf ls keys b : Forall (eq OtherKey) keys ->
  watch_lines data_buf ls keys b = watch_lines data_buf ls [] b.
Proof.
  revert data_buf keys. induction ls as [|l ls IH]; intros buf [|key keys] Hk; try done;
    apply Forall_cons in Hk as [<- Hk]; [done|]. cbn [watch_lines tail].
  destruct (sse_line str_trim_end buf l) as [buf' ev]. by rewrite IH.
Qed.

Theorem monitor_goes_on attempts :
  Forall undisturbed attempts ->
  run_monitor_loop attempts = (flat_map frames_of attempts, Monitoring).
Proof.
  induction 1 as [|a l Ha Hl IH]; [done|]. destruct a as [key| |c keys]; cbn [run_monitor_loop flat_map frames_of].
  - cbn in Ha. subst key. by rewrite IH.
  - exact IH.
  - destruct Ha as [Hk Hb]. assert (monitor_session c keys = monitor_session c []) as ->.
    { unfold monitor_session. destruct (skip_headers _); [|rewrite Hb]; by rewrite watch_lines_keys. }
    assert ((monitor_session c []).2 = Reconnects) as He.
    { unfold monitor_session. rewrite Hb. destruct (skip_headers (read_lines c)) as [ls|];
        [destruct (watch_lines_run "" ls [] false) as (k&_&Hall)|destruct (watch_lines_run "" [] [] false) as (k&_&Hall)];
        by apply Hall. }
    destruct (monitor_session c []) as [snaps e]. cbn [fst snd] in *. subst e. by rewrite IH.
Qed.
End loop.

Section shows.
Context `{SnapshotJsonLaws} `{!UnicodeText} `{!TrimEnd} `{!TrimLaws} `{SseWireLaws}.

Lemma event_snapshots snaps ts k : Forall json_keeps snaps -> Forall2 (event_text id) snaps ts ->
  flat_map snapshot_of_event (take k ts) = take k snaps.
Proof.
  intros Hs Hts. revert k Hs. induction Hts as [|s t snaps ts Ht Hts IH]; intros [|k] Hs; [done..|].
  apply Forall_cons in Hs as [Hs Hss]. cbn [take flat_map]. unfold snapshot_of_event.
  rewrite (event_reads _ _ str_trim_end_trims s t) by done. cbn. by rewrite IH.
Qed.

(** What the monitor draws while a connection to the daemon lasts are snapshots that were
    published, as they were and with growing numbers, whatever keys are pressed and
    wherever the connection is cut; and once the stream has been served and has come over
    whole, with no key that ends the monitor, the last that is drawn is the newest. *)
Theorem monitor_shows_published now es hs c rest keys :
  let b := bus_new now in
  let r := run_list stream_step (watch_snapshot b) es in
  Forall header hs -> Z.of_nat (length (published b es)) < 2 ^ 64 ->
  Forall json_keeps (current_snapshot b :: published b es) ->
  http_head hs +:+ stream_handler r.2 = received c +:+ rest ->
  let shown := (monitor_session c keys).1 in
  shown `sublist_of` current_snapshot b :: published b es /\
  StronglySorted (fun a b => s_seq a < s_seq b) shown /\
  (rest = "" -> broken c = false -> unseen r.1 = false -> Forall (eq OtherKey) keys ->
   last shown = Some (current_snapshot (sub_bus r.1))).
Proof.
  intros b r Hhs Hlen Hk Hc shown. destruct (stream_followed b es) as [_ [Hsub Hnew]]. fold r in Hsub, Hnew.
  assert (r.2 `sublist_of` current_snapshot b :: published b es) as Hsub'.
  { etrans; [|exact Hsub]. by apply sublist_inserts_r. }
  assert (Forall json_keeps r.2) as Hkr by by eapply Forall_sublist.
  assert (exists k, shown = take k r.2) as [k Hshown].
  { unfold shown, monitor_session. destruct (skip_headers (read_lines c)) as [ls|] eqn:Hls.
    - destruct (watch_lines_run "" ls keys (broken c)) as (k&->&_).
      destruct (stream_prefix _ _ str_trim_end_trims hs r.2 c rest ls Hhs Hkr Hc Hls) as (ts&n&Hts&Hrun).
      destruct (run_list_take (sse_line str_trim_end) "" ls k) as [m ->].
      exists (m `min` n)%nat. by rewrite Hrun, take_take, (event_snapshots r.2).
    - exists 0%nat. destruct (broken c); [done|]. destruct (watch_lines_run "" [] keys false) as (k&->&_).
      by rewrite take_nil. }
  assert (shown `sublist_of` current_snapshot b :: published b es) as Hsh
    by (rewrite Hshown; etrans; [apply sublist_take|done]).
  split_and!; [done|by eapply StronglySorted_sublist, published_sorted|].
  intros -> Hb Hu Hkeys. unfold pending in Hnew. rewrite Hu, app_nil_r in Hnew. rewrite <- Hnew. f_equal.
  unfold shown, monitor_session. destruct c as [text br]. cbn [received broken] in Hb, Hc |- *. subst br.
  rewrite append_nil_r in Hc. subst text. rewrite skip_headers_whole by done.
  destruct (watch_lines_run "" (lines (stream_handler r.2)) keys false) as (n&->&Hall).
  destruct (Hall Hkeys) as [-> _]. destruct (stream_events _ _ str_trim_end_trims r.2 Hkr) as (ts&->&Hts).
  cbn [snd]. pose proof (event_snapshots r.2 ts (length ts) Hkr Hts) as Hp.
  by rewrite firstn_all, <- (Forall2_length _ _ _ Hts), firstn_all in Hp.
Qed.
End shows.

(** ** The labels *)
(** What is shown of a group is the end of its title, and something unless it has none. *)
Theorem group_label_ends_title `{UnicodeText} `{TrimStart} window_id window_title :
  (forall s, exists p, s = p +:+ str_trim_start s) ->
  let label := group_label_for_display window_id window_title in
  (exists p, window_title = p +:+ label) /\ (window_title <> "" -> label <> "").
Proof.
  intros Htrim label. unfold label, group_label_for_display.
  assert (exists p, window_title = p +:+ match canonical_key window_id with
    | Some key => default window_title (strip_group_prefix window_title key)
    | None => window_title end) as [p Hp].
  { destruct (canonical_key window_id) as [key|]; [|by exists ""]. unfold strip_group_prefix.
    case_bool_decide; [by exists ""|]. destruct (strip_prefix _ window_title) as [rest|] eqn:Hr; [|by exists ""].
    cbn. apply strip_prefix_Some in Hr as Heq. destruct (Htrim rest) as [q Hq].
    exists (str_trim key +:+ q). by rewrite append_assoc, <- Hq. }
  set (l := match canonical_key window_id with Some _ => _ | None => _ end) in *. clearbody l.
  case_bool_decide as He; [by split; [exists ""|]|]. split; [|done].
  destruct (Htrim l) as [q Hq]. exists (p +:+ q). by rewrite append_assoc, <- Hq.
Qed.

(** ** The width of a line *)
(** A character that stands alone has the width that it has in every text of such
    characters. *)
Class DisplayWidthLaws `{DisplayWidth} (alone : string -> Prop) : Prop := {
  width_join l : Forall alone l -> str_width (join l) = zsum (map (fun ch => default 0 (char_width ch)) l);
  width_nonneg ch w : char_width ch = Some w -> 0 <= w;
  alone_ascii c : is_graphic c = true \/ c = " "%char ->
    alone (String c "") /\ char_width (String c "") = Some 1;
  alone_signs : Forall (fun ch => alone ch /\ char_width ch = Some 1) ["…"; "•"]
}.

Arguments width_join {_ _ _} l _.
Arguments width_nonneg {_ _ _} ch w _.
Arguments alone_ascii {_ _ _} c _.
Arguments alone_signs {_ _ _}.

Lemma join_chars s : join (chars s) = s.
Proof.
  induction s as [|c s IH]; [done|]. cbn [chars]. rewrite <- IH at 2.
  destruct (chars s) as [|[|d ch] rest]; [done..|]. by destruct (is_continuation d).
Qed.

Section width.
Context `{DisplayWidthLaws} `{!TimeText} `{!UnicodeText} `{!TrimStart}.

(** A text of characters that stand alone. *)
Definition plain_text (s : string) : Prop := exists l, s = join l /\ Forall alone l.

Lemma join_app l k : join (l ++ k) = join l +:+ join k.
Proof.
  induction l as [|x l IH]; [done|]. change (join ((x :: l) ++ k)) with (x +:+ join (l ++ k)).
  by rewrite IH, <- append_assoc.
Qed.

Lemma plain_width_app a b : plain_text a -> plain_text b ->
  str_width (a +:+ b) = str_width a + str_width b /\ plain_text (a +:+ b).
Proof.
  intros (l&->&Hl) (k&->&Hk). rewrite <- join_app.
  assert (Forall alone (l ++ k)) as Hlk by by apply Forall_app.
  rewrite (width_join l), (width_join k), (width_join (l ++ k)), List.map_app, zsum_app by done.
  split; [done|]. by exists (l ++ k).
Qed.

Lemma ascii_text_plain s : string_all (fun c => is_graphic c || Ascii.eqb c " ") s = true ->
  plain_text s /\ str_width s = Z.of_nat (String.length s).
Proof.
  intros Hs. assert (exists l, s = join l /\ Forall alone l /\
    zsum (map (fun ch => default 0 (char_width ch)) l) = Z.of_nat (String.length s)) as (l&->&Hl&Hw).
  { induction s as [|c s IH]; [by exists []|]. cbn [string_all] in Hs. apply andb_true_iff in Hs as [Hc Hs].
    destruct (IH Hs) as (l&->&Hl&Hw). destruct (alone_ascii c) as [Ha Hcw].
    { apply orb_true_iff in Hc as [|Hc%Ascii.eqb_eq]; auto. }
    exists (String c "" :: l). split_and!; [done|by constructor|]. cbn [map zsum foldr]. fold zsum.
    rewrite Hcw. unfold zsum in Hw |- *. cbn [default from_option id String.length]. 
    change (String.length (join (String c "" :: l))) with (S (String.length (join l))). lia. }
  split; [by exists l|]. by rewrite width_join.
Qed.

Lemma spaces_width n : 0 <= n -> str_width (spaces n) = n.
Proof.
  intros Hn. destruct (ascii_text_plain (spaces n)) as [_ ->].
  - unfold spaces. induction (Z.to_nat n); [done|]. done.
  - unfold spaces. assert (forall m, String.length (Nat.iter m (String " ") "") = m) as Hm
      by (intros m; induction m as [|m IH]; [done|]; exact (f_equal S IH)). rewrite Hm. lia.
Qed.

Lemma char_width_nonneg ch : 0 <= default 0 (char_width ch).
Proof. destruct (char_width ch) as [w|] eqn:Hw; [by eapply width_nonneg|done]. Qed.

Lemma zsum_width_nonneg l : 0 <= zsum (map (fun ch => default 0 (char_width ch)) l).
Proof. induction l as [|ch l IH]; [done|]. cbn. pose proof (char_width_nonneg ch). unfold zsum in IH. lia. Qed.

(** A title that does not fit within the limit is cut to it, and an ellipsis follows. *)
Lemma truncate_width limit l : Forall alone l ->
  forall taken, Forall alone taken ->
  let acc := zsum (map (fun ch => default 0 (char_width ch)) taken) in
  acc <= limit -> limit < acc + zsum (map (fun ch => default 0 (char_width ch)) l) ->
  exists w, str_width (truncate_title limit l acc (join taken)) = w + 1 /\ acc <= w <= limit.
Proof.
  intros Hl. induction Hl as [|ch l Hch Hl IH]; intros taken Ht acc Hacc Hlim.
  { cbn in Hlim. lia. }
  cbn [truncate_title]. destruct (Z.ltb_spec limit (acc + default 0 (char_width ch))) as [Hlt|Hge].
  - exists acc. split; [|lia]. destruct (proj1 (Forall_cons _ _ _) alone_signs) as [[He Hew] _].
    change "…" with (join ["…"]). rewrite <- join_app, width_join by (apply Forall_app; by repeat constructor).
    rewrite List.map_app, zsum_app. cbn. rewrite Hew. cbn. lia.
  - pose proof (char_width_nonneg ch).
    assert (zsum (map (fun ch => default 0 (char_width ch)) (taken ++ [ch])) = acc + default 0 (char_width ch)) as Ha.
    { rewrite List.map_app, zsum_app. cbn. lia. }
    destruct (IH (taken ++ [ch])) as (w&Hw&Hle).
    + apply Forall_app. by repeat constructor.
    + lia.
    + rewrite Ha. cbn in Hlim. unfold zsum in *. lia.
    + rewrite Ha, join_app in Hw. cbn in Hw. rewrite append_nil_r in Hw. exists w. rewrite Hw. split; [done|lia].
Qed.

Lemma title_width width left right base :
  Forall alone (chars base) ->
  width <= left + str_width (title_display width left right base) + right ->
  width <= left + str_width base + right /\ width - (left + right) < 2.
Proof.
  intros Hb. unfold title_display.
  assert (str_width base = zsum (map (fun ch => default 0 (char_width ch)) (chars base))) as Hw
    by (rewrite <- (join_chars base) at 1; by apply width_join).
  destruct (Z.leb_spec width (left + str_width base + right)) as [Hle|]; [|lia].
  destruct (Z.eqb_spec (Z.max 0 (width - (left + right))) 0); [lia|]. intros Hwide. split; [done|].
  destruct (truncate_width (Z.max 0 (Z.max 0 (width - (left + right)) - 2)) (chars base) Hb []) as (w&Hw'&Hle');
    [done|cbn; lia| |].
  - cbn. rewrite <- Hw. lia.
  - cbn in Hw'. rewrite Hw' in Hwide. lia.
Qed.

Lemma pretty_duration_ascii n : string_all is_graphic (pretty_duration n) = true.
Proof.
  assert (forall m c, is_graphic c = true -> string_all is_graphic (show m +:+ String c "") = true) as Hpart.
  { intros m c Hc. rewrite string_all_app, show_graphic. cbn. by rewrite Hc. }
  unfold pretty_duration, pretty_format_duration. destruct (n =? 0); [done|].
  repeat match goal with
  | |- string_all _ (if ?b then _ else _) = true => destruct b
  | |- string_all _ (_ +:+ _) = true => rewrite string_all_app; apply andb_true_iff; split
  | _ => done || by apply Hpart || apply show_graphic
  end.
Qed.

Lemma right_width win : plain_text (hms (sw_first_seen win)) ->
  str_width (right_info win) = str_width (pretty_duration (sw_duration_seconds win)) + str_width " • "
    + str_width ("since " +:+ hms (sw_first_seen win)) /\ str_width " " = 1.
Proof.
  intros Hhms. destruct (proj1 (Forall_cons _ _ _) alone_signs) as [_ Hs].
  destruct (proj1 (Forall_cons _ _ _) Hs) as [[Hdot _] _].
  destruct (alone_ascii " "%char ltac:(by right)) as [Hsp Hspw].
  assert (plain_text " • ") as Hd by (exists [" "; "•"; " "]; split; [done|by repeat constructor]).
  assert (plain_text (pretty_duration (sw_duration_seconds win))) as Hp.
  { apply ascii_text_plain. eapply string_all_impl, pretty_duration_ascii. intros c ->. done. }
  destruct (ascii_text_plain "since " eq_refl) as [Hsi _].
  destruct (plain_width_app _ _ Hsi Hhms) as [_ Hsince].
  destruct (plain_width_app _ _ Hd Hsince) as [Hw1 Hrest].
  destruct (plain_width_app _ _ Hp Hrest) as [Hw2 _].
  split; [|by apply (ascii_text_plain " ")].
  unfold right_info. change (" • since " +:+ hms (sw_first_seen win)) with (" • " +:+ "since " +:+ hms (sw_first_seen win)).
  lia.
Qed.

(** The width of what is drawn. *)
Definition line_width (l : Line) : Z := zsum (map (fun s => str_width (content s)) l).

(** A window's line is never narrower than its panel, and exactly as wide whenever what
    stands beside the title leaves it two columns: the durations are aligned at the
    right. *)
Theorem window_line_fills width i total win :
  Forall alone (chars (base_title win)) -> plain_text (id_text win) -> plain_text (hms (sw_first_seen win)) ->
  width <= line_width (window_line width i total win) /\
  (left_fixed i total win + str_width (right_info win) + 2 <= width ->
   line_width (window_line width i total win) = width).
Proof.
  intros Hb Hid Hhms. destruct (right_width win Hhms) as [Hright Hspace].
  unfold line_width, window_line. cbn [map content styled raw zsum foldr]. unfold zsum. cbn [foldr]. rewrite Hspace.
  set (t := str_width (title_display _ _ _ _)).
  assert (left_fixed i total win = str_width (tree_prefix i total) + str_width (id_text win) + 1) as Hleft by done.
  destruct (Z.ltb_spec (left_fixed i total win + t + str_width (right_info win)) width) as [Hlt|Hge].
  - rewrite spaces_width by lia. lia.
  - rewrite spaces_width by lia. split; [lia|]. intros Hfit. apply title_width in Hge; [lia|done].
Qed.
End width.

(** ** A run *)
#[local] Existing Instances ascii_text ascii_end demo_wire demo_json ascii_trim_laws demo_wire_laws demo_json_laws.
Definition ascii_start : TrimStart := drop_blank.
#[local] Existing Instance ascii_start.

Lemma monitor_goes_on_witness :
  run_monitor_loop [Refused OtherKey; Unsent; Session demo_sent [OtherKey]; Refused OtherKey]
  = ([Connecting; Shows (snapshot_empty 0); Shows demo_second; Connecting], Monitoring).
Proof.
  refine (eq_trans (monitor_goes_on _ _) _); [by repeat constructor|by vm_compute].
Defined.

Lemma monitor_shows_published_witness :
  last (monitor_session demo_sent []).1
  = Some (current_snapshot (sub_bus (run_list stream_step (watch_snapshot (bus_new 0)) demo_serve).1)).
Proof.
  refine (proj2 (proj2 (monitor_shows_published 0 demo_serve
    ["HTTP/1.1 200 OK"; "content-type: text/event-stream"] demo_sent "" [] _ _ _ _)) _ _ _ _); try done.
  - by repeat constructor.
  - repeat constructor; [by exists "{0}"|by exists "{1}"].
Defined.

Lemma drop_blank_suffix s : exists p, s = p +:+ drop_blank s.
Proof.
  induction s as [|c s [p IH]]; [by exists ""|]. cbn. destruct (is_blank c); [|by exists ""].
  exists (String c p). by rewrite IH at 1.
Qed.

Lemma group_label_ends_title_witness :
  group_label_for_display "group:Inbox" "Inbox (short-lived)" = "(short-lived)" /\
  group_label_for_display "group:Inbox" "Inbox" <> "".
Proof.
  split; [by vm_compute|].
  by apply (group_label_ends_title "group:Inbox" "Inbox" drop_blank_suffix).
Defined.

(** A terminal on which every character takes a column. *)
Fixpoint count_chars (s : string) : Z :=
  match s with
  | EmptyString => 0
  | String c s => (if is_continuation c then 0 else 1) + count_chars s
  end.
Definition demo_width : DisplayWidth := {| str_width := count_chars; char_width s := Some (count_chars s) |}.
Definition demo_times : TimeText := {| hms _ := "09:30:00"; to_rfc3339 _ := "" |}.
#[local] Existing Instances demo_width demo_times.

Lemma count_chars_app a b : count_chars (a +:+ b) = count_chars a + count_chars b.
Proof.
  induction a as [|c a IH]; [done|]. change (String c a +:+ b) with (String c (a +:+ b)).
  cbn [count_chars]. rewrite IH. lia.
Qed.

Lemma demo_width_laws : DisplayWidthLaws (fun _ => True).
Proof.
  split.
  - intros l _. induction l as [|ch l IH]; [done|]. cbn [str_width demo_width] in *.
    change (join (ch :: l)) with (ch +:+ join l). by rewrite count_chars_app, IH.
  - intros ch w [= <-]. induction ch as [|c ch IH]; [done|]. cbn. destruct (is_continuation c); lia.
  - intros c Hc. split; [done|]. cbn. do 2 f_equal. destruct Hc as [Hc| ->]; [|done].
    unfold is_graphic in Hc. unfold is_continuation. apply andb_true_iff in Hc as [_ Hc%N.leb_le].
    by rewrite (proj2 (N.leb_gt 128 (N_of_ascii c))) by lia.
  - by repeat constructor.
Qed.
#[local] Existing Instance demo_width_laws.

Definition demo_window : SnapshotWindow :=
  {| sw_window_id := "7"; sw_window_title := "A title that is far too long for the panel"; sw_first_seen := 0;
     sw_last_seen := 0; sw_duration_seconds := 61; sw_is_group := false |}.

Lemma window_line_fills_witness : line_width (window_line 50 0 3 demo_window) = 50.
Proof.
  refine (proj2 (window_line_fills 50 0 3 demo_window _ _ _) _); try by vm_compute.
  - by apply Forall_true.
  - exists (chars (id_text demo_window)). by split; [|apply Forall_true].
  - exists (chars "09:30:00"). by split; [|apply Forall_true].
Defined.
