(* ===== verification/Printing.v ===== *)
(** What kronictl prints of a snapshot: [print_snapshot_pretty], [print_snapshot_line],
    [get_status], [tracker_status] and [tracker_show] of src/bin/kronictl.rs.

    An output is the list of what each [println!] writes. *)
From S2P Require Import Prelude Decimal Events Records SnapshotBus AppTree Wire SnapshotStage Watch.

(** Times as text: [Display], [to_rfc3339], and the local time of the status's heading. *)
Class PrintedTimes := {
  show_time : instant -> string;
  show_rfc3339 : instant -> string;
  show_local : instant -> string
}.

Section printing.
Context `{Chrono} `{PrintedTimes}.

Definition focus_text (f : WindowFocusInfo) : string :=
  app_name f +:+ " [" +:+ show (pid f) +:+ "] - " +:+ window_title f.
Definition counts_text (c : Counts) : string :=
  "signals=" +:+ show (signals_seen c) +:+ " hints=" +:+ show (hints_seen c)
    +:+ " records=" +:+ show (records_emitted c).
Definition flush_text (s : StorageInfo) : string := from_option show_rfc3339 "" (last_flush_at s).

(** *** The report *)
Definition config_line (c : ConfigSummary) : string :=
  "- config: active=" +:+ show (cs_active_grace_secs c) +:+ "s idle=" +:+ show (cs_idle_threshold_secs c)
    +:+ "s retention=" +:+ show (cs_retention_minutes c) +:+ "m eph_max=" +:+ show (cs_ephemeral_max_duration_secs c)
    +:+ "s eph_min=" +:+ show (cs_ephemeral_min_distinct_ids c)
    +:+ " eph_app_max=" +:+ show (cs_ephemeral_app_max_duration_secs c)
    +:+ "s eph_app_min_procs=" +:+ show (cs_ephemeral_app_min_distinct_procs c).

Definition window_lines (w : SnapshotWindow) : list string :=
  ["      - title: " +:+ sw_window_title w;
   "        id: " +:+ sw_window_id w +:+ " first_seen: " +:+ show_time (sw_first_seen w)
     +:+ " last_seen: " +:+ show_time (sw_last_seen w) +:+ " dur: " +:+ show (sw_duration_seconds w) +:+ "s"
     +:+ (if sw_is_group w then " (group)" else "")].

Definition app_header (app : SnapshotApp) : string :=
  "  - app: " +:+ sa_app_name app +:+ " [" +:+ show (sa_pid app) +:+ "] total=" +:+ sa_total_duration_pretty app
    +:+ " (" +:+ show (sa_total_duration_secs app) +:+ "s)".
Definition app_report (app : SnapshotApp) : list string :=
  app_header app ::
  match sa_windows app with
  | [] => ["    windows: -"]
  | ws => ("    windows (" +:+ show (Z.of_nat (length ws)) +:+ "):") :: flat_map window_lines ws
  end.

Definition record_header (r : ActivityRecord) : string :=
  let end_ := from_option show_rfc3339 "-" (end_time r) in
  let duration_s := from_option (fun t => show (Z.max 0 (num_seconds (t - start_time r)))) "-" (end_time r) in
  "  - id=" +:+ show (record_id r) +:+ " state=" +:+ state_name (state r) +:+ " start=" +:+ show_rfc3339 (start_time r)
    +:+ " end=" +:+ end_ +:+ " dur=" +:+ duration_s +:+ "s events=" +:+ show (event_count r)
    +:+ " triggers=" +:+ show (Z.of_nat (length (triggering_events r))).
Definition record_report (r : ActivityRecord) : list string :=
  record_header r ::
  match focus_info r with
  | Some f => ["    focus: " +:+ focus_text f +:+ " (wid=" +:+ show (window_id f) +:+ ")"]
  | None => []
  end.

Definition print_snapshot_pretty (s : Snapshot) : list string :=
  ["Kronical Snapshot";
   "- seq: " +:+ show (s_seq s);
   "- monoNs: " +:+ show (s_mono_ns s);
   "- runId: " +:+ default "-" (s_run_id s);
   "- state: " +:+ state_name (s_activity_state s);
   match s_focus s with Some f => "- focus: " +:+ focus_text f | None => "- focus: -" end] ++
  match s_last_transition s with
  | Some t => ["- lastTransition: " +:+ state_name (t_from t) +:+ " -> " +:+ state_name (t_to t)
                 +:+ " at " +:+ show_time (t_at t)]
  | None => []
  end ++
  ["- cadence: " +:+ show (s_cadence_ms s) +:+ "ms (" +:+ s_cadence_reason s +:+ ")"] ++
  match s_next_timeout s with Some nt => ["- nextTimeout: " +:+ show_time nt] | None => [] end ++
  ["- counts: " +:+ counts_text (s_counts s);
   "- storage: backlog=" +:+ show (backlog_count (s_storage s)) +:+ " lastFlushAt=" +:+ flush_text (s_storage s);
   config_line (s_config s)] ++
  match s_health s with
  | [] => []
  | h :: hs => ["- health: " +:+ foldl (fun a b => a +:+ ", " +:+ b) h hs]
  end ++
  ["- apps (" +:+ show (Z.of_nat (length (s_aggregated_apps s))) +:+ "):"] ++ flat_map app_report (s_aggregated_apps s) ++
  ["- records (" +:+ show (Z.of_nat (length (s_records s))) +:+ "):"] ++ flat_map record_report (s_records s).

Definition print_snapshot_line (s : Snapshot) : list string :=
  ["seq=" +:+ show (s_seq s) +:+ " run=" +:+ default "-" (s_run_id s) +:+ " state=" +:+ state_name (s_activity_state s)
     +:+ " focus=" +:+ from_option window_title "-" (s_focus s) +:+ " cad=" +:+ show (s_cadence_ms s)
     +:+ "ms backlog=" +:+ show (backlog_count (s_storage s))].

(** *** The status *)
Definition status_report (s : Snapshot) : list string :=
  ["Kronical Daemon:";
   "  State: " +:+ state_name (s_activity_state s);
   "  Run: " +:+ default "-" (s_run_id s)] ++
  match s_focus s with Some f => ["  Focus: " +:+ focus_text f] | None => [] end ++
  ["  Cadence: " +:+ show (s_cadence_ms s) +:+ "ms (" +:+ s_cadence_reason s +:+ ")";
   "  Counts: " +:+ counts_text (s_counts s)] ++
  match s_next_timeout s with Some t => ["  Next timeout: " +:+ show_time t] | None => [] end ++
  ["  Storage: backlog=" +:+ show (backlog_count (s_storage s)) +:+ " last_flush=" +:+ flush_text (s_storage s)].

Definition rule : string := "═════════════════════════════════════════════════════════════" +:+ nl.

Definition get_status `{SnapshotJson} (now : instant) (conn : option Connection) : list string :=
  ["Kronical Status Snapshot - " +:+ show_local now; rule] ++
  match http_get_snapshot conn with
  | Some snap => status_report snap
  | None => ["Kronical Daemon: Not running"]
  end ++
  [nl +:+ "Tip: Use 'kronictl monitor' for real-time updates"].

(** The tracker's commands: whatever the configuration, the tracker is disabled.  The file
    of an earlier version's tracker is removed when it is there. *)
Definition tracker_status : list string :=
  ["System Tracker Status"; "════════════════════"; "Status: DISABLED";
   "Reason: tracker runtime is intentionally disabled to avoid adding memory and CPU noise"].
Definition cleanup_stale_tracker_pid (files : gset string) : gset string * list string :=
  if decide ("tracker.pid" ∈ files)
  then (files ∖ {["tracker.pid"]}, ["Removing stale tracker.pid file (tracker is now part of daemon)"])
  else (files, []).
Definition tracker_show (files : gset string) : gset string * list string :=
  let '(files, out) := cleanup_stale_tracker_pid files in
  (files, out ++ ["System tracker output is unavailable.";
    "Reason: tracker runtime is intentionally disabled to avoid adding memory and CPU noise."]).

(** ** What the report lists *)
(** The lines that start so. *)
Definition starts (prefix x : string) : bool := match strip_prefix prefix x with Some _ => true | None => false end.
Definition lines_with (prefix : string) (l : list string) : list string := filter (fun x => starts prefix x = true) l.

Lemma lines_with_no p x l : starts p x = false -> lines_with p (x :: l) = lines_with p l.
Proof. intros Hx. unfold lines_with. by rewrite filter_cons, decide_False by (rewrite Hx; done). Qed.
Lemma lines_with_yes p x l : starts p x = true -> lines_with p (x :: l) = x :: lines_with p l.
Proof. intros Hx. unfold lines_with. by rewrite filter_cons, decide_True. Qed.
Ltac pick_lines := repeat first [rewrite lines_with_no by reflexivity | rewrite lines_with_yes by reflexivity].

Lemma lines_with_app p l k : lines_with p (l ++ k) = lines_with p l ++ lines_with p k.
Proof. apply filter_app. Qed.

Lemma lines_with_flat {A} p (f : A -> list string) (h : A -> string) l :
  (forall x, lines_with p (f x) = [h x]) -> lines_with p (flat_map f l) = map h l.
Proof. intros Hf. induction l as [|x l IH]; [done|]. cbn [flat_map map]. by rewrite lines_with_app, Hf, IH. Qed.

Lemma lines_with_none {A} p (f : A -> list string) l :
  (forall x, lines_with p (f x) = []) -> lines_with p (flat_map f l) = [].
Proof. intros Hf. induction l as [|x l IH]; [done|]. cbn [flat_map]. by rewrite lines_with_app, Hf, IH. Qed.

Lemma app_report_lines app :
  lines_with "  - app: " (app_report app) = [app_header app] /\ lines_with "  - id=" (app_report app) = [] /\
  lines_with "      - title: " (app_report app) = map (fun w => "      - title: " +:+ sw_window_title w) (sa_windows app).
Proof.
  unfold app_report, app_header. destruct (sa_windows app) as [|w ws]; [by split_and!; pick_lines|].
  set (l := w :: ws). split_and!; pick_lines.
  - f_equal. apply lines_with_none. intros x. unfold window_lines. by pick_lines.
  - apply lines_with_none. intros x. unfold window_lines. by pick_lines.
  - apply lines_with_flat. intros x. unfold window_lines. by pick_lines.
Qed.

Lemma record_report_lines r :
  lines_with "  - app: " (record_report r) = [] /\ lines_with "  - id=" (record_report r) = [record_header r] /\
  lines_with "      - title: " (record_report r) = [].
Proof. unfold record_report, record_header. by destruct (focus_info r); split_and!; pick_lines. Qed.

(** The report has one line for each application, one for each window and one for each
    record of the snapshot, in their order, and no other line that could be taken for
    one. *)
Theorem report_lists_all s :
  lines_with "  - app: " (print_snapshot_pretty s) = map app_header (s_aggregated_apps s) /\
  lines_with "      - title: " (print_snapshot_pretty s)
    = flat_map (fun app => map (fun w => "      - title: " +:+ sw_window_title w) (sa_windows app)) (s_aggregated_apps s) /\
  lines_with "  - id=" (print_snapshot_pretty s) = map record_header (s_records s).
Proof.
  assert (forall p, (p = "  - app: " \/ p = "      - title: " \/ p = "  - id=") ->
    lines_with p (print_snapshot_pretty s) =
    lines_with p (flat_map app_report (s_aggregated_apps s)) ++ lines_with p (flat_map record_report (s_records s))) as Hp.
  { intros p [->|[->| ->]]; unfold print_snapshot_pretty, config_line;
      destruct (s_last_transition s), (s_next_timeout s), (s_health s), (s_focus s); cbn [app]; pick_lines;
      rewrite lines_with_app; by pick_lines. }
  split_and!; (rewrite Hp; [|tauto]).
  - rewrite (lines_with_flat _ app_report app_header) by (intros; apply app_report_lines).
    by rewrite (lines_with_none _ record_report), app_nil_r by (intros; apply record_report_lines).
  - rewrite (lines_with_none _ record_report), app_nil_r by (intros; apply record_report_lines).
    clear Hp. induction (s_aggregated_apps s) as [|a l IH]; [done|]. cbn [flat_map].
    rewrite lines_with_app, IH. f_equal. apply app_report_lines.
  - rewrite (lines_with_none _ app_report) by (intros; apply app_report_lines).
    apply lines_with_flat. intros; apply record_report_lines.
Qed.

(** [kronictl status] reports the daemon's current snapshot when the daemon answers, and
    that it does not run when there is no answer, a broken one, or one that is not a
    snapshot. *)
Theorem status_answers `{SnapshotJsonLaws} now b h hs body :
  Forall header (h :: hs) -> snapshot_handler b = Some body -> json_keeps (current_snapshot b) ->
  let conn := {| received := http_head (h :: hs) +:+ body; broken := false |} in
  get_status now (Some conn)
    = ["Kronical Status Snapshot - " +:+ show_local now; rule] ++ status_report (current_snapshot b) ++
      [nl +:+ "Tip: Use 'kronictl monitor' for real-time updates"] /\
  (forall c, c = None \/ (exists t, c = Some {| received := t; broken := true |}) \/
     (exists t, c = Some {| received := t; broken := false |} /\ from_option from_json None (body_of t) = None) ->
   "Kronical Daemon: Not running" ∈ get_status now c /\ "Kronical Daemon:" ∉ get_status now c).
Proof.
  intros Hhs Hs Hk conn. split.
  - unfold get_status, conn. by rewrite (http_get_answer h hs b _ body Hhs Hs Hk eq_refl).
  - intros c Hc. assert (http_get_snapshot c = None) as Hn.
    { destruct Hc as [->|[[t ->]|(t&->&Hb)]]; [done|done|]. unfold http_get_snapshot. cbn.
      by destruct (body_of t). }
    unfold get_status. rewrite Hn. split; [cbn; do 2 right; by left|].
    cbn. rewrite !not_elem_of_cons. split_and!; try done. apply not_elem_of_nil.
Qed.
End printing.

(** ** A run *)
#[local] Existing Instances demo_json demo_json_laws ascii_text ascii_end.
Definition printed_ref : PrintedTimes := {|
  show_time t := show t; show_rfc3339 t := show t; show_local t := show t |}.

Lemma status_answers_witness :
  "  State: Inactive" ∈ @get_status printed_ref _ 5
    (Some {| received := http_head ["HTTP/1.1 200 OK"] +:+ "{0}"; broken := false |}) /\
  "Kronical Daemon: Not running" ∈ @get_status printed_ref _ 5 None.
Proof.
  destruct (@status_answers printed_ref _ _ 5 (bus_new 0) "HTTP/1.1 200 OK" [] "{0}") as [H1 H2].
  - by repeat constructor.
  - done.
  - by exists "{0}".
  - split; [rewrite H1; cbn; do 3 right; by left|]. apply H2. by left.
Defined.
