(* ===== verification/Logging.v ===== *)
(** The run id of the process and its place in a log line (src/util/logging.rs), the
    log level of kronictl, and the summary of a record that the hints stage logs.

    Where a line goes is the business of the log and tracing crates; which levels they
    let through is a parameter. *)
From S2P Require Import Prelude Decimal Events Records Codec Printing.
From Stdlib Require Import Ascii.

Inductive Level := LError | LWarn | LInfo | LDebug | LTrace.

(** [LevelFilter]: the levels up to one. *)
Definition level_rank (l : Level) : Z :=
  match l with LError => 1 | LWarn => 2 | LInfo => 3 | LDebug => 4 | LTrace => 5 end.

(** [setup_logging] of kronictl, for the number of its flags [-v]. *)
Definition setup_logging (verbose : Z) : Level :=
  match verbose with 0 => LWarn | 1 => LInfo | 2 => LDebug | _ => LTrace end.
Definition lets_through (filter l : Level) : bool := level_rank l <=? level_rank filter.

(** [set_run_id] on the cell [RUN_ID]: a [OnceCell] keeps its first value. *)
Definition set_run_id (cell : option string) (run_id : string) : option string :=
  match cell with Some id => Some id | None => Some run_id end.

(** What [log_with_run_id!] formats. *)
Definition log_line (run_id : option string) (text : string) : string :=
  "[" +:+ (match run_id with Some id => id | None => "-" end) +:+ "] " +:+ text.

(** What the threads of a process do with both, in some order. *)
Inductive LogOp := SetRunId (id : string) | Log (l : Level) (text : string).

Section log.
Context (log_enabled : Level -> bool).

Fixpoint run_log (cell : option string) (ops : list LogOp) : list (Level * string) :=
  match ops with
  | [] => []
  | SetRunId id :: ops' => run_log (set_run_id cell id) ops'
  | Log l text :: ops' =>
      (if log_enabled l then [(l, log_line cell text)] else []) ++ run_log cell ops'
  end.

(** The lines that are let through, as their callers gave them. *)
Definition enabled (ops : list LogOp) : list (Level * string) :=
  omap (fun o => match o with
                 | Log l text => if log_enabled l then Some (l, text) else None
                 | SetRunId _ => None
                 end) ops.
End log.

(** [record_summary] of src/daemon/pipeline/hints.rs. *)
Definition focus_summary (focus : option WindowFocusInfo) : string :=
  match focus with
  | Some info =>
      "app=" +:+ app_name info +:+ " window=" +:+ window_title info +:+
      " pid=" +:+ show (pid info) +:+ " wid=" +:+ show (window_id info)
  | None => "focus=none"
  end.

Definition record_summary `{PrintedTimes} (record : ActivityRecord) : string :=
  "id=" +:+ show (record_id record) +:+ " state=" +:+ state_label (state record) +:+
  " start=" +:+ show_time (start_time record) +:+
  " end=" +:+ (match end_time record with Some t => show_time t | None => "open" end) +:+
  " events=" +:+ show (event_count record) +:+
  " triggers=" +:+ show (Z.of_nat (length (triggering_events record))) +:+
  " " +:+ focus_summary (focus_info record).

(** ** Lemmas *)

(** A text is read off up to the first character that it does not have. *)
Lemma text_before c s : forall t u v,
  string_all (fun x => negb (Ascii.eqb x c)) s = true ->
  string_all (fun x => negb (Ascii.eqb x c)) t = true ->
  s +:+ String c u = t +:+ String c v -> s = t /\ u = v.
Proof.
  induction s as [|x s IH]; intros [|y t] u v; cbn; intros Hs Ht Heq.
  - by injection Heq.
  - injection Heq as -> _. by rewrite Ascii.eqb_refl in Ht.
  - injection Heq as -> _. by rewrite Ascii.eqb_refl in Hs.
  - injection Heq as -> Heq. apply andb_prop in Hs as [_ Hs], Ht as [_ Ht].
    by destruct (IH t u v Hs Ht Heq) as [-> ->].
Qed.

Lemma show_no_space n : 0 <= n -> string_all (fun x => negb (Ascii.eqb x " "%char)) (show n) = true.
Proof.
  intros Hn. apply (string_all_impl is_digit); [|by apply show_digits].
  intros c Hc. apply negb_true_iff, Ascii.eqb_neq. intros ->. discriminate.
Qed.

Lemma show_inj n m : 0 <= n -> 0 <= m -> show n = show m -> n = m.
Proof.
  intros Hn Hm He.
  assert (forall k, 0 <= k <= n + m -> in_u (n + m + 1) k) as Hw.
  { intros k Hk. unfold in_u. pose proof (Z.pow_gt_lin_r 2 (n + m + 1)). lia. }
  pose proof (unsigned_roundtrip (n + m + 1) n (Hw n ltac:(lia))) as E1.
  pose proof (unsigned_roundtrip (n + m + 1) m (Hw m ltac:(lia))) as E2. congruence.
Qed.

Lemma run_log_set en id ops :
  run_log en (Some id) ops = map (fun x => (x.1, log_line (Some id) x.2)) (enabled en ops).
Proof.
  induction ops as [|[i|l text] ops IH]; cbn; [done|exact IH|].
  rewrite IH. by destruct (en l).
Qed.

Lemma run_log_before en cell id ops more :
  Forall (fun o => match o with SetRunId _ => False | Log _ _ => True end) ops ->
  run_log en cell (ops ++ SetRunId id :: more)
    = map (fun x => (x.1, log_line cell x.2)) (enabled en ops) ++ run_log en (set_run_id cell id) more.
Proof.
  induction 1 as [|[i|l text] ops Ho _ IH]; cbn; [done|done|].
  rewrite IH. by destruct (en l).
Qed.

(** ** Theorems *)

(** Every line that a process logs after it set its run id carries that run id, even when
    the id is set again; the lines before carry [-]. *)
Theorem lines_carry_run_id en before id after :
  Forall (fun o => match o with SetRunId _ => False | Log _ _ => True end) before ->
  run_log en None (before ++ SetRunId id :: after)
    = map (fun x => (x.1, log_line None x.2)) (enabled en before)
      ++ map (fun x => (x.1, log_line (Some id) x.2)) (enabled en after).
Proof. intros Hb. rewrite run_log_before by done. cbn. by rewrite run_log_set. Qed.

Lemma lines_carry_run_id_witness :
  run_log (lets_through LInfo) None
    [Log LInfo "boot"; SetRunId "q80"; Log LDebug "x"; SetRunId "zzz"; Log LError "y"]
    = [(LInfo, "[-] boot"); (LError, "[q80] y")].
Proof.
  refine (eq_trans (lines_carry_run_id (lets_through LInfo) [Log LInfo "boot"] "q80"
    [Log LDebug "x"; SetRunId "zzz"; Log LError "y"] _) eq_refl). by repeat constructor.
Defined.

(** A line gives back its run id and its text, where run ids have no closing bracket. *)
Theorem log_line_reads id id' text text' :
  string_all (fun x => negb (Ascii.eqb x "]"%char)) id = true ->
  string_all (fun x => negb (Ascii.eqb x "]"%char)) id' = true ->
  log_line (Some id) text = log_line (Some id') text' -> id = id' /\ text = text'.
Proof.
  intros H1 H2 [= He]. destruct (text_before "]"%char id id' _ _ H1 H2 He) as [-> Ht]. by injection Ht.
Qed.

Lemma log_line_reads_witness : "q80" = "q80" /\ "up" = "up".
Proof. apply (log_line_reads "q80" "q80" "up" "up"); reflexivity. Defined.

(** One more [-v] never hides a line. *)
Theorem verbosity_grows v l :
  0 <= v -> lets_through (setup_logging v) l = true ->
  lets_through (setup_logging (v + 1)) l = true.
Proof.
  intros Hv. assert (v = 0 \/ v = 1 \/ v = 2 \/ 2 < v) as [->|[->|[->|Hb]]] by lia; [by destruct l..|].
  intros _. assert (setup_logging (v + 1) = LTrace) as -> by (unfold setup_logging; destruct (v + 1) as [|[[]|[]|]|] eqn:E; try done; lia).
  by destruct l.
Qed.

Lemma verbosity_grows_witness : lets_through (setup_logging 2) LInfo = true.
Proof. apply (verbosity_grows 1); [lia|reflexivity]. Defined.

(** The summary that the hints stage logs names the record: it gives its id and its
    state. *)
Theorem summary_names_record `{PrintedTimes} r r' :
  0 <= record_id r -> 0 <= record_id r' -> record_summary r = record_summary r' ->
  record_id r = record_id r' /\ state r = state r'.
Proof.
  intros H1 H2 [= He].
  destruct (text_before " "%char _ _ _ _ (show_no_space _ H1) (show_no_space _ H2) He) as [Hid Hst].
  split; [by apply show_inj|]. injection Hst as Hst.
  destruct (state r), (state r'); (done || discriminate Hst).
Qed.

#[local] Instance logged_times : PrintedTimes := printed_ref.

Lemma summary_names_record_witness :
  let r := {| record_id := 12; run_id := None; start_time := 5; end_time := None; state := Passive;
              focus_info := None; event_count := 3; triggering_events := [1; 2] |} in
  record_summary r = "id=12 state=Passive start=5 end=open events=3 triggers=2 focus=none" /\
  record_id r = record_id r.
Proof.
  intros r. split; [vm_compute; reflexivity|].
  exact (proj1 (summary_names_record r r ltac:(vm_compute; discriminate)
    ltac:(vm_compute; discriminate) eq_refl)).
Defined.
