(* ===== verification/Programs.v ===== *)
(** The two programs: [main] of src/bin/kronid.rs with its prologue, and [main] of
    src/bin/kronictl.rs with its dispatch, their answers and their exit statuses.

    What the command line parser gives is an argument; so are the configuration as it was
    loaded and what the servers, the terminal and the log directory answer. *)
From S2P Require Import Prelude Decimal Events SnapshotBus AppTree Wire SnapshotStage Watch Monitor.
From S2P Require Import Printing Config RunId RunIdRestart PidFile.
From S2P Require LogCli LogList.

(** What has come of a program: its status, none while it runs, 101 after a panic. *)
Inductive End := Ends (r : Outcome unit) | Runs | Panics.
Definition exit_status (e : End) : option Z :=
  match e with Ends (inl _) => Some 0 | Ends (inr _) => Some 1 | Runs => None | Panics => Some 101 end.

(** ** kronid *)
Section kronid.
Context `{Base64} `{UnicodeText}.

(** The run id asked for, or a new one, [uuid]. *)
Definition resolve_run_id (run : option string) (uuid : bytes) : Outcome string :=
  match run with Some id => parse_run_id id | None => inl (encode_uuid uuid) end.

Definition kronid_run (me : Z) (run_arg : option string) (uuid : bytes) (config : Loaded AppConfig)
    : prog (Outcome unit) :=
  let? run_id := mret (resolve_run_id run_arg uuid) in
  let? _ := mret config in
  PidFile.run me run_id.

Definition kronid_main (me : Z) (run_arg : option string) (uuid : bytes) (config : Loaded AppConfig)
    : prog (option Z) :=
  r ← kronid_run me run_arg uuid config; mret (exit_status (Ends r)).
End kronid.

(** ** kronictl *)
Inductive TrackerAction := TrackerShow (count : option Z) (watch : bool) | TrackerStatus.
Inductive Commands :=
  | CmdStart (run : option string)
  | CmdStop
  | CmdRestart (run : option string)
  | CmdStatus
  | CmdSnapshot (pretty : bool)
  | CmdWatch (pretty : bool)
  | CmdMonitor
  | CmdLog (action : LogList.LogCommand)
  | CmdTracker (action : TrackerAction).

(** What a command writes. *)
Inductive Output :=
  | Nothing
  | Text (l : list string)
  | Snapshots (l : list Watch.Printed)
  | Frames (l : list Frame)
  | LogOutput (s : LogCli.Shown).

(** What [kronictl log] finds: the tools, the terminal and the directory of a path. *)
Record LogOutside := {
  l_local_time : instant -> string;
  l_less : list string -> LogCli.Launch;
  l_read_file : string -> Outcome string;
  l_tools : LogCli.Tools;
  l_is_terminal : bool;
  l_path_le : string -> string -> bool;
  l_read_dir : string -> option (Outcome (list (Outcome LogCli.DirEntry)))
}.

(** What the commands that ask the daemon are answered; for the monitor whether the terminal
    can be set up and restored. *)
Record Answers := {
  a_now : instant;
  a_reply : option SnapshotReply;
  a_stream : option Replies;
  a_conn : option Connection;
  a_polls : list (option Connection);
  a_terminal : Outcome unit;
  a_attempts : list Attempt;
  a_restored : Outcome unit;
  a_files : gset string;
  a_logs : LogOutside
}.

Section kronictl.
Context `{Base64} `{UnicodeText} `{ChronoParts} `{PrintedTimes} `{SnapshotJson} `{TrimEnd} (utc : nat -> instant).

Definition parse_run_arg (run : option string) : Outcome (option string) :=
  match run with
  | Some id => match parse_run_id id with inl id => inl (Some id) | inr e => inr e end
  | None => inl None
  end.

(** The error of the loop is printed and the terminal restored; the command succeeds. *)
Definition monitor_realtime (terminal : Outcome unit) (attempts : list Attempt) (restored : Outcome unit)
    : Output * End :=
  match terminal with
  | inr e => (Nothing, Ends (inr e))
  | inl _ =>
      let '(frames, e) := run_monitor_loop attempts in
      (Frames frames, match e with Monitoring => Runs | Quitted | MonitorError => Ends restored end)
  end.

Definition quiet (p : prog (Outcome unit)) : prog (Output * End) :=
  r ← p; mret (Nothing, Ends r).
Definition with_run_id (run : option string) (f : option string -> prog (Outcome unit)) : prog (Output * End) :=
  match parse_run_arg run with
  | inr e => mret (Nothing, Ends (inr e))
  | inl run_id => quiet (f run_id)
  end.

Definition dispatch (a : Answers) (config : AppConfig) (command : Commands) : prog (Output * End) :=
  match command with
  | CmdStart run => with_run_id run start_daemon
  | CmdStop => quiet (stop_daemon parse_run_id)
  | CmdRestart run => with_run_id run (restart_daemon parse_run_id)
  | CmdStatus => mret (Text (get_status (a_now a) (a_conn a)), Ends (inl ()))
  | CmdSnapshot pretty =>
      mret match (snapshot_autoselect utc (a_reply a) (a_conn a) pretty 0%nat).1 with
      | Some p => (Snapshots [p], Ends (inl ()))
      | None => (Nothing, Ends (inr "snapshot"))
      end
  | CmdWatch pretty =>
      let '(ps, e) := (watch_via_http utc (a_stream a) (a_conn a) (a_polls a) pretty 0%nat).1 in
      mret (Snapshots ps, match e with
        | Done => Ends (inl ()) | Polling => Runs | WatchError => Ends (inr "watch") end)
  | CmdMonitor => mret (monitor_realtime (a_terminal a) (a_attempts a) (a_restored a))
  | CmdLog action =>
      let l := a_logs a in
      let workspace := Config.workspace_dir config in
      mret match LogList.execute (l_local_time l) (l_less l) (l_read_file l) (l_tools l) (a_now a)
                   (l_is_terminal l) workspace (l_path_le l) (l_read_dir l (workspace +:+ "/logs")) action with
      | Some s => (LogOutput s, Ends (LogCli.ended s))
      | None => (Nothing, Panics)
      end
  | CmdTracker (TrackerShow _ _) => mret (Text (tracker_show (a_files a)).2, Ends (inl ()))
  | CmdTracker TrackerStatus => mret (Text tracker_status, Ends (inl ()))
  end.

(** Without a configuration or a workspace nothing is done. *)
Definition kronictl_main (a : Answers) (config : Loaded AppConfig) (command : Commands)
    : prog (Output * option Z) :=
  match config with
  | inr e => mret (Nothing, exit_status (Ends (inr e)))
  | inl config =>
      ensured ← perform EnsureWorkspace;
      if ensured : bool then
        '(out, e) ← dispatch a config command; mret (out, exit_status e)
      else mret (Nothing, exit_status (Ends (inr "Failed to create workspace directory")))
  end.
End kronictl.

(** ** What a run id goes through *)
Section run_ids.
Context `{Base64Laws} `{TrimGraphic} `{ChronoParts} `{PrintedTimes} `{SnapshotJson} `{TrimEnd} (utc : nat -> instant).
Context (served : unit + string).
Context (term : Z -> gmap file string * gset Z -> gmap file string * gset Z).
Notation run_alone := (run_alone (fun _ => false) served term).

Lemma parse_text b s : bytes_ok b -> length b = 16%nat -> run_id_text b s ->
  parse_run_id s = inl (encode_uuid b).
Proof. intros Hb Hl Ht. apply parse_run_id_iff. by exists b. Qed.

Lemma parse_own_text b : bytes_ok b -> length b = 16%nat ->
  parse_run_id (encode_uuid b) = inl (encode_uuid b).
Proof.
  intros Hb Hl. apply parse_text; [done..|]. exists Standard, 0%nat. split; [lia|]. cbn.
  by rewrite LogCli.string_app_nil.
Qed.

Lemma trim_encoded b : bytes_ok b -> str_trim (encode_uuid b) = encode_uuid b.
Proof.
  intros Hb. apply trim_graphic. eapply string_all_impl; [|by apply encode_chars].
  intros c. by destruct c as [[] [] [] [] [] [] [] []].
Qed.

Lemma encoded_nonempty b : length b = 16%nat -> encode_uuid b <> "".
Proof. intros Hl He. pose proof (encode_length b Hl) as Hn.
  change (encode Standard false b) with (encode_uuid b) in Hn. by rewrite He in Hn.
Qed.

(** A command that succeeds leaves what its program leaves. *)
Lemma run_alone_ret {A} (x : A) w : run_alone (mret x) w = (x, w).
Proof. done. Qed.

Lemma run_quiet a config (command : Commands) (p : prog (Outcome unit)) w r w' :
  dispatch utc a config command = quiet p ->
  run_alone p (with_fs w (fs w)) = (r, w') ->
  run_alone (kronictl_main utc a (inl config) command) w = ((Nothing, exit_status (Ends r)), w').
Proof.
  intros Hd Hp. unfold kronictl_main. rewrite run_alone_bind. cbn [PidFile.run_alone perform exec negb andb].
  rewrite run_alone_bind, Hd. unfold quiet. rewrite run_alone_bind, Hp. done.
Qed.

(** A restart where no daemon runs. *)
Lemma restart_idle raw id w :
  fs w !! PidFile = None -> fs w !! RunIdFile = Some raw -> str_trim raw <> "" ->
  parse_run_id (str_trim raw) = inl id -> exists w',
  run_alone (restart_daemon parse_run_id None) w = (inl (), w') /\
  spawned w' = spawned w ++ [Some id] /\ killed w' = killed w.
Proof.
  intros Hp Hr Hne Hid. unfold restart_daemon. rewrite run_alone_bind.
  assert (exists w1, run_alone (stop_daemon parse_run_id) w = (inl (), w1) /\ becomes w (fs w) w1)
    as (w1&->&Hf1&Ht1&Hs1&Hk1).
  { unfold stop_daemon. rewrite run_alone_bind.
    destruct (load_ok served term parse_run_id w) as (r&w0&->&Hf0&Ht0&Hs0&Hk0). cbn.
    rewrite Hf0, Hp, bool_decide_false by by intros [? ?]. cbn. eexists. split; [reflexivity|].
    split_and!; cbn; congruence. }
  unfold try_. rewrite run_alone_bind.
  destruct (load_previous_spec served term raw w1) as (w2&->&Hf2&Ht2&Hs2&Hk2); [by rewrite Hf1|].
  rewrite bool_decide_false, Hid by done.
  destruct (start_daemon_spec served term (Some id) w2) as (r&w3&->&Ht3&Hk3&Hw3).
  rewrite Hf2, Hf1, Hp in Hw3. cbn in Hw3. destruct Hw3 as (->&Hs3&_).
  eexists. split; [reflexivity|]. split; congruence.
Qed.

(** C12: a run id survives.  Given to [kronictl start] in any of the alphabets, with or without
    padding, where no running process owns the pid file, it is handed to the daemon in
    today's alphabet; the daemon takes it, ends with the status of its service, and leaves
    it in the run id file and neither pid file nor lock; and [kronictl restart] without a
    run id then starts the next daemon with it, ending no process.  Both commands end with
    status 0. *)
Theorem run_id_survives a config b s me uuid w :
  bytes_ok b -> length b = 16%nat -> run_id_text b s -> in_u 32 me -> unowned w ->
  (forall content, fs w !! PidFile = Some content -> is_Some (parse_pid content)) ->
  let ctl command := run_alone (kronictl_main utc a (inl config) command) in
  exists w1 w2 w3,
    ctl (CmdStart (Some s)) w = ((Nothing, Some 0), w1) /\
    spawned w1 = spawned w ++ [Some (encode_uuid b)] /\
    run_alone (kronid_main me (Some (encode_uuid b)) uuid (inl config)) w1
      = (exit_status (Ends served), w2) /\
    fs w2 !! RunIdFile = Some (encode_uuid b) /\ fs w2 !! PidFile = None /\ fs w2 !! LockFile = None /\
    ctl (CmdRestart None) w2 = ((Nothing, Some 0), w3) /\
    spawned w3 = spawned w2 ++ [Some (encode_uuid b)] /\ killed w3 = killed w.
Proof.
  intros Hb Hl Ht Hme Hun Hpid ctl. set (id := encode_uuid b).
  destruct (start_daemon_spec served term (Some id) (with_fs w (fs w))) as (r&w1&Hstart&Ht1&Hk1&Hs1).
  cbn [with_fs fs table spawned killed] in Ht1, Hk1, Hs1.
  assert (r = inl () /\ spawned w1 = spawned w ++ [Some id] /\ unowned w1) as (->&Hsp1&Hun1).
  { unfold unowned, owner in *. rewrite Ht1. destruct (fs w !! PidFile) as [content|] eqn:Hf; cbn in *.
    - destruct (Hpid content eq_refl) as [pid Hp]. rewrite Hp in Hs1.
      rewrite bool_decide_false in Hs1 by by apply Hun. destruct Hs1 as (->&->&->).
      split_and!; [done..|]. by rewrite lookup_delete_eq.
    - destruct Hs1 as (->&->&->). split_and!; [done..|]. by rewrite Hf. }
  destruct (run_ok served term me id w1 Hme Hun1) as (w2&Hrun&Hf2&Ht2&Hs2&Hk2).
  pose (w2' := with_fs w2 (fs w2)).
  assert (fs w2' !! RunIdFile = Some id /\ fs w2' !! PidFile = None /\ fs w2' !! LockFile = None) as (Hr2&Hp2&Hl2).
  { subst w2'. cbn [with_fs fs]. rewrite Hf2. split_and!; by simplify_map_eq. }
  destruct (restart_idle id id w2' Hp2 Hr2) as (w3&Hre&Hs3&Hk3);
    [by unfold id; rewrite trim_encoded by done; apply encoded_nonempty
    |by unfold id; rewrite trim_encoded, parse_own_text by done|].
  exists w1, w2, w3. split_and!; try done.
  - unfold ctl. apply (run_quiet a config _ (start_daemon (Some id)) w (inl ()) w1); [|done].
    cbn. unfold with_run_id, parse_run_arg. by rewrite (parse_text b s).
  - unfold kronid_main, kronid_run, resolve_run_id.
    assert (parse_run_id id = inl id) as -> by by apply parse_own_text.
    rewrite run_alone_bind. unfold try_. cbn [mbind prog_bind prog_bind_ mret prog_ret]. by rewrite Hrun.
  - unfold ctl. by apply (run_quiet a config _ (restart_daemon parse_run_id None) w2 (inl ()) w3).
  - subst w2'. cbn [with_fs killed] in Hk3. congruence.
Qed.

(** A run id that is none ends [kronictl start] and [kronictl restart], and the daemon, with
    status 1 before anything is done: a restart does not stop the daemon that runs. *)
Theorem bad_run_id_refused a config text e command me uuid w :
  parse_run_id text = inr e -> command = CmdStart (Some text) \/ command = CmdRestart (Some text) ->
  exists w', run_alone (kronictl_main utc a (inl config) command) w = ((Nothing, Some 1), w') /\
    becomes w (fs w) w' /\
    run_alone (kronid_main me (Some text) uuid (inl config)) w = (Some 1, w).
Proof.
  intros He Hc. unfold kronid_main, kronid_run, resolve_run_id. rewrite He.
  exists (with_fs w (fs w)). split_and!; [|done..]. unfold kronictl_main.
  destruct Hc as [-> | ->]; unfold dispatch, with_run_id, parse_run_arg; by rewrite He.
Qed.

(** Without a configuration every command ends with status 1 and does nothing. *)
Theorem no_config_refused a e command w :
  run_alone (kronictl_main utc a (inr e) command) w = ((Nothing, Some 1), w).
Proof. done. Qed.

(** The monitor ends with status 0 also when its loop has failed, provided that the terminal
    could be set up and restored. *)
Theorem monitor_status a config w :
  a_terminal a = inl () -> a_restored a = inl () -> (run_monitor_loop (a_attempts a)).2 = MonitorError ->
  exists w', run_alone (kronictl_main utc a (inl config) CmdMonitor) w
    = ((Frames (run_monitor_loop (a_attempts a)).1, Some 0), w').
Proof.
  intros Ht Hr Hm. unfold kronictl_main, dispatch, monitor_realtime. rewrite Ht, Hr.
  destruct (run_monitor_loop (a_attempts a)) as [fs e]. cbn in Hm. subst e. by eexists.
Qed.
End run_ids.

(** ** Witnesses *)
Section examples.
#[local] Existing Instances Rfc4648.base64 Rfc4648.base64_laws unicode_ascii chrono_ref chrono_parts_ref
  printed_ref demo_json ascii_end.
#[local] Instance programs_trim : TrimGraphic.
Proof. by intros s _. Qed.

Definition demo_answers : Answers := {|
  a_now := 5; a_reply := None; a_stream := None; a_conn := None; a_polls := []; a_terminal := inl ();
  a_attempts := [Monitor.Refused KeyError]; a_restored := inl (); a_files := ∅;
  a_logs := {| l_local_time := show; l_less := fun _ => LogCli.NotFound; l_read_file := fun _ => inr "no file";
    l_tools := LogCli.demo_tools; l_is_terminal := false; l_path_le := LogCli.string_le;
    l_read_dir := fun _ => Some (inl LogCli.demo_dir) |} |}.
Definition demo_config : AppConfig := app_config_default "/home/user".

(** The id is given in the alphabet for addresses, with padding. *)
Lemma run_id_survives_witness : exists w1 w2 w3 : World,
  PidFile.run_alone (fun _ => false) stopped_service terminated
    (kronictl_main Z.of_nat demo_answers (inl demo_config) (CmdStart (Some "-_-_AwQFBgcICQoLDA0ODw=="))) stale_world
    = ((Nothing, Some 0), w1) /\ spawned w1 = [Some "+/+/AwQFBgcICQoLDA0ODw"] /\
  fs w2 !! RunIdFile = Some "+/+/AwQFBgcICQoLDA0ODw" /\
  spawned w3 = spawned w2 ++ [Some "+/+/AwQFBgcICQoLDA0ODw"] /\ killed w3 = [].
Proof.
  destruct (run_id_survives Z.of_nat stopped_service terminated demo_answers demo_config demo_uuid
    "-_-_AwQFBgcICQoLDA0ODw==" 42 [] stale_world) as (w1&w2&w3&H1&H2&_&H4&_&_&_&H7&H8).
  - by repeat constructor.
  - done.
  - exists UrlSafe, 2%nat. split; [lia|by vm_compute].
  - by vm_compute.
  - intros p Hp. vm_compute in Hp. injection Hp as <-. set_solver.
  - intros content Hc. vm_compute in Hc. injection Hc as <-. exists 41. by vm_compute.
  - exists w1, w2, w3. split; [exact H1|]. split; [exact H2|]. split; [exact H4|]. split; [exact H7|exact H8].
Defined.

Lemma bad_run_id_refused_witness : exists w',
  PidFile.run_alone (fun _ => false) stopped_service terminated
    (kronictl_main Z.of_nat demo_answers (inl demo_config) (CmdRestart (Some "no id"))) owned_world
    = ((Nothing, Some 1), w') /\ killed w' = [].
Proof.
  destruct (bad_run_id_refused Z.of_nat stopped_service terminated demo_answers demo_config "no id"
    "invalid base64 run id 'no id'" (CmdRestart (Some "no id")) 42 [] owned_world) as (w'&Hw&(_&_&_&Hk)&_);
    [by vm_compute|by right|].
  by exists w'.
Defined.

Example log_list : (PidFile.run_alone (fun _ => false) stopped_service terminated
    (kronictl_main Z.of_nat demo_answers (inl demo_config) (CmdLog (LogList.ShowLogs "-1" true))) stale_world).1
  = (LogOutput {| LogCli.stderr := []; LogCli.stdout := "===== [2|-1] b =====" +:+ LogCli.NL;
       LogCli.ended := inr "opening b" |}, Some 1).
Proof. by vm_compute. Qed.

Lemma monitor_status_witness : exists w',
  PidFile.run_alone (fun _ => false) stopped_service terminated
    (kronictl_main Z.of_nat demo_answers (inl demo_config) CmdMonitor) stale_world
    = ((Frames [Connecting], Some 0), w').
Proof. by apply (monitor_status Z.of_nat stopped_service terminated demo_answers). Defined.
End examples.
