(* ===== verification/Backends.v ===== *)
(** The trait [StorageBackend] of crates/storage/src/lib.rs as an interface with its
    contract, and its two implementations, [SqliteStorage] of sqlite3.rs and
    [DuckDbStorage] of duckdb.rs.

    What a backend has been given is the list of its commands, those that its [add_*]
    operations send; [stored] is what its database holds when the writer has written them
    all.  The channel and the writer threads are in Storage and Writers, the statements in
    Queries. *)
From S2P Require Import Prelude Events Records SnapshotBus CompactEvents PipelineTypes.
From S2P Require Import Metrics Codec Writers Queries Storage.

(** ** The interface *)
Class StorageBackend (D : Type) := {
  backend_add_events : list RawEvent -> list StorageCommand;
  backend_add_records : list ActivityRecord -> list StorageCommand;
  backend_add_compact_events : list CompactEvent -> list StorageCommand;
  backend_add_envelopes : list EventEnvelope -> list StorageCommand;
  backend_add_transitions : list Transition -> list StorageCommand;
  stored : list StorageCommand -> D;
  backend_records : D -> instant -> option string -> option (list ActivityRecord);
  backend_envelopes : D -> instant -> instant -> option (list EventEnvelope);
  backend_transitions : D -> instant -> option string -> Z -> option (list Transition)
}.

(** What is added reaches the queries as what it is.  What the queries promise, for the times
    [ok] that the database keeps: the records of
    the run that have not ended before [since], oldest first; the envelopes of the time
    range, oldest first; the newest transitions of the run, newest first. *)
Class BackendLaws (D : Type) `{StorageBackend D} `{Json} (ok : instant -> Prop) : Prop := {
  additions_kept evs rs ces es ts :
    let cs := backend_add_events evs ++ backend_add_records rs ++ backend_add_compact_events ces ++
              backend_add_envelopes es ++ backend_add_transitions ts in
    command_records cs = rs /\ command_envelopes cs = es /\ command_transitions cs = ts;
  records_answered cs since run :
    ok since -> Forall (record_kept ok) (command_records cs) ->
    exists out, backend_records (stored cs) since run = Some out /\
      out ≡ₚ map stored_record (filter (fun r => wanted_record since run r = true) (command_records cs)) /\
      StronglySorted (fun a b => start_time a <= start_time b) out;
  envelopes_answered cs since until :
    ok since -> ok until -> Forall (envelope_kept ok) (command_envelopes cs) ->
    exists out, backend_envelopes (stored cs) since until = Some out /\
      out ≡ₚ map stored_envelope
        (filter (fun e => wanted_envelope since until e = true) (command_envelopes cs)) /\
      StronglySorted (fun a b => env_timestamp a <= env_timestamp b) out;
  transitions_answered cs since run limit :
    ok since -> Forall (fun t => ok (t_at t)) (command_transitions cs) -> 0 <= limit < 2 ^ 63 ->
    exists all, backend_transitions (stored cs) since run limit = Some (take (Z.to_nat limit) all) /\
      all ≡ₚ filter (fun t => wanted_transition since run t = true) (command_transitions cs) /\
      StronglySorted (fun a b => t_at b <= t_at a) all
}.

(** ** The implementations *)
Module SqliteStorage.
(** The operations that send commands to the writer. *)
Definition add_events (events : list RawEvent) : list StorageCommand := Storage.add_events events.
Definition add_records (new_records : list ActivityRecord) : list StorageCommand :=
  Storage.add_records new_records.
Definition add_compact_events (events : list CompactEvent) : list StorageCommand :=
  Storage.add_compact_events events.
Definition add_envelopes (events : list EventEnvelope) : list StorageCommand :=
  Storage.add_envelopes events.
Definition add_transitions (transitions : list Transition) : list StorageCommand :=
  Storage.add_transitions transitions.

Section queries.
Context `{Json} `{Rfc3339} `{Sql string}.
Notation database := (list (table_row string Z)).

Definition fetch_records_since (db : database) (since : instant) (run : option string)
    : option (list ActivityRecord) := Queries.fetch_records_since db since run.
Definition fetch_envelopes_between (db : database) (since until : instant)
    : option (list EventEnvelope) := Queries.fetch_envelopes_between db since until.
Definition fetch_recent_transitions (db : database) (since : instant) (run : option string) (limit : Z)
    : option (list Transition) := Queries.fetch_recent_transitions db since run limit.

Definition backend : StorageBackend database := {|
  backend_add_events := add_events;
  backend_add_records := add_records;
  backend_add_compact_events := add_compact_events;
  backend_add_envelopes := add_envelopes;
  backend_add_transitions := add_transitions;
  stored := rows_of;
  backend_records := fetch_records_since;
  backend_envelopes := fetch_envelopes_between;
  backend_transitions := fetch_recent_transitions |}.
End queries.
End SqliteStorage.

Module DuckDbStorage.
(** The operations that send commands to the writer. *)
Definition add_events (events : list RawEvent) : list StorageCommand := Storage.add_events events.
Definition add_records (new_records : list ActivityRecord) : list StorageCommand :=
  Storage.add_records new_records.
Definition add_compact_events (events : list CompactEvent) : list StorageCommand :=
  Storage.add_compact_events events.
Definition add_envelopes (events : list EventEnvelope) : list StorageCommand :=
  Storage.add_envelopes events.
Definition add_transitions (transitions : list Transition) : list StorageCommand :=
  Storage.add_transitions transitions.

Section queries.
Context `{Json} {T : Type} `{TimestampTz T} `{!Sql T}.
Notation database := (list (table_row T bool)).

Definition fetch_records_since (db : database) (since : instant) (run : option string)
    : option (list ActivityRecord) := Queries.fetch_records_since db since run.
Definition fetch_envelopes_between (db : database) (since until : instant)
    : option (list EventEnvelope) := Queries.fetch_envelopes_between db since until.
Definition fetch_recent_transitions (db : database) (since : instant) (run : option string) (limit : Z)
    : option (list Transition) := Queries.fetch_recent_transitions db since run limit.

Definition backend : StorageBackend database := {|
  backend_add_events := add_events;
  backend_add_records := add_records;
  backend_add_compact_events := add_compact_events;
  backend_add_envelopes := add_envelopes;
  backend_add_transitions := add_transitions;
  stored := rows_of;
  backend_records := fetch_records_since;
  backend_envelopes := fetch_envelopes_between;
  backend_transitions := fetch_recent_transitions |}.
End queries.
End DuckDbStorage.

(** The commands of an operation, and what the queries read of them. *)
Lemma added_commands evs rs ces es ts :
  let cs := Storage.add_events evs ++ Storage.add_records rs ++ Storage.add_compact_events ces ++
            Storage.add_envelopes es ++ Storage.add_transitions ts in
  command_records cs = rs /\ command_envelopes cs = es /\ command_transitions cs = ts.
Proof.
  assert (forall {A B C} (f : A -> C) (g : C -> option B) (l : list A), (forall x, g (f x) = None) ->
    omap g (List.map f l) = []) as Hnone.
  { intros A B C f g l Hg. induction l as [|x l IH]; [done|]. cbn. by rewrite Hg. }
  assert (forall {A C} (f : A -> C) (g : C -> option A) (l : list A), (forall x, g (f x) = Some x) ->
    omap g (List.map f l) = l) as Hsome.
  { intros A C f g l Hg. induction l as [|x l IH]; [done|]. cbn. rewrite Hg. by f_equal. }
  intros cs. unfold cs, command_records, command_envelopes, command_transitions, Storage.add_events,
    Storage.add_records, Storage.add_envelopes, Storage.add_transitions.
  rewrite !omap_app. destruct ces as [|ce ces]; cbn [Storage.add_compact_events omap list_omap]; split_and!.
  all: rewrite (Hsome _ _ _ _) by done || idtac.
  all: repeat (rewrite Hnone by done); by rewrite ?app_nil_r.
Qed.

Section contract.
Context `{Json} `{Rfc3339} `{!Sql string} `{!SqlLaws string Z}.
Context {T : Type} `{TimestampTz T} `{!Sql T} `{!SqlLaws T bool}.

Lemma sqlite_laws_hold ok : times_kept (T := string) (B := Z) ok ->
  @BackendLaws _ SqliteStorage.backend _ ok.
Proof.
  intros Hok. split.
  - apply added_commands.
  - intros cs since run Hs Hcs. by apply (fetch_records_answer ok).
  - intros cs since until Hs Hu Hcs. by apply (fetch_envelopes_answer ok).
  - intros cs since run limit Hs Hcs Hl.
    destruct (fetch_transitions_answer ok cs since run limit Hok Hs Hcs Hl) as (all&out&Ho&Hp&Hsort&->). by exists all.
Qed.

Lemma duckdb_laws_hold ok : times_kept (T := T) (B := bool) ok ->
  @BackendLaws _ DuckDbStorage.backend _ ok.
Proof.
  intros Hok. split.
  - apply added_commands.
  - intros cs since run Hs Hcs. by apply (fetch_records_answer ok).
  - intros cs since until Hs Hu Hcs. by apply (fetch_envelopes_answer ok).
  - intros cs since run limit Hs Hcs Hl.
    destruct (fetch_transitions_answer ok cs since run limit Hok Hs Hcs Hl) as (all&out&Ho&Hp&Hsort&->). by exists all.
Qed.

(** C21: both backends keep the contract: what is added is what the queries are about, and
    whatever they have been given, a query answers, and with what was stored, selected and in
    order, for all times that the database keeps. *)
Theorem storage_backends_refine ok :
  times_kept (T := string) (B := Z) ok -> times_kept (T := T) (B := bool) ok ->
  @BackendLaws _ SqliteStorage.backend _ ok /\ @BackendLaws _ DuckDbStorage.backend _ ok.
Proof. intros Hs Hd. split; [by apply sqlite_laws_hold|by apply duckdb_laws_hold]. Qed.
End contract.

(** ** A run *)
Section examples.
#[local] Existing Instances json_ref rfc3339_ref sqlite_sql sqlite_sql_laws tz_ref.

(** SELECT over timestamps in memory. *)
Definition duckdb_sql : Sql Z := {|
  order_asc A key := sort_by (fun a b => key a <=? key b);
  order_desc A key := sort_by (fun a b => key b <=? key a);
  limit_rows A n l := if n <? 0 then None else Some (take (Z.to_nat n) l);
  with_id A l := map (pair None) l |}.
#[local] Existing Instance duckdb_sql.

Lemma duckdb_sql_laws : SqlLaws Z bool.
Proof.
  split; cbn; intros.
  - apply sort_by_perm.
  - apply sort_by_sorted; intros *; blia.
  - apply sort_by_perm.
  - apply sort_by_sorted; intros *; blia.
  - by rewrite (proj2 (Z.ltb_ge _ _)).
  - by rewrite map_map, map_id.
Qed.
#[local] Existing Instance duckdb_sql_laws.

Lemma tz_kept : times_kept (T := Z) (B := bool) (fun t => 0 <= t).
Proof. split; [done|]. intros a b Ha Hb. done. Qed.

Lemma storage_backends_refine_witness :
  exists out, DuckDbStorage.fetch_records_since (rows_of [record_ref 2 5 6 (Some "r");
      record_ref 1 2 5 (Some "r"); record_ref 3 6 9 None]) 6 (Some "r") = Some out /\
    map record_id out = [2].
Proof.
  destruct (storage_backends_refine (T := Z) (fun t => 0 <= t) unary_kept tz_kept) as [_ Hduck].
  destruct (@records_answered _ _ _ _ Hduck [record_ref 2 5 6 (Some "r");
    record_ref 1 2 5 (Some "r"); record_ref 3 6 9 None] 6 (Some "r")) as (out&Hout&Hp&_).
  - done.
  - repeat constructor; try done; cbn; intros; by simplify_eq.
  - exists out. split; [exact Hout|]. apply Permutation_singleton_r.
    apply (Permutation_map record_id) in Hp. etrans; [exact Hp|by vm_compute].
Defined.
End examples.
