(* ===== verification/Schema.v ===== *)
(** The tables of the databases and how a backend is opened: [init_db] and [new] of
    crates/storage/src/sqlite3.rs and duckdb.rs, the opening of the metrics stores of
    system_metrics.rs, and [create_data_store] of src/bin/kronid.rs.

    A database is third party.  What the code relies on are the laws of its schema
    statements: a table that is missing is created as written and one that is there is
    left alone, an index changes no column, and a column that is added is there.  An
    error in ALTER TABLE is ignored by the code, so that a table may lack a column that
    later statements name: [AlterAdds] says when it does not. *)
From stdpp Require Import strings.
From S2P Require Import Prelude Decimal Events Records SnapshotBus CompactEvents PipelineTypes.
From S2P Require Import SnapshotStage Config.

(** ** Schema statements *)
Record Column := { col_name : string; col_type : string; not_null : bool }.

Inductive Ddl :=
  | CreateTable (if_not_exists : bool) (table : string) (cols : list Column) (primary_key : list string)
  | CreateIndex (if_not_exists : bool) (index table column : string)
  | AddColumn (table : string) (col : Column)
  | Pragma (setting value : string).

(** A database as far as its schema goes: a statement's effect, or an error, and the
    columns of a table. *)
Class SchemaDb (D : Type) := {
  run_ddl : D -> Ddl -> option D;
  columns : D -> string -> option (list Column)
}.

(** The table has a column of that name. *)
Definition has `{SchemaDb D} (d : D) (table c : string) : Prop :=
  exists cs, columns d table = Some cs /\ c ∈ map col_name cs.

Class SchemaLaws (D : Type) `{SchemaDb D} : Prop := {
  ddl_keeps d s d' t cs : run_ddl d s = Some d' -> columns d t = Some cs ->
    exists cs', columns d' t = Some cs' /\ map col_name cs ⊆ map col_name cs';
  ddl_frame d s d' t : run_ddl d s = Some d' ->
    match s with CreateTable _ u _ _ | AddColumn u _ => t <> u | _ => True end -> columns d' t = columns d t;
  create_new d b t cols pk d' : run_ddl d (CreateTable b t cols pk) = Some d' -> columns d t = None ->
    columns d' t = Some cols;
  create_there d b t cols pk d' cs : run_ddl d (CreateTable b t cols pk) = Some d' -> columns d t = Some cs ->
    columns d' t = Some cs;
  add_there d t c cs : columns d t = Some cs -> col_name c ∈ map col_name cs -> run_ddl d (AddColumn t c) = None
}.

(** [ALTER TABLE t ADD COLUMN c] succeeds on a table of the database without the column. *)
Class AlterAdds (D : Type) `{SchemaDb D} : Prop := {
  add_missing d t c cs : columns d t = Some cs -> col_name c ∉ map col_name cs ->
    exists d', run_ddl d (AddColumn t c) = Some d' /\ has d' t (col_name c)
}.

Section batches.
Context `{SchemaDb D}.

(** [execute_batch]: the statements in turn, up to the first error; what was done stays. *)
Fixpoint execute_batch (d : D) (l : list Ddl) : D * bool :=
  match l with
  | [] => (d, true)
  | s :: l => match run_ddl d s with Some d => execute_batch d l | None => (d, false) end
  end.

(** [let _ = conn.execute(...)], one after the other. *)
Definition execute_ignoring (d : D) (l : list Ddl) : D :=
  foldl (fun d s => default d (run_ddl d s)) d l.
End batches.

Definition col (name type : string) : Column := {| col_name := name; col_type := type; not_null := false |}.
Definition nn (name type : string) : Column := {| col_name := name; col_type := type; not_null := true |}.
Definition table (name : string) (cols : list Column) : Ddl := CreateTable true name cols [].
Definition index (name t column : string) : Ddl := CreateIndex true name t column.

(** ** The main databases *)
Module SqliteStorage.
Definition pragmas : list Ddl :=
  [Pragma "journal_mode" "WAL"; Pragma "synchronous" "NORMAL"; Pragma "cache_size" "-4000"].

Definition batch : list Ddl := [
  table "raw_events" [col "id" "INTEGER PRIMARY KEY"; nn "timestamp" "TEXT"; nn "event_type" "TEXT"; nn "data" "TEXT"];
  index "idx_raw_events_timestamp" "raw_events" "timestamp";
  table "raw_envelopes" [col "id" "INTEGER PRIMARY KEY"; col "event_id" "INTEGER"; nn "timestamp" "TEXT";
    nn "source" "TEXT"; nn "kind" "TEXT"; col "payload" "TEXT"; nn "derived" "INTEGER";
    nn "polling" "INTEGER"; nn "sensitive" "INTEGER"];
  index "idx_raw_envelopes_timestamp" "raw_envelopes" "timestamp";
  table "activity_records" [col "id" "INTEGER PRIMARY KEY"; col "record_id" "INTEGER"; nn "start_time" "TEXT";
    col "end_time" "TEXT"; nn "state" "TEXT"; col "focus_info" "TEXT"; col "run_id" "TEXT"];
  table "compact_events" [nn "start_time" "TEXT"; nn "end_time" "TEXT"; nn "kind" "TEXT";
    col "payload" "TEXT"; col "raw_event_ref" "TEXT"];
  index "idx_compact_events_start_time" "compact_events" "start_time";
  index "idx_activity_records_start_time" "activity_records" "start_time";
  table "recent_transitions" [col "id" "INTEGER PRIMARY KEY AUTOINCREMENT"; nn "at" "TEXT"; nn "from_state" "TEXT";
    nn "to_state" "TEXT"; col "by_signal" "TEXT"; col "run_id" "TEXT"];
  index "idx_recent_transitions_at" "recent_transitions" "at"].

Definition migrations : list Ddl := [
  AddColumn "recent_transitions" (col "run_id" "TEXT");
  AddColumn "activity_records" (col "run_id" "TEXT");
  AddColumn "activity_records" (col "record_id" "INTEGER")].

Definition init_db `{SchemaDb D} (d : D) : D * bool :=
  let '(d, ok) := execute_batch d pragmas in
  if ok then
    let '(d, ok) := execute_batch d batch in
    if ok then (execute_ignoring d migrations, true) else (d, false)
  else (d, false).
End SqliteStorage.

Module DuckDbStorage.
Definition batch : list Ddl := [
  table "raw_events" [col "id" "BIGINT"; nn "timestamp" "TIMESTAMPTZ"; nn "event_type" "TEXT"; nn "data" "TEXT"];
  index "idx_raw_events_timestamp" "raw_events" "timestamp";
  table "raw_envelopes" [col "id" "BIGINT"; col "event_id" "BIGINT"; nn "timestamp" "TIMESTAMPTZ";
    nn "source" "TEXT"; nn "kind" "TEXT"; col "payload" "TEXT"; nn "derived" "BOOLEAN";
    nn "polling" "BOOLEAN"; nn "sensitive" "BOOLEAN"];
  index "idx_raw_envelopes_timestamp" "raw_envelopes" "timestamp";
  table "activity_records" [col "id" "BIGINT"; col "record_id" "BIGINT"; nn "start_time" "TIMESTAMPTZ";
    col "end_time" "TIMESTAMPTZ"; nn "state" "TEXT"; col "focus_info" "TEXT"; col "run_id" "TEXT"];
  table "compact_events" [nn "start_time" "TIMESTAMPTZ"; nn "end_time" "TIMESTAMPTZ"; nn "kind" "TEXT";
    col "payload" "TEXT"; col "raw_event_ref" "TEXT"];
  index "idx_compact_events_start_time" "compact_events" "start_time";
  index "idx_activity_records_start_time" "activity_records" "start_time";
  table "recent_transitions" [nn "at" "TIMESTAMPTZ"; nn "from_state" "TEXT"; nn "to_state" "TEXT";
    col "by_signal" "TEXT"; col "run_id" "TEXT"];
  index "idx_recent_transitions_at" "recent_transitions" "at"].

Definition migrations : list Ddl := [
  AddColumn "recent_transitions" (col "run_id" "TEXT");
  AddColumn "activity_records" (col "run_id" "TEXT");
  AddColumn "activity_records" (col "record_id" "BIGINT")].

Definition init_db `{SchemaDb D} (d : D) : D * bool :=
  let '(d, ok) := execute_batch d batch in
  if ok then (execute_ignoring d migrations, true) else (d, false).

(** [PRAGMA memory_limit='{}MB'; PRAGMA threads=2;] *)
Definition limits (limit_mb : Z) : list Ddl :=
  [Pragma "memory_limit" ("'" +:+ show limit_mb +:+ "MB'"); Pragma "threads" "2"].
End DuckDbStorage.

(** What the statements of both backends name: the table and the columns of the INSERT
    that writes a command, and those that the SELECTs give, test and order by. *)
Definition insert_of (c : StorageCommand) : option (string * list string) :=
  match c with
  | StRawEvent _ => Some ("raw_events", ["timestamp"; "event_type"; "data"])
  | StRecord _ => Some ("activity_records", ["record_id"; "start_time"; "end_time"; "state"; "focus_info"; "run_id"])
  | StEnvelope _ =>
      Some ("raw_envelopes", ["event_id"; "timestamp"; "source"; "kind"; "payload"; "derived"; "polling"; "sensitive"])
  | StCompactEvents _ => Some ("compact_events", ["start_time"; "end_time"; "kind"; "payload"; "raw_event_ref"])
  | StTransition _ => Some ("recent_transitions", ["at"; "from_state"; "to_state"; "by_signal"; "run_id"])
  | StShutdown => None
  end.

(** All of them. *)
Definition inserts : list (string * list string) := [
  ("raw_events", ["timestamp"; "event_type"; "data"]);
  ("activity_records", ["record_id"; "start_time"; "end_time"; "state"; "focus_info"; "run_id"]);
  ("raw_envelopes", ["event_id"; "timestamp"; "source"; "kind"; "payload"; "derived"; "polling"; "sensitive"]);
  ("compact_events", ["start_time"; "end_time"; "kind"; "payload"; "raw_event_ref"]);
  ("recent_transitions", ["at"; "from_state"; "to_state"; "by_signal"; "run_id"])].
Lemma insert_of_listed c s : insert_of c = Some s -> s ∈ inserts.
Proof. destruct c; intros [= <-]; by repeat constructor. Qed.

Definition select_records : string * list string :=
  ("activity_records", ["record_id"; "id"; "start_time"; "end_time"; "state"; "focus_info"; "run_id"]).
Definition select_envelopes : string * list string :=
  ("raw_envelopes", ["event_id"; "timestamp"; "source"; "kind"; "payload"; "derived"; "polling"; "sensitive"]).
Definition select_transitions : string * list string :=
  ("recent_transitions", ["at"; "from_state"; "to_state"; "by_signal"; "run_id"]).
Definition selects : list (string * list string) := [select_records; select_envelopes; select_transitions].

(** ** Opening *)
(** An opened backend: its database, the path that later connections open, and the
    memory limit of DuckDB.  The channel and the writer thread are in Storage. *)
Record Opened (D : Type) := { db : D; db_path : string; memory_limit_mb : option Z }.
Arguments Build_Opened {_} _ _ _.
Arguments db {_} _.
Arguments db_path {_} _.
Arguments memory_limit_mb {_} _.

(** What the system answers: whether the directory is there or could be made, the
    database that was opened, whether the writer thread could be started. *)
Record Host (D : Type) := { dir_made : bool; opened : option D; thread_started : bool }.
Arguments dir_made {_} _.
Arguments opened {_} _.
Arguments thread_started {_} _.

Section new.
Context `{SchemaDb D}.

Definition sqlite_new (path : string) (h : Host D) : option (Opened D) :=
  if dir_made h then
    conn ← opened h;
    let '(d, ok) := SqliteStorage.init_db conn in
    if ok && thread_started h then Some (Build_Opened d path None) else None
  else None.

Definition duckdb_new (path : string) (h : Host D) : option (Opened D) :=
  if dir_made h then
    conn ← opened h;
    let '(d, ok) := DuckDbStorage.init_db conn in
    if ok && thread_started h then Some (Build_Opened d path None) else None
  else None.

(** An error of the limits is ignored. *)
Definition duckdb_new_with_limit (path : string) (limit_mb : Z) (h : Host D) : option (Opened D) :=
  if dir_made h then
    conn ← opened h;
    let '(d, ok) := DuckDbStorage.init_db (execute_batch conn (DuckDbStorage.limits limit_mb)).1 in
    if ok && thread_started h then Some (Build_Opened d path (Some limit_mb)) else None
  else None.

Definition create_data_store (config : AppConfig) (h : Host D) : option (Opened D) :=
  match db_backend config with
  | Duckdb => duckdb_new_with_limit (data_file config) (duckdb_memory_limit_mb_main config) h
  | Sqlite3 => sqlite_new (data_file config) h
  end.
End new.

(** ** The metrics stores *)
Definition metrics_columns (timestamp int real big : string) : list Column :=
  [nn "timestamp" timestamp; nn "pid" int; nn "cpu_percent" real; nn "memory_bytes" big; nn "disk_io_bytes" big].
Definition metrics_batch (if_not_exists : bool) (cols : list Column) : list Ddl :=
  [CreateTable if_not_exists "system_metrics" cols ["timestamp"; "pid"];
   CreateIndex if_not_exists "idx_system_metrics_timestamp" "system_metrics" "timestamp";
   CreateIndex if_not_exists "idx_system_metrics_pid" "system_metrics" "pid"].
Definition duckdb_metrics_columns : list Column := metrics_columns "TIMESTAMPTZ" "INTEGER" "DOUBLE" "BIGINT".
Definition sqlite_metrics_columns : list Column := metrics_columns "TEXT" "INTEGER" "REAL" "INTEGER".

Section metrics.
Context `{SchemaDb D}.

Definition open_with (conn : option D) (l1 l2 : list Ddl) : option D :=
  conn ← conn;
  let '(d, ok) := execute_batch conn l1 in
  if ok then
    let '(d, ok) := execute_batch d l2 in
    if ok then Some d else None
  else None.

Definition new_in_memory_with_limit (conn : option D) (limit_mb : Z) : option D :=
  open_with conn (DuckDbStorage.limits limit_mb) (metrics_batch false duckdb_metrics_columns).
Definition new_in_memory (conn : option D) : option D := new_in_memory_with_limit conn 10.
Definition new_file_with_limit (conn : option D) (limit_mb : Z) : option D :=
  open_with conn (DuckDbStorage.limits limit_mb) (metrics_batch true duckdb_metrics_columns).
Definition new_file (conn : option D) : option D := new_file_with_limit conn 10.
Definition sqlite_new_file (conn : option D) : option D :=
  open_with conn [] (metrics_batch true sqlite_metrics_columns).

(** The store of the system tracker's thread. *)
Definition tracker_store (backend : DatabaseBackendConfig) (conn : option D) (duckdb_limit : Z) : option D :=
  match backend with
  | Duckdb => new_file_with_limit conn duckdb_limit
  | Sqlite3 => sqlite_new_file conn
  end.
End metrics.

Definition metrics_statements : list (string * list string) := [
  ("system_metrics", ["timestamp"; "pid"; "cpu_percent"; "memory_bytes"; "disk_io_bytes"])].

(** ** What an opened database has *)
Definition supports `{SchemaDb D} (d : D) (l : list (string * list string)) : Prop :=
  Forall (fun x => Forall (has d x.1) x.2) l.

Definition names_columns `{SchemaDb D} (d : D) (s : string * list string) : Prop := Forall (has d s.1) s.2.

(** Of the tables that a batch creates the database has none, or one with every column
    but those that are added afterwards, where adding succeeds. *)
Definition old_enough `{SchemaDb D} (d : D) (batch migrations : list Ddl) : Prop :=
  forall b t cols pk cs c, CreateTable b t cols pk ∈ batch -> columns d t = Some cs -> c ∈ map col_name cols ->
  c ∈ map col_name cs \/ (AlterAdds D /\ exists k, AddColumn t k ∈ migrations /\ col_name k = c).

Section laws.
Context `{SchemaLaws D}.

Lemma has_keeps d s d' t c : run_ddl d s = Some d' -> has d t c -> has d' t c.
Proof. intros Hs (cs&Hcs&Hc). destruct (ddl_keeps _ _ _ _ _ Hs Hcs) as (cs'&?&Hsub). exists cs'. split; [done|by apply Hsub]. Qed.

Lemma batch_keeps d l t c : has d t c -> has (execute_batch d l).1 t c.
Proof.
  revert d. induction l as [|s l IH]; intros d Hd; [done|]. cbn. destruct (run_ddl d s) as [d'|] eqn:Hs; [|done].
  apply IH. by eapply has_keeps.
Qed.

Lemma batch_keeps_table d l t : columns d t <> None -> columns (execute_batch d l).1 t <> None.
Proof.
  revert d. induction l as [|s l IH]; intros d Hd; [done|]. cbn. destruct (run_ddl d s) as [d'|] eqn:Hs; [|done].
  apply IH. destruct (columns d t) as [cs|] eqn:Hcs; [|done].
  destruct (ddl_keeps _ _ _ _ _ Hs Hcs) as (cs'&->&_). done.
Qed.

Lemma ignoring_keeps d l t c : has d t c -> has (execute_ignoring d l) t c.
Proof.
  revert d. induction l as [|s l IH]; intros d Hd; [done|]. cbn. apply IH.
  destruct (run_ddl d s) as [d'|] eqn:Hs; [|done]. by eapply has_keeps.
Qed.

(** A statement of a batch either leaves a table alone or creates it with the column. *)
Definition creates (t c : string) (s : Ddl) : bool :=
  match s with CreateTable _ u cols _ => bool_decide (u = t) && bool_decide (c ∈ map col_name cols) | _ => false end.
Definition creates_with (t c : string) (s : Ddl) : bool :=
  match s with
  | CreateTable _ u cols _ => bool_decide (u <> t) || bool_decide (c ∈ map col_name cols)
  | AddColumn _ _ => false
  | _ => true
  end.

Lemma batch_creates d l d' t c b cols pk :
  execute_batch d l = (d', true) -> forallb (creates_with t c) l = true -> CreateTable b t cols pk ∈ l ->
  columns d t = None -> has d' t c.
Proof.
  revert d. induction l as [|s l IH]; intros d He Hl Hin Hd; [by apply not_elem_of_nil in Hin|].
  cbn in He. destruct (run_ddl d s) as [d1|] eqn:Hs; [|done].
  cbn in Hl. apply andb_prop in Hl as [Hcs Hl].
  assert (has d1 t c \/ (columns d1 t = None /\ CreateTable b t cols pk ∈ l)) as [Hh|[Hn Hin']].
  { destruct s as [b' u cs pk'|? ? ? ?|? ?|? ?]; [|right|done|right];
      try (rewrite (ddl_frame _ _ _ t Hs); [|done]; split; [done|]; by apply elem_of_cons in Hin as [?|?]).
    destruct (decide (t = u)) as [<-|Hne].
    - left. exists cs. split; [by eapply create_new|]. cbn in Hcs. rewrite bool_decide_false in Hcs by auto.
      by apply bool_decide_eq_true in Hcs.
    - right. rewrite (ddl_frame _ _ _ t Hs) by done. split; [done|].
      apply elem_of_cons in Hin as [[=]|?]; congruence. }
  - pose proof (batch_keeps d1 l t c Hh) as Hk. by rewrite He in Hk.
  - by eapply IH.
Qed.

Lemma ignoring_adds `{!AlterAdds D} d l t k :
  columns d t <> None -> AddColumn t k ∈ l -> has (execute_ignoring d l) t (col_name k).
Proof.
  revert d. induction l as [|s l IH]; intros d Hd Hin; [by apply not_elem_of_nil in Hin|]. cbn.
  destruct (columns d t) as [cs|] eqn:Hcs; [|done].
  assert (columns (default d (run_ddl d s)) t <> None) as Hd'.
  { destruct (run_ddl d s) as [d1|] eqn:Hs; cbn; [|by rewrite Hcs].
    by destruct (ddl_keeps _ _ _ _ _ Hs Hcs) as (cs'&->&_). }
  apply elem_of_cons in Hin as [<-|Hin]; [|by apply IH]. apply ignoring_keeps.
  destruct (decide (col_name k ∈ map col_name cs)) as [Hk|Hk].
  - rewrite (add_there _ _ _ _ Hcs Hk). by exists cs.
  - destruct (add_missing _ _ _ _ Hcs Hk) as (d1&->&Hh). exact Hh.
Qed.

(** All columns of the statements are in tables of the batch. *)
Definition covers (batch : list Ddl) (l : list (string * list string)) : bool :=
  forallb (fun x => forallb (fun c => existsb (creates x.1 c) batch && forallb (creates_with x.1 c) batch) x.2) l.

Lemma init_supports d batch migrations d1 l :
  covers batch l = true -> execute_batch d batch = (d1, true) -> old_enough d batch migrations ->
  supports (execute_ignoring d1 migrations) l.
Proof.
  intros Hc He Hold. apply Forall_forall. intros [t cs] Hin. apply Forall_forall. intros c Hc'.
  unfold covers in Hc. rewrite forallb_forall in Hc. apply list_elem_of_In in Hin.
  specialize (Hc _ Hin). cbn [fst snd] in *. rewrite forallb_forall in Hc. apply list_elem_of_In in Hc'.
  destruct (andb_prop _ _ (Hc _ Hc')) as [Hex Hall]. apply existsb_exists in Hex as (s&Hs&Hcr).
  destruct s as [b u cols pk| | |]; try done. cbn in Hcr. apply andb_prop in Hcr as [Hu Hcol].
  apply bool_decide_eq_true in Hu as ->. apply bool_decide_eq_true in Hcol. apply list_elem_of_In in Hs.
  destruct (columns d t) as [cs'|] eqn:Ht.
  - destruct (Hold _ _ _ _ _ _ Hs Ht Hcol) as [Hhas|(HA&k&Hk&<-)].
    + apply ignoring_keeps. pose proof (batch_keeps d batch t c) as Hk. rewrite He in Hk. apply Hk. by exists cs'.
    + apply ignoring_adds; [|done]. pose proof (batch_keeps_table d batch t) as Hk'. rewrite He in Hk'.
      apply Hk'. by rewrite Ht.
  - apply ignoring_keeps. by eapply batch_creates.
Qed.

(** A batch over a database that has its tables changes no columns, and neither do the
    additions of columns that are there. *)
Lemma batch_same d l t :
  Forall (fun s => match s with CreateTable _ u _ _ => columns d u <> None | AddColumn _ _ => False | _ => True end) l ->
  columns (execute_batch d l).1 t = columns d t.
Proof.
  revert d. induction l as [|s l IH]; intros d Hl; [done|]. cbn. destruct (run_ddl d s) as [d1|] eqn:Hs; [|done].
  apply Forall_cons in Hl as [Hd Hl].
  assert (forall u, columns d1 u = columns d u) as Hsame.
  { intros u. destruct s as [b v cs pk|? ? ? ?|? ?|? ?]; [|by eapply ddl_frame|done|by eapply ddl_frame].
    destruct (decide (u = v)) as [->|Hne]; [|by rewrite (ddl_frame _ _ _ u Hs)].
    destruct (columns d v) as [cs'|] eqn:Hv; [|done]. by rewrite (create_there _ _ _ _ _ _ _ Hs Hv). }
  rewrite <- (Hsame t). apply IH. eapply Forall_impl; [exact Hl|]. intros [] ?; try done. by rewrite Hsame.
Qed.

Lemma ignoring_same d l :
  Forall (fun s => match s with AddColumn u k => has d u (col_name k) | _ => False end) l -> execute_ignoring d l = d.
Proof.
  induction l as [|s l IH]; intros Hl; [done|]. apply Forall_cons in Hl as [Hs Hl]. cbn.
  destruct s as [| |u k|]; try done. destruct Hs as (cs&Hcs&Hk). rewrite (add_there _ _ _ _ Hcs Hk). by apply IH.
Qed.
End laws.

(** ** What holds of an opened store *)
Definition batch_of (b : DatabaseBackendConfig) : list Ddl :=
  match b with Duckdb => DuckDbStorage.batch | Sqlite3 => SqliteStorage.batch end.
Definition migrations_of (b : DatabaseBackendConfig) : list Ddl :=
  match b with Duckdb => DuckDbStorage.migrations | Sqlite3 => SqliteStorage.migrations end.

Section store.
Context `{SchemaLaws D}.

Lemma pragmas_same (d : D) l t :
  Forall (fun s => match s with Pragma _ _ => True | _ => False end) l -> columns (execute_batch d l).1 t = columns d t.
Proof. intros Hl. apply batch_same. eapply Forall_impl; [exact Hl|]. by intros []. Qed.

Lemma old_enough_same (d d' : D) batch migrations :
  (forall t, columns d' t = columns d t) -> old_enough d batch migrations -> old_enough d' batch migrations.
Proof. intros Hs Ho b t cols pk cs c Hin Ht Hc. rewrite Hs in Ht. by eapply Ho. Qed.

(** What opening does to a database: pragmas, the batch, the migrations. *)
Lemma created_after config h o :
  create_data_store config h = Some o ->
  db_path o = data_file config /\
  exists d d0 d1, opened h = Some d /\ (forall t, columns d0 t = columns d t) /\
    execute_batch d0 (batch_of (db_backend config)) = (d1, true) /\
    db o = execute_ignoring d1 (migrations_of (db_backend config)).
Proof.
  unfold create_data_store, sqlite_new, duckdb_new_with_limit, DuckDbStorage.init_db, SqliteStorage.init_db.
  destruct (db_backend config), (dir_made h); try done; destruct (opened h) as [d|]; try done; cbn [mbind option_bind].
  - pose proof (fun t => pragmas_same d (DuckDbStorage.limits (duckdb_memory_limit_mb_main config)) t) as Hp.
    destruct (execute_batch d _) as [d0 ok]. cbn [fst] in *.
    destruct (execute_batch d0 DuckDbStorage.batch) as [d1 []] eqn:Hb; [|done]. cbn [andb].
    destruct (thread_started h); [|done]. intros [= <-]. split; [done|]. exists d, d0, d1.
    split_and!; [done| |done..]. intros t. apply Hp. by repeat constructor.
  - pose proof (fun t => pragmas_same d SqliteStorage.pragmas t) as Hp.
    destruct (execute_batch d _) as [d0 []]; [|done]. cbn [fst] in *.
    destruct (execute_batch d0 SqliteStorage.batch) as [d1 []] eqn:Hb; [|done]. cbn [andb].
    destruct (thread_started h); [|done]. intros [= <-]. split; [done|]. exists d, d0, d1.
    split_and!; [done| |done..]. intros t. apply Hp. by repeat constructor.
Qed.

(** The columns that a schema statement brings about. *)
Definition brings (s : Ddl) : string * list string :=
  match s with
  | CreateTable _ t cs _ => (t, map col_name cs)
  | AddColumn t k => (t, [col_name k])
  | _ => ("", [])
  end.
Definition plain_batch (l : list Ddl) : bool :=
  forallb (fun s => match s with CreateTable _ _ [] _ | AddColumn _ _ => false | _ => true end) l.

Lemma columns_there (d : D) l : plain_batch l = true -> supports d (map brings l) ->
  Forall (fun s => match s with CreateTable _ u _ _ => columns d u <> None | AddColumn _ _ => False | _ => True end) l.
Proof.
  induction l as [|s l IH]; intros Hp Hs; [constructor|]. cbn in Hp, Hs. apply Forall_cons in Hs as [Hs Hl].
  apply andb_prop in Hp as [Hp1 Hp]. constructor; [|by apply IH].
  destruct s as [b u [|c cs] pk| | |]; try done. apply Forall_cons in Hs as [(cs'&Hcs&_) _]. cbn in Hcs. by rewrite Hcs.
Qed.

Lemma additions_there (d : D) l :
  forallb (fun s => match s with AddColumn _ _ => true | _ => false end) l = true -> supports d (map brings l) ->
  Forall (fun s => match s with AddColumn u k => has d u (col_name k) | _ => False end) l.
Proof.
  induction l as [|s l IH]; intros Hp Hs; [constructor|]. cbn in Hp, Hs. apply Forall_cons in Hs as [Hs Hl].
  apply andb_prop in Hp as [Hp1 Hp]. constructor; [|by apply IH].
  destruct s; try done. by apply Forall_cons in Hs as [Hs _].
Qed.

Lemma supports_same (d d' : D) l : (forall t, columns d' t = columns d t) -> supports d l -> supports d' l.
Proof.
  intros Hs Hl. eapply Forall_impl; [exact Hl|]. intros [t cs] Ht. eapply Forall_impl; [exact Ht|].
  intros c (k&?&?). exists k. by rewrite Hs.
Qed.

(** C29: a store that was opened, new or made by an earlier version, has the tables and the
    columns that the writer and the queries name, and opening it again changes no table. *)
Theorem data_store_complete config h o :
  create_data_store config h = Some o ->
  (forall d, opened h = Some d -> old_enough d (batch_of (db_backend config)) (migrations_of (db_backend config))) ->
  db_path o = data_file config /\
  (forall c s, insert_of c = Some s -> names_columns (db o) s) /\ supports (db o) selects /\
  forall h' o', opened h' = Some (db o) -> create_data_store config h' = Some o' ->
    forall t, columns (db o') t = columns (db o) t.
Proof.
  intros Ho Hold. destruct (created_after _ _ _ Ho) as (Hpath&d&d0&d1&Hd&Hsame&Hb&Hdb).
  assert (supports (db o) (map brings (batch_of (db_backend config)) ++
      map brings (migrations_of (db_backend config)) ++ inserts ++ selects)) as Hsup.
  { rewrite Hdb. eapply init_supports; [|exact Hb|eapply old_enough_same; [exact Hsame|by apply Hold]].
    destruct (db_backend config); by vm_compute. }
  apply Forall_app in Hsup as [Htabs [Hadds [Hins Hsel]%Forall_app]%Forall_app]. split_and!; [done| |done|].
  { intros c s Hs. apply insert_of_listed in Hs. rewrite Forall_forall in Hins. exact (Hins _ Hs). }
  intros h' o' Hd' Ho' t. destruct (created_after _ _ _ Ho') as (_&d'&d0'&d1'&Hd''&Hsame'&Hb'&->).
  rewrite Hd' in Hd''. injection Hd'' as <-.
  assert (forall t, columns d1' t = columns (db o) t) as Hd1.
  { intros u. rewrite <- Hsame'. change d1' with (d1', true).1. rewrite <- Hb'. apply batch_same, columns_there.
    - destruct (db_backend config); by vm_compute.
    - by eapply supports_same. }
  rewrite ignoring_same; [apply Hd1|]. apply additions_there; [destruct (db_backend config); by vm_compute|].
  by eapply supports_same.
Qed.

(** The same of the stores of system metrics. *)
Theorem metrics_store_complete backend conn limit d :
  tracker_store backend conn limit = Some d ->
  (forall c, conn = Some c -> columns c "system_metrics" = None \/
     supports c metrics_statements) ->
  supports d metrics_statements.
Proof.
  intros Ho Hold.
  assert (exists c c0 ts int real big, let cols := metrics_columns ts int real big in
    conn = Some c /\ (forall t, columns c0 t = columns c t) /\
    execute_batch c0 (metrics_batch true cols) = (d, true)) as (c&c0&ts&int&real&big&Hc&Hsame&Hb).
  { destruct backend; cbn in Ho; unfold new_file_with_limit, sqlite_new_file, open_with in Ho;
      destruct conn as [c|]; try done; cbn [mbind option_bind] in Ho.
    - pose proof (fun t => pragmas_same c (DuckDbStorage.limits limit) t) as Hp.
      destruct (execute_batch c _) as [c0 []]; [|done]. cbn [fst] in Hp.
      destruct (execute_batch c0 _) as [d1 []] eqn:Hb; [|done]. injection Ho as <-.
      exists c, c0, "TIMESTAMPTZ", "INTEGER", "DOUBLE", "BIGINT". split_and!; [done| |exact Hb]. intros t. apply Hp. by repeat constructor.
    - change (execute_batch c []) with (c, true) in Ho. cbn beta iota zeta in Ho.
      destruct (execute_batch c _) as [d1 []] eqn:Hb; [|done]. injection Ho as <-.
      exists c, c, "TEXT", "INTEGER", "REAL", "INTEGER". split_and!; [done|done|exact Hb]. }
  change d with (execute_ignoring d []). eapply init_supports; [|exact Hb|]; [by vm_compute|].
  intros b t cols pk cs x Hin Ht Hx. left. rewrite Hsame in Ht.
  assert (t = "system_metrics" /\ map col_name cols = ["timestamp"; "pid"; "cpu_percent"; "memory_bytes"; "disk_io_bytes"])
    as [-> Hcols].
  { unfold metrics_batch in Hin. rewrite !elem_of_cons in Hin. destruct Hin as [[= -> -> ->]|[?|[?|?%not_elem_of_nil]]]; done. }
  destruct (Hold c Hc) as [Hn|Hs]; [congruence|]. apply Forall_cons in Hs as [Hs _]. cbn in Hs.
  rewrite Hcols in Hx. rewrite Forall_forall in Hs. destruct (Hs x Hx) as (cs'&Hcs'&?). by simplify_eq.
Qed.
End store.

(** ** A database in memory *)
Notation Memory := (gmap string (list Column)).
Definition memory_ddl (d : Memory) (s : Ddl) : option Memory :=
  match s with
  | CreateTable b t cols _ =>
      match d !! t with Some _ => if b then Some d else None | None => Some (<[t := cols]> d) end
  | CreateIndex _ _ t c =>
      cs ← d !! t; if bool_decide (c ∈ map col_name cs) then Some d else None
  | AddColumn t k =>
      cs ← d !! t; if bool_decide (col_name k ∈ map col_name cs) then None else Some (<[t := cs ++ [k]]> d)
  | Pragma _ _ => Some d
  end.
#[export] Instance memory_schema : SchemaDb Memory := {| run_ddl := memory_ddl; columns d t := d !! t |}.

#[export] Instance memory_schema_laws : SchemaLaws Memory.
Proof.
  split; cbn.
  - intros d [b u cols pk|b i u c|u k|p v] d' t cs Hs Ht; cbn in Hs; repeat case_match; simplify_option_eq;
      try (by exists cs); (destruct (decide (t = u)) as [->|]; [|exists cs; by rewrite lookup_insert_ne by done]);
      simplify_eq; eexists; (split; [by rewrite lookup_insert_eq|]).
    rewrite map_app. set_solver.
  - intros d [b u cols pk|b i u c|u k|p v] d' t Hs Ht; cbn in Hs; repeat case_match; simplify_option_eq;
      try done; by rewrite lookup_insert_ne.
  - intros d b t cols pk d' Hs Ht. rewrite Ht in Hs. simplify_eq. by rewrite lookup_insert_eq.
  - intros d b t cols pk d' cs Hs Ht. rewrite Ht in Hs. destruct b; by simplify_eq.
  - intros d t c cs Ht Hc. rewrite Ht. cbn. by rewrite bool_decide_true.
Qed.

#[export] Instance memory_alter : AlterAdds Memory.
Proof.
  split. intros d t c cs Ht Hc. cbn in *. rewrite Ht. cbn. rewrite bool_decide_false by done. eexists.
  split; [done|]. eexists. cbn. rewrite lookup_insert_eq. split; [done|]. rewrite map_app. set_solver.
Qed.

(** A database of an earlier version, without the columns that were added since. *)
Definition old_database : Memory := {[
  "activity_records" := [col "id" "BIGINT"; nn "start_time" "TIMESTAMPTZ"; col "end_time" "TIMESTAMPTZ";
    nn "state" "TEXT"; col "focus_info" "TEXT"];
  "recent_transitions" := [nn "at" "TIMESTAMPTZ"; nn "from_state" "TEXT"; nn "to_state" "TEXT"; col "by_signal" "TEXT"] ]}.
Definition demo_host : Host Memory := {| dir_made := true; opened := Some old_database; thread_started := true |}.

Lemma old_database_enough : old_enough old_database DuckDbStorage.batch DuckDbStorage.migrations.
Proof.
  intros b t cols pk cs c Hin Ht Hc.
  assert (forallb (fun s => match s with
    | CreateTable _ t cols _ => from_option (fun cs => forallb (fun c => bool_decide (c ∈ map col_name cs) ||
        existsb (fun m => match m with AddColumn u k => bool_decide (u = t) && bool_decide (col_name k = c) | _ => false end)
          DuckDbStorage.migrations) (map col_name cols)) true (old_database !! t)
    | _ => true end) DuckDbStorage.batch = true) as Hall by (by vm_compute).
  rewrite forallb_forall in Hall. apply list_elem_of_In in Hin. specialize (Hall _ Hin).
  change (old_database !! t = Some cs) in Ht. cbn beta iota in Hall. rewrite Ht in Hall.
  cbn [from_option] in Hall. rewrite forallb_forall in Hall. apply list_elem_of_In in Hc.
  destruct (orb_prop _ _ (Hall _ Hc)) as [Hl|Hr]; [left; by apply bool_decide_eq_true in Hl|right].
  split; [apply _|]. apply existsb_exists in Hr as (m&Hm&Hr). destruct m as [| |u k|]; try done.
  apply andb_prop in Hr as [Hu Hk]. apply bool_decide_eq_true in Hu as ->. apply bool_decide_eq_true in Hk.
  exists k. split; [by apply list_elem_of_In|done].
Qed.

Lemma opened_some {A} (x : option A) : from_option (fun _ => true) false x = true -> exists a, x = Some a.
Proof. destruct x as [a|]; [by exists a|done]. Qed.

Lemma data_store_complete_witness :
  exists o, create_data_store (app_config_default "/home/user") demo_host = Some o /\
    supports (db o) selects /\
    names_columns (db o) ("recent_transitions", ["at"; "from_state"; "to_state"; "by_signal"; "run_id"]).
Proof.
  destruct (opened_some (create_data_store (app_config_default "/home/user") demo_host)) as [o Ho]; [by vm_compute|].
  destruct (data_store_complete (app_config_default "/home/user") demo_host o Ho) as (_&Hi&Hs&_).
  - intros d [= <-]. apply old_database_enough.
  - exists o. split; [exact Ho|]. split; [exact Hs|]. 
    by apply (Hi (StTransition {| t_from := Inactive; t_to := Active; t_at := 0; t_by_signal := None; t_run_id := None |})).
Defined.

Lemma metrics_store_complete_witness :
  exists d, tracker_store Duckdb (Some (old_database : Memory)) 10 = Some d /\ supports d metrics_statements.
Proof.
  destruct (opened_some (tracker_store Duckdb (Some (old_database : Memory)) 10)) as [d Hd]; [by vm_compute|].
  exists d. split; [done|]. apply (metrics_store_complete Duckdb (Some old_database) 10 d Hd).
  intros c [= <-]. by left.
Defined.
