(* ===== verification/EndToEnd.v ===== *)
(** The pipeline, the storage backend and its queries together: what the stages make of
    the input is what a later query answers with.

    The storage stage (src/daemon/pipeline/storage.rs) calls the backend once for every
    command that it receives; a schedule of the pipeline (Pipeline) gives the calls, a
    schedule of the backend (Storage) carries them out against its writer thread, and the
    queries (Backends) read the database that this leaves. *)
From S2P Require Import Prelude Decimal Events StateEngine StateDeriver LockDeriver Adapter Interner.
From S2P Require Import Records Aggregation SnapshotBus CompactEvents Compressor Trajectory.
From S2P Require Import Engine PipelineTypes Envelope HintsStage CompressionStage AppTree.
From S2P Require Import SnapshotStage Pipeline Metrics Codec Writers Queries Storage Backends.

(** The operation of the backend that the storage stage calls for a command. *)
Definition backend_call (c : StorageCommand) : list StorageCommand :=
  match c with
  | StRawEvent event => add_events [event]
  | StRecord record => add_records [record]
  | StEnvelope env => add_envelopes [env]
  | StCompactEvents events => add_compact_events events
  | StTransition transition => add_transitions [transition]
  | StShutdown => []
  end.

Lemma calls_no_shutdown l : StShutdown ∉ concat (map backend_call l).
Proof.
  induction l as [|c l IH]; [apply not_elem_of_nil|]. cbn [map concat]. rewrite not_elem_of_app.
  split; [|done]. destruct c as [| | |[|e es]| |]; cbn; rewrite ?list_elem_of_singleton; try done;
    apply not_elem_of_nil.
Qed.

Lemma calls_records l : command_records (concat (map backend_call l)) = command_records l.
Proof.
  induction l as [|c l IH]; [done|]. cbn [map concat]. unfold command_records in *.
  rewrite omap_app, IH. by destruct c as [| | |[|e es]| |].
Qed.

Lemma calls_envelopes l : command_envelopes (concat (map backend_call l)) = command_envelopes l.
Proof.
  induction l as [|c l IH]; [done|]. cbn [map concat]. unfold command_envelopes in *.
  rewrite omap_app, IH. by destruct c as [| | |[|e es]| |].
Qed.

(** Records come from the hints stage, envelopes from it and from the envelope stage. *)
Lemma records_from_hints l : command_records l = command_records (hint_commands l).
Proof.
  unfold command_records, hint_commands. induction l as [|c l IH]; [done|]. rewrite filter_cons.
  destruct c as [|r|e| | |]; cbn [from_hints]; try (rewrite decide_False by done; exact IH).
  - rewrite decide_True by done. cbn. by rewrite IH.
  - destruct (is_signal e); cbn [negb]; [rewrite decide_False by done|rewrite decide_True by done]; exact IH.
Qed.

Lemma envelopes_from_stages l :
  command_envelopes l ≡ₚ command_envelopes (signal_commands l) ++ command_envelopes (hint_commands l).
Proof.
  unfold command_envelopes, signal_commands, hint_commands. induction l as [|c l IH]; [done|].
  rewrite !filter_cons. destruct c as [|r|e| | |]; cbn [from_envelope from_hints];
    rewrite ?(decide_False (P := false = true)) by done; try exact IH.
  destruct (is_signal e); cbn.
  - by rewrite IH.
  - rewrite IH. apply Permutation_middle.
Qed.

Lemma filter_perm {A} (p : A -> bool) l k :
  l ≡ₚ k -> filter (fun x => p x = true) l ≡ₚ filter (fun x => p x = true) k.
Proof. by intros ->. Qed.

Section end_to_end.
Context `{HC : Chrono} `{HO : HashOrder} `{HU : UnicodeText} `{HM : MemSizes}.
Context {E : Type} `{HE : StateEngine E} {I : Type} `{HI : TitleInterner I}.
Context (hints_now snapshot_now : nat -> instant) (mono_now : nat -> Z)
  (metrics : nat -> StorageInfo) (cfg : stage_config).
Context (persist_raw_events : bool) (own_run_id : option string).
Context `{EpochTime} `{Json} `{Rfc3339} `{!Sql string} `{!SqlLaws string Z}.
Context {C : Type} `{Sqlite.DatabaseLaws C (table_row string Z)}.

(** C2: the history of a session survives it.  Whatever the interleaving of the stages, and of
    the storage stage with the writer thread of a SQLite backend: once both have come to
    their end, without a panic of the writer or an error in the health list, a query for
    records answers with those that were stored before and those that the hints stage
    made, final one included, and a query for envelopes with those stored before, the
    signals and the hints, each selected, in order, and as the codec gives it back. *)
Theorem history_survives_shutdown feed env i bus poll cap records transitions q
    (c0 : C) (before : list StorageCommand) (s : system (Sqlite.writer C)) ok :
  reachable hints_now snapshot_now mono_now metrics cfg persist_raw_events own_run_id
    (spawn_pipeline snapshot_now mono_now metrics cfg feed env i bus poll cap records transitions) q ->
  storage_done q = true ->
  Sqlite.committed c0 = rows_of before -> Sqlite.tx_rows c0 = [] ->
  writer_status (Sqlite.writer_start c0) = Running ->
  reach (system_new (Sqlite.writer_start c0) (map backend_call (n_stored q))) s ->
  caller_phase s = Joined -> writer_status (the_writer s) <> Panicked -> health_pushed s = [] ->
  times_kept (T := string) (B := Z) ok ->
  let sent := env_outputs env feed in
  let made := to_storage (hints_stage hints_now own_run_id all_open
    (next_record_id_of (bus_run_id bus) (hydrate_recent_records records)) i 0 (to_hints sent)) in
  let database := Sqlite.committed (Sqlite.w_conn (the_writer s)) in
  (forall since run, ok since -> Forall (record_kept ok) (command_records (before ++ made)) ->
   exists out, SqliteStorage.fetch_records_since database since run = Some out /\
     out ≡ₚ map stored_record
       (filter (fun r => wanted_record since run r = true) (command_records (before ++ made))) /\
     StronglySorted (fun a b => start_time a <= start_time b) out) /\
  (forall since until, ok since -> ok until ->
   Forall (envelope_kept ok) (command_envelopes (before ++ to_storage sent ++ made)) ->
   exists out, SqliteStorage.fetch_envelopes_between database since until = Some out /\
     out ≡ₚ map stored_envelope (filter (fun e => wanted_envelope since until e = true)
       (command_envelopes (before ++ to_storage sent ++ made))) /\
     StronglySorted (fun a b => env_timestamp a <= env_timestamp b) out).
Proof.
  intros Hreach Hdone Hc0 Htx Hw Hrun Hj Hp Hh Hok sent made database.
  destruct (done_stored hints_now own_run_id (to_storage sent) made q) as [HS HH]; [|done|].
  { eapply inv_run, Hreach. apply inv_spawn. }
  destruct (sqlite_joined c0 _ s Htx (calls_no_shutdown (n_stored q)) Hw Hrun Hj Hp Hh) as (cs&Hcs&Hdb).
  assert (database = rows_of (before ++ cs)) as ->.
  { unfold database. rewrite Hdb, Hc0. unfold rows_of. by rewrite bind_app. }
  assert (command_records (before ++ cs) = command_records (before ++ made)) as Hrec.
  { unfold command_records. rewrite !omap_app. f_equal. rewrite Hcs. fold (command_records made).
    change (command_records (concat (map backend_call (n_stored q))) = command_records made).
    by rewrite calls_records, records_from_hints, HH. }
  assert (command_envelopes (before ++ cs) ≡ₚ command_envelopes (before ++ to_storage sent ++ made)) as Henv.
  { unfold command_envelopes. rewrite !omap_app. apply Permutation_app_head. rewrite Hcs.
    change (command_envelopes (concat (map backend_call (n_stored q)))
      ≡ₚ command_envelopes (to_storage sent) ++ command_envelopes made).
    by rewrite calls_envelopes, envelopes_from_stages, HS, HH. }
  pose proof (sqlite_laws_hold ok Hok) as [_ Hr He _]. split.
  - intros since run Hs Hk. rewrite <- Hrec in Hk |- *. by apply Hr.
  - intros since until Hs Hu Hk. rewrite <- Henv in Hk.
    destruct (He (before ++ cs) since until Hs Hu Hk) as (out&Hout&Hperm&Hsort). exists out.
    split_and!; [done| |done]. rewrite Hperm. apply Permutation_map. by apply filter_perm.
Qed.
End end_to_end.

(** ** A session *)
(** Times with twenty digits, and JSON texts that read back for what the session stores. *)
Fixpoint digits (w : nat) (t : Z) : string :=
  match w with
  | O => ""
  | S w => digits w (t / 10) +:+ String (Ascii.ascii_of_N (Z.to_N (48 + t mod 10))) ""
  end.
Definition digits_rfc3339 : Rfc3339 := {|
  to_rfc3339 := digits 20;
  parse_from_rfc3339 s := Z.of_N <$> parse_nonempty s |}.
Definition plain_key : KeyboardEventData := {| key_code := None; key_char := None; modifiers := [] |}.
Definition session_json : Json := {|
  json_of_raw_event e := raw_event_type e;
  json_of_keyboard k := "keyboard"; keyboard_of_json s := Some plain_key;
  json_of_mouse m := "mouse"; mouse_of_json s := None;
  json_of_focus := app_name; focus_of_json s := Some (focus_ref s);
  json_of_text s := "'" +:+ s +:+ "'";
  json_of_title := snd; title_of_json s := Some (1, s);
  json_of_states p := p.2; states_of_json s := Some ("Inactive", s);
  json_of_scroll s := "scroll"; json_of_trajectory t := "trajectory";
  json_of_activity k := "activity"; json_of_focus_event f := "focus";
  json_of_pointer p := "pointer" |}.

#[local] Existing Instances session_json digits_rfc3339 sqlite_sql sqlite_sql_laws chrono_ref
  Storage.epoch_ref Storage.memory_ref Storage.memory_ref_laws.

(** The times of the session. *)
Definition session_time (t : instant) : Prop := t = 0 \/ t = 1 \/ t = 9000000.

Lemma session_times_kept : times_kept (T := string) (B := Z) session_time.
Proof.
  split.
  - by intros t [->|[->| ->]].
  - by intros a b [->|[->| ->]] [->|[->| ->]].
Qed.

Definition session_schedule : list Storage.actor :=
  replicate 40 Caller ++ replicate 60 (WriterThread 5) ++ [Caller].
Definition session_start := Sqlite.writer_start (C := memory (table_row string Z)) memory_new.
Definition session_calls (q : Pipeline.net (E := DefaultStateEngine.state)
    (I := StringInterner.StringInterner * StringInterner.arc_heap)) : list (list StorageCommand) :=
  map backend_call (n_stored q).
Definition session_end q := run_schedule (system_new session_start (session_calls q)) session_schedule.

Lemma session_ends : exists q, demo_run compression_last = Some q /\ storage_done q = true /\
  caller_phase (session_end q) = Joined /\ writer_status (the_writer (session_end q)) = Ended /\
  health_pushed (session_end q) = [].
Proof.
  assert (option_map (fun q => let s := session_end q in
    (storage_done q, (caller_phase s, (writer_status (the_writer s), health_pushed s))))
    (demo_run compression_last) = Some (true, (Joined, (Ended, [])))) as H by by vm_compute.
  destruct (demo_run compression_last) as [q|]; [|discriminate H]. exists q. split; [done|].
  apply Some_inj in H. by rewrite !pair_equal_spec in H.
Qed.

Lemma session_reached q : reach (system_new session_start (session_calls q)) (session_end q).
Proof. apply run_schedule_reach. Qed.
#[local] Opaque session_end.

Definition session_sent := @env_outputs chrono_ref _ (@DefaultStateEngine.engine_class chrono_ref)
  Envelope.demo_stage demo_feed.
Definition session_made := to_storage (hints_stage Z.of_nat None all_open 0 demo_interner 0 (to_hints session_sent)).

Lemma session_made_kept :
  Forall (record_kept session_time) (command_records session_made) /\
  Forall (envelope_kept session_time) (command_envelopes (to_storage session_sent ++ session_made)) /\
  map record_id (filter (fun r => wanted_record 0 None r = true) (command_records session_made)) = [0] /\
  length (filter (fun e => wanted_envelope 0 9000000 e = true)
    (command_envelopes (to_storage session_sent ++ session_made))) = 2%nat.
Proof.
  assert (command_records session_made = [{| record_id := 0; run_id := None; start_time := 0;
    end_time := Some 1; state := Active; focus_info := None; event_count := 0;
    triggering_events := [] |}]) as -> by by vm_compute.
  split; [|split; [|split; by vm_compute]].
  - apply Forall_singleton. split_and!; [done|by left| |done]. intros t [= <-]. by right; left.
  - match goal with |- Forall _ ?l => let x := eval vm_compute in l in change l with x end.
    repeat constructor; try done; by right; right.
Qed.

Lemma history_survives_shutdown_witness :
  exists q records envelopes, let database := Sqlite.committed (Sqlite.w_conn (the_writer (session_end q))) in
    demo_run compression_last = Some q /\
    SqliteStorage.fetch_records_since database 0 None = Some records /\ map record_id records = [0] /\
    SqliteStorage.fetch_envelopes_between database 0 9000000 = Some envelopes /\ length envelopes = 2%nat.
Proof.
  destruct session_ends as (q&Hq&Hdone&Hj&Hw&Hh).
  pose proof (demo_run_reachable compression_last q Hq) as Hreach.
  destruct session_made_kept as (Hkr&Hke&Hr&He).
  destruct (@history_survives_shutdown chrono_ref hash_order_id unicode_ascii sizes_ref _
    (@DefaultStateEngine.engine_class chrono_ref) _ _ Z.of_nat demo_clock Z.of_nat demo_metrics
    demo_cfg false None Storage.epoch_ref session_json digits_rfc3339 sqlite_sql sqlite_sql_laws _ _
    Storage.memory_ref_laws demo_feed Envelope.demo_stage demo_interner (bus_new 0) 0 4096 None None q
    memory_new [] (session_end q) session_time Hreach Hdone eq_refl eq_refl eq_refl
    (session_reached q) Hj) as [Hrs Hes].
  - intros Hp. discriminate (eq_trans (eq_sym Hw) Hp).
  - exact Hh.
  - exact session_times_kept.
  - destruct (Hrs 0 None) as (records&Hrec&Hp&_); [by left|exact Hkr|].
    destruct (Hes 0 9000000) as (envelopes&Henv&Hp'&_); [by left|by right; right|exact Hke|].
    exists q, records, envelopes. split_and!; [exact Hq|exact Hrec| |exact Henv|].
    + apply Permutation_singleton_r. apply (Permutation_map record_id) in Hp.
      rewrite map_map in Hp. etrans; [exact Hp|]. apply reflexive_eq. exact Hr.
    + apply Permutation_length in Hp'. etrans; [exact Hp'|]. rewrite length_map. exact He.
Defined.
