(* ===== verification/SessionView.v ===== *)
(** What a session looks like from outside: the pipeline, its snapshot bus and a client
    that watches, together.

    The stages of the pipeline run in any order (Pipeline); what the snapshot stage does on
    the bus is what the server's streams read (Watch).  The theorems relate what is shown
    last to what storage was given. *)
From S2P Require Import Prelude Decimal Events StateEngine StateDeriver LockDeriver Adapter Interner.
From S2P Require Import Records Aggregation SnapshotBus CompactEvents Compressor Trajectory.
From S2P Require Import Engine PipelineTypes Envelope HintsStage CompressionStage AppTree.
From S2P Require Import SnapshotStage Pipeline Queries Wire Watch.

(** ** The parts of what storage was given *)
Definition command_transition (c : StorageCommand) : option Transition :=
  match c with StTransition t => Some t | _ => None end.
Definition transitions_of (l : list StorageCommand) : list Transition := omap command_transition l.

Lemma transitions_of_app l k : transitions_of (l ++ k) = transitions_of l ++ transitions_of k.
Proof. apply omap_app. Qed.

(** ** What the stages tell the snapshot stage *)
Definition updates_of (l : list SnapshotMessage) : list SnapshotUpdate := omap msg_update l.
Definition records_of (l : list SnapshotMessage) : list ActivityRecord := omap msg_record l.

Lemma updates_of_app l k : updates_of (l ++ k) = updates_of l ++ updates_of k.
Proof. apply omap_app. Qed.
Lemma records_of_app l k : records_of (l ++ k) = records_of l ++ records_of k.
Proof. apply omap_app. Qed.

Lemma updates_only us : updates_of (map SUpdate us) = us /\ records_of (map SUpdate us) = [].
Proof.
  induction us as [|u us [IH1 IH2]]; [done|].
  split; [exact (f_equal (cons u) IH1)|exact IH2].
Qed.
Lemma records_only rs : updates_of (map SRecord rs) = [] /\ records_of (map SRecord rs) = rs.
Proof.
  induction rs as [|r rs [IH1 IH2]]; [done|].
  split; [exact IH1|exact (f_equal (cons r) IH2)].
Qed.

Section session.
Context `{HC : Chrono} `{HO : HashOrder} `{HU : UnicodeText} `{HM : MemSizes}.
Context {E : Type} `{HE : StateEngine E} {I : Type} `{HI : TitleInterner I}.
Context (hints_now snapshot_now : nat -> instant) (mono_now : nat -> Z)
  (metrics : nat -> StorageInfo) (cfg : stage_config).
Context (persist_raw_events : bool) (own_run_id : option string).

(** What the envelope stage tells accounts for what it sends. *)
Definition accounts (out : list output) : Prop :=
  records_of (to_snapshot out) = [] /\
  carries update_default (updates_of (to_snapshot out)) update_default
    (Z.of_nat (length (to_hints out))) (Z.of_nat (length (to_storage out)))
    (omap env_change (to_hints out)).

Lemma accounts_nil : accounts [].
Proof. split; [done|]. by apply carries_nil, update_default_fit. Qed.

Lemma accounts_app l k : accounts l -> accounts k -> accounts (l ++ k).
Proof.
  intros [A1 A2] [B1 B2]. split; routes; rewrite ?records_of_app, ?updates_of_app.
  - by rewrite A1, B1.
  - rewrite !length_app, !Nat2Z.inj_add, omap_app. by eapply carries_trans.
Qed.

Lemma step_accounts s cmd : accounts (envelope_step s all_open cmd).2.
Proof.
  destruct (step_sends s cmd) as (us&tail&Hus&Htail&Hca). cbv zeta in *.
  destruct (updates_only us) as [E1 E2].
  assert (updates_of tail = [] /\ records_of tail = []) as [T1 T2].
  { rewrite !elem_of_cons, elem_of_nil in Htail. by destruct Htail as [->|[->|[->|[]]]]. }
  split; rewrite Hus, ?records_of_app, ?updates_of_app, ?E1, ?E2, ?T1, ?T2, ?app_nil_r; done.
Qed.

Lemma outputs_account s cmds : accounts (env_outputs s cmds).
Proof.
  revert s. induction cmds as [|cmd cmds IH]; intros s; [apply accounts_nil|]. cbn [env_outputs].
  pose proof (step_accounts s cmd) as Hs. destruct (envelope_step s all_open cmd) as [s' out].
  apply accounts_app; [done|]. destruct (es_running s'); [apply IH|apply accounts_nil].
Qed.

(** As long as a counter does not wrap, the updates add up to what was sent. *)
Lemma sum_exact (f : SnapshotUpdate -> Z) us n :
  uw 64 (zsum (map f us) + 0) = uw 64 (0 + n) -> zsum (map f us) + 0 <= 0 + n ->
  Forall (fun u => in_u 64 (f u)) us -> n < 2 ^ 64 -> zsum (map f us) = n.
Proof.
  intros Hw Hle Hf Hn. assert (0 <= zsum (map f us)) as Hpos.
  { clear -Hf. unfold zsum. induction Hf as [|u us Hu Hf IH]; cbn; [lia|]. unfold in_u in Hu. lia. }
  rewrite !uw_small in Hw by (unfold in_u; lia). lia.
Qed.

Lemma saturated_exact l n : zsum l = n -> Forall (fun x => 0 <= x) l -> 0 <= n < 2 ^ 64 ->
  saturated 0 l = n.
Proof. intros Hz Hl Hn. rewrite saturated_sum by (done || (unfold u64_max; lia)). unfold u64_max. lia. Qed.

(** The transitions and the state that the updates tell. *)
Lemma last_state us : Forall state_agrees us ->
  last (omap u_state us) = t_to <$> last (omap u_transition us).
Proof.
  induction us as [|u us IH] using rev_ind; [done|]. intros [Hus Hu]%Forall_app.
  rewrite Forall_singleton in Hu. unfold state_agrees in Hu. rewrite !omap_app. cbn [omap list_omap]. rewrite Hu.
  destruct (u_transition u) as [t|]; cbn; [by rewrite !last_snoc|]. rewrite !app_nil_r. by apply IH.
Qed.

(** ** The snapshot stage while the pipeline runs *)
(** What the hints stage has yet to tell. *)
Definition hints_told (p : net (E := E) (I := I)) : list SnapshotMessage :=
  if hints_done p then []
  else to_snapshot (hints_outputs hints_now own_run_id (st_hints p)
    (n_hints p ++ to_hints (env_rest p))).

(** The stage has handled [ms]: what it shows, and what is still to come. *)
Record view (s0 : stage_state) (U0 : list SnapshotUpdate)
    (R0 : list ActivityRecord) (p : net (E := E) (I := I)) (ms : list SnapshotMessage) : Prop := {
  v_shows : shows s0 (st_snapshot p).1 ms;
  v_updates : updates_of (ms ++ n_snapshot p) ++ updates_of (to_snapshot (env_rest p)) = U0;
  v_records : records_of (ms ++ n_snapshot p) ++ records_of (hints_told p) = R0;
  v_complete : if hints_done p
    then exists l, ms ++ n_snapshot p = l ++ [SHintsComplete] /\ SHintsComplete ∉ l
    else SHintsComplete ∉ ms ++ n_snapshot p;
  v_seen : ss_hints_complete (st_snapshot p).1 = true -> SHintsComplete ∈ ms;
  v_end : snapshot_done p = true ->
    n_snapshot p = [] /\ SnapshotStage.published cfg (st_snapshot p).1;
  v_stored : transitions_of (log p) = map (attach_run_id (ss_bus s0)) (omap msg_transition ms)
}.

Lemma view_same s0 U0 R0 p q ms :
  st_snapshot q = st_snapshot p -> n_snapshot q = n_snapshot p -> env_rest q = env_rest p ->
  hints_told q = hints_told p -> hints_done q = hints_done p -> snapshot_done q = snapshot_done p ->
  transitions_of (log q) = transitions_of (log p) ->
  view s0 U0 R0 p ms -> view s0 U0 R0 q ms.
Proof. intros E1 E2 E3 E4 E5 E6 E7 []. split; rewrite ?E1, ?E2, ?E3, ?E4, ?E5, ?E6, ?E7; done. Qed.

(** A step of the stage does at most one operation on the bus. *)
Definition bus_after (b : SnapshotBus) (o : option bus_op) : SnapshotBus :=
  match o with Some o => (bus_step b o).1 | None => b end.

Lemma publish_bus s n : exists now pub,
  ss_bus (publish_snapshot snapshot_now metrics cfg s n).1 = bus_after (ss_bus s) (Some (Publish now pub)).
Proof. unfold publish_snapshot. destruct (build_app_tree _ _ _ _ _) as [n' apps]. by eexists _, _. Qed.

Lemma finalize_bus sd hc s n : exists o,
  ss_bus (maybe_finalize snapshot_now metrics cfg sd hc s n).1.1.1 = bus_after (ss_bus s) o.
Proof.
  unfold maybe_finalize. destruct (_ || _); [by exists None|].
  destruct (publish_bus s n) as (now&pub&Hp). destruct (publish_snapshot _ _ _ s n). by eexists.
Qed.

Lemma step_bus s n msg : exists o,
  ss_bus (snapshot_step snapshot_now metrics cfg s n msg).1.1.1 = bus_after (ss_bus s) o.
Proof.
  destruct msg as [u|r| | |]; cbn [snapshot_step].
  - unfold apply_update. destruct (u_transition u) as [t|]; [|by exists None].
    by exists (Some (PushTransition (attach_run_id (ss_bus s) t))).
  - by exists None.
  - destruct (publish_bus s n) as (now&pub&Hp). destruct (publish_snapshot _ _ _ s n). by eexists.
  - destruct (finalize_bus (ss_shutdown (set_hints_complete s)) true (set_hints_complete s) n) as [o Ho].
    by exists o.
  - destruct (finalize_bus true (ss_hints_complete (set_shutdown s)) (set_shutdown s) n) as [o Ho].
    by exists o.
Qed.

Definition net_bus (p : net (E := E) (I := I)) : SnapshotBus := ss_bus (st_snapshot p).1.

Lemma net_step_bus p a q :
  net_step hints_now snapshot_now mono_now metrics cfg persist_raw_events own_run_id p a = Some q ->
  exists o, net_bus q = bus_after (net_bus p) o.
Proof.
  unfold net_bus. destruct a; cbn [net_step]; intros Hq.
  1-4,6: exists None; cbn [bus_after].
  - unfold ingest_net in Hq. by destruct (n_feed p); simplify_eq.
  - unfold envelope_net in Hq. destruct (envelope_done p); [done|].
    destruct (n_derive p); [destruct (n_feed p); by simplify_eq|].
    destruct (envelope_step _ _ _); by simplify_eq.
  - unfold hints_net in Hq. destruct (hints_done p); [done|].
    destruct (n_hints p); [destruct (envelope_done p); by simplify_eq|].
    destruct (hints_step _ _ _ _ _); by simplify_eq.
  - unfold compression_net in Hq. destruct (compression_done p); [done|].
    destruct (st_compression p), (n_compression p); [destruct (envelope_done p); by simplify_eq|].
    destruct (compression_step _ _ _ _ _ _) as [[]]; by simplify_eq.
  - unfold storage_net in Hq. destruct (storage_done p); [done|].
    destruct (n_storage p) as [|[] ?]; [destruct (_ && _ && _ && _)|..]; by simplify_eq.
  - unfold snapshot_net in Hq. destruct (snapshot_done p); [done|]. destruct (st_snapshot p) as [s n].
    destruct (n_snapshot p) as [|msg l].
    + destruct (_ && _); [|done]. destruct (finalize_bus true true s n) as [o Ho].
      destruct (maybe_finalize _ _ _ _ _ s n) as [[[]]]. injection Hq as <-. by exists o.
    + destruct (step_bus s n msg) as [o Ho].
      destruct (snapshot_step _ _ _ s n msg) as [[[]]]. injection Hq as <-. by exists o.
Qed.

(** *** The steps that the stage does not notice *)
Lemma view_ingest s0 U0 R0 p q ms :
  ingest_net p = Some q -> view s0 U0 R0 p ms -> view s0 U0 R0 q ms.
Proof.
  unfold ingest_net. destruct (n_feed p) as [|c feed] eqn:Hf; [done|]. intros [= <-].
  set (q := {| n_feed := feed |}). assert (env_rest q = env_rest p) as Hrest.
  { unfold env_rest. subst q. cbn. rewrite Hf. destruct (envelope_done p); [done|].
    by rewrite <- (assoc_L (++)). }
  apply view_same; try done. unfold hints_told. by rewrite Hrest.
Qed.

Lemma committed_keeps l k : transitions_of k = [] ->
  transitions_of (committed (l ++ k)) = transitions_of (committed l).
Proof.
  intros Hk. induction l as [|c l IH].
  - cbn [app]. induction k as [|c k IH]; [done|]. unfold transitions_of in *. cbn in *.
    destruct c; cbn in *; auto; done.
  - cbn [app]. destruct c as [| | | |t|]; try exact IH; [|done]. exact (f_equal (cons t) IH).
Qed.

(** A compression step sends storage no transition. *)
Lemma compression_step_kept open s cmd t1 t2 :
  transitions_of (to_storage (compression_step persist_raw_events open s cmd t1 t2).1.2) = [].
Proof.
  assert (forall sup events ok, transitions_of (to_storage (send_raw ok sup events)) = []) as Hraw.
  { intros sup events ok. induction events as [|e events IH]; [done|]. cbn [send_raw].
    destruct (should_store sup e); [|done]. by destruct ok. }
  unfold compression_step. destruct cmd as [batch envs|]; [|by destruct (rollup_flush _)].
  destruct (rb_events batch) as [|e0 raw0]; [done|].
  destruct (compress_events _ _) as [g [processed compact]].
  destruct (rollup_maybe_flush _ t1 t2) as [ro reports]. cbn [fst snd]. routes.
  rewrite transitions_of_app. set (compact' := if persist_raw_events then compact else _).
  assert (transitions_of (to_storage (forward_compact_events open compact')) = [])
    as Hc by (unfold forward_compact_events, send; by destruct compact', (storage_open open)).
  unfold forward_raw_events. destruct persist_raw_events; [|by rewrite ?Hc].
  destruct processed; by rewrite ?Hraw, ?Hc.
Qed.

Lemma view_compression s0 U0 R0 p q ms :
  compression_net mono_now persist_raw_events p = Some q ->
  view s0 U0 R0 p ms -> view s0 U0 R0 q ms.
Proof.
  intros Hq. pose proof Hq as (E1&E2&E3&E4&E5&_)%compression_net_sends.
  assert (st_snapshot q = st_snapshot p /\ n_snapshot q = n_snapshot p /\
    snapshot_done q = snapshot_done p /\ st_envelope q = st_envelope p /\
    st_hints q = st_hints p /\ transitions_of (log q) = transitions_of (log p))
    as (F1&F2&F3&F4&F5&F6).
  { unfold compression_net in Hq. destruct (compression_done p); [done|].
    destruct (st_compression p) as [s n]. destruct (n_compression p) as [|cmd l].
    - destruct (envelope_done p); [|done]. by simplify_eq.
    - pose proof (compression_step_kept (channels p) s cmd (mono_now n) (mono_now (S n))) as Hk.
      pose proof (compression_step_out persist_raw_events (channels p) s cmd
        (mono_now n) (mono_now (S n))) as (_&_&_&Hs).
      destruct (compression_step _ _ _ _ _ _) as [[s' out] reports]. cbn [fst snd] in *.
      injection Hq as <-. cbn. rewrite Hs, app_nil_r. do 5 (split; [done|]).
      unfold log. cbn. rewrite (assoc_L (++)). by apply committed_keeps. }
  assert (env_rest q = env_rest p) as Hr by (unfold env_rest; by rewrite E2, E3, E4, F4).
  apply view_same; try done. unfold hints_told. by rewrite E1, E5, F5, Hr.
Qed.

Lemma storage_keeps_log S0 H0 p q :
  inv hints_now own_run_id S0 H0 p -> storage_net p = Some q -> log q = log p.
Proof.
  intros Hp. pose proof (i_stored _ _ _ _ _ Hp) as Hno. unfold storage_net, log.
  destruct (storage_done p); [done|]. destruct (n_storage p) as [|c l].
  - destruct (_ && _ && _ && _); [|done]. by intros [= <-].
  - destruct c; intros [= <-]; cbn [set_storage n_stored n_storage];
      try (by rewrite <- (assoc_L (++))).
    rewrite app_nil_r, committed_app, (committed_nil (n_stored p)) by done. by rewrite app_nil_r.
Qed.

Lemma view_storage s0 U0 R0 S0 H0 p q ms :
  inv hints_now own_run_id S0 H0 p -> storage_net p = Some q ->
  view s0 U0 R0 p ms -> view s0 U0 R0 q ms.
Proof.
  intros Hp Hq. pose proof (storage_keeps_log _ _ _ _ Hp Hq) as Hlog.
  apply view_same; try by rewrite Hlog.
  all: unfold storage_net in Hq; destruct (storage_done p); [done|];
    destruct (n_storage p) as [|[] l]; [destruct (_ && _ && _ && _)|..]; by simplify_eq.
Qed.

(** *** The envelope stage *)
Lemma envelope_kept s cmd : transitions_of (to_storage (envelope_step s all_open cmd).2) = [].
Proof.
  destruct (envelope_step_out s cmd) as [Hs _ _ _]. cbv zeta in Hs.
  induction Hs as [|c l Hc Hs IH]; [done|]. by destruct c.
Qed.

Lemma view_envelope s0 U0 R0 S0 H0 p q ms :
  inv hints_now own_run_id S0 H0 p -> envelope_net p = Some q ->
  view s0 U0 R0 p ms -> view s0 U0 R0 q ms.
Proof.
  intros Hp Hq Hv. unfold envelope_net in Hq. destruct (envelope_done p) eqn:Hd; [done|].
  destruct (inv_open_envelope _ _ _ _ _ Hp Hd) as [Hh Hopen].
  destruct (inv_open_hints _ _ _ _ _ Hp Hh) as (Hsn&_&Hno). rewrite Hopen in Hq.
  destruct (n_derive p) as [|cmd l] eqn:Hl.
  - destruct (n_feed p) eqn:Hf; [|done]. injection Hq as <-.
    assert (env_rest p = []) as Hrest by (unfold env_rest; by rewrite Hd, Hl, Hf).
    revert Hv. apply view_same; try done. unfold hints_told. cbn. by rewrite Hrest.
  - pose proof (step_accounts (st_envelope p) cmd) as [Hrec _].
    pose proof (envelope_kept (st_envelope p) cmd) as Hkept.
    destruct (envelope_step_out (st_envelope p) cmd) as [Hsig _ Hnc _]. cbv zeta in Hsig, Hnc.
    destruct (signal_only_commands _ Hsig) as (_&_&Hns).
    destruct (envelope_step (st_envelope p) all_open cmd) as [s out] eqn:Hstep.
    cbn [fst snd] in *. injection Hq as <-. set (p1 := set_envelope p _ s _).
    assert (env_rest p = out ++ env_rest (deliver p1 out)) as Hrest.
    { unfold env_rest. rewrite Hd, Hl. cbn [app env_outputs]. rewrite Hstep.
      subst p1. cbn. by destruct (es_running s). }
    assert (log (deliver p1 out) = log p ++ to_storage out) as Hlog
      by (exact (log_deliver p1 out Hno Hns)).
    assert (hints_told (deliver p1 out) = hints_told p) as Htold.
    { unfold hints_told. cbn [deliver p1 set_envelope hints_done st_hints n_hints].
      by rewrite Hrest, to_hints_app, <- (assoc_L (++)). }
    destruct Hv as [V1 V3 V4 V5 V6 V7 V8].
    split; cbn [deliver p1 set_envelope n_snapshot st_snapshot hints_done snapshot_done].
    + done.
    + rewrite <- V3, Hrest, to_snapshot_app, !updates_of_app. by rewrite <- !(assoc_L (++)).
    + rewrite <- V4, Htold, !records_of_app, Hrec. by rewrite app_nil_r.
    + rewrite Hh in V5 |- *. rewrite (assoc_L (++)), not_elem_of_app. by split.
    + done.
    + by rewrite Hsn.
    + rewrite Hlog, transitions_of_app, Hkept, app_nil_r. exact V8.
Qed.

(** *** The hints stage *)
Lemma hints_step_told (bn : RecordBuilder (I := I) * nat) env :
  let out := (hints_step hints_now own_run_id all_open bn env).2 in
  transitions_of (to_storage out) = [] /\ exists rs, to_snapshot out = map SRecord rs.
Proof.
  destruct (hints_step_build hints_now own_run_id bn env) as (o&->&_). cbn [snd]. cbv zeta. routes.
  destruct (emit_records_sent own_run_id o) as (_&_&->). split; [by destruct o|by eexists].
Qed.

Lemma hints_end_told (bn : RecordBuilder (I := I) * nat) :
  let out := hints_end hints_now own_run_id all_open bn in
  transitions_of (to_storage out) = [] /\
  exists rs, to_snapshot out = map SRecord rs ++ [SHintsComplete].
Proof.
  unfold hints_end. destruct (finalize_all _ _ _) as [[b n] o]. cbv zeta. routes.
  destruct (emit_records_sent own_run_id o) as (_&_&->). split; [by destruct o|by eexists].
Qed.

Lemma records_not_complete rs : SHintsComplete ∉ map SRecord rs.
Proof. induction rs as [|r rs IH]; [apply not_elem_of_nil|by apply not_elem_of_cons]. Qed.

Lemma view_hints s0 U0 R0 S0 H0 p q ms :
  inv hints_now own_run_id S0 H0 p -> hints_net hints_now own_run_id p = Some q ->
  view s0 U0 R0 p ms -> view s0 U0 R0 q ms.
Proof.
  intros Hp Hq Hv. unfold hints_net in Hq. destruct (hints_done p) eqn:Hh; [done|].
  destruct (inv_open_hints _ _ _ _ _ Hp Hh) as (Hsn&Hst&Hno).
  assert (storage_open (channels p) = true /\ snapshot_open (channels p) = true) as [Hso Hsno]
    by (cbn; by rewrite Hst, Hsn).
  assert (exists p1 out tail rs, q = deliver p1 out /\ to_hints out = [] /\
    transitions_of (to_storage out) = [] /\ to_snapshot out = map SRecord rs ++ tail /\
    StShutdown ∉ to_storage out /\ tail = (if hints_done q then [SHintsComplete] else []) /\
    hints_told p = to_snapshot out ++ hints_told q /\ env_rest q = env_rest p /\
    st_snapshot p1 = st_snapshot p /\ n_snapshot p1 = n_snapshot p /\
    n_stored p1 = n_stored p /\ n_storage p1 = n_storage p /\ snapshot_done p1 = snapshot_done p)
    as (p1&out&tail&rs&->&Oh&Ot&Os&On&->&Htold&Hr&E1&E2&E3&E4&E5).
  { destruct (n_hints p) as [|env l] eqn:Hl.
    - destruct (envelope_done p) eqn:Hd; [|done]. injection Hq as <-.
      rewrite (hints_end_open _ _ _ _ Hso Hsno).
      destruct (hints_end_out hints_now own_run_id (st_hints p)) as (_&O2&_&O4&_). cbv zeta in *.
      destruct (hints_end_told (st_hints p)) as [T1 [rs T2]]. cbv zeta in *.
      eexists _, _, _, rs. split; [done|]. do 3 (split; [done|]). do 2 (split; [done|]).
      split; [|done]. unfold hints_told at 1. rewrite Hh, Hl.
      assert (env_rest p = []) as -> by (unfold env_rest; by rewrite Hd). cbn.
      by rewrite app_nil_r.
    - pose proof (i_queue _ _ _ _ _ Hp) as Hall. rewrite Hl in Hall. apply Forall_cons in Hall as [He _].
      rewrite (hints_step_open _ _ _ _ _ Hso Hsno) in Hq.
      destruct (hints_step_out hints_now own_run_id (st_hints p) env He) as (_&O2&_&O4&_). cbv zeta in *.
      destruct (hints_step_told (st_hints p) env) as [T1 [rs T2]]. cbv zeta in *.
      pose proof (hints_outputs_cons hints_now own_run_id (st_hints p) env (l ++ to_hints (env_rest p))) as Hc.
      destruct (hints_step _ _ _ (st_hints p) env) as [bn out]. cbn [fst snd] in *.
      injection Hq as <-. eexists _, out, [], rs. split; [done|]. do 2 (split; [done|]).
      split; [by rewrite app_nil_r|]. do 2 (split; [done|]). split; [|done].
      unfold hints_told. rewrite Hh, Hl. cbn [app deliver set_hints hints_done st_hints n_hints].
      by rewrite Hc, to_snapshot_app, O4, app_nil_r. }
  destruct (records_only rs) as [Ru Rr]. pose proof (records_not_complete rs) as Hnc.
  assert (log (deliver p1 out) = log p ++ to_storage out) as Hlog.
  { rewrite log_deliver; [|by rewrite E3, E4|done]. unfold log. by rewrite E3, E4. }
  destruct Hv as [V1 V3 V4 V5 V6 V7 V8]. rewrite Hh in V5.
  split; cbn [deliver n_snapshot st_snapshot snapshot_done]; rewrite ?E1, ?E2, ?E5; try done.
  - rewrite Hr, Os, <- V3, !updates_of_app, Ru.
    assert (updates_of (if hints_done (deliver p1 out) then [SHintsComplete] else []) = []) as ->
      by (case (hints_done (deliver p1 out)); reflexivity).
    by rewrite !app_nil_r.
  - rewrite <- V4, Htold, !records_of_app. by rewrite <- !(assoc_L (++)).
  - change (hints_done p1) with (hints_done (deliver p1 out)). rewrite Os, !(assoc_L (++)).
    destruct (hints_done (deliver p1 out)).
    + eexists. split; [done|]. rewrite not_elem_of_app. by split.
    + rewrite app_nil_r, not_elem_of_app. by split.
  - by rewrite Hsn.
  - rewrite Hlog, transitions_of_app, Ot, app_nil_r. exact V8.
Qed.

(** *** The snapshot stage *)
(** Nothing follows the end of the hints. *)
Lemma complete_last (l a b : list SnapshotMessage) :
  SHintsComplete ∉ l -> a ++ SHintsComplete :: b = l ++ [SHintsComplete] -> b = [].
Proof.
  intros Hl Heq. destruct b as [|x b _] using rev_ind; [done|].
  rewrite app_comm_cons, (assoc_L (++)) in Heq. apply app_inj_tail in Heq as [<- _].
  rewrite not_elem_of_app, not_elem_of_cons in Hl. tauto.
Qed.

Lemma transitions_sent b l : transitions_of (map StTransition (map (attach_run_id b) l)) = map (attach_run_id b) l.
Proof. induction l as [|t l IH]; [done|]. exact (f_equal (cons _) IH). Qed.

(** What a step sends to storage. *)
Lemma log_snapshot S0 H0 (p : net (E := E) (I := I)) l sn done ts :
  inv hints_now own_run_id S0 H0 p -> snapshot_done p = false ->
  transitions_of (log (deliver (set_snapshot p l sn done)
    (storage_sends p (map StTransition ts ++ if done : bool then [StShutdown] else []))))
  = transitions_of (log p) ++ ts.
Proof.
  intros Hp Hd. assert (StShutdown ∉ n_stored p ++ n_storage p) as Hno.
  { rewrite not_elem_of_app. split; [apply (i_stored _ _ _ _ _ Hp)|].
    intros Hin. by rewrite (i_stop _ _ _ _ _ Hp Hin) in Hd. }
  assert (storage_done p = false) as Hst.
  { destruct (storage_done p) eqn:Hst; [|done].
    destruct (i_storage _ _ _ _ _ Hp Hst) as [Hx _]. congruence. }
  unfold storage_sends. rewrite Hst. unfold log. cbn [deliver set_snapshot n_stored n_storage].
  rewrite to_storage_map, (assoc_L (++)), (committed_app _ _ Hno), (committed_nil _ Hno), transitions_of_app.
  f_equal. rewrite <- (app_nil_r ts) at 2. clear. induction ts as [|t ts IH]; [by destruct done|].
  exact (f_equal (cons t) IH).
Qed.

Lemma to_others (p : net (E := E) (I := I)) out : to_hints (storage_sends p out) = [] /\ to_snapshot (storage_sends p out) = [].
Proof. unfold storage_sends. destruct (storage_done p); [done|]. by destruct (storage_only out) as (?&_&?). Qed.

Lemma snapshot_same (p : net (E := E) (I := I)) l sn done out :
  let q := deliver (set_snapshot p l sn done) (storage_sends p out) in
  env_rest q = env_rest p /\ hints_told q = hints_told p.
Proof.
  destruct (to_others p out) as [T1 _]. split; [done|].
  unfold hints_told. cbn [deliver set_snapshot hints_done st_hints n_hints]. by rewrite T1, app_nil_r.
Qed.

(** The loop ends when the senders are gone. *)
Lemma view_finalized s0 U0 R0 S0 H0 p s n ms :
  inv hints_now own_run_id S0 H0 p -> snapshot_done p = false -> st_snapshot p = (s, n) ->
  n_snapshot p = [] -> view s0 U0 R0 p ms ->
  let '(s', n', out, _) := maybe_finalize snapshot_now metrics cfg true true s n in
  view s0 U0 R0 (deliver (set_snapshot p [] (s', n') true) (storage_sends p out)) ms.
Proof.
  intros Hp Hd Hsn Hl [V1 V3 V4 V5 V6 V7 V8]. pose proof (i_sent _ _ _ _ _ Hp Hd) as Hs.
  rewrite Hsn in Hs, V1, V6, V7. rewrite Hl in V3, V4, V5. cbn [fst] in *.
  pose proof (maybe_finalize_spec snapshot_now metrics cfg s n true true Hs) as Hf.
  destruct (maybe_finalize _ _ _ true true s n) as [[[s' n'] out] done].
  destruct Hf as (Hdn&_&Hsh&_&Hhc&->&Hpub). cbn [andb] in Hdn. subst done.
  destruct (snapshot_same p [] (s', n') true [StShutdown]) as [R1 R2].
  destruct (to_others p [StShutdown]) as [_ T2].
  split; rewrite ?R1, ?R2; cbn [deliver set_snapshot st_snapshot n_snapshot hints_done snapshot_done fst];
    rewrite ?T2; try done.
  - rewrite <- (app_nil_r ms). by eapply shows_trans.
  - by rewrite Hhc.
  - by intros _; split; [|apply Hpub].
  - etrans; [exact (log_snapshot S0 H0 p [] (s', n') true [] Hp Hd)|]. by rewrite app_nil_r.
Qed.

(** A message after which the loop ends is the last. *)
Lemma final_message (sd hc hd : bool) msg (l ms : list SnapshotMessage) :
  match msg with SShutdown | SHintsComplete => sd && hc | _ => false end = true ->
  (msg <> SHintsComplete -> hc = true -> SHintsComplete ∈ ms) ->
  (if hd then exists k, ms ++ msg :: l = k ++ [SHintsComplete] /\ SHintsComplete ∉ k
   else SHintsComplete ∉ ms ++ msg :: l) -> l = [].
Proof.
  intros Hdn Hseen Hlast. destruct msg; try done.
  - destruct hd; [|rewrite not_elem_of_app, not_elem_of_cons in Hlast; tauto].
    destruct Hlast as (k&Hk&Hnk). by eapply complete_last.
  - apply andb_true_iff in Hdn as [_ Hhc]. apply Hseen in Hhc; [|done].
    destruct hd; [|rewrite not_elem_of_app in Hlast; tauto].
    destruct Hlast as (k&Hk&Hnk). apply list_elem_of_split in Hhc as (a&b&->).
    rewrite <- (assoc_L (++)) in Hk. cbn [app] in Hk. apply complete_last in Hk; [|done]. by destruct b.
Qed.

Lemma view_handled s0 U0 R0 S0 H0 p s n msg l ms :
  inv hints_now own_run_id S0 H0 p -> snapshot_done p = false -> st_snapshot p = (s, n) ->
  n_snapshot p = msg :: l -> view s0 U0 R0 p ms ->
  let '(s', n', out, done) := snapshot_step snapshot_now metrics cfg s n msg in
  view s0 U0 R0 (deliver (set_snapshot p (if done : bool then [] else l) (s', n') done) (storage_sends p out))
    (ms ++ [msg]).
Proof.
  intros Hp Hd Hsn Hl [V1 V3 V4 V5 V6 V7 V8]. pose proof (i_sent _ _ _ _ _ Hp Hd) as Hs.
  rewrite Hsn in Hs, V1, V6, V7. rewrite Hl in V3, V4, V5. cbn [fst] in *.
  pose proof (snapshot_step_spec snapshot_now metrics cfg s n msg Hs) as Hf. cbv zeta in Hf.
  destruct (snapshot_step _ _ _ s n msg) as [[[s' n'] out] done].
  destruct Hf as (Hdn&_&Hsh&_&Hhc&Hout&Hpub).
  destruct (snapshot_same p (if done then [] else l) (s', n') done out) as [R1 R2].
  destruct (to_others p out) as [_ T2].
  assert ((ms ++ [msg]) ++ (if done then [] else l) = ms ++ msg :: l) as Hms.
  { rewrite <- (assoc_L (++)). destruct done; [|done].
    assert (l = []) as ->; [|done]. eapply final_message; [exact (eq_sym Hdn)| |exact V5]. by destruct msg. }
  split; rewrite ?R1, ?R2; cbn [deliver set_snapshot st_snapshot n_snapshot hints_done snapshot_done fst];
    rewrite ?T2, ?app_nil_r, ?Hms; try done.
  - by eapply shows_trans.
  - rewrite Hhc, elem_of_app, list_elem_of_singleton. destruct msg; tauto.
  - intros Hdone. split; [by rewrite Hdone|]. by apply Hpub.
  - rewrite Hout. etrans; [exact (log_snapshot S0 H0 p _ (s', n') done _ Hp Hd)|].
    rewrite V8, omap_app, List.map_app. f_equal. apply attach_run_id_map. apply (sh_run _ _ _ V1).
Qed.

Lemma view_snapshot s0 U0 R0 S0 H0 p q ms :
  inv hints_now own_run_id S0 H0 p -> snapshot_net snapshot_now metrics cfg p = Some q ->
  view s0 U0 R0 p ms -> exists ms', view s0 U0 R0 q ms'.
Proof.
  intros Hp Hq Hv. unfold snapshot_net in Hq. destruct (snapshot_done p) eqn:Hd; [done|].
  destruct (st_snapshot p) as [s n] eqn:Hsn. destruct (n_snapshot p) as [|msg l] eqn:Hl.
  - destruct (_ && _); [|done]. pose proof (view_finalized _ _ _ _ _ p s n ms Hp Hd Hsn Hl Hv) as Hf.
    destruct (maybe_finalize _ _ _ _ _ s n) as [[[s' n'] out] done]. injection Hq as <-. by exists ms.
  - pose proof (view_handled _ _ _ _ _ p s n msg l ms Hp Hd Hsn Hl Hv) as Hf.
    destruct (snapshot_step _ _ _ s n msg) as [[[s' n'] out] done]. injection Hq as <-. by exists (ms ++ [msg]).
Qed.

Lemma view_step s0 U0 R0 S0 H0 p a q ms :
  inv hints_now own_run_id S0 H0 p ->
  net_step hints_now snapshot_now mono_now metrics cfg persist_raw_events own_run_id p a = Some q ->
  view s0 U0 R0 p ms -> exists ms', view s0 U0 R0 q ms'.
Proof.
  intros Hp Hq Hv. destruct a; cbn [net_step] in Hq;
    eauto using view_ingest, view_envelope, view_hints, view_compression, view_snapshot, view_storage.
Qed.

Let step := net_step (I := I) hints_now snapshot_now mono_now metrics cfg persist_raw_events own_run_id.
Let run := net_run (I := I) hints_now snapshot_now mono_now metrics cfg persist_raw_events own_run_id.

Lemma view_run s0 U0 R0 S0 H0 p l q ms :
  run p l = Some q -> inv hints_now own_run_id S0 H0 p -> view s0 U0 R0 p ms ->
  exists ms', view s0 U0 R0 q ms'.
Proof.
  revert p ms. induction l as [|a l IH]; intros p ms Hl Hp Hv; [injection Hl as <-; by exists ms|].
  cbn in Hl. destruct (net_step _ _ _ _ _ _ _ p a) as [p'|] eqn:Ha; [|done].
  destruct (view_step _ _ _ _ _ _ _ _ _ Hp Ha Hv) as [ms' Hv'].
  eapply (IH p'); [exact Hl| |exact Hv']. eapply inv_run; [exact Hp|]. exists [a]. cbn. by rewrite Ha.
Qed.

(** ** A session as it was stored *)
(** What the hints stage tells is what it stores. *)
Lemma hints_stage_told next i hints :
  let out := hints_stage hints_now own_run_id all_open next i 0 hints in
  stored_envelopes (to_storage out) = hints /\
  records_of (to_snapshot out) = stored_records (to_storage out).
Proof.
  destruct (hints_stage_stores hints_now own_run_id next i 0%nat hints) as [He Hs]. cbv zeta in *.
  split; [exact He|]. rewrite Hs, records_of_app, (proj2 (records_only _)). by rewrite app_nil_r.
Qed.

Definition change_of (t : Transition) : ActivityState * ActivityState * instant :=
  (t_from t, t_to t, t_at t).

Lemma attach_change b t : change_of (attach_run_id b t) = change_of t.
Proof. unfold attach_run_id. by destruct (t_run_id t). Qed.

Lemma last_map {A B} (f : A -> B) l : last (map f l) = f <$> last l.
Proof. induction l as [|x [|y l] IH]; [done|done|exact IH]. Qed.

Lemma attach_to b t : t_to (attach_run_id b t) = t_to t.
Proof. unfold attach_run_id. by destruct (t_run_id t). Qed.

(** The hints and the records among the commands. *)
Definition stored_hints (l : list StorageCommand) : list EventEnvelope := stored_envelopes (hint_commands l).

Lemma update_changes us : omap update_change us = map change_of (omap u_transition us).
Proof.
  induction us as [|u us IH]; [done|]. cbn [omap list_omap]. unfold update_change at 1.
  destruct (u_transition u) as [t|]; [|exact IH]. exact (f_equal (cons _) IH).
Qed.

Lemma handled_transitions ms : omap msg_transition ms = omap u_transition (updates_of ms).
Proof.
  induction ms as [|m ms IH]; [done|]. destruct m as [u|r| | |]; try exact IH.
  cbn [omap list_omap]. unfold msg_transition at 1, updates_of. cbn. destruct (u_transition u); [|exact IH].
  exact (f_equal (cons _) IH).
Qed.

(** What the snapshot stage starts from. *)
Definition stage_start (bus : SnapshotBus) (poll : Z) (records : option (list ActivityRecord))
    (transitions : option (list Transition)) : stage_state :=
  hydrate (stage_new bus poll (hydrate_recent_records records)) (hydrate_recent_transitions transitions).

Lemma view_spawn feed env i bus poll cap records transitions :
  let sent := env_outputs env feed in
  let next := next_record_id_of (bus_run_id bus) (hydrate_recent_records records) in
  view (stage_start bus poll records transitions) (updates_of (to_snapshot sent))
    (records_of (to_snapshot (hints_stage hints_now own_run_id all_open next i 0 (to_hints sent))))
    (spawn_pipeline snapshot_now mono_now metrics cfg feed env i bus poll cap records transitions) [].
Proof.
  cbv zeta. set (p := spawn_pipeline _ _ _ _ _ _ _ _ _ _ _ _).
  pose proof (publish_spec snapshot_now metrics cfg (stage_start bus poll records transitions) 0) as Hpub.
  destruct (hydrate_spec (stage_new bus poll (hydrate_recent_records records))
    (hydrate_recent_transitions transitions)) as (_&_&_&_&_&_&Hhc). cbv zeta in *.
  fold (stage_start bus poll records transitions) in Hhc.
  assert (shows (stage_start bus poll records transitions) (st_snapshot p).1 [] /\
    ss_hints_complete (st_snapshot p).1 = false) as [Hsh Hc].
  { subst p. cbn [spawn_pipeline st_snapshot]. fold (stage_start bus poll records transitions).
    destruct (publish_snapshot _ _ _ _ 0) as [s n]. destruct Hpub as (_&?&_&Hk&_). cbn [fst].
    split; [done|]. by rewrite Hk, Hhc. }
  split; try done; [apply not_elem_of_nil|]. by rewrite Hc.
Qed.

(** When storage has ended, the snapshot stage has handled everything. *)
Lemma view_done s0 U0 R0 S0 H0 q ms :
  inv hints_now own_run_id S0 H0 q -> view s0 U0 R0 q ms -> storage_done q = true ->
  shows s0 (st_snapshot q).1 ms /\ updates_of ms = U0 /\ records_of ms = R0 /\
  SnapshotStage.published cfg (st_snapshot q).1 /\
  transitions_of (n_stored q) = map (attach_run_id (ss_bus s0)) (omap msg_transition ms).
Proof.
  intros Hq [V1 V3 V4 _ _ V7 V8] Hdone. destruct (i_storage _ _ _ _ _ Hq Hdone) as [Hsn Hnil].
  pose proof (i_snapshot _ _ _ _ _ Hq Hsn) as Hh. pose proof (i_hints_done _ _ _ _ _ Hq Hh) as He.
  destruct (V7 Hsn) as [Hq0 Hpub]. rewrite Hq0, app_nil_r in V3, V4.
  unfold env_rest in V3. rewrite He in V3. unfold hints_told in V4. rewrite Hh in V4.
  cbn in V3, V4. rewrite app_nil_r in V3, V4. split_and!; try done.
  rewrite <- V8. unfold log. rewrite Hnil, app_nil_r, committed_nil; [done|]. apply (i_stored _ _ _ _ _ Hq).
Qed.

Lemma records_among_hints l : stored_records l = stored_records (hint_commands l).
Proof.
  unfold stored_records, hint_commands. induction l as [|c l IH]; [done|]. rewrite filter_cons.
  destruct c as [|r|e| | |]; cbn [from_hints]; try (rewrite decide_False by done; exact IH).
  - rewrite decide_True by done. exact (f_equal (cons r) IH).
  - destruct (is_signal e); cbn [negb]; [rewrite decide_False by done|rewrite decide_True by done]; exact IH.
Qed.

Lemma filtered_length {A} (P : A -> bool) l : (length (filter (fun x => P x = true) l) <= length l)%nat.
Proof. apply length_filter. Qed.

Lemma stored_hints_length l : (length (stored_hints l) <= length l)%nat.
Proof.
  unfold stored_hints, stored_envelopes. etrans; [|apply (filtered_length from_hints)].
  unfold hint_commands. generalize (filter (fun c => from_hints c = true) l). clear.
  induction l as [|c l IH]; [done|]. cbn. destruct c; cbn; lia.
Qed.

(** What the snapshot that is left on the bus says of the session, and the transitions that
    are stored. *)
Lemma session_accounted feed env i bus poll cap records transitions l q :
  run (spawn_pipeline snapshot_now mono_now metrics cfg feed env i bus poll cap records transitions) l = Some q ->
  storage_done q = true -> Z.of_nat (length (n_stored q)) < 2 ^ 64 ->
  let stored := n_stored q in
  let taken := hydrate_recent_transitions transitions in
  let snap := current_snapshot (net_bus q) in
  map change_of (transitions_of stored) = omap env_change (stored_hints stored) /\
  s_counts snap = {|
    signals_seen := Z.of_nat (length (signal_commands stored));
    hints_seen := Z.of_nat (length (stored_hints stored));
    records_emitted := Z.of_nat (length (stored_records stored)) |} /\
  s_activity_state snap
    = default (default Inactive (t_to <$> last taken)) (t_to <$> last (transitions_of stored)) /\
  s_last_transition snap = last (map (attach_run_id bus) taken ++ transitions_of stored).
Proof.
  intros Hrun Hdone Hlen stored taken snap. set (p0 := spawn_pipeline _ _ _ _ _ _ _ _ _ _ _ _) in Hrun.
  pose proof (inv_spawn hints_now snapshot_now mono_now metrics cfg own_run_id feed env i bus poll cap
    records transitions) as Hinv.
  pose proof (view_spawn feed env i bus poll cap records transitions) as Hv. cbv zeta in Hinv, Hv.
  destruct (view_run _ _ _ _ _ _ _ _ _ Hrun Hinv Hv) as [ms Hms].
  assert (inv hints_now own_run_id _ _ q) as Hq by (eapply inv_run; [exact Hinv|by exists l]).
  destruct (view_done _ _ _ _ _ _ _ Hq Hms Hdone) as (Hsh&Hu&Hr&Hpub&Ht).
  destruct (done_stored _ _ _ _ _ Hq Hdone) as [HS HH]. fold stored in HS, HH, Ht, Hlen.
  set (sent := env_outputs env feed) in *. destruct (outputs_account env feed) as [_ Hca]. fold sent in Hca.
  destruct (hints_stage_told (next_record_id_of (bus_run_id bus) (hydrate_recent_records records)) i
    (to_hints sent)) as [Hh Hrs]. cbv zeta in Hh, Hrs. rewrite <- HH in Hh, Hrs.
  change (stored_envelopes (hint_commands stored)) with (stored_hints stored) in Hh.
  rewrite <- records_among_hints in Hrs. rewrite Hrs in Hr.
  rewrite handled_transitions, Hu in Ht. set (us := updates_of (to_snapshot sent)) in *.
  destruct (hydrate_spec (stage_new bus poll (hydrate_recent_records records))
    (hydrate_recent_transitions transitions)) as (Hst0&Hl0&Hrun0&Hc0&_).
  fold (stage_start bus poll records transitions) taken in Hst0, Hl0, Hrun0, Hc0.
  assert (forall t, attach_run_id (ss_bus (stage_start bus poll records transitions)) t = attach_run_id bus t)
    as Hatt by (intros t; by apply attach_run_id_ext).
  destruct Hsh as [_ Sh Ss Sr Sst Sl]. destruct Hpub as (Pc&Pa&_&Pl&_). fold snap in Pc, Pa, Pl.
  change (current_snapshot (ss_bus (st_snapshot q).1)) with snap in Pc, Pa, Pl.
  fold (updates_of ms) in Sh, Ss, Sst. fold (records_of ms) in Sr. rewrite Hu in Sh, Ss, Sst. rewrite Hr in Sr.
  rewrite handled_transitions, Hu in Sl. rewrite Hc0 in Sh, Ss, Sr.
  destruct Hca as [Ch Cs Cc _ _ Lh Ls Cf Cst]. destruct (Cst eq_refl) as [Cag _].
  rewrite update_changes in Cc. rewrite <- Hh in Ch, Lh, Cc.
  split_and!.
  - rewrite Ht, map_map, <- Cc. apply map_ext. intros t. apply attach_change.
  - rewrite Pc. destruct (ss_counts (st_snapshot q).1) as [a b c]. cbn in Sh, Ss, Sr. subst a b c.
    pose proof (stored_hints_length stored) as Lsh.
    pose proof (filtered_length from_envelope stored) as Lsi. fold (signal_commands stored) in Lsi.
    assert (Z.of_nat (length (stored_records stored)) < 2 ^ 64) as Lsr.
    { assert (length (stored_records stored) <= length stored)%nat; [|lia].
      unfold stored_records. clear. induction stored as [|c l IH]; [done|]. destruct c; cbn in *; lia. }
    rewrite <- HS in Cs, Ls. f_equal; apply saturated_exact; try lia.
    + apply (sum_exact u_signals_delta); try done; [by eapply Forall_impl; [exact Cf|]; intros ? []|lia].
    + apply Forall_map. eapply Forall_impl; [exact Cf|]. by intros ? [_ []].
    + apply (sum_exact u_hints_delta); try done; [by eapply Forall_impl; [exact Cf|]; intros ? []|lia].
    + apply Forall_map. eapply Forall_impl; [exact Cf|]. by intros ? [[] _].
    + rewrite zsum_ones. done.
    + apply Forall_map, Forall_true. done.
  - rewrite Pa, Sst, last_state, Hst0, Ht by done. rewrite last_map.
    destruct (last (omap u_transition us)) as [t|]; [|done]. cbn. by rewrite attach_to.
  - rewrite Pl, Sl, Hl0, last_app, Ht, !last_map.
    destruct (last (omap u_transition us)) as [t|]; [done|]. by destruct (last taken).
Qed.

(** ** A client that watches *)
(** Its stream sees the bus of the pipeline as the watch channel shows it: a snapshot is new
    when the sequence number has moved on. *)
Record client := { c_net : net (E := E) (I := I); c_unseen : bool; c_given : list Snapshot }.

(** A step of a stage, or a poll of the client's stream. *)
Definition client_step (c : client) (e : option actor) : option client :=
  match e with
  | Some a =>
      p ← step (c_net c) a;
      Some {| c_net := p;
              c_unseen := c_unseen c || negb (seq (net_bus p) =? seq (net_bus (c_net c)));
              c_given := c_given c |}
  | None =>
      Some (if c_unseen c then {|
        c_net := c_net c; c_unseen := false;
        c_given := c_given c ++ [current_snapshot (net_bus (c_net c))] |} else c)
  end.

Fixpoint client_run (c : client) (l : list (option actor)) : option client :=
  match l with
  | [] => Some c
  | e :: l => c ← client_step c e; client_run c l
  end.

Definition connect (p : net) : client := {| c_net := p; c_unseen := true; c_given := [] |}.

Lemma client_net c l c' : client_run c l = Some c' -> run (c_net c) (omap id l) = Some (c_net c').
Proof.
  revert c. induction l as [|[a|] l IH]; intros c; cbn; [by intros [= <-]| |].
  - destruct (step (c_net c) a) as [p|] eqn:Ha; [|done]. cbn. intros Hl. unfold run in *. cbn.
    unfold step in Ha. rewrite Ha. cbn. exact (IH _ Hl).
  - intros Hl. specialize (IH _ Hl). by destruct (c_unseen c).
Qed.

(** It is a subscription of the bus. *)
Definition subscription (c : client) : Subscription :=
  {| sub_bus := net_bus (c_net c); unseen := c_unseen c |}.

Lemma client_step_streams c e c' : client_step c e = Some c' ->
  exists es, let r := run_list stream_step (subscription c) es in
    r.1 = subscription c' /\ c_given c' = c_given c ++ r.2.
Proof.
  destruct e as [a|]; cbn [client_step].
  - destruct (step (c_net c) a) as [p|] eqn:Ha; [|done]. cbn. intros [= <-].
    destruct (net_step_bus _ _ _ Ha) as [o Ho]. unfold subscription. cbn [c_net c_unseen c_given].
    exists (match o with Some o => [BusOp o] | None => [] end).
    destruct o as [[t|m|now pub]|]; cbn in Ho |- *; rewrite Ho; cbn [push_transition push_health seq];
      rewrite ?Z.eqb_refl, ?orb_false_r, ?app_nil_r; try done.
    change (seq (publish_basic (net_bus (c_net c)) now pub)) with (u64_add (seq (net_bus (c_net c))) 1).
    destruct (Z.eqb_spec (u64_add (seq (net_bus (c_net c))) 1) (seq (net_bus (c_net c)))) as [Heq|]; [|done].
    exfalso. unfold u64_add, uw in Heq. pose proof (Z.mod_pos_bound (seq (net_bus (c_net c)) + 1) (2 ^ 64)).
    pose proof (Z.mod_eq (seq (net_bus (c_net c)) + 1) (2 ^ 64)). lia.
  - intros [= <-]. exists [Poll]. unfold subscription. destruct c as [p [] given]; cbn; by rewrite ?app_nil_r.
Qed.

Lemma client_streams c l c' : client_run c l = Some c' ->
  exists es, let r := run_list stream_step (subscription c) es in
    r.1 = subscription c' /\ c_given c' = c_given c ++ r.2.
Proof.
  revert c. induction l as [|e l IH]; intros c; cbn.
  { intros [= <-]. exists []. cbn. by rewrite app_nil_r. }
  destruct (client_step c e) as [c1|] eqn:He; [|done]. cbn. intros (es2&E1&E2)%IH.
  destruct (client_step_streams c e c1 He) as (es1&D1&D2). exists (es1 ++ es2). rewrite run_list_app.
  destruct (run_list stream_step (subscription c) es1) as [s1 o1]. cbn [fst snd] in *. subst s1.
  destruct (run_list stream_step (subscription c1) es2) as [s2 o2]. cbn [fst snd] in *.
  split; [done|]. by rewrite E2, D2, (assoc_L (++)).
Qed.

(** What a client has been given ends with the current snapshot once it has polled. *)
Lemma client_newest p l c : client_run (connect p) l = Some c -> c_unseen c = false ->
  last (c_given c) = Some (current_snapshot (net_bus (c_net c))).
Proof.
  intros (es&E1&E2)%client_streams Hu. destruct (stream_followed (net_bus p) es) as [_ [_ Hnew]].
  change (watch_snapshot (net_bus p)) with (subscription (connect p)) in Hnew.
  destruct (run_list stream_step (subscription (connect p)) es) as [s given]. cbn [fst snd] in *. subst s.
  rewrite E2. unfold pending, subscription in Hnew. cbn [unseen sub_bus] in Hnew.
  by rewrite Hu, app_nil_r in Hnew.
Qed.

Section watched.
Context `{SnapshotJsonLaws} `{!TrimEnd} `{!TrimLaws} `{SseWireLaws} `{!ChronoParts} `{!ChronoPartsLaws}.

(** What a snapshot shows of a session: the counters and the state. *)
Definition accounts_for (stored : list StorageCommand) (first : ActivityState) (snap : Snapshot) : Prop :=
  s_counts snap = {|
    signals_seen := Z.of_nat (length (signal_commands stored));
    hints_seen := Z.of_nat (length (stored_hints stored));
    records_emitted := Z.of_nat (length (stored_records stored)) |} /\
  s_activity_state snap = default first (t_to <$> last (transitions_of stored)).

(** C3: what a client sees last of a session is what was stored of it.  Whatever the
    interleaving of the stages, and whenever the client connects and its stream is polled:
    once storage has ended, the transitions that it was given are the state changes of the
    stored hints, in order.  When the client's stream has been served to the end and has
    come over whole, [kronictl watch] prints it, be it the gRPC stream or, when that failed
    behind any [early] messages, the HTTP stream; and the last snapshot it prints counts
    exactly the signals, hints and records that were stored and shows the state that the
    last stored transition leads to (else the one the stage started from) and that
    transition, over gRPC but for its signal. *)
Theorem client_sees_session feed env i bus poll cap records transitions l1 p l2 c hs utc early failing
    conn polls pretty k :
  run (spawn_pipeline snapshot_now mono_now metrics cfg feed env i bus poll cap records transitions) l1 = Some p ->
  client_run (connect p) l2 = Some c -> storage_done (c_net c) = true -> c_unseen c = false ->
  Z.of_nat (length (n_stored (c_net c))) < 2 ^ 64 ->
  Forall header hs -> Forall json_keeps (c_given c) ->
  Forall snapshot_bounds (c_given c) -> Forall snapshot_bounds early ->
  grpc_carries utc early failing -> stream_fails failing = true ->
  let stored := n_stored (c_net c) in
  let taken := hydrate_recent_transitions transitions in
  let first := default Inactive (t_to <$> last taken) in
  let grpc_stream := Some {| replies := grpc_watch_handler utc (c_given c); failed := false |} in
  let http_stream := Some {| received := http_head hs +:+ stream_handler (c_given c); broken := false |} in
  map change_of (transitions_of stored) = omap env_change (stored_hints stored) /\
  watch_via_http utc grpc_stream conn polls pretty k
    = ((map (over_grpc pretty) (c_given c), Done), k) /\
  watch_via_http utc failing http_stream polls pretty k
    = ((map (over_grpc pretty) early ++ map (shown pretty) (c_given c), Done), k) /\
  exists snap,
    last (c_given c) = Some snap /\
    accounts_for stored first snap /\ accounts_for stored first (carried_snapshot snap) /\
    s_last_transition snap = last (map (attach_run_id bus) taken ++ transitions_of stored) /\
    s_last_transition (carried_snapshot snap)
      = carried_transition <$> last (map (attach_run_id bus) taken ++ transitions_of stored).
Proof.
  intros Hl1 Hl2 Hdone Hu Hlen Hhs Hk Hb Hbe Hearly Hfails stored taken first grpc_stream http_stream.
  assert (run (spawn_pipeline snapshot_now mono_now metrics cfg feed env i bus poll cap records transitions)
    (l1 ++ omap id l2) = Some (c_net c)) as Hrun.
  { pose proof (client_net _ _ _ Hl2) as Hn. cbn [connect c_net] in Hn. revert Hl1 Hn. clear.
    generalize (spawn_pipeline snapshot_now mono_now metrics cfg feed env i bus poll cap records transitions).
    unfold run. induction l1 as [|a l1 IH]; intros p0; cbn; [by intros [= <-]|].
    destruct (net_step _ _ _ _ _ _ _ p0 a); [|done]. apply IH. }
  destruct (session_accounted _ _ _ _ _ _ _ _ _ _ Hrun Hdone Hlen) as (Hch&Hc&Ha&Hl).
  split; [exact Hch|]. split_and!.
  - by apply (watch_falls_back utc (c_given c) _ conn polls pretty k (carries_replies utc (c_given c) false)).
  - rewrite (watch_falls_back utc early failing http_stream polls pretty k Hearly Hbe). cbv zeta.
    unfold http_stream. rewrite (sse_watch_whole hs (c_given c) pretty Hhs Hk), Hfails. done.
  - exists (current_snapshot (net_bus (c_net c))). split_and!; [by eapply client_newest|done..|].
    exact (f_equal (fmap carried_transition) Hl).
Qed.
End watched.
End session.

(** ** A session *)
#[local] Existing Instances ascii_text ascii_end demo_wire ascii_trim_laws demo_wire_laws.

(** The session of file Pipeline; the client connects when the stages before the snapshot
    stage are done, polls, and polls again at the end. *)
Definition demo_client := p ←
  @net_run chrono_ref hash_order_id ascii_text sizes_ref _
    (@DefaultStateEngine.engine_class chrono_ref) _ _ Z.of_nat demo_clock
    Z.of_nat demo_metrics demo_cfg false None
    (@spawn_pipeline chrono_ref hash_order_id ascii_text DefaultStateEngine.state
      (StringInterner.StringInterner * StringInterner.arc_heap) demo_clock Z.of_nat demo_metrics
      demo_cfg demo_feed Envelope.demo_stage demo_interner (bus_new 0) 0 4096 None None) upstream;
  @client_run chrono_ref hash_order_id ascii_text sizes_ref _
    (@DefaultStateEngine.engine_class chrono_ref) _ _ Z.of_nat demo_clock Z.of_nat demo_metrics demo_cfg
    false None (connect p) (None :: map Some (replicate 5 ASnapshot ++ replicate 5 AStorage) ++ [None]).

(** JSON texts of two snapshots. *)
Definition texts_of (shots : list Snapshot) : SnapshotJson := {|
  to_json s := Some (if s_seq s =? 1 then "{0}" else "{1}");
  from_json t := let t := drop_blank t in
    if bool_decide (t = "{0}") then shots !! 0%nat
    else if bool_decide (t = "{1}") then shots !! 1%nat else None |}.
Lemma texts_of_laws shots : @SnapshotJsonLaws (texts_of shots).
Proof.
  split.
  - intros s j [= <-]. by destruct (_ =? _); split; [exists "0"| |exists "1"|].
  - intros w j Hw [m ->]. cbn [from_json texts_of]. by rewrite drop_blank_app.
Qed.
Lemma texts_keep shots : map s_seq shots = [1; 3] -> Forall (@json_keeps (texts_of shots)) shots.
Proof.
  destruct shots as [|x [|y [|]]]; try done. intros [= Hx Hy].
  repeat constructor; [exists "{0}"|exists "{1}"]; cbn [to_json from_json texts_of]; by rewrite ?Hx, ?Hy.
Qed.

Lemma demo_client_runs c : demo_client = Some c -> exists p,
  @net_run chrono_ref hash_order_id ascii_text sizes_ref _
    (@DefaultStateEngine.engine_class chrono_ref) _ _ Z.of_nat demo_clock
    Z.of_nat demo_metrics demo_cfg false None
    (@spawn_pipeline chrono_ref hash_order_id ascii_text DefaultStateEngine.state
      (StringInterner.StringInterner * StringInterner.arc_heap) demo_clock Z.of_nat demo_metrics
      demo_cfg demo_feed Envelope.demo_stage demo_interner (bus_new 0) 0 4096 None None) upstream = Some p /\
  @client_run chrono_ref hash_order_id ascii_text sizes_ref _
    (@DefaultStateEngine.engine_class chrono_ref) _ _ Z.of_nat demo_clock Z.of_nat demo_metrics demo_cfg
    false None (connect p) (None :: map Some (replicate 5 ASnapshot ++ replicate 5 AStorage) ++ [None]) = Some c.
Proof. unfold demo_client. destruct (net_run _ _ _ _ _ _ _ _ _) as [p|]; [by exists p|done]. Qed.

(** Window ids within their range. *)
Definition focus_fits (o : option WindowFocusInfo) : bool :=
  from_option (fun f => (0 <=? window_id f) && (window_id f <? 2 ^ 32)) true o.
Definition shot_fits (s : Snapshot) : bool :=
  focus_fits (s_focus s) && forallb (fun r => focus_fits (focus_info r)) (s_records s).

Lemma focus_fits_bounds o f : focus_fits o = true -> o = Some f -> focus_bounds f.
Proof. intros Ho ->. cbn in Ho. bool_prop. unfold focus_bounds, in_u. lia. Qed.

Lemma shots_fit_bounds l : forallb shot_fits l = true -> Forall snapshot_bounds l.
Proof.
  rewrite forallb_forall, Forall_forall. intros Hl s Hs%list_elem_of_In%Hl. unfold shot_fits in Hs.
  apply andb_true_iff in Hs as [Hf Hr]. split; [by intros f; apply focus_fits_bounds|].
  rewrite forallb_forall in Hr. apply Forall_forall. intros r Hin f. apply focus_fits_bounds.
  by apply Hr, list_elem_of_In.
Qed.

(** What the lemma below evaluates of the client at the end. *)
Definition demo_outcome (c : client (E := DefaultStateEngine.state)
    (I := StringInterner.StringInterner * StringInterner.arc_heap)) :=
  let stored := n_stored (c_net c) in
  ((storage_done (c_net c), c_unseen c, length stored, map s_seq (c_given c), forallb shot_fits (c_given c)),
   (length (signal_commands stored), length (stored_hints stored), length (stored_records stored),
    t_to <$> last (transitions_of stored))).

Lemma demo_client_ends :
  option_map demo_outcome demo_client
    = Some ((true, false, 4%nat, [1; 3], true), (1%nat, 1%nat, 1%nat, Some Active)).
Proof. by vm_compute. Qed.

(** The command when gRPC answers, and when it does not. *)
Lemma client_sees_session_witness :
  exists c snap, option_map demo_outcome (Some c) = option_map demo_outcome demo_client /\
    (@watch_via_http (texts_of (c_given c)) ascii_text ascii_end chrono_ref chrono_parts_ref (fun _ => 0)
      (Some {| replies := @grpc_watch_handler chrono_ref chrono_parts_ref (fun _ => 0) (c_given c);
               failed := false |}) None [] false 0%nat).1
      = (map (over_grpc false) (c_given c), Done) /\
    (@watch_via_http (texts_of (c_given c)) ascii_text ascii_end chrono_ref chrono_parts_ref (fun _ => 0)
      None (Some {| received := http_head ["HTTP/1.1 200 OK"] +:+
                      @stream_handler (texts_of (c_given c)) demo_wire (c_given c); broken := false |})
      [] false 0%nat).1
      = (map (@shown (texts_of (c_given c)) false) (c_given c), Done) /\
    last (c_given c) = Some snap /\
    s_counts snap = {| signals_seen := 1; hints_seen := 1; records_emitted := 1 |} /\
    s_activity_state (carried_snapshot snap) = Active.
Proof.
  pose proof demo_client_ends as He. pose proof demo_client_runs as Hruns.
  destruct demo_client as [c|]; [|discriminate He]. destruct (Hruns c eq_refl) as (p&Hp&Hc).
  cbn [option_map] in He. unfold demo_outcome in He. injection He as Hd Hu Hl Hs Hfit Hsig Hh Hr Ht.
  pose proof (fun conn => @client_sees_session chrono_ref hash_order_id ascii_text sizes_ref _
    (@DefaultStateEngine.engine_class chrono_ref) _ _ Z.of_nat demo_clock Z.of_nat demo_metrics demo_cfg
    false None (texts_of (c_given c)) (texts_of_laws (c_given c)) _ _ _ _ chrono_parts_ref
    chrono_parts_ref_laws demo_feed Envelope.demo_stage demo_interner (bus_new 0) 0 4096 None None upstream p
    _ c ["HTTP/1.1 200 OK"] (fun _ => 0) [] None conn [] false 0%nat Hp Hc Hd Hu) as Hsees.
  edestruct (Hsees None) as (_&Hg&Hw&snap&Hlast&[Hcounts _]&[_ Hstate]&_).
  - rewrite Hl. reflexivity.
  - by repeat constructor.
  - by apply texts_keep.
  - by apply shots_fit_bounds.
  - constructor.
  - constructor.
  - reflexivity.
  - exists c, snap. split; [reflexivity|]. split; [by rewrite Hg|].
    split; [by rewrite Hw|]. split; [exact Hlast|].
    rewrite Hcounts, Hstate, Hsig, Hh, Hr, Ht. by split.
Defined.
