(* ===== verification/FocusToRecords.v ===== *)
(** From the window system to the records in the database: the hooks with the focus worker
    and its callback (src/daemon/coordinator.rs, src/daemon/tracker/focus.rs), the channel
    into the pipeline, and the pipeline down to storage.

    What the window system reports of an application and its process is what the records
    of the database show. *)
From S2P Require Import Prelude Decimal Events StateEngine StateDeriver LockDeriver Adapter Interner.
From S2P Require Import Lru Focus FocusWorker FocusLogic FocusInv FocusSafety FocusLiveness FocusWrapper.
From S2P Require Import Records Aggregation SnapshotBus CompactEvents Compressor Trajectory.
From S2P Require Import Engine PipelineTypes Ingest Envelope HintsStage CompressionStage AppTree.
From S2P Require Import SnapshotStage Pipeline InputToStore Input.
Import FocusWrapper FocusSafety FocusInv FocusLogic FocusWorker Focus.

(** ** The focus of a record *)

(** Two focuses that name the same window of the same process with the same title. *)
Definition shows (f g : WindowFocusInfo) : Prop := same_window f g /\ window_title f = window_title g.

(** The focus in force after a hint. *)
Definition focus_after (f : option WindowFocusInfo) (e : EventEnvelope) : option WindowFocusInfo :=
  match cut Inactive f e with Some (_, f') => f' | None => f end.

Lemma cut_focus s f e :
  match cut s f e with Some (_, f') => f' | None => f end = focus_after f e.
Proof.
  unfold focus_after, cut. destruct (env_kind e) as [|[]]; try done;
    destruct (env_payload e); try done.
  - by repeat case_decide.
  - destruct f; [by case_decide|done].
Qed.

(** A property of every focus that a list of hints leads to. *)
Fixpoint all_foci (P : option WindowFocusInfo -> Prop) (f : option WindowFocusInfo)
    (l : list EventEnvelope) : Prop :=
  match l with [] => True | e :: l' => P (focus_after f e) /\ all_foci P (focus_after f e) l' end.

Lemma all_foci_app P f l k :
  all_foci P f (l ++ k) <-> all_foci P f l /\ all_foci P (foldl focus_after f l) k.
Proof. revert f. induction l as [|e l IH]; intros f; cbn; [tauto|]. rewrite IH. tauto. Qed.

Lemma segments_foci P s f l :
  all_foci P f l -> Forall (fun x : ActivityState * option WindowFocusInfo => P x.2) (segments s f l).
Proof.
  revert s f. induction l as [|e l IH]; intros s f; cbn; [constructor|]. intros [He Hl].
  rewrite <- (cut_focus s) in He, Hl. destruct (cut s f e) as [[s' f']|]; [constructor|]; auto.
Qed.

(** Signals and changes of the activity state leave the focus alone. *)
Lemma focus_hints_foci P f l : P f -> all_foci P f (focus_hints l) -> all_foci P f l.
Proof.
  revert f. induction l as [|e l IH]; intros f Hf; [done|]. unfold focus_hints. rewrite filter_cons.
  case_decide as Hd; cbn; [intros [He Hl]; by split; [|apply IH]|].
  assert (focus_after f e = f) as ->; [|intros Hl; by split; [|apply IH]].
  unfold focus_after, cut. destruct (env_kind e) as [k|h] eqn:Hk; [done|].
  destruct h; try (destruct Hd; split; unfold is_signal, is_state_hint; rewrite ?Hk; by try case_bool_decide).
  destruct (env_payload e); try done. by case_decide.
Qed.

(** ** What the adapter and the lock deriver make of the reports *)
Section follows.
Context (G : list WindowFocusInfo).

Definition shown_in (f : option WindowFocusInfo) : Prop :=
  forall f', f = Some f' -> exists g, g ∈ G /\ shows f' g.

(** The focus of the records and the last one that the adapter has seen: the same window. *)
Definition follows (last f : option WindowFocusInfo) : Prop :=
  option_relation same_window (fun _ => False) (fun _ => False) last f /\ shown_in f.

Lemma follows_event last f b e :
  follows last f -> (forall g, focus_of e = Some g -> g ∈ G) ->
  let hints := focus_hints (derive b (adapt_step last e).2).2 in
  all_foci shown_in f hints /\ follows (adapt_step last e).1 (foldl focus_after f hints).
Proof.
  intros [Hsame Hshown] HG. destruct e as [ts id d|ts id d|ts id cur].
  - by destruct b.
  - by destruct b.
  - specialize (HG cur eq_refl). cbn [adapt_step fst snd].
    assert (follows (Some cur) (Some cur)) as Hcur.
    { split; [done|]. intros ? [= <-]. by exists cur. }
    assert (forall k, k = AppChanged \/ k = WindowChanged ->
      focus_hints (derive b (focus_burst id ts k cur)).2
        = [adapter_env id ts Hook (Hint FocusChanged) (PFocus cur) false]) as Hburst.
    { intros k Hk. unfold focus_burst, derive.
      destruct Hk as [-> | ->]; cbn; unfold derive_step, is_login; cbn;
        destruct (LockDeriver.is_login_app (app_name cur)), b; cbn; reflexivity. }
    assert (forall k, k = AppChanged \/ k = WindowChanged ->
      all_foci shown_in f (focus_hints (derive b (focus_burst id ts k cur)).2) /\
      follows (Some cur) (foldl focus_after f (focus_hints (derive b (focus_burst id ts k cur)).2))) as Hb.
    { intros k Hk. rewrite (Hburst k Hk). by split; [split; [apply Hcur|]|]. }
    unfold adapt_focus. destruct last as [last|]; [|apply Hb; auto].
    destruct f as [f|]; [|done]. destruct Hsame as [(Hp&Hs&Ha) Hw].
    destruct (negb (pid last =? pid cur) || _ || _) eqn:Happ; [apply Hb; auto|].
    destruct (negb (window_id last =? window_id cur)) eqn:Hwin; [apply Hb; auto|].
    apply orb_false_elim in Happ as [[Hp'%negb_false_iff Hs'%negb_false_iff]%orb_false_elim Ha'%bool_decide_eq_false].
    apply negb_false_iff in Hwin. apply Z.eqb_eq in Hp', Hs', Hwin. apply dec_stable in Ha'.
    assert (same_window cur f) as Hcf by (repeat split; congruence).
    case_bool_decide as Ht; [|by split; [|split]].
    set (e := adapter_env id ts Polling (Hint TitleChanged) (PTitle (window_id cur) (window_title cur)) true).
    assert (focus_hints (derive b [e]).2 = if b then [] else [e]) as -> by by destruct b.
    assert (focus_after (Some f) e = Some (set_title f (window_title cur))) as Hafter.
    { unfold focus_after, cut. cbn. rewrite decide_True; [done|]. by destruct Hcf. }
    assert (follows (Some cur) (Some (set_title f (window_title cur)))) as Hnew.
    { split; [exact Hcf|]. intros ? [= <-]. exists cur. split; [done|]. split; [|done].
      destruct Hcf as [(?&?&?) ?]. by repeat split. }
    destruct b; [by split; [|split]|]. cbn [all_foci foldl]. rewrite Hafter.
    by split; [split; [apply Hnew|]|].
Qed.

Lemma follows_events last f b raw :
  follows last f -> Forall (fun e => forall g, focus_of e = Some g -> g ∈ G) raw ->
  all_foci shown_in f (focus_hints (envelopes_of last b raw)).
Proof.
  revert last f b. induction raw as [|e raw IH]; intros last f b Hf Hraw; [done|].
  apply Forall_cons in Hraw as [He Hraw]. change (e :: raw) with ([e] ++ raw).
  rewrite envelopes_of_app, focus_hints_app, all_foci_app.
  assert (adapt_batch last [e] = adapt_step last e) as Hone.
  { unfold adapt_batch. cbn. destruct (adapt_step last e). cbn. by rewrite app_nil_r. }
  unfold envelopes_of at 1. rewrite Hone.
  destruct (follows_event last f b e Hf He) as [Ha Hn]. cbv zeta in Ha, Hn.
  split; [exact Ha|]. unfold envelopes_of at 1. rewrite Hone. by apply IH.
Qed.
End follows.

(** ** What the hints stage makes of them *)
Lemma hints_stage_foci utc_now {I : Type} `{HI : TitleInterner I} (ok : I -> Prop) `{!TitleInternerLaws I ok}
    run next i n hints (P : option WindowFocusInfo -> Prop) :
  ok i -> all_foci P None hints ->
  Forall (fun r => P (Records.focus_info r))
    (stored_records (to_storage (hints_stage utc_now run all_open next i n hints))).
Proof.
  intros Hi Hall. unfold hints_stage. set (b0 := with_next_record_id Inactive next i).
  destruct (hints_run_sent utc_now run (b0, n) hints) as (Hbn&_&E2&_). cbv zeta in *.
  destruct (run_list _ (b0, n) hints) as [bn out]. cbn [fst snd] in *.
  destruct (hints_end_sent utc_now run bn) as (_&F2&_). cbv zeta in *.
  rewrite to_storage_app, stored_records_app, E2, F2. subst bn.
  pose proof (build_segments utc_now ok b0 n hints Hi) as Hsum. cbv zeta in Hsum.
  change (map summary (option_list (current_record b0))) with (@nil (Z * (ActivityState * option WindowFocusInfo))) in Hsum.
  cbn [app] in Hsum.
  assert (Forall (fun r => P (Records.focus_info r))
    ((build utc_now (b0, n) hints).2 ++ option_list (current_record (build utc_now (b0, n) hints).1.1))) as Hr.
  { assert (forall k s, Forall (fun x : ActivityState * option WindowFocusInfo => P x.2) s ->
      Forall (fun x : Z * (ActivityState * option WindowFocusInfo) => P x.2.2) (number k s)) as Hnum.
    { intros k s Hs. revert k. induction Hs; intros k; constructor; auto. }
    apply (Forall_map summary (fun x => P x.2.2)). rewrite Hsum. by apply Hnum, segments_foci. }
  apply Forall_app in Hr as [Hr1 Hr2].
  apply Forall_app. rewrite !Forall_map. split; [exact Hr1|].
  destruct (current_record _); [|constructor]. by repeat constructor; inv Hr2.
Qed.

(** ** What the ingest stage reads *)

(** The events among what the ingest stage takes up, without its ticks. *)
Definition received_events (inputs : list (ingest_input * instant)) : list KronicalEvent :=
  omap (fun im : ingest_input * instant => match im.1 with IEvent e => Some e | _ => None end) inputs.

Lemma converted_focus `{Chrono} now fuel st (i : ingest_input) raw g :
  raw ∈ converted now fuel st i -> focus_of raw = Some g -> i = IEvent (KWindowFocusChange g).
Proof.
  unfold converted. intros Hr Hg. destruct i as [e| |]; [|by apply elem_of_nil in Hr..].
  destruct (next_event_id _ _ _ _) as [[[[t id] ?] ?]|]; [|by apply elem_of_nil in Hr].
  destruct e; cbn in Hr; repeat case_match; cbn in Hr;
    apply list_elem_of_singleton in Hr || (by apply elem_of_nil in Hr); subst; try done.
  by injection Hg as ->.
Qed.

Lemma read_focuses `{Chrono} now fuel st inputs :
  Forall (fun raw => forall g, focus_of raw = Some g -> KWindowFocusChange g ∈ received_events inputs)
    (all_converted now fuel st (map (fun im : ingest_input * instant => (im.1, im.2, true)) inputs)).
Proof.
  revert st. induction inputs as [|[i m] inputs IH]; intros st; [constructor|].
  cbn [map all_converted fst snd]. apply Forall_app. split.
  - apply Forall_forall. intros raw Hr g Hg. rewrite (converted_focus now fuel st i raw g Hr Hg).
    apply list_elem_of_here.
  - eapply Forall_impl; [apply IH|]. intros raw Hraw g Hg. specialize (Hraw g Hg).
    unfold received_events in *. cbn [omap list_omap fst]. destruct i; [by apply list_elem_of_further|done..].
Qed.

(** ** The hooks

    The focus hook with its worker, the input hook, and the channel that both send to.  The
    worker calls back once for each focus that it reports, and begins another turn only when
    these calls have returned. *)
Section hooks.
Context `{HO : HashOrder} `{HC : Chrono} {W : Type} `{HW : TitleInterner W} `{HF : FocusEnv} `{HK : HookCodes}.

Record HookSide := {
  focus_wrapper : FocusWrapper.System (I := W);
  called_back : nat;
  channel : list KronicalEvent
}.

(** [build_focus_hook] and [run_uiohook]: two handlers on one sender, the second without a
    focus wrapper. *)
Definition hooks_new (empty : W) : HookSide :=
  {| focus_wrapper := FocusWrapper.new empty; called_back := 0; channel := [] |}.

Definition reports (h : HookSide) : list WindowFocusInfo := emitted (io (worker (focus_wrapper h))).

Inductive HookEvent :=
  | FocusEvent (e : FocusWrapper.Event)
  | Callback
  | InputEvent (e : UiohookEvent).

Definition hook_send (h : HookSide) (e : KronicalEvent) : HookSide := {|
  focus_wrapper := focus_wrapper h; called_back := called_back h; channel := channel h ++ [e] |}.

Definition hook_step (h : HookSide) (ev : HookEvent) : HookSide :=
  match ev with
  | FocusEvent e =>
      let busy := match e with Load _ => (called_back h <? length (reports h))%nat | _ => false end in
      if busy then h
      else {| focus_wrapper := FocusWrapper.step (focus_wrapper h) e; called_back := called_back h;
              channel := channel h |}
  | Callback =>
      match reports h !! called_back h with
      | Some f =>
          {| focus_wrapper := focus_wrapper h; called_back := S (called_back h);
             channel := channel h ++ [Input.on_focus_change f] |}
      | None => h
      end
  | InputEvent e => from_option (hook_send h) h (handle_event e)
  end.
Definition hook_run (h : HookSide) (es : list HookEvent) : HookSide := foldl hook_step h es.

(** What the window system has reported: by a call of the hook, or in the answer to a poll. *)
Definition report_in (es : list HookEvent) (r : Received) : Prop :=
  match r with
  | Msg m => FocusEvent (Call m) ∈ es
  | Timeout a => FocusEvent (Receive a) ∈ es
  | Disconnected => False
  end.
Definition window_reports (es : list HookEvent) : Report := {|
  r_app := fun app pid => exists r, report_in es r /\ reports_app r app pid;
  r_title := fun t => exists r, report_in es r /\ reports_title r t;
  r_apps := ∅ |}.

Lemma report_in_reported es r : report_in es r -> reported (window_reports es) r.
Proof. intros Hr. split; intros *; by exists r. Qed.

Context (ok : W -> Prop) `{!TitleInternerLaws W ok}.

Record hooks_ok (es : list HookEvent) (h : HookSide) : Prop := {
  hk_worker : Inv (ok := ok) (window_reports es) (worker (focus_wrapper h));
  hk_queue : Forall (fun m => report_in es (Msg m)) (queue (focus_wrapper h));
  hk_channel f : KWindowFocusChange f ∈ channel h -> focus_ok (window_reports es) f
}.

Lemma hooks_send es h e : hooks_ok es h ->
  (forall f, e = KWindowFocusChange f -> focus_ok (window_reports es) f) -> hooks_ok es (hook_send h e).
Proof.
  intros [Hw Hq Hc] He. split; [done|done|]. cbn. intros f [Hf|Hf]%elem_of_app; [by apply Hc|].
  apply list_elem_of_singleton in Hf. by apply He.
Qed.

Lemma hook_step_ok es h ev : ev ∈ es -> hooks_ok es h -> hooks_ok es (hook_step h ev).
Proof.
  intros Hin [Hw Hq Hc]. destruct ev as [e| |e]; cbn [hook_step].
  - destruct (match e with Load _ => _ | _ => _ end); [done|].
    destruct e as [m| |v|a]; cbn [FocusWrapper.step].
    + unfold send. destruct (phase _); split; cbn; try done; apply Forall_app; split; try done;
        by repeat constructor.
    + by split.
    + unfold load. destruct (phase _); by split.
    + unfold receive. destruct (phase (focus_wrapper h)) as [|v|]; [by split| |by split].
      set (rq := match queue (focus_wrapper h) with m :: q => (Msg m, q) | [] => (Timeout a, []) end).
      assert (report_in es rq.1 /\ Forall (fun m => report_in es (Msg m)) rq.2) as [Hr Hq'].
      { subst rq. by destruct Hq. }
      destruct rq as [r q]. cbn [fst snd] in *.
      set (x := {| should_stop := false; poll_value := v; received := r |}).
      assert (Inv (ok := ok) (window_reports es) (turn x (worker (focus_wrapper h))).2) as Hi.
      { apply (wp_elim (turn x) (fun _ => Inv (window_reports es))), turn_keeps; [|done].
        by apply report_in_reported. }
      by destruct (turn x _) as [b w'].
  - destruct (reports h !! called_back h) as [f|] eqn:Hf; [|done].
    apply (hooks_send es {| focus_wrapper := focus_wrapper h; called_back := S (called_back h);
      channel := channel h |} (Input.on_focus_change f)); [by split|].
    intros f' [= <-]. exact (Forall_lookup_1 _ _ _ _ (io_emitted _ _ (inv_io _ _ Hw)) Hf).
  - destruct (handle_event e) as [k|] eqn:Hk; [|done]. apply hooks_send; [done|].
    intros f ->. by destruct e.
Qed.

Lemma hook_run_ok empty es : ok empty -> hooks_ok es (hook_run (hooks_new empty) es).
Proof.
  intros Hok. assert (forall h l, hooks_ok es h -> l ⊆ es -> hooks_ok es (hook_run h l)) as Hrun.
  { intros h l. revert h. induction l as [|ev l IH]; intros h Hh Hl; [done|]. cbn.
    apply IH; [apply hook_step_ok; [|done]; apply Hl|intros x Hx; apply Hl]; set_solver. }
  apply Hrun; [|done]. split; cbn; [by apply new_worker_inv|constructor|].
  by intros f Hf%elem_of_nil.
Qed.

(** ** The records *)
Context {E : Type} `{HE : StateEngine E} `{HU : UnicodeText} `{HM : MemSizes} {I : Type} `{HI : TitleInterner I}.
Context (iok : I -> Prop) `{!TitleInternerLaws I iok}.
Context (ingest_now hints_now snapshot_now : nat -> instant) (mono_now : nat -> Z)
  (metrics : nat -> StorageInfo) (cfg : stage_config).
Context (persist_raw_events : bool) (own_run_id : option string).

Definition focuses (l : list KronicalEvent) : list WindowFocusInfo :=
  omap (fun e => match e with KWindowFocusChange f => Some f | _ => None end) l.

Lemma elem_of_focuses l g : g ∈ focuses l <-> KWindowFocusChange g ∈ l.
Proof.
  unfold focuses. rewrite list_elem_of_omap. split.
  - intros ([]&Hin&He); try done. by injection He as ->.
  - intros Hin. by exists (KWindowFocusChange g).
Qed.

Lemma focus_ok_shows R f g : shows f g -> focus_ok R g -> focus_ok R f.
Proof.
  intros [[(Hp&Hs&Ha) Hw] Ht]. intros [H1 H2 H3 H4|H1 H2 H3 H4 H5 H6 H7].
  - apply synthesized_login; congruence.
  - apply observed; rewrite ?Hp, ?Hs, ?Ha, ?Hw, ?Ht; done.
Qed.

(** C5: the records of the database show what the window system reported, whatever happens
    in between.  For any calls of the hooks, answers to polls, clocks and turns of the
    focus worker, for any ticks of the ingest stage between the events that it takes off
    the channel, and for any interleaving of the stages: once storage has ended, the focus
    of every stored record is either the login window or has an application and a process
    that one call or answer reported together, and a title that was reported or the
    placeholder; and it is, in process, window and title, one of the focuses that went
    through the channel. *)
Theorem records_show_reports es empty fuel mono0 inputs mono d i bus poll cap records transitions q :
  let l := List.map (fun im : ingest_input * instant => (im.1, im.2, true)) inputs in
  let start := ingest_new mono0 in
  let feed := (ingest_run ingest_now fuel start (l ++ [(IEvent KShutdown, mono, true)])).2 in
  ok empty -> iok i ->
  received_events inputs `prefix_of` channel (hook_run (hooks_new empty) es) ->
  running (ingest_run ingest_now fuel start l).1 = true ->
  reachable hints_now snapshot_now mono_now metrics cfg persist_raw_events own_run_id
    (spawn_pipeline snapshot_now mono_now metrics cfg feed (fresh_stage d) i bus poll cap records
      transitions) q ->
  storage_done q = true ->
  Forall (fun r => forall f, Records.focus_info r = Some f ->
      focus_ok (window_reports es) f /\
      exists g, KWindowFocusChange g ∈ received_events inputs /\ shows f g)
    (stored_records (hint_commands (n_stored q))).
Proof.
  intros l start feed Hok Hi [rest Hch] Hrun Hreach Hdone.
  pose proof (hook_run_ok empty es Hok) as [_ _ Hc]. rewrite Hch in Hc.
  destruct (ingest_run_delivers ingest_now fuel mono l start) as (out&Hfeed&Hn&_&_&_&Hdel&_);
    [by apply Forall_map, Forall_true|done|done|].
  cbn [pending ingest_new start app] in Hdel. fold feed in Hfeed.
  destruct (done_stored hints_now own_run_id (to_storage (env_outputs (fresh_stage d) feed))
    (to_storage (hints_stage hints_now own_run_id all_open
      (next_record_id_of (bus_run_id bus) (hydrate_recent_records records)) i 0
      (to_hints (env_outputs (fresh_stage d) feed)))) q) as [_ ->]; [|done|].
  { eapply inv_run, Hreach. apply inv_spawn. }
  eapply Forall_impl; [apply (hints_stage_foci _ iok _ _ _ _ _ (shown_in (focuses (received_events inputs))) Hi)|].
  - apply focus_hints_foci; [done|]. rewrite Hfeed.
    destruct (outputs_store (fresh_stage d) out eq_refl Hn) as [_ ->]. rewrite Hdel.
    apply (follows_events _ None); [done|].
    eapply Forall_impl; [apply read_focuses|]. intros raw Hraw g Hg.
    by apply elem_of_focuses, Hraw.
  - intros r Hr f Hf. destruct (Hr f Hf) as (g&Hg%elem_of_focuses&Hs). split; [|by exists g].
    eapply focus_ok_shows; [exact Hs|]. apply Hc, elem_of_app. by left.
Qed.
End hooks.

(** ** A session: two applications, a key and the wheel *)
Definition demo_hooks : list HookEvent :=
  [FocusEvent (Call (AppChange 7 "Mail")); FocusEvent (Load 100); FocusEvent (Receive (inr "busy"));
   FocusEvent (Call (WindowChange "Inbox")); FocusEvent (Load 100); FocusEvent (Receive (inr "busy"));
   FocusEvent (Load 100); InputEvent HookKeyboard; FocusEvent (Receive (inl (demo_info "Mail" 7 "Inbox" 3)));
   Callback; FocusEvent (Load 100); Callback; FocusEvent (Call (AppChange 8 "Term"));
   FocusEvent (Load 100); FocusEvent (Receive (inr "busy")); InputEvent demo_wheel;
   FocusEvent (Load 100); FocusEvent (Receive (inl (demo_info "Term" 8 "shell" 4))); Callback; Callback].
Definition demo_channel : list KronicalEvent :=
  channel (@hook_run hash_order_id chrono_ref _ _ (demo_env 40) libuiohook_codes
    (@hooks_new _ (demo_env 40) demo_interner) demo_hooks).
Definition demo_received : list (ingest_input * instant) :=
  imap (fun n e => (IEvent e, 10 * Z.of_nat n)) demo_channel ++ [(ITicker, 100)].
Definition demo_day_run (l : list actor) := @net_run chrono_ref hash_order_id unicode_ascii sizes_ref _
  (@DefaultStateEngine.engine_class chrono_ref) _ _ Z.of_nat Pipeline.demo_clock
  Z.of_nat demo_metrics demo_cfg false None
  (@spawn_pipeline chrono_ref hash_order_id unicode_ascii DefaultStateEngine.state
    (StringInterner.StringInterner * StringInterner.arc_heap) Pipeline.demo_clock Z.of_nat demo_metrics demo_cfg
    (@ingest_run chrono_ref Ingest.demo_clock 3 (ingest_new 0)
    (List.map (fun im => (im.1, im.2, true)) demo_received ++ [(IEvent KShutdown, 170, true)])).2
    (fresh_stage demo_engine) demo_interner (bus_new 0) 0 4096 None None) l.
Definition demo_day : list actor :=
  replicate 7 AIngest ++ replicate 7 AEnvelope ++ replicate 4 AHints ++ replicate 2 ACompression
  ++ replicate 9 ASnapshot ++ replicate 15 AStorage.
Definition shown_names (r : ActivityRecord) : option (string * string) :=
  option_map (fun f => (app_name f, window_title f)) (Records.focus_info r).

Lemma demo_day_done :
  option_map (fun q => (storage_done q, List.map shown_names (stored_records (hint_commands (n_stored q)))))
    (demo_day_run demo_day) = Some (true, [None; Some ("Mail", "Inbox"); Some ("Term", "shell")]).
Proof. by vm_compute. Qed.

Lemma demo_day_reached l q : demo_day_run l = Some q ->
  @reachable chrono_ref hash_order_id unicode_ascii sizes_ref _
  (@DefaultStateEngine.engine_class chrono_ref) _ _ Z.of_nat Pipeline.demo_clock
  Z.of_nat demo_metrics demo_cfg false None
  (@spawn_pipeline chrono_ref hash_order_id unicode_ascii DefaultStateEngine.state
    (StringInterner.StringInterner * StringInterner.arc_heap) Pipeline.demo_clock Z.of_nat demo_metrics demo_cfg
    (@ingest_run chrono_ref Ingest.demo_clock 3 (ingest_new 0)
    (List.map (fun im => (im.1, im.2, true)) demo_received ++ [(IEvent KShutdown, 170, true)])).2
    (fresh_stage demo_engine) demo_interner (bus_new 0) 0 4096 None None) q.
Proof. intros Hq. exists l. exact Hq. Qed.

Lemma records_show_reports_witness :
  exists q, demo_day_run demo_day = Some q /\ 
    List.map shown_names (stored_records (hint_commands (n_stored q)))
      = [None; Some ("Mail", "Inbox"); Some ("Term", "shell")] /\
    Forall (fun r => forall f, Records.focus_info r = Some f ->
        @focus_ok (demo_env 40) (window_reports demo_hooks) f /\
        exists g, KWindowFocusChange g ∈ received_events demo_received /\ shows f g)
      (stored_records (hint_commands (n_stored q))).
Proof.
  pose proof demo_day_done as Hd. pose proof (demo_day_reached demo_day) as Hr.
  destruct (demo_day_run demo_day) as [q|]; [|discriminate Hd]. cbn [option_map] in Hd.
  injection Hd as Hd Hnames. exists q. split; [reflexivity|]. split; [exact Hnames|].
  apply (@records_show_reports hash_order_id chrono_ref _ _ (demo_env 40) libuiohook_codes _
    StringInterner.interner_titles_laws _ (@DefaultStateEngine.engine_class chrono_ref) unicode_ascii
    sizes_ref _ _ _ StringInterner.interner_titles_laws Ingest.demo_clock Z.of_nat Pipeline.demo_clock
    Z.of_nat demo_metrics demo_cfg false None demo_hooks demo_interner 3 0 demo_received 170 demo_engine
    demo_interner (bus_new 0) 0 4096 None None q).
  - apply demo_focus_interner_ok.
  - apply demo_focus_interner_ok.
  - exists []. vm_compute. reflexivity.
  - vm_compute. reflexivity.
  - exact (Hr q eq_refl).
  - exact Hd.
Defined.
