(* ===== verification/Startup.v ===== *)
(** From the configuration to the running pipeline: the fields of [EventCoordinator] in
    src/daemon/coordinator.rs, what it hands on to the pipeline and the focus hook, and
    how src/daemon/pipeline.rs takes up what the storage backend holds of the run. *)
From S2P Require Import Prelude Events StateEngine StateDeriver LockDeriver Adapter Interner.
From S2P Require Import Records Aggregation SnapshotBus CompactEvents Compressor Trajectory.
From S2P Require Import Engine PipelineTypes Envelope HintsStage CompressionStage AppTree.
From S2P Require Import SnapshotStage Pipeline Metrics Codec Writers Queries Storage Backends.
From S2P Require Import EndToEnd Config.
From S2P Require Focus.

(** ** The coordinator *)
Record EventCoordinator := {
  ec_retention_minutes : Z;
  ec_active_grace_secs : Z;
  ec_idle_threshold_secs : Z;
  ec_ephemeral_max_duration_secs : Z;
  ec_ephemeral_min_distinct_ids : Z;
  ec_max_windows_per_app : Z;
  ec_ephemeral_app_max_duration_secs : Z;
  ec_ephemeral_app_min_distinct_procs : Z;
  ec_pid_cache_capacity : Z;
  ec_title_cache_capacity : Z;
  ec_title_cache_ttl_secs : Z;
  ec_focus_interner_max_strings : Z;
  ec_focus_window_coalesce_ms : Z;
  ec_focus_allow_zero_window_id : bool;
  ec_persist_raw_events : bool;
  ec_tracker_enabled : bool;
  ec_tracker_interval_secs : f64;
  ec_tracker_batch_size : Z;
  ec_tracker_db_backend : DatabaseBackendConfig;
  ec_duckdb_memory_limit_mb_tracker : Z
}.

(** [EventCoordinator::new], but for its registry of threads (Threads). *)
Definition coordinator_new (retention_minutes active_grace_secs idle_threshold_secs
    ephemeral_max_duration_secs ephemeral_min_distinct_ids max_windows_per_app
    ephemeral_app_max_duration_secs ephemeral_app_min_distinct_procs pid_cache_capacity
    title_cache_capacity title_cache_ttl_secs focus_interner_max_strings focus_window_coalesce_ms : Z)
    (focus_allow_zero_window_id persist_raw_events tracker_enabled : bool) (tracker_interval_secs : f64)
    (tracker_batch_size : Z) (tracker_db_backend : DatabaseBackendConfig)
    (duckdb_memory_limit_mb_tracker : Z) : EventCoordinator := {|
  ec_retention_minutes := retention_minutes;
  ec_active_grace_secs := active_grace_secs;
  ec_idle_threshold_secs := idle_threshold_secs;
  ec_ephemeral_max_duration_secs := ephemeral_max_duration_secs;
  ec_ephemeral_min_distinct_ids := ephemeral_min_distinct_ids;
  ec_max_windows_per_app := max_windows_per_app;
  ec_ephemeral_app_max_duration_secs := ephemeral_app_max_duration_secs;
  ec_ephemeral_app_min_distinct_procs := ephemeral_app_min_distinct_procs;
  ec_pid_cache_capacity := pid_cache_capacity;
  ec_title_cache_capacity := title_cache_capacity;
  ec_title_cache_ttl_secs := title_cache_ttl_secs;
  ec_focus_interner_max_strings := focus_interner_max_strings;
  ec_focus_window_coalesce_ms := focus_window_coalesce_ms;
  ec_focus_allow_zero_window_id := focus_allow_zero_window_id;
  ec_persist_raw_events := persist_raw_events;
  ec_tracker_enabled := tracker_enabled;
  ec_tracker_interval_secs := tracker_interval_secs;
  ec_tracker_batch_size := tracker_batch_size;
  ec_tracker_db_backend := tracker_db_backend;
  ec_duckdb_memory_limit_mb_tracker := duckdb_memory_limit_mb_tracker |}.

Definition initialize (config : AppConfig) : EventCoordinator :=
  coordinator_new
    (retention_minutes config)
    (active_grace_secs config)
    (idle_threshold_secs config)
    (ephemeral_max_duration_secs config)
    (ephemeral_min_distinct_ids config)
    (max_windows_per_app config)
    (ephemeral_app_max_duration_secs config)
    (ephemeral_app_min_distinct_procs config)
    (pid_cache_capacity config)
    (title_cache_capacity config)
    (title_cache_ttl_secs config)
    (focus_interner_max_strings config)
    (focus_window_coalesce_ms config)
    (focus_allow_zero_window_id config)
    (persist_raw_events config)
    (tracker_enabled config)
    (tracker_interval_secs config)
    (tracker_batch_size config)
    (tracker_db_backend config)
    (duckdb_memory_limit_mb_tracker config).

(** ** What it hands on *)
Record PipelineConfig := {
  pc_retention_minutes : Z;
  pc_active_grace_secs : Z;
  pc_idle_threshold_secs : Z;
  pc_ephemeral_max_duration_secs : Z;
  pc_ephemeral_min_distinct_ids : Z;
  pc_max_windows_per_app : Z;
  pc_ephemeral_app_max_duration_secs : Z;
  pc_ephemeral_app_min_distinct_procs : Z;
  pc_focus_interner_max_strings : Z;
  pc_persist_raw_events : bool
}.

Definition pipeline_config (c : EventCoordinator) : PipelineConfig := {|
  pc_retention_minutes := ec_retention_minutes c;
  pc_active_grace_secs := ec_active_grace_secs c;
  pc_idle_threshold_secs := ec_idle_threshold_secs c;
  pc_ephemeral_max_duration_secs := ec_ephemeral_max_duration_secs c;
  pc_ephemeral_min_distinct_ids := ec_ephemeral_min_distinct_ids c;
  pc_max_windows_per_app := ec_max_windows_per_app c;
  pc_ephemeral_app_max_duration_secs := ec_ephemeral_app_max_duration_secs c;
  pc_ephemeral_app_min_distinct_procs := ec_ephemeral_app_min_distinct_procs c;
  pc_focus_interner_max_strings := ec_focus_interner_max_strings c;
  pc_persist_raw_events := ec_persist_raw_events c |}.

Definition focus_cache_caps (c : EventCoordinator) : Focus.Focus.FocusCacheCaps := {|
  Focus.Focus.pid_cache_capacity := ec_pid_cache_capacity c;
  Focus.Focus.title_cache_capacity := ec_title_cache_capacity c;
  Focus.Focus.title_cache_ttl_secs := ec_title_cache_ttl_secs c;
  Focus.Focus.focus_window_coalesce_ms := ec_focus_window_coalesce_ms c;
  Focus.Focus.focus_allow_zero_window_id := ec_focus_allow_zero_window_id c |}.

(** ** The stages' share of the configuration *)
Definition cfg_summary (c : PipelineConfig) : ConfigSummary := {|
  cs_active_grace_secs := pc_active_grace_secs c;
  cs_idle_threshold_secs := pc_idle_threshold_secs c;
  cs_retention_minutes := pc_retention_minutes c;
  cs_ephemeral_max_duration_secs := pc_ephemeral_max_duration_secs c;
  cs_ephemeral_min_distinct_ids := pc_ephemeral_min_distinct_ids c;
  cs_ephemeral_app_max_duration_secs := pc_ephemeral_app_max_duration_secs c;
  cs_ephemeral_app_min_distinct_procs := pc_ephemeral_app_min_distinct_procs c |}.

Definition snapshot_stage_config (c : PipelineConfig) : stage_config := {|
  sg_summary := cfg_summary c;
  sg_retention_minutes := pc_retention_minutes c;
  sg_ephemeral_max := pc_ephemeral_max_duration_secs c;
  sg_ephemeral_min := pc_ephemeral_min_distinct_ids c;
  sg_max_windows := pc_max_windows_per_app c;
  sg_app_max := pc_ephemeral_app_max_duration_secs c;
  sg_app_min := pc_ephemeral_app_min_distinct_procs c |}.

(** What the envelope stage starts from; [as i64]. *)
Definition envelope_stage_start (c : PipelineConfig) (now : instant) : envelope_state (E := DefaultStateEngine.state) := {|
  es_last_focus := adapter_new; es_locked := lock_new;
  es_deriver := DefaultStateEngine.new now (sw 64 (pc_active_grace_secs c)) (sw 64 (pc_idle_threshold_secs c));
  es_running := true |}.

(** ** The start over a database *)
Section start.
Context `{HC : Chrono} `{HO : HashOrder} `{HU : UnicodeText} `{HM : MemSizes}.
Context {I : Type} `{HI : TitleInterner I}.
Context (hints_now snapshot_now : nat -> instant) (mono_now : nat -> Z) (metrics : nat -> StorageInfo).
Context {D : Type} `{HB : StorageBackend D}.

(** From when on records and transitions are taken up. *)
Definition hydrate_since (now : instant) (retention_minutes : Z) : instant :=
  now - minutes (sw 64 retention_minutes).

(** [now_records], [now_transitions] and [now_engine] are what the clock reads on the way. *)
Definition start_pipeline (c : EventCoordinator) (database : D) (feed : list DeriveCommand) (i : I)
    (bus : SnapshotBus) (poll : Z) (now_records now_transitions now_engine : instant) :=
  let pc := pipeline_config c in
  let initial_records :=
    backend_records database (hydrate_since now_records (pc_retention_minutes pc)) (bus_run_id bus) in
  let initial_transitions :=
    backend_transitions database (hydrate_since now_transitions (pc_retention_minutes pc)) (bus_run_id bus) 32 in
  spawn_pipeline snapshot_now mono_now metrics (snapshot_stage_config pc) feed (envelope_stage_start pc now_engine)
    i bus poll (pc_focus_interner_max_strings pc) initial_records initial_transitions.
End start.

(** ** Record ids of a resumed run *)
Lemma number_range {A} id (l : list A) : 0 <= id -> id + Z.of_nat (length l) <= 2 ^ 64 ->
  Forall (fun x => id <= x < id + Z.of_nat (length l)) (map fst (number id l)) /\
  StronglySorted Z.lt (map fst (number id l)).
Proof.
  revert id. induction l as [|x l IH]; intros id Hid Hl; [repeat constructor|]. cbn [number map fst length].
  destruct l as [|y l]; [repeat constructor; cbn in *; lia|].
  assert (u64_add id 1 = id + 1) as -> by (unfold u64_add, uw; apply Z.mod_small; cbn in Hl; lia).
  destruct (IH (id + 1)) as [Hr Hs]; [lia|cbn [length] in *; lia|].
  split; constructor; try (cbn [length] in *; lia).
  - eapply Forall_impl; [exact Hr|]. cbn [length] in *. lia.
  - done.
  - eapply Forall_impl; [exact Hr|]. cbn. lia.
Qed.

Lemma segments_length s f hints : (length (segments s f hints) <= length hints)%nat.
Proof.
  revert s f. induction hints as [|e hints IH]; intros s f; [done|]. cbn.
  destruct (cut s f e) as [[s' f']|]; cbn; [specialize (IH s' f')|specialize (IH s f)]; lia.
Qed.

Lemma foldl_max_bounds x l : x <= foldl Z.max x l /\ Forall (fun y => y <= foldl Z.max x l) l /\
  foldl Z.max x l ∈ x :: l.
Proof.
  revert x. induction l as [|y l IH]; intros x; cbn; [split_and!; [lia|constructor|by left]|].
  destruct (IH (Z.max x y)) as (H1&H2&H3). split_and!; [lia|constructor; [lia|done]|].
  apply elem_of_cons in H3 as [->|H3]; [|by do 2 right].
  destruct (Z.max_spec x y) as [[_ ->]|[_ ->]]; [right; by left|by left].
Qed.

(** The next id is above those of the records that were taken up. *)
Lemma next_record_id_above run l r : Forall (fun r => in_u 64 (record_id r) /\ record_id r < 2 ^ 64 - 1) l -> r ∈ l ->
  record_id r < next_record_id_of (Some run) l /\
  exists r', r' ∈ l /\ next_record_id_of (Some run) l = record_id r' + 1.
Proof.
  intros Hl Hr. unfold next_record_id_of, max_record_id. cbn [mbind option_bind].
  assert (record_id r ∈ map record_id l) as Hid by (apply list_elem_of_fmap; by exists r).
  destruct (map record_id l) as [|x ids] eqn:El; [by apply not_elem_of_nil in Hid|]. cbn.
  destruct (foldl_max_bounds x ids) as (H1&H2&H3). rewrite <- El in H3. apply list_elem_of_fmap in H3 as (r'&Hr'&Hin').
  rewrite Forall_forall in Hl. destruct (Hl _ Hin') as [Hu Hb]. unfold in_u in Hu.
  assert (usat_add 64 (foldl Z.max x ids) 1 = record_id r' + 1) as -> by (unfold usat_add; lia).
  split; [|by exists r']. apply elem_of_cons in Hid as [->|Hid]; [lia|]. rewrite Forall_forall in H2.
  specialize (H2 _ Hid). cbn in H2. lia.
Qed.

Section resumed.
Context `{HC : Chrono} `{HO : HashOrder} `{HU : UnicodeText} `{HM : MemSizes}.
Context {I : Type} `{HI : TitleInterner I} (oki : I -> Prop) `{!TitleInternerLaws I oki}.
Context (hints_now snapshot_now : nat -> instant) (mono_now : nat -> Z) (metrics : nat -> StorageInfo).
Context `{Json} (ok : instant -> Prop) {D : Type} `{HB : StorageBackend D} `{!BackendLaws D ok}.
Context (c : EventCoordinator) (cs : list StorageCommand) (run : string).
Context (feed : list DeriveCommand) (i : I) (bus : SnapshotBus) (poll t_records t_transitions t_engine : instant).

Let since := hydrate_since t_records (ec_retention_minutes c).
Let start := start_pipeline snapshot_now mono_now metrics c (stored cs) feed i bus poll t_records t_transitions t_engine.
(** The hints of the new session. *)
Let hints := to_hints (env_outputs (envelope_stage_start (pipeline_config c) t_engine) feed).

Context (Hrun : bus_run_id bus = Some run) (Hi : oki i) (Hsince : ok since).
Context (Hkept : Forall (record_kept ok) (command_records cs)).
Context (Hfew : Z.of_nat (length hints) < 2 ^ 64).
Context (Hbound : Forall (fun r => record_id r + Z.of_nat (length hints) < 2 ^ 64 - 1) (command_records cs)).

(** The ids of the records of the new session: consecutive, from an id that is above those
    of the records that were taken up, or from 0 where there were none. *)
Lemma resumed_ids q :
  Pipeline.reachable hints_now snapshot_now mono_now metrics (snapshot_stage_config (pipeline_config c))
    (ec_persist_raw_events c) (Some run) start q -> storage_done q = true ->
  let made := command_records (n_stored q) in
  Forall (fun r => run_id r = Some run) made /\
  exists next (l : list (ActivityState * option WindowFocusInfo)), map record_id made = map fst (number next l) /\ (length l <= length hints)%nat /\
    0 <= next /\ next + Z.of_nat (length l) <= 2 ^ 64 /\
    (forall r, r ∈ command_records cs -> wanted_record since (Some run) r = true -> record_id r < next) /\
    (Forall (fun r => wanted_record since (Some run) r = false) (command_records cs) -> next = 0).
Proof.
  intros Hreach Hdone made.
  destruct (records_answered cs since (Some run) Hsince Hkept) as (out&Hout&Hperm&_).
  destruct (done_stored hints_now (Some run)
    (to_storage (env_outputs (envelope_stage_start (pipeline_config c) t_engine) feed))
    (to_storage (hints_stage hints_now (Some run) all_open
      (next_record_id_of (bus_run_id bus) (hydrate_recent_records (backend_records (stored cs) since (bus_run_id bus))))
      i 0 hints)) q) as [_ HH]; [|done|].
  { eapply inv_run, Hreach. apply inv_spawn. }
  rewrite Hrun, Hout in HH. cbn [hydrate_recent_records] in HH.
  unfold made. rewrite records_from_hints, HH.
  destruct (hints_stage_records hints_now (Some run) oki (next_record_id_of (Some run) out) i 0 hints Hi)
    as (_&rs&Hrs&_&Hsum&Hall).
  change (command_records (to_storage ?l)) with (stored_records (to_storage l)). rewrite Hrs. split.
  { eapply Forall_impl; [exact Hall|]. by intros r [_ Hr]. }
  exists (next_record_id_of (Some run) out), (segments Inactive None hints).
  assert (Forall (fun r => in_u 64 (record_id r) /\ record_id r < 2 ^ 64 - 1) out) as Hids.
  { rewrite Hperm. apply Forall_map, Forall_forall. intros r Hr. apply list_elem_of_filter in Hr as [_ Hr].
    rewrite Forall_forall in Hkept, Hbound. destruct (Hkept _ Hr) as [Hu _]. specialize (Hbound _ Hr). cbn. split; [done|lia]. }
  split_and!.
  - rewrite <- Hsum. by rewrite map_map.
  - apply segments_length.
  - destruct out as [|r0 out]; [done|]. destruct (next_record_id_above run (r0 :: out) r0 Hids) as [Hlt _]; [by left|].
    rewrite Forall_cons in Hids. destruct Hids as [[Hu _] _]. unfold in_u in Hu. lia.
  - pose proof (segments_length Inactive None hints). destruct out as [|r0 out].
    + change (next_record_id_of (Some run) []) with 0. lia.
    + destruct (next_record_id_above run (r0 :: out) r0 Hids) as (_&r'&Hr'&->); [by left|].
      rewrite Hperm in Hr'. apply list_elem_of_fmap in Hr' as (r&->&Hr). apply list_elem_of_filter in Hr as [_ Hr].
      rewrite Forall_forall in Hbound. specialize (Hbound _ Hr). cbn. lia.
  - intros r Hr Hw. apply (next_record_id_above run out (stored_record r) Hids). rewrite Hperm.
    apply list_elem_of_fmap. exists r. split; [done|]. by apply list_elem_of_filter.
  - intros Hnone. assert (out = []) as ->; [|done]. apply Permutation_nil_r. rewrite Hperm.
    assert (filter (fun r => wanted_record since (Some run) r = true) (command_records cs) = []) as ->; [|done].
    clear -Hnone. induction (command_records cs) as [|r l IH]; [done|]. apply Forall_cons in Hnone as [Hr Hl].
    rewrite filter_cons, decide_False by congruence. by apply IH.
Qed.
End resumed.

Section resumed_theorems.
Context `{HC : Chrono} `{HO : HashOrder} `{HU : UnicodeText} `{HM : MemSizes}.
Context {I : Type} `{HI : TitleInterner I} (oki : I -> Prop) `{!TitleInternerLaws I oki}.
Context (hints_now snapshot_now : nat -> instant) (mono_now : nat -> Z) (metrics : nat -> StorageInfo).
Context `{Json} (ok : instant -> Prop) {D : Type} `{HB : StorageBackend D} `{!BackendLaws D ok}.

(** C10: a daemon that resumes a run, over a backend that holds [cs], gives its records ids that
    grow and that are above those of every record of the run that had not ended before the
    retention time, whatever the interleaving of the stages.  If the run was left for
    longer than that its ids start from 0 again. *)
Theorem resumed_run_ids c cs run feed i bus poll t_records t_transitions t_engine q :
  let since := hydrate_since t_records (ec_retention_minutes c) in
  let hints := to_hints (env_outputs (envelope_stage_start (pipeline_config c) t_engine) feed) in
  bus_run_id bus = Some run -> oki i -> ok since -> Forall (record_kept ok) (command_records cs) ->
  Z.of_nat (length hints) < 2 ^ 64 ->
  Forall (fun r => record_id r + Z.of_nat (length hints) < 2 ^ 64 - 1) (command_records cs) ->
  Pipeline.reachable hints_now snapshot_now mono_now metrics (snapshot_stage_config (pipeline_config c))
    (ec_persist_raw_events c) (Some run)
    (start_pipeline snapshot_now mono_now metrics c (stored cs) feed i bus poll t_records t_transitions t_engine) q ->
  storage_done q = true ->
  let made := command_records (n_stored q) in
  Forall (fun r => run_id r = Some run) made /\
  StronglySorted Z.lt (map record_id made) /\
  (forall r r', r ∈ command_records cs -> wanted_record since (Some run) r = true -> r' ∈ made ->
     record_id r < record_id r') /\
  (Forall (fun r => wanted_record since (Some run) r = false) (command_records cs) -> made <> [] ->
   head (map record_id made) = Some 0).
Proof.
  intros since hints Hrun Hi Hs Hk Hfew Hb Hreach Hdone made.
  destruct (resumed_ids oki hints_now snapshot_now mono_now metrics ok c cs run feed i bus poll t_records
    t_transitions t_engine Hrun Hi Hs Hk Hfew Hb q Hreach Hdone) as (Hids&next&l&Hmap&Hl&Hn&Hmax&Habove&Hzero).
  fold made in Hids, Hmap. destruct (number_range next l Hn Hmax) as [Hr Hsort]. rewrite <- Hmap in Hr, Hsort.
  split_and!; [done|done| |].
  - intros r r' Hin Hw Hin'. specialize (Habove r Hin Hw). rewrite Forall_map, Forall_forall in Hr.
    specialize (Hr _ Hin'). cbn in Hr. lia.
  - intros Hnone Hne. rewrite (Hzero Hnone) in Hmap. rewrite Hmap. destruct l; [|done].
    cbn in Hmap. by apply fmap_nil_inv in Hmap.
Qed.
End resumed_theorems.

(** ** A run that is resumed *)
#[local] Existing Instances json_ref rfc3339_ref sqlite_sql sqlite_sql_laws chrono_ref hash_order_id
  unicode_ascii sizes_ref StringInterner.interner_titles_laws SqliteStorage.backend.

Definition resumed_config : EventCoordinator := initialize (app_config_default "/home/user").
Definition resumed_database : list StorageCommand := [record_ref 40 1 2 (Some "r"); record_ref 41 2 5 (Some "r")].
Definition resumed_bus : SnapshotBus := new_with_run_id 0 "r".
Notation resumed_start :=
  (start_pipeline demo_clock Z.of_nat demo_metrics resumed_config (stored resumed_database) demo_feed demo_interner
    resumed_bus 0 (minutes 4320) (minutes 4320) 0).
Notation resumed_run l :=
  (net_run Z.of_nat demo_clock Z.of_nat demo_metrics (snapshot_stage_config (pipeline_config resumed_config))
    (ec_persist_raw_events resumed_config) (Some "r") resumed_start l).

Lemma resumed_ends : exists q, resumed_run compression_last = Some q /\ storage_done q = true /\
  length (command_records (n_stored q)) = 1%nat.
Proof.
  assert (option_map (fun q => (storage_done q, length (command_records (n_stored q))))
    (resumed_run compression_last) = Some (true, 1%nat)) as H by by vm_compute.
  destruct (resumed_run compression_last) as [q|]; [|discriminate H]. exists q. split; [done|].
  apply Some_inj in H. by rewrite !pair_equal_spec in H.
Qed.

Lemma resumed_database_kept : Forall (record_kept (fun t => 0 <= t)) (command_records resumed_database) /\
  Forall (fun r => wanted_record 0 (Some "r") r = true /\ 40 <= record_id r <= 41) (command_records resumed_database).
Proof.
  split; repeat constructor; try done; cbn; intros; by simplify_eq.
Qed.

Lemma resumed_run_ids_witness :
  exists q, resumed_run compression_last = Some q /\ length (command_records (n_stored q)) = 1%nat /\
    Forall (fun r' => 41 < record_id r' /\ run_id r' = Some "r") (command_records (n_stored q)).
Proof.
  destruct resumed_ends as (q&Hq&Hdone&Hlen). exists q. split; [exact Hq|]. split; [exact Hlen|].
  destruct (@resumed_run_ids chrono_ref hash_order_id unicode_ascii sizes_ref _ _
    (fun st => StringInterner.interner_ok st.1 st.2) StringInterner.interner_titles_laws Z.of_nat demo_clock Z.of_nat
    demo_metrics json_ref (fun t => 0 <= t) _ SqliteStorage.backend (sqlite_laws_hold _ unary_kept)
    resumed_config resumed_database "r" demo_feed demo_interner resumed_bus 0 (minutes 4320) (minutes 4320) 0 q)
    as (Hrun&_&Habove&_).
  - done.
  - exact demo_interner_ok.
  - by vm_compute.
  - exact (proj1 resumed_database_kept).
  - by vm_compute.
  - repeat constructor; by vm_compute.
  - exists compression_last. exact Hq.
  - exact Hdone.
  - rewrite Forall_forall in Hrun |- *. intros r' Hr'. split; [|by apply Hrun].
    apply (Habove {| record_id := 41; run_id := Some "r"; start_time := 2; end_time := Some 5; state := Active;
      focus_info := Some (focus_ref "editor"); event_count := 7; triggering_events := [1] |} r'); [|done|done].
    right; left.
Defined.
